(** * eeprom-fs: a shallow embedding of the micro EEPROM file system

    The development embeds [eeprom-fs/eeprom-fs.c] and [eeprom-fs/eeprom-fs.h]
    function by function.  The target is the AVR (the code includes
    [<avr/eeprom.h>]): [int], [size_t] and pointers are 16 bits wide, structs are
    packed because every type has alignment one, integers are stored little
    endian.  The EEPROM is a byte-addressed memory; the cached allocation table
    is the global array [alloc_table]; [stderr] and [stdout] are the lists of
    [printf]-style records the code emits.  The two chain walks of the code are
    [do ... while] loops that may not terminate on a cyclic chain: they take
    fuel, and the monad's [None] stands for a walk that used all of it. *)

From Stdlib Require Import ZArith List Lia Bool String.
Import ListNotations.
Open Scope Z_scope.

(** ** Machine integers of the AVR *)

Definition u8 (x : Z) : Z := x mod 256.
Definition u16 (x : Z) : Z := x mod 65536.
Definition s16 (x : Z) : Z := (x + 32768) mod 65536 - 32768.

(** Little-endian images of a 16-bit object. *)
Definition enc16 (x : Z) : list Z := [x mod 256; (x / 256) mod 256].
Definition dec_u16 (lo hi : Z) : Z := u16 (lo + 256 * hi).
Definition dec_s16 (lo hi : Z) : Z := s16 (lo + 256 * hi).

(** ** eeprom-fs.h: configuration and types *)

Definition EEPROM_FS_START : Z := 0.
Definition EEPROM_FS_SIZE : Z := 2048.
Definition EEPROM_FS_BLOCK_SIZE : Z := 32.
Definition EEPROM_FS_MAX_BLOCKS_PER_FILE : Z := 8.
Definition EEPROM_FS_MAX_FILES : Z := 29.
Definition NULL_PTR : Z := -1.

(* typedef int16_t lba_t; typedef uint16_t fname_t; typedef char fdata_t; *)
Definition sizeof_lba_t : Z := 2.
Definition sizeof_size_t : Z := 2.
Definition sizeof_uint32_t : Z := 4.

Record block_t := mk_block { next_block : Z; data : list Z }.
Record file_alloc_t := mk_file_alloc { alloc_filesize : Z; data_block : Z }.
Record fs_meta_t := mk_fs_meta {
  block_size : Z; start_address : Z; fs_size : Z;
  max_files : Z; max_blocks_per_file : Z }.

Inductive handle_type := FH_READ | FH_WRITE | FH_APPEND.

Record file_handle_t := mk_file_handle {
  filename : Z; filesize : Z; type : handle_type;
  first_block : Z; last_block : Z }.

Inductive format_type_t := FORMAT_FULL | FORMAT_QUICK | FORMAT_WIPE.

(* sizeof(file_alloc_t) = sizeof(size_t) + sizeof(lba_t);
   sizeof(fs_meta_t) = 3 * 2 + 2 * sizeof(uint16_t) *)
Definition sizeof_file_alloc_t : Z := sizeof_size_t + sizeof_lba_t.
Definition sizeof_fs_meta_t : Z := 10.
Definition sizeof_alloc_table : Z := (EEPROM_FS_MAX_FILES + 1) * sizeof_file_alloc_t.

Definition EEPROM_FS_META_OFFSET : Z := 0.
Definition EEPROM_FS_ALLOC_TABLE_OFFSET : Z := sizeof_fs_meta_t.
Definition EEPROM_FS_DATA_OFFSET : Z := EEPROM_FS_ALLOC_TABLE_OFFSET + sizeof_alloc_table.
Definition EEPROM_FS_NUM_BLOCKS : Z :=
  (EEPROM_FS_SIZE - EEPROM_FS_DATA_OFFSET) / EEPROM_FS_BLOCK_SIZE.
Definition EEPROM_FS_BLOCK_DATA_SIZE : Z := EEPROM_FS_BLOCK_SIZE - sizeof_lba_t.

Definition handle_type_eqb (a b : handle_type) : bool :=
  match a, b with
  | FH_READ, FH_READ | FH_WRITE, FH_WRITE | FH_APPEND, FH_APPEND => true
  | _, _ => false
  end.

Definition format_type_eqb (a b : format_type_t) : bool :=
  match a, b with
  | FORMAT_FULL, FORMAT_FULL | FORMAT_QUICK, FORMAT_QUICK
  | FORMAT_WIPE, FORMAT_WIPE => true
  | _, _ => false
  end.

Definition set_filesize (fh : file_handle_t) (v : Z) : file_handle_t :=
  mk_file_handle (filename fh) v (type fh) (first_block fh) (last_block fh).
Definition set_first_block (fh : file_handle_t) (v : Z) : file_handle_t :=
  mk_file_handle (filename fh) (filesize fh) (type fh) v (last_block fh).
Definition set_last_block (fh : file_handle_t) (v : Z) : file_handle_t :=
  mk_file_handle (filename fh) (filesize fh) (type fh) (first_block fh) v.

(** Images of the structs in memory. *)
Definition take (n : Z) (d : Z) (l : list Z) : list Z :=
  map (fun k => nth k l d) (seq 0 (Z.to_nat n)).

Definition enc_block (b : block_t) : list Z :=
  enc16 (next_block b) ++ take EEPROM_FS_BLOCK_DATA_SIZE 0 (data b).
Definition dec_block (bs : list Z) : block_t :=
  mk_block (dec_s16 (nth 0 bs 0) (nth 1 bs 0)) (skipn 2 bs).

Definition enc_file_alloc (a : file_alloc_t) : list Z :=
  enc16 (alloc_filesize a) ++ enc16 (data_block a).
Definition dec_file_alloc (bs : list Z) : file_alloc_t :=
  mk_file_alloc (dec_u16 (nth 0 bs 0) (nth 1 bs 0))
                (dec_s16 (nth 2 bs 0) (nth 3 bs 0)).

Definition enc_fs_meta (m : fs_meta_t) : list Z :=
  enc16 (block_size m) ++ enc16 (start_address m) ++ enc16 (fs_size m)
  ++ enc16 (max_files m) ++ enc16 (max_blocks_per_file m).
Definition dec_fs_meta (bs : list Z) : fs_meta_t :=
  mk_fs_meta (dec_u16 (nth 0 bs 0) (nth 1 bs 0)) (dec_u16 (nth 2 bs 0) (nth 3 bs 0))
             (dec_u16 (nth 4 bs 0) (nth 5 bs 0)) (dec_u16 (nth 6 bs 0) (nth 7 bs 0))
             (dec_u16 (nth 8 bs 0) (nth 9 bs 0)).

(** ** Program state *)

(** One [vfprintf]/[printf] call: the format string and its arguments. *)
Inductive msg :=
| Msg (fmt : string) (args : list Z)
| MsgStr (fmt : string) (s : list Z).

Record fs_state := mk_state {
  __debug : Z;                       (* uint8_t __debug *)
  alloc_table : Z -> file_alloc_t;   (* file_alloc_t alloc_table[MAX_FILES + 1] *)
  eeprom : Z -> Z;                   (* the medium, byte by address *)
  wear : Z;                          (* cells programmed so far *)
  stderr : list msg;
  stdout : list msg }.

Definition set_debug_level (v : Z) (st : fs_state) : fs_state :=
  mk_state v (alloc_table st) (eeprom st) (wear st) (stderr st) (stdout st).
Definition set_alloc_table (t : Z -> file_alloc_t) (st : fs_state) : fs_state :=
  mk_state (__debug st) t (eeprom st) (wear st) (stderr st) (stdout st).
Definition set_eeprom (e : Z -> Z) (w : Z) (st : fs_state) : fs_state :=
  mk_state (__debug st) (alloc_table st) e w (stderr st) (stdout st).
Definition put_stderr (m : msg) (st : fs_state) : fs_state :=
  mk_state (__debug st) (alloc_table st) (eeprom st) (wear st)
           (stderr st ++ [m]) (stdout st).
Definition put_stdout (m : msg) (st : fs_state) : fs_state :=
  mk_state (__debug st) (alloc_table st) (eeprom st) (wear st)
           (stderr st) (stdout st ++ [m]).

(** ** The monad: state, and [None] for a loop that ran out of fuel *)

Definition M (A : Type) : Type := fs_state -> option (A * fs_state).

Definition ret {A} (a : A) : M A := fun st => Some (a, st).
Definition bind {A B} (m : M A) (k : A -> M B) : M B :=
  fun st => match m st with
            | Some (a, st') => k a st'
            | None => None
            end.
Definition diverge {A} : M A := fun _ => None.
Definition gets {A} (f : fs_state -> A) : M A := fun st => Some (f st, st).
Definition modify (f : fs_state -> fs_state) : M unit := fun st => Some (tt, f st).

Notation "x <- m ;; k" := (bind m (fun x => k))
  (at level 61, m at next level, right associativity).
Notation "m ;;; k" := (bind m (fun _ => k))
  (at level 61, right associativity).

(** ** The storage driver (avr-libc's [<avr/eeprom.h>]) *)

(** [poke e dst src n]: the medium after the [n] bytes of [src] are stored
    from address [dst] on. *)
Definition poke (e : Z -> Z) (dst : Z) (src : list Z) (n : Z) : Z -> Z :=
  fun a => if (dst <=? a) && (a <? dst + n)
           then nth (Z.to_nat (a - dst)) src 0 else e a.

Definition peek (e : Z -> Z) (src n : Z) : list Z :=
  map (fun k => e (src + Z.of_nat k)) (seq 0 (Z.to_nat n)).

(** Number of cells among the [n] from [dst] on whose content differs from [src]. *)
Definition differing (e : Z -> Z) (dst : Z) (src : list Z) (n : Z) : Z :=
  Z.of_nat (List.length
    (filter (fun k => negb (e (dst + Z.of_nat k) =? nth k src 0))
            (seq 0 (Z.to_nat n)))).

Definition eeprom_read_byte (addr : Z) : M Z := gets (fun st => eeprom st addr).

Definition eeprom_read_block (src n : Z) : M (list Z) :=
  gets (fun st => peek (eeprom st) src n).

Definition eeprom_write_block (src : list Z) (dst n : Z) : M unit :=
  modify (fun st => set_eeprom (poke (eeprom st) dst src n) (wear st + Z.max 0 n) st).

(** [eeprom_update_block] programs only the cells that differ: the content ends
    as after a write, the wear grows by the differing cells only. *)
Definition eeprom_update_block (src : list Z) (dst n : Z) : M unit :=
  modify (fun st => set_eeprom (poke (eeprom st) dst src n)
                               (wear st + differing (eeprom st) dst src n) st).

Definition eeprom_write_dword (addr v : Z) : M unit :=
  eeprom_write_block
    [v mod 256; (v / 256) mod 256; (v / 65536) mod 256; (v / 16777216) mod 256]
    addr sizeof_uint32_t.

(** ** Debugging hooks *)

Definition _fs_error (fmt : string) (args : list Z) : M unit :=
  modify (put_stderr (Msg fmt args)).

Definition _fs_debug1 (fmt : string) (args : list Z) : M unit :=
  fun st => if 1 <=? __debug st then modify (put_stderr (Msg fmt args)) st
            else ret tt st.
Definition _fs_debug2 (fmt : string) (args : list Z) : M unit :=
  fun st => if 2 <=? __debug st then modify (put_stderr (Msg fmt args)) st
            else ret tt st.
Definition _fs_debug3 (fmt : string) (args : list Z) : M unit :=
  fun st => if 3 <=? __debug st then modify (put_stderr (Msg fmt args)) st
            else ret tt st.
Definition _fs_debug4 (fmt : string) (args : list Z) : M unit :=
  fun st => if 4 <=? __debug st then modify (put_stderr (Msg fmt args)) st
            else ret tt st.

Definition set_debug (level : Z) : M unit :=
  modify (set_debug_level (u8 level)).

(** ** eeprom-fs.c: block pool helpers *)

(* lba_t* const next_free_block = &alloc_table[EEPROM_FS_MAX_FILES].data_block; *)
Definition next_free_block (st : fs_state) : Z :=
  data_block (alloc_table st EEPROM_FS_MAX_FILES).

Definition upd_table (t : Z -> file_alloc_t) (i : Z) (a : file_alloc_t)
  : Z -> file_alloc_t :=
  fun j => if j =? i then a else t j.

Definition set_next_free_block (v : Z) (st : fs_state) : fs_state :=
  set_alloc_table
    (upd_table (alloc_table st) EEPROM_FS_MAX_FILES
       (mk_file_alloc (alloc_filesize (alloc_table st EEPROM_FS_MAX_FILES)) v)) st.

(* block >= 0 && block < (lba_t) EEPROM_FS_NUM_BLOCKS *)
Definition valid_block (block : Z) : bool :=
  (0 <=? block) && (block <? EEPROM_FS_NUM_BLOCKS).

(** The product [block * EEPROM_FS_BLOCK_SIZE] is a 16-bit [int], [%] truncates
    towards zero, and the sum is taken in [unsigned int]. *)
Definition get_block_pointer (block : Z) : Z :=
  u16 (EEPROM_FS_START + EEPROM_FS_DATA_OFFSET
       + Z.rem (s16 (block * EEPROM_FS_BLOCK_SIZE)) EEPROM_FS_SIZE).

(** [buf[i] = v] on an array in RAM.  The list holds the memory from the first
    cell of the array on.  A store past the end of the list lands behind the
    array: the list then reaches up to that cell, and a cell in between, which
    the code did not store to, is listed as 0.  The indices of the code are
    unsigned. *)
Definition store (buf : list Z) (i : Z) (v : Z) : list Z :=
  if i <? Z.of_nat (List.length buf) then
    if 0 <=? i
    then firstn (Z.to_nat i) buf ++ v :: skipn (S (Z.to_nat i)) buf
    else buf
  else buf ++ repeat 0 (Z.to_nat i - List.length buf) ++ [v].

Fixpoint last_block_walk (fuel : nat) (next : Z) : M Z :=
  match fuel with
  | O => diverge
  | S fuel' =>
      let block := next in
      _fs_debug4 "checking... %d\n" [block] ;;;
      bs <- eeprom_read_block (get_block_pointer block) EEPROM_FS_BLOCK_SIZE ;;
      let current_block := dec_block bs in
      if negb (next_block current_block =? NULL_PTR)
      then last_block_walk fuel' (next_block current_block)
      else ret block
  end.

Definition last_block_in_chain (fuel : nat) (block : Z) : M Z :=
  if valid_block block then
    _fs_debug3 "Searching for last block in chain...\n" [] ;;;
    block <- last_block_walk fuel block ;;
    _fs_debug3 "Last block in chain: %d\n" [block] ;;;
    ret block
  else
    _fs_error "Block %d is not part of a block chain.\n" [block] ;;;
    ret NULL_PTR.

Definition write_block_data (data : list Z) : M Z :=
  write_to <- gets next_free_block ;;
  if valid_block write_to then
    bs <- eeprom_read_block (get_block_pointer write_to) EEPROM_FS_BLOCK_SIZE ;;
    let current_block_data := dec_block bs in
    modify (set_next_free_block (next_block current_block_data)) ;;;
    _fs_debug2 "Overwriting block %d..." [write_to] ;;;
    let addr := u16 (get_block_pointer write_to
                     + (EEPROM_FS_BLOCK_SIZE - EEPROM_FS_BLOCK_DATA_SIZE)) in
    eeprom_write_block data addr EEPROM_FS_BLOCK_DATA_SIZE ;;;
    _fs_debug2 "Done.\n" [] ;;;
    nfb <- gets next_free_block ;;
    _fs_debug3 "Next free block: %d\n" [nfb] ;;;
    ret write_to
  else
    _fs_error "Attempted to write to invalid block %d.\n" [write_to] ;;;
    ret NULL_PTR.

Definition alloc_entry_address (filename : Z) : Z :=
  u16 (EEPROM_FS_START + EEPROM_FS_ALLOC_TABLE_OFFSET + filename * sizeof_file_alloc_t).

Definition link (fh : file_handle_t) : M unit :=
  if valid_block (first_block fh) then
    _fs_debug1 "Linking file %d to block %d.\n" [filename fh; first_block fh] ;;;
    let filename := filename fh mod EEPROM_FS_MAX_FILES in
    modify (fun st => set_alloc_table
              (upd_table (alloc_table st) filename
                 (mk_file_alloc (filesize fh) (first_block fh))) st) ;;;
    entry <- gets (fun st => alloc_table st filename) ;;
    eeprom_update_block (enc_file_alloc entry) (alloc_entry_address filename)
                        sizeof_file_alloc_t ;;;
    free <- gets (fun st => alloc_table st EEPROM_FS_MAX_FILES) ;;
    eeprom_update_block (enc_file_alloc free) (alloc_entry_address EEPROM_FS_MAX_FILES)
                        sizeof_file_alloc_t ;;;
    _fs_debug1 "Link successful.\n" []
  else
    _fs_error "Cannot link file %d to invalid block %d.\n" [filename fh; first_block fh].

Definition unlink (fuel : nat) (block : Z) : M unit :=
  if valid_block block then
    _fs_debug1 "Unlinking block %d.\n" [block] ;;;
    nfb <- gets next_free_block ;;
    last_free <- last_block_in_chain fuel nfb ;;
    bs <- eeprom_read_block (get_block_pointer last_free) EEPROM_FS_BLOCK_SIZE ;;
    let last_free_block := mk_block block (data (dec_block bs)) in
    eeprom_write_block (enc_block last_free_block) (get_block_pointer last_free)
                       sizeof_lba_t ;;;
    _fs_debug1 "Unlink successful.\n" []
  else
    _fs_error "Cannot unlink invalid block %d.\n" [block].

Definition relink (block target : Z) : M unit :=
  if valid_block block then
    if (NULL_PTR <=? target) && (target <? EEPROM_FS_NUM_BLOCKS) then
      _fs_debug3 "Relinking block %d -> %d..." [block; target] ;;;
      eeprom_write_block (enc16 target) (get_block_pointer block) sizeof_lba_t ;;;
      _fs_debug3 "Done.\n" []
    else
      _fs_error "Attempted to relink to invalid block %d.\n" [target]
  else
    _fs_error "Attempted to write to invalid block %d.\n" [block].

(** ** eeprom-fs.c: wipe, format, init *)

Fixpoint wipe_loop (n : nat) (i : Z) : M unit :=
  match n with
  | O => ret tt
  | S n' => eeprom_write_dword i 0 ;;; wipe_loop n' (i + sizeof_uint32_t)
  end.

Definition wipe_eeprom : M unit :=
  wipe_loop (Z.to_nat (EEPROM_FS_SIZE / sizeof_uint32_t)) 0.

(** The loop [for (lba_t i = 0; i < EEPROM_FS_NUM_BLOCKS; i++)] of
    [format_eepromfs], [n] iterations from [i] on. *)
Fixpoint format_blocks (f : format_type_t) (block_data : list Z) (n : nat) (i : Z)
  : M unit :=
  match n with
  | O => ret tt
  | S n' =>
      let block := mk_block (i - 1) block_data in
      (if format_type_eqb f FORMAT_FULL then
         _fs_debug3 "Relinking block %d -> %d..." [i; next_block block] ;;;
         eeprom_update_block (enc_block block) (get_block_pointer i)
                             EEPROM_FS_BLOCK_SIZE ;;;
         _fs_debug3 "Done.\n" []
       else relink i (next_block block)) ;;;
      format_blocks f block_data n' (i + 1)
  end.

Fixpoint clear_allocations (null : file_alloc_t) (n : nat) (i : Z) : M unit :=
  match n with
  | O => ret tt
  | S n' =>
      modify (fun st => set_alloc_table (upd_table (alloc_table st) i null) st) ;;;
      clear_allocations null n' (i + 1)
  end.

Definition enc_alloc_table (t : Z -> file_alloc_t) : list Z :=
  flat_map (fun i => enc_file_alloc (t (Z.of_nat i)))
           (seq 0 (Z.to_nat (EEPROM_FS_MAX_FILES + 1))).

Definition this_meta : fs_meta_t :=
  mk_fs_meta EEPROM_FS_BLOCK_SIZE EEPROM_FS_START EEPROM_FS_SIZE
             EEPROM_FS_MAX_FILES EEPROM_FS_MAX_BLOCKS_PER_FILE.

(** In the quick and wipe formats [block.data] is never initialised and never
    read; the model passes the empty list for it. *)
Definition format_eepromfs (f : format_type_t) : M unit :=
  _fs_debug1 "Formatting filesystem.\n" [] ;;;
  (if format_type_eqb f FORMAT_WIPE then wipe_eeprom else ret tt) ;;;
  let block_data :=
    if format_type_eqb f FORMAT_FULL
    then repeat 0 (Z.to_nat EEPROM_FS_BLOCK_DATA_SIZE) else [] in
  format_blocks f block_data (Z.to_nat EEPROM_FS_NUM_BLOCKS) 0 ;;;
  _fs_debug2 "Writing file allocation table..." [] ;;;
  let null := mk_file_alloc 0 NULL_PTR in
  clear_allocations null (Z.to_nat EEPROM_FS_MAX_FILES) 0 ;;;
  let free := mk_file_alloc 0 (EEPROM_FS_NUM_BLOCKS - 1) in
  modify (fun st => set_alloc_table
            (upd_table (alloc_table st) EEPROM_FS_MAX_FILES free) st) ;;;
  tbl <- gets alloc_table ;;
  eeprom_update_block (enc_alloc_table tbl)
                      (EEPROM_FS_START + EEPROM_FS_ALLOC_TABLE_OFFSET)
                      sizeof_alloc_table ;;;
  _fs_debug2 "Done.\n" [] ;;;
  _fs_debug2 "Writing metadata..." [] ;;;
  eeprom_write_block (enc_fs_meta this_meta)
                     (EEPROM_FS_START + EEPROM_FS_META_OFFSET) sizeof_fs_meta_t ;;;
  _fs_debug2 "Done.\n" [] ;;;
  _fs_debug1 "Successfully formatted.\n" [].

(** The table as [eeprom_read_block] loads it into [alloc_table]. *)
Definition load_alloc_table (e : Z -> Z) (old : Z -> file_alloc_t) : Z -> file_alloc_t :=
  fun i => if (0 <=? i) && (i <=? EEPROM_FS_MAX_FILES)
           then dec_file_alloc (peek e (EEPROM_FS_START + EEPROM_FS_ALLOC_TABLE_OFFSET
                                        + i * sizeof_file_alloc_t) sizeof_file_alloc_t)
           else old i.

Definition init_eepromfs : M unit :=
  _fs_debug1 "Initialising filesystem.\n" [] ;;;
  _fs_debug2 "Loading metadata..." [] ;;;
  bs <- eeprom_read_block (EEPROM_FS_START + EEPROM_FS_META_OFFSET) sizeof_fs_meta_t ;;
  let stored_meta := dec_fs_meta bs in
  _fs_debug2 "Done.\n" [] ;;;
  (if negb (block_size stored_meta =? EEPROM_FS_BLOCK_SIZE)
      || negb (start_address stored_meta =? EEPROM_FS_START)
      || negb (fs_size stored_meta =? EEPROM_FS_SIZE)
      || negb (max_files stored_meta =? EEPROM_FS_MAX_FILES)
      || negb (max_blocks_per_file stored_meta =? EEPROM_FS_MAX_BLOCKS_PER_FILE)
   then format_eepromfs FORMAT_QUICK else ret tt) ;;;
  _fs_debug2 "Loading file allocation table..." [] ;;;
  modify (fun st => set_alloc_table (load_alloc_table (eeprom st) (alloc_table st)) st) ;;;
  _fs_debug2 "Done.\n" [] ;;;
  nfb <- gets next_free_block ;;
  _fs_debug3 "Next free block: %d\n" [nfb] ;;;
  _fs_debug1 "Filesystem initialised.\n" [].

(** ** eeprom-fs.c: the file API *)

(** File names are [fname_t] values, that is [uint16_t]: the [filename] of the
    functions below is the value the parameter holds, a number from 0 to
    65535. *)

Definition open_for_write (filename : Z) : M file_handle_t :=
  _fs_debug1 "Preparing file %d for writing.\n" [filename] ;;;
  filename <- (if EEPROM_FS_MAX_FILES <? filename then
                 let filename := filename mod EEPROM_FS_MAX_FILES in
                 _fs_debug2 "Filename too large - truncated to %d.\n" [filename] ;;;
                 ret filename
               else ret filename) ;;
  let fh := mk_file_handle filename 0 FH_WRITE NULL_PTR NULL_PTR in
  _fs_debug1 "File ready.\n" [] ;;;
  ret fh.

Definition open_for_append (filename : Z) : M file_handle_t :=
  _fs_debug1 "Preparing file %d for appending.\n" [filename] ;;;
  filename <- (if EEPROM_FS_MAX_FILES <? filename then
                 let filename := filename mod EEPROM_FS_MAX_FILES in
                 _fs_debug2 "Filename too large - truncated to %d.\n" [filename] ;;;
                 ret filename
               else ret filename) ;;
  entry <- gets (fun st => alloc_table st filename) ;;
  let fh := mk_file_handle filename (alloc_filesize entry) FH_APPEND NULL_PTR NULL_PTR in
  _fs_debug1 "File ready.\n" [] ;;;
  ret fh.

Definition open_for_read (filename : Z) : M file_handle_t :=
  _fs_debug1 "Preparing file %d for reading.\n" [filename] ;;;
  filename <- (if EEPROM_FS_MAX_FILES <? filename then
                 let filename := filename mod EEPROM_FS_MAX_FILES in
                 _fs_debug2 "Filename too large - truncated to %d.\n" [filename] ;;;
                 ret filename
               else ret filename) ;;
  entry <- gets (fun st => alloc_table st filename) ;;
  let fh := mk_file_handle filename (alloc_filesize entry) FH_READ
                           (data_block entry) NULL_PTR in
  (if first_block fh =? NULL_PTR
   then _fs_error "File %d not found.\n" [filename]
   else _fs_debug1 "File ready.\n" []) ;;;
  ret fh.

(** [close] works on the caller's handle; the model returns the handle as the
    call leaves it. *)
Definition close (fuel : nat) (fh : file_handle_t) : M file_handle_t :=
  _fs_debug1 "Finalising file %d.\n" [filename fh] ;;;
  fh <- (if handle_type_eqb (type fh) FH_APPEND then
           entry <- gets (fun st => alloc_table st (filename fh)) ;;
           let fh := set_filesize fh (u16 (filesize fh + alloc_filesize entry)) in
           (if EEPROM_FS_BLOCK_DATA_SIZE <? alloc_filesize entry then
              last <- last_block_in_chain fuel (data_block entry) ;;
              _fs_debug2 "Appending block %d to block %d...\n" [first_block fh; last] ;;;
              relink last (first_block fh) ;;;
              _fs_debug2 "Done.\n" []
            else
              (if 0 <? alloc_filesize entry
               then unlink fuel (data_block entry) else ret tt) ;;;
              link fh) ;;;
           ret fh
         else
           link fh ;;; ret fh) ;;
  _fs_debug2 "Marking end of file %d.\n" [filename fh] ;;;
  relink (last_block fh) NULL_PTR ;;;
  _fs_debug1 "File %d successfully finalised.\n" [filename fh] ;;;
  ret fh.

(** The inner loop of [read]: [buf[i * BDS + j] = block.data[j]], [n] bytes
    from [j] on. *)
Fixpoint read_copy (n : nat) (i j : Z) (block : block_t) (buf : list Z)
  : M (list Z) :=
  match n with
  | O => ret buf
  | S n' =>
      _fs_debug4 "buf[%d] = %c\n"
        [u16 (i * EEPROM_FS_BLOCK_DATA_SIZE + j); nth (Z.to_nat j) (data block) 0] ;;;
      let buf := store buf (u16 (i * EEPROM_FS_BLOCK_DATA_SIZE + j))
                       (nth (Z.to_nat j) (data block) 0) in
      read_copy n' i (j + 1) block buf
  end.

(** The [do ... while (block.next_block != NULL_PTR)] loop of [read]. *)
Fixpoint read_walk (fuel : nat) (fh : file_handle_t) (next i num_bytes : Z)
  (buf : list Z) : M (list Z) :=
  match fuel with
  | O => diverge
  | S fuel' =>
      _fs_debug3 "Reading from block %d..." [next] ;;;
      bs <- eeprom_read_block (get_block_pointer next) EEPROM_FS_BLOCK_SIZE ;;
      let block := dec_block bs in
      _fs_debug3 "Done.\n" [next_block block] ;;;
      let num_bytes :=
        if filesize fh <? u16 ((i + 1) * EEPROM_FS_BLOCK_DATA_SIZE)
        then filesize fh mod EEPROM_FS_BLOCK_DATA_SIZE else num_bytes in
      buf <- read_copy (Z.to_nat num_bytes) i 0 block buf ;;
      let i := u16 (i + 1) in
      if negb (next_block block =? NULL_PTR)
      then read_walk fuel' fh (next_block block) i num_bytes buf
      else ret buf
  end.

Definition read (fuel : nat) (fh : file_handle_t) (buf : list Z) : M (list Z) :=
  if valid_block (first_block fh) then
    read_walk fuel fh (first_block fh) 0 EEPROM_FS_BLOCK_DATA_SIZE buf
  else
    _fs_error "Tried to read from null file handle.\n" [] ;;;
    ret buf.

(** What the automatic storage of [write] holds where the code reads it
    without having assigned it.  [block.data] and the merge buffer [to_write]
    are not initialised: [block_data0] and [to_write0] are what they hold when
    they are declared.  [to_write] is declared inside the block that merges the
    tail of the file, and [data] is left pointing to it when that block ends:
    what the block loop reads through [data] afterwards is what the calls made
    in between have left in that storage, among them the logging hooks, which
    build a [vfprintf] frame or return at once according to [__debug].
    [dead_vla] gives the bytes so read, for the state the program is in when
    the block ends, the handle, and the bytes [to_write] held at that point. *)
Record auto_storage := mk_auto {
  block_data0 : list Z;
  to_write0 : list Z;
  dead_vla : fs_state -> file_handle_t -> list Z -> list Z }.

(** The inner loop of [write]: [block.data[j] = data[i * BDS + j]]. *)
Fixpoint write_copy (n : nat) (i j : Z) (data : list Z) (block_data : list Z)
  : M (list Z) :=
  match n with
  | O => ret block_data
  | S n' =>
      let block_data :=
        store block_data j
              (nth (Z.to_nat (u16 (i * EEPROM_FS_BLOCK_DATA_SIZE + j))) data 0) in
      _fs_debug4 "data[%d] = %c\n"
        [u16 (i * EEPROM_FS_BLOCK_DATA_SIZE + j); nth (Z.to_nat j) block_data 0] ;;;
      write_copy n' i (j + 1) data block_data
  end.

(** The loop [for (uint16_t i = 0; i < num_blocks; i++)] of [write]; it yields
    the last value assigned to [fh->last_block]. *)
Fixpoint write_blocks (n : nat) (i : Z) (data : list Z) (size num_bytes : Z)
  (block_data : list Z) (last : Z) : M Z :=
  match n with
  | O => ret last
  | S n' =>
      let num_bytes :=
        if size <? u16 ((i + 1) * EEPROM_FS_BLOCK_DATA_SIZE)
        then size mod EEPROM_FS_BLOCK_DATA_SIZE else num_bytes in
      block_data <- write_copy (Z.to_nat num_bytes) i 0 data block_data ;;
      last <- write_block_data block_data ;;
      write_blocks n' (i + 1) data size num_bytes block_data last
  end.

(** [memcpy] of [src] into [buf] from index [off] on. *)
Fixpoint blit (buf : list Z) (off : Z) (src : list Z) : list Z :=
  match src with
  | [] => buf
  | x :: src' => blit (store buf off x) (off + 1) src'
  end.

Definition write (fuel : nat) (u : auto_storage) (fh : file_handle_t)
  (data : list Z) (size : Z) : M file_handle_t :=
  if handle_type_eqb (type fh) FH_WRITE || handle_type_eqb (type fh) FH_APPEND then
    ds <- (if handle_type_eqb (type fh) FH_APPEND
              && (0 <? filesize fh mod EEPROM_FS_BLOCK_DATA_SIZE) then
             let overflow := filesize fh mod EEPROM_FS_BLOCK_DATA_SIZE in
             (* fdata_t* to_write[overflow + size]: an array of pointers *)
             let to_write := take (2 * u16 (overflow + size)) 0 (to_write0 u) in
             entry <- gets (fun st => alloc_table st (filename fh)) ;;
             last <- last_block_in_chain fuel (data_block entry) ;;
             let last_block_fh := set_filesize (set_first_block fh last) overflow in
             to_write <- read fuel last_block_fh to_write ;;
             let to_write := blit to_write overflow (take size 0 data) in
             (* data = to_write; the block of to_write ends here *)
             data <- gets (fun st => dead_vla u st fh to_write) ;;
             ret (data, u16 (overflow + size))
           else ret (data, size)) ;;
    let data := fst ds in
    let size := snd ds in
    _fs_debug1 "Writing %d bytes to file %d.\n" [size; filename fh] ;;;
    entry <- gets (fun st => alloc_table st (filename fh)) ;;
    let blocks_in_use := alloc_filesize entry / EEPROM_FS_BLOCK_DATA_SIZE in
    num_blocks <-
      (if EEPROM_FS_MAX_BLOCKS_PER_FILE
            <? u16 (blocks_in_use + size / EEPROM_FS_BLOCK_DATA_SIZE) then
         let num_blocks := u16 (EEPROM_FS_MAX_BLOCKS_PER_FILE - blocks_in_use) in
         _fs_error "File too large - write truncated to %d bytes.\n"
                   [u16 (num_blocks * EEPROM_FS_BLOCK_DATA_SIZE)] ;;;
         ret num_blocks
       else ret (u16 (size / EEPROM_FS_BLOCK_DATA_SIZE + 1))) ;;
    if 0 <? num_blocks then
      nfb <- gets next_free_block ;;
      let fh := set_first_block fh nfb in
      last <- write_blocks (Z.to_nat num_blocks) 0 data size EEPROM_FS_BLOCK_DATA_SIZE
                           (take EEPROM_FS_BLOCK_DATA_SIZE 0 (block_data0 u))
                           (last_block fh) ;;
      let fh := set_last_block fh last in
      let fh :=
        if u16 (num_blocks * EEPROM_FS_BLOCK_DATA_SIZE) <? size
        then set_filesize fh (u16 (num_blocks * EEPROM_FS_BLOCK_DATA_SIZE))
        else set_filesize fh size in
      _fs_debug1 "File %d successfully written.\n" [filename fh] ;;;
      ret fh
    else
      _fs_error "No more space available for file %d.\n" [filename fh] ;;;
      ret fh
  else
    _fs_error "Tried to write to read-only file handle '%d'\n" [filename fh] ;;;
    ret fh.

Definition delete (fuel : nat) (filename : Z) : M unit :=
  _fs_debug1 "Deleting file %d.\n" [filename] ;;;
  filename <- (if EEPROM_FS_MAX_FILES <? filename then
                 let filename := filename mod EEPROM_FS_MAX_FILES in
                 _fs_debug2 "Filename too large - truncated to %d.\n" [filename] ;;;
                 ret filename
               else ret filename) ;;
  let filename := filename mod EEPROM_FS_MAX_FILES in
  entry <- gets (fun st => alloc_table st filename) ;;
  unlink fuel (data_block entry) ;;;
  modify (fun st => set_alloc_table
            (upd_table (alloc_table st) filename
               (mk_file_alloc 0 (data_block (alloc_table st filename)))) st) ;;;
  modify (fun st => set_alloc_table
            (upd_table (alloc_table st) filename
               (mk_file_alloc (alloc_filesize (alloc_table st filename)) NULL_PTR)) st) ;;;
  entry <- gets (fun st => alloc_table st filename) ;;
  eeprom_update_block (enc_file_alloc entry) (alloc_entry_address filename)
                      sizeof_file_alloc_t ;;;
  _fs_debug1 "File %d successfully deleted.\n" [filename].

(** [dump_eeprom] prints the medium to [stdout].  Every cell of [char_buf] that
    a line prints has been assigned on that line, so the buffer starts cleared
    here. *)
Fixpoint dump_loop (n : nat) (i : Z) (char_buf : list Z) : M unit :=
  match n with
  | O => ret tt
  | S n' =>
      val <- eeprom_read_byte i ;;
      let char_buf :=
        if (val <? 32) || (126 <? val)
        then store char_buf (i mod 16) 46
        else store char_buf (i mod 16) val in
      let char_buf := store char_buf 16 0 in
      (if i mod 16 =? 0
       then modify (put_stdout (Msg "\n%#05x : " [i])) else ret tt) ;;;
      modify (put_stdout (Msg "%02x " [val])) ;;;
      (if i mod 16 =? 15
       then modify (put_stdout (MsgStr ": %s" (firstn 16 char_buf))) else ret tt) ;;;
      dump_loop n' (i + 1) char_buf
  end.

Definition dump_eeprom : M unit :=
  dump_loop (Z.to_nat EEPROM_FS_SIZE) 0 (repeat 0 17) ;;;
  modify (put_stdout (Msg "\n" [])).

(** ** One API call at a time *)

Inductive api_call :=
| Call_set_debug (level : Z)
| Call_init_eepromfs
| Call_format_eepromfs (f : format_type_t)
| Call_open_for_write (filename : Z)
| Call_open_for_append (filename : Z)
| Call_open_for_read (filename : Z)
| Call_close (fh : file_handle_t)
| Call_write (u : auto_storage) (fh : file_handle_t) (data : list Z) (size : Z)
| Call_read (fh : file_handle_t) (buf : list Z)
| Call_delete (filename : Z)
| Call_dump_eeprom
| Call_wipe_eeprom.

Inductive api_result :=
| Done
| Handle (fh : file_handle_t)
| Buffer (buf : list Z).

Definition run_call (fuel : nat) (c : api_call) : M api_result :=
  match c with
  | Call_set_debug level => set_debug level ;;; ret Done
  | Call_init_eepromfs => init_eepromfs ;;; ret Done
  | Call_format_eepromfs f => format_eepromfs f ;;; ret Done
  | Call_open_for_write n => fh <- open_for_write n ;; ret (Handle fh)
  | Call_open_for_append n => fh <- open_for_append n ;; ret (Handle fh)
  | Call_open_for_read n => fh <- open_for_read n ;; ret (Handle fh)
  | Call_close fh => fh <- close fuel fh ;; ret (Handle fh)
  | Call_write u fh data size => fh <- write fuel u fh data size ;; ret (Handle fh)
  | Call_read fh buf => buf <- read fuel fh buf ;; ret (Buffer buf)
  | Call_delete n => delete fuel n ;;; ret Done
  | Call_dump_eeprom => dump_eeprom ;;; ret Done
  | Call_wipe_eeprom => wipe_eeprom ;;; ret Done
  end.

(** * Properties *)

(** ** Scenarios: the device at power on *)

(** RAM globals are zero-initialised and an erased EEPROM cell reads [0xFF]. *)
Definition power_on : fs_state :=
  mk_state 0 (fun _ => mk_file_alloc 0 0) (fun _ => 255) 0 [] [].

(** The state after [m], or the state before it when [m] ran out of fuel. *)
Definition exec {A} (m : M A) (st : fs_state) : fs_state :=
  match m st with Some (_, st') => st' | None => st end.

(** The value [m] returns, [d] when it ran out of fuel. *)
Definition value {A} (d : A) (m : M A) (st : fs_state) : A :=
  match m st with Some (a, _) => a | None => d end.

(** A payload of [n] bytes counting up from [k]. *)
Definition counting (n : nat) (k : Z) : list Z :=
  map (fun i => (Z.of_nat i + k) mod 256) (seq 0 n).

Definition no_handle : file_handle_t := mk_file_handle 0 0 FH_READ NULL_PTR NULL_PTR.

(** A sample of stale storage: [0xAA] in [block.data], [0xBB] in [to_write],
    and [0xDD] in every cell of [to_write] once its block has ended. *)
Definition stale : auto_storage :=
  mk_auto (repeat 170 30) (repeat 187 64) (fun _ _ l => map (fun _ => 221) l).

(** [open_for_write name; write data; close] and its append twin, as the
    example program runs them. *)
Definition store_file (fuel : nat) (u : auto_storage) (name : Z) (payload : list Z)
  : M file_handle_t :=
  fh <- open_for_write name ;;
  fh <- write fuel u fh payload (Z.of_nat (List.length payload)) ;;
  close fuel fh.

Definition append_file (fuel : nat) (u : auto_storage) (name : Z) (payload : list Z)
  : M file_handle_t :=
  fh <- open_for_append name ;;
  fh <- write fuel u fh payload (Z.of_nat (List.length payload)) ;;
  close fuel fh.

(** [open_for_read name], a buffer [fdata_t buf[fh.filesize]] and [read], as
    the example program does. *)
Definition load_file (fuel : nat) (name : Z) : M (file_handle_t * list Z) :=
  fh <- open_for_read name ;;
  buf <- read fuel fh (repeat 0 (Z.to_nat (filesize fh))) ;;
  ret (fh, buf).

(** The file system as [init_eepromfs] leaves it on a blank device. *)
Definition fresh : fs_state := exec init_eepromfs power_on.


(** ** Views of the medium *)

Definition block_next (e : Z -> Z) (b : Z) : Z :=
  next_block (dec_block (peek e (get_block_pointer b) EEPROM_FS_BLOCK_SIZE)).

Definition block_payload (e : Z -> Z) (b : Z) : list Z :=
  data (dec_block (peek e (get_block_pointer b) EEPROM_FS_BLOCK_SIZE)).

(** The persisted allocation entry of a name. *)
Definition stored_entry (e : Z -> Z) (name : Z) : file_alloc_t :=
  dec_file_alloc (peek e (alloc_entry_address name) sizeof_file_alloc_t).

Definition stored_meta (e : Z -> Z) : fs_meta_t :=
  dec_fs_meta (peek e (EEPROM_FS_START + EEPROM_FS_META_OFFSET) sizeof_fs_meta_t).

(** The blocks the [do ... while] walks of [read] and [last_block_in_chain]
    visit from [b] on, up to the block whose [next] is the null sentinel. *)
Fixpoint chain_walk (fuel : nat) (e : Z -> Z) (b : Z) : option (list Z) :=
  match fuel with
  | O => None
  | S fuel' =>
      if negb (block_next e b =? NULL_PTR)
      then option_map (cons b) (chain_walk fuel' e (block_next e b))
      else Some [b]
  end.

(** The first [k] blocks met from [b] on, following [next]. *)
Fixpoint chain_prefix (k : nat) (e : Z -> Z) (b : Z) : list Z :=
  match k with
  | O => []
  | S k' => b :: chain_prefix k' e (block_next e b)
  end.

Definition ceil_div (a b : Z) : Z := (a + b - 1) / b.

(** The chain of a named file, as a walk from its first block. *)
Definition file_chain (fuel : nat) (st : fs_state) (name : Z) : option (list Z) :=
  chain_walk fuel (eeprom st) (data_block (alloc_table st name)).

(** ** What a call leaves behind, the log apart *)

(** The allocation table in RAM, the medium and its wear. *)
Definition core (st : fs_state) : (Z -> file_alloc_t) * (Z -> Z) * Z :=
  (alloc_table st, eeprom st, wear st).

(** Two runs agree when both run out of fuel, or both return the same value
    and leave the same core. *)
Definition agree {A} (r1 r2 : option (A * fs_state)) : Prop :=
  match r1, r2 with
  | Some (a1, s1), Some (a2, s2) => a1 = a2 /\ core s1 = core s2
  | None, None => True
  | _, _ => False
  end.

(** A computation whose value and core depend on the core it starts from only:
    neither on [__debug] nor on what was logged so far. *)
Definition noninterf {A} (m : M A) : Prop :=
  forall s1 s2, core s1 = core s2 -> agree (m s1) (m s2).

Definition respects {A} (f : fs_state -> A) : Prop :=
  forall s1 s2, core s1 = core s2 -> f s1 = f s2.

Definition preserves (f : fs_state -> fs_state) : Prop :=
  forall s1 s2, core s1 = core s2 -> core (f s1) = core (f s2).

(** The state with the same core, debugging off and nothing logged. *)
Definition quiet (st : fs_state) : fs_state :=
  mk_state 0 (alloc_table st) (eeprom st) (wear st) [] [].

(** The block reached from [b] after [k] links. *)
Fixpoint chain_after (k : nat) (e : Z -> Z) (b : Z) : Z :=
  match k with
  | O => b
  | S k' => chain_after k' e (block_next e b)
  end.

(** The bytes of the payload that the [i]-th block of a write of [size] bytes
    carries: a whole block, or the remainder in the last one. *)
Definition bytes_at (size i : Z) : Z :=
  if size <? (i + 1) * EEPROM_FS_BLOCK_DATA_SIZE
  then size mod EEPROM_FS_BLOCK_DATA_SIZE else EEPROM_FS_BLOCK_DATA_SIZE.

(** The size-to-length invariant for one named file: if the file is present,
    its chain has [ceil (filesize / BLOCK_DATA_SIZE)] blocks and ends in the
    null sentinel. *)
Definition size_to_length (st : fs_state) (name : Z) : Prop :=
  data_block (alloc_table st name) <> NULL_PTR ->
  exists fuel l,
    file_chain fuel st name = Some l
    /\ Z.of_nat (List.length l)
       = ceil_div (alloc_filesize (alloc_table st name)) EEPROM_FS_BLOCK_DATA_SIZE
    /\ block_next (eeprom st) (last l NULL_PTR) = NULL_PTR.

(** A file of exactly one block of payload, written to a fresh volume. *)
Definition one_block_file : fs_state :=
  exec (store_file 60 stale 3 (counting 30 0)) fresh.

(** A file that fills [MAX_BLOCKS_PER_FILE] blocks, then a second, short write
    to the same name. *)
Definition full_then_short : fs_state :=
  exec (store_file 60 stale 0 (counting 30 100))
       (exec (store_file 60 stale 0 (counting 240 0)) fresh).

(** Forty bytes written to name 7, then five bytes appended. *)
Definition forty_bytes : fs_state := exec (store_file 60 stale 7 (counting 40 0)) fresh.
Definition forty_plus_five : fs_state :=
  exec (append_file 60 stale 7 (counting 5 200)) forty_bytes.

(** Sixty bytes written to name 7, then five bytes appended. *)
Definition sixty_bytes : fs_state := exec (store_file 60 stale 7 (counting 60 0)) fresh.
Definition sixty_plus_five : fs_state :=
  exec (append_file 60 stale 7 (counting 5 200)) sixty_bytes.

(** [8 * 30 + 10] bytes written to a fresh name. *)
Definition wrote_250 : fs_state := exec (store_file 60 stale 0 (counting 250 0)) fresh.

(** Write a file and read it back. *)
Definition roundtrip (fuel : nat) (u : auto_storage) (name : Z) (payload : list Z)
  : M (file_handle_t * list Z) :=
  store_file fuel u name payload ;;; load_file fuel name.

(** The handles of a write in progress: what [open_for_write] returns, and what
    [write] makes of such a handle. *)
Inductive write_handle : file_handle_t -> Prop :=
| wh_open name st fh st' :
    open_for_write name st = Some (fh, st') -> write_handle fh
| wh_write fuel u fh data size st fh' st' :
    write_handle fh ->
    write fuel u fh data size st = Some (fh', st') -> write_handle fh'.

(** A computation that always returns and only adds to the error stream. *)
Definition logs {A} (m : M A) : Prop :=
  forall st, exists a st' l, m st = Some (a, st') /\ stderr st' = stderr st ++ l.

(** Thirteen bytes written to name 7, as the example program does before it
    appends to the file. *)
Definition thirteen_bytes : fs_state := exec (store_file 60 stale 7 (counting 13 1)) fresh.

(** Exactly one block of payload on name 7. *)
Definition thirty_bytes : fs_state := exec (store_file 60 stale 7 (counting 30 0)) fresh.

(** Seven files of 239 bytes (eight blocks each) and one of 60 bytes (three
    blocks) take all 59 blocks of the pool. *)
Definition pool_exhausted : fs_state :=
  exec (store_file 60 stale 7 (counting 60 0))
    (fold_left (fun st name => exec (store_file 60 stale name (counting 239 0)) st)
               [0; 1; 2; 3; 4; 5; 6] fresh).

(** A computation that stores nothing: whenever it returns, the table in RAM,
    the medium and the wear are as they were. *)
Definition readonly {A} (m : M A) : Prop :=
  forall st a st', m st = Some (a, st') -> core st' = core st.

(** [b] is met when following the links of the medium from [h] on, every
    block passed on the way being a valid one: the chain ends at the null
    sentinel, or at any other number that is no block. *)
Definition on_chain (e : Z -> Z) (h b : Z) : Prop :=
  exists k, chain_after k e h = b
            /\ forall j, (j < k)%nat -> valid_block (chain_after j e h) = true.

(** The payload cells of block [b]. *)
Definition payload_cell (b a : Z) : Prop :=
  get_block_pointer b + sizeof_lba_t <= a < get_block_pointer b + EEPROM_FS_BLOCK_SIZE.

(** The test of [init_eepromfs] on the stored header. *)
Definition meta_differs (m : fs_meta_t) : bool :=
  negb (block_size m =? EEPROM_FS_BLOCK_SIZE)
  || negb (start_address m =? EEPROM_FS_START)
  || negb (fs_size m =? EEPROM_FS_SIZE)
  || negb (max_files m =? EEPROM_FS_MAX_FILES)
  || negb (max_blocks_per_file m =? EEPROM_FS_MAX_BLOCKS_PER_FILE).

(** The arguments of the [printf] calls of one format with one argument, in
    the order they were printed. *)
Definition printed (fmt : string) (out : list msg) : list Z :=
  flat_map (fun m => match m with
                     | Msg f [v] => if String.eqb f fmt then [v] else []
                     | _ => []
                     end) out.

(** No block occurs twice in the list. *)
Fixpoint distinct (l : list Z) : bool :=
  match l with
  | [] => true
  | x :: l' => negb (existsb (Z.eqb x) l') && distinct l'
  end.

(** The blocks [n - 1], ..., 0: the free chain of a formatted volume from
    block [n - 1] on. *)
Definition blocks_down_from (n : nat) : list Z := map Z.of_nat (rev (seq 0 n)).

(** A second, short file beside the one-block file. *)
Definition two_files : fs_state := exec (store_file 60 stale 6 (counting 14 65)) one_block_file.

(** The two halves of [write]: the merge of an incomplete last block that an
    APPEND handle starts with, and the block loop that follows for every
    handle. *)
Definition write_merge (fuel : nat) (u : auto_storage) (fh : file_handle_t)
  (data : list Z) (size : Z) : M (list Z * Z) :=
  if handle_type_eqb (type fh) FH_APPEND
     && (0 <? filesize fh mod EEPROM_FS_BLOCK_DATA_SIZE) then
    let overflow := filesize fh mod EEPROM_FS_BLOCK_DATA_SIZE in
    let to_write := take (2 * u16 (overflow + size)) 0 (to_write0 u) in
    entry <- gets (fun st => alloc_table st (filename fh)) ;;
    last <- last_block_in_chain fuel (data_block entry) ;;
    let last_block_fh := set_filesize (set_first_block fh last) overflow in
    to_write <- read fuel last_block_fh to_write ;;
    let to_write := blit to_write overflow (take size 0 data) in
    data <- gets (fun st => dead_vla u st fh to_write) ;;
    ret (data, u16 (overflow + size))
  else ret (data, size).

Definition write_rest (u : auto_storage) (fh : file_handle_t) (data : list Z) (size : Z)
  : M file_handle_t :=
  _fs_debug1 "Writing %d bytes to file %d.\n" [size; filename fh] ;;;
  entry <- gets (fun st => alloc_table st (filename fh)) ;;
  let blocks_in_use := alloc_filesize entry / EEPROM_FS_BLOCK_DATA_SIZE in
  num_blocks <-
    (if EEPROM_FS_MAX_BLOCKS_PER_FILE
          <? u16 (blocks_in_use + size / EEPROM_FS_BLOCK_DATA_SIZE) then
       let num_blocks := u16 (EEPROM_FS_MAX_BLOCKS_PER_FILE - blocks_in_use) in
       _fs_error "File too large - write truncated to %d bytes.\n"
                 [u16 (num_blocks * EEPROM_FS_BLOCK_DATA_SIZE)] ;;;
       ret num_blocks
     else ret (u16 (size / EEPROM_FS_BLOCK_DATA_SIZE + 1))) ;;
  if 0 <? num_blocks then
    nfb <- gets next_free_block ;;
    let fh := set_first_block fh nfb in
    last <- write_blocks (Z.to_nat num_blocks) 0 data size EEPROM_FS_BLOCK_DATA_SIZE
                         (take EEPROM_FS_BLOCK_DATA_SIZE 0 (block_data0 u))
                         (last_block fh) ;;
    let fh := set_last_block fh last in
    let fh :=
      if u16 (num_blocks * EEPROM_FS_BLOCK_DATA_SIZE) <? size
      then set_filesize fh (u16 (num_blocks * EEPROM_FS_BLOCK_DATA_SIZE))
      else set_filesize fh size in
    _fs_debug1 "File %d successfully written.\n" [filename fh] ;;;
    ret fh
  else
    _fs_error "No more space available for file %d.\n" [filename fh] ;;;
    ret fh.

(** Append to a file and read it back. *)
Definition append_then_read (fuel : nat) (u : auto_storage) (name : Z) (payload : list Z)
  : M (file_handle_t * list Z) :=
  append_file fuel u name payload ;;; load_file fuel name.

(** Automatic storage whose dead merge buffer does not depend on the level or
    on the log. *)
Definition settled (u : auto_storage) : Prop :=
  forall fh l, respects (fun st => dead_vla u st fh l).

(** The storage of [u], with the dead merge buffer reading as [d] whatever the
    state. *)
Definition pinned (u : auto_storage) (d : list Z) : auto_storage :=
  mk_auto (block_data0 u) (to_write0 u) (fun _ _ _ => d).

(** Storage whose dead merge buffer shows the level.  The first call [write]
    makes after the merge is the hook that reports the size: from level 1 on
    it builds a [vfprintf] frame, here over the whole buffer (every cell then
    reads [0xDD]); below that it returns at once, and here the buffer reads as
    the merge left it. *)
Definition level_marked : auto_storage :=
  mk_auto (repeat 170 30) (repeat 187 64)
          (fun st _ l => if 1 <=? __debug st then map (fun _ => 221) l else l).

(** A file of 58 bytes under name 22, on a fresh volume.  The stored entry of
    name 22 lies where the null sentinel, taken for a block, has its [next]
    field, and its size reads there as block 58, the first block of the
    file. *)
Definition file_of_58_bytes : fs_state :=
  exec (store_file 60 stale 22 (counting 58 0)) fresh.

(** * Proofs *)

(** ** Machine arithmetic *)

Lemma valid_block_range (b : Z) :
  valid_block b = true <-> 0 <= b < EEPROM_FS_NUM_BLOCKS.
Proof.
  unfold valid_block. rewrite andb_true_iff, Z.leb_le, Z.ltb_lt. tauto.
Qed.

Lemma NUM_BLOCKS_value : EEPROM_FS_NUM_BLOCKS = 59.
Proof. reflexivity. Qed.

Lemma get_block_pointer_valid (b : Z) :
  valid_block b = true ->
  get_block_pointer b = EEPROM_FS_DATA_OFFSET + EEPROM_FS_BLOCK_SIZE * b.
Proof.
  rewrite valid_block_range, NUM_BLOCKS_value. intros Hb.
  unfold get_block_pointer, u16, s16, EEPROM_FS_START, EEPROM_FS_SIZE,
    EEPROM_FS_BLOCK_SIZE.
  change EEPROM_FS_DATA_OFFSET with 130.
  rewrite (Z.mod_small (b * 32 + 32768)) by lia.
  replace (b * 32 + 32768 - 32768) with (b * 32) by lia.
  rewrite Z.rem_small by lia.
  rewrite Z.mod_small by lia. lia.
Qed.

Lemma dec_s16_enc16 (x : Z) :
  -32768 <= x < 32768 -> dec_s16 (x mod 256) ((x / 256) mod 256) = x.
Proof.
  intros Hx. unfold dec_s16, s16.
  Z.div_mod_to_equations. lia.
Qed.

Lemma dec_u16_enc16 (x : Z) :
  0 <= x < 65536 -> dec_u16 (x mod 256) ((x / 256) mod 256) = x.
Proof.
  intros Hx. unfold dec_u16, u16.
  Z.div_mod_to_equations. lia.
Qed.

(** ** Noninterference of the log with the core *)

Lemma ni_ret {A} (a : A) : noninterf (ret a).
Proof. intros s1 s2 H. simpl. auto. Qed.

Lemma ni_diverge {A} : noninterf (@diverge A).
Proof. intros s1 s2 H. exact I. Qed.

Lemma ni_bind {A B} (m : M A) (k : A -> M B) :
  noninterf m -> (forall a, noninterf (k a)) -> noninterf (bind m k).
Proof.
  intros Hm Hk s1 s2 H. unfold bind.
  specialize (Hm s1 s2 H). unfold agree in Hm.
  destruct (m s1) as [[a1 t1]|], (m s2) as [[a2 t2]|]; try contradiction; auto.
  destruct Hm as [-> Ht]. apply Hk, Ht.
Qed.

Lemma ni_gets {A} (f : fs_state -> A) : respects f -> noninterf (gets f).
Proof. intros Hf s1 s2 H. simpl. auto. Qed.

Lemma ni_modify (f : fs_state -> fs_state) : preserves f -> noninterf (modify f).
Proof. intros Hf s1 s2 H. simpl. auto. Qed.

Lemma preserves_put_stderr (m : msg) : preserves (put_stderr m).
Proof. intros s1 s2 H. exact H. Qed.

Lemma preserves_put_stdout (m : msg) : preserves (put_stdout m).
Proof. intros s1 s2 H. exact H. Qed.

Lemma ni_error fmt args : noninterf (_fs_error fmt args).
Proof. apply ni_modify, preserves_put_stderr. Qed.

Lemma ni_put_stdout m : noninterf (modify (put_stdout m)).
Proof. apply ni_modify, preserves_put_stdout. Qed.

Lemma ni_debug1 fmt args : noninterf (_fs_debug1 fmt args).
Proof.
  intros s1 s2 H. unfold _fs_debug1.
  destruct (1 <=? __debug s1), (1 <=? __debug s2); simpl; auto.
Qed.

Lemma ni_debug2 fmt args : noninterf (_fs_debug2 fmt args).
Proof.
  intros s1 s2 H. unfold _fs_debug2.
  destruct (2 <=? __debug s1), (2 <=? __debug s2); simpl; auto.
Qed.

Lemma ni_debug3 fmt args : noninterf (_fs_debug3 fmt args).
Proof.
  intros s1 s2 H. unfold _fs_debug3.
  destruct (3 <=? __debug s1), (3 <=? __debug s2); simpl; auto.
Qed.

Lemma ni_debug4 fmt args : noninterf (_fs_debug4 fmt args).
Proof.
  intros s1 s2 H. unfold _fs_debug4.
  destruct (4 <=? __debug s1), (4 <=? __debug s2); simpl; auto.
Qed.

Lemma ni_set_debug level : noninterf (set_debug level).
Proof. apply ni_modify. intros s1 s2 H. exact H. Qed.

(** Splits an equation between cores into its three components. *)
Ltac core_fields :=
  let s1 := fresh "s" in let s2 := fresh "s" in let H := fresh "Hcore" in
  intros s1 s2 H; unfold core in H;
  injection H as ? ? ?;
  unfold core, next_free_block, set_next_free_block, set_alloc_table, set_eeprom;
  cbn [alloc_table eeprom wear];
  congruence.

Lemma ni_eeprom_read_byte addr : noninterf (eeprom_read_byte addr).
Proof. apply ni_gets. core_fields. Qed.

Lemma ni_eeprom_read_block src n : noninterf (eeprom_read_block src n).
Proof. apply ni_gets. core_fields. Qed.

Lemma ni_eeprom_write_block src dst n : noninterf (eeprom_write_block src dst n).
Proof. apply ni_modify. core_fields. Qed.

Lemma ni_eeprom_update_block src dst n : noninterf (eeprom_update_block src dst n).
Proof. apply ni_modify. core_fields. Qed.

Lemma ni_eeprom_write_dword addr v : noninterf (eeprom_write_dword addr v).
Proof. apply ni_eeprom_write_block. Qed.

Create HintDb ni discriminated.
#[local] Hint Constants Opaque : ni.
#[local] Hint Resolve ni_ret ni_diverge ni_error ni_put_stdout ni_debug1 ni_debug2
  ni_debug3 ni_debug4 ni_set_debug ni_eeprom_read_byte ni_eeprom_read_block
  ni_eeprom_write_block ni_eeprom_update_block ni_eeprom_write_dword : ni.

(** One step of a noninterference proof: split a bind, decide a test, or close
    the goal with a lemma already proved. *)
Ltac ni_step :=
  cbv zeta;
  lazymatch goal with
  | |- noninterf (bind _ _) => apply ni_bind; [ | intros ? ]
  | |- noninterf (if ?b then _ else _) => destruct b
  | |- noninterf (gets _) => apply ni_gets; core_fields
  | |- noninterf (modify _) => first [ solve [auto with ni nocore]
                                     | apply ni_modify; core_fields ]
  | |- noninterf _ => solve [auto with ni nocore]
  end.

Ltac ni := repeat ni_step.

Lemma ni_last_block_walk fuel : forall next, noninterf (last_block_walk fuel next).
Proof. induction fuel; intros next; simpl; ni. Qed.
#[local] Hint Resolve ni_last_block_walk : ni.

Lemma ni_last_block_in_chain fuel block : noninterf (last_block_in_chain fuel block).
Proof. unfold last_block_in_chain. ni. Qed.
#[local] Hint Resolve ni_last_block_in_chain : ni.

Lemma ni_write_block_data data : noninterf (write_block_data data).
Proof. unfold write_block_data. ni. Qed.

Lemma ni_link fh : noninterf (link fh).
Proof. unfold link. ni. Qed.

Lemma ni_unlink fuel block : noninterf (unlink fuel block).
Proof. unfold unlink. ni. Qed.

Lemma ni_relink block target : noninterf (relink block target).
Proof. unfold relink. ni. Qed.
#[local] Hint Resolve ni_write_block_data ni_link ni_unlink ni_relink : ni.

Lemma ni_wipe_loop n : forall i, noninterf (wipe_loop n i).
Proof. induction n; intros i; simpl; ni. Qed.
#[local] Hint Resolve ni_wipe_loop : ni.

Lemma ni_wipe_eeprom : noninterf wipe_eeprom.
Proof. unfold wipe_eeprom. ni. Qed.
#[local] Hint Resolve ni_wipe_eeprom : ni.

Lemma ni_format_blocks f bd n : forall i, noninterf (format_blocks f bd n i).
Proof. induction n; intros i; simpl; ni. Qed.

Lemma ni_clear_allocations null n : forall i, noninterf (clear_allocations null n i).
Proof. induction n; intros i; simpl; ni. Qed.
#[local] Hint Resolve ni_format_blocks ni_clear_allocations : ni.

Lemma ni_format_eepromfs f : noninterf (format_eepromfs f).
Proof. unfold format_eepromfs. ni. Qed.
#[local] Hint Resolve ni_format_eepromfs : ni.

Lemma ni_init_eepromfs : noninterf init_eepromfs.
Proof. unfold init_eepromfs. ni. Qed.

Lemma ni_open_for_write n : noninterf (open_for_write n).
Proof. unfold open_for_write. ni. Qed.

Lemma ni_open_for_append n : noninterf (open_for_append n).
Proof. unfold open_for_append. ni. Qed.

Lemma ni_open_for_read n : noninterf (open_for_read n).
Proof. unfold open_for_read. ni. Qed.

Lemma ni_close fuel fh : noninterf (close fuel fh).
Proof. unfold close. ni. Qed.

Lemma ni_read_copy n : forall i j block buf, noninterf (read_copy n i j block buf).
Proof. induction n; intros; simpl; ni. Qed.
#[local] Hint Resolve ni_read_copy : ni.

Lemma ni_read_walk fuel fh :
  forall next i num_bytes buf, noninterf (read_walk fuel fh next i num_bytes buf).
Proof. induction fuel; intros; simpl; ni. Qed.
#[local] Hint Resolve ni_read_walk : ni.

Lemma ni_read fuel fh buf : noninterf (read fuel fh buf).
Proof. unfold read. ni. Qed.
#[local] Hint Resolve ni_read : ni.

Lemma ni_write_copy n : forall i j data bd, noninterf (write_copy n i j data bd).
Proof. induction n; intros; simpl; ni. Qed.
#[local] Hint Resolve ni_write_copy : ni.

Lemma ni_write_blocks n :
  forall i data size num_bytes bd last,
    noninterf (write_blocks n i data size num_bytes bd last).
Proof. induction n; intros; simpl; ni. Qed.
#[local] Hint Resolve ni_write_blocks : ni.

(** [write] consults the dead merge buffer, which may depend on the level:
    the log does not interfere when the buffer is settled, or when the handle
    makes [write] skip the merge. *)
Lemma ni_write fuel u fh data size :
  settled u -> noninterf (write fuel u fh data size).
Proof.
  intros Hu. unfold write.
  repeat first [ apply ni_gets; apply Hu | ni_step ].
Qed.

Lemma ni_write_no_merge fuel u fh data size :
  handle_type_eqb (type fh) FH_APPEND && (0 <? filesize fh mod EEPROM_FS_BLOCK_DATA_SIZE)
  = false ->
  noninterf (write fuel u fh data size).
Proof. intros H. unfold write. rewrite H. ni. Qed.

Lemma ni_delete fuel n : noninterf (delete fuel n).
Proof. unfold delete. ni. Qed.

Lemma ni_dump_loop n : forall i char_buf, noninterf (dump_loop n i char_buf).
Proof. induction n; intros; simpl; ni. Qed.
#[local] Hint Resolve ni_dump_loop : ni.

Lemma ni_dump_eeprom : noninterf dump_eeprom.
Proof. unfold dump_eeprom. ni. Qed.

#[local] Hint Resolve ni_init_eepromfs ni_open_for_write ni_open_for_append
  ni_open_for_read ni_close ni_delete ni_dump_eeprom : ni.

(** A run from the quiet state stands for the run from any state with the
    same core. *)
Lemma run_quiet {A} (m : M A) (st : fs_state) (a : A) (q : fs_state) :
  noninterf m -> m (quiet st) = Some (a, q) ->
  exists st', m st = Some (a, st') /\ core st' = core q.
Proof.
  intros Hm Hq. specialize (Hm st (quiet st) eq_refl).
  rewrite Hq in Hm. unfold agree in Hm.
  destruct (m st) as [[a' st']|]; [|contradiction].
  destruct Hm as [-> Hc]. eauto.
Qed.

(** ** Running in a quiet state *)

Section Quiet.
Variables (tb : Z -> file_alloc_t) (e : Z -> Z) (w : Z) (err out : list msg).

Lemma run_debug1 fmt args :
  _fs_debug1 fmt args (mk_state 0 tb e w err out) = Some (tt, mk_state 0 tb e w err out).
Proof. reflexivity. Qed.

Lemma run_debug2 fmt args :
  _fs_debug2 fmt args (mk_state 0 tb e w err out) = Some (tt, mk_state 0 tb e w err out).
Proof. reflexivity. Qed.

Lemma run_debug3 fmt args :
  _fs_debug3 fmt args (mk_state 0 tb e w err out) = Some (tt, mk_state 0 tb e w err out).
Proof. reflexivity. Qed.

Lemma run_debug4 fmt args :
  _fs_debug4 fmt args (mk_state 0 tb e w err out) = Some (tt, mk_state 0 tb e w err out).
Proof. reflexivity. Qed.
End Quiet.

(** Unfolds the monad's plumbing and drops the debug calls of a quiet state. *)
Ltac quiet_step :=
  unfold bind, ret, gets, modify, _fs_error, eeprom_read_block, eeprom_write_block,
    eeprom_update_block, eeprom_read_byte, set_next_free_block, next_free_block,
    set_alloc_table, set_eeprom, put_stderr, set_filesize, set_first_block,
    set_last_block;
  cbn [alloc_table eeprom wear __debug stderr stdout fst snd
       filename filesize type first_block last_block handle_type_eqb orb andb];
  rewrite ?run_debug1, ?run_debug2, ?run_debug3, ?run_debug4.

Ltac quiet_run := repeat progress quiet_step.

Lemma relink_quiet tb e w err out block target :
  valid_block block = true ->
  NULL_PTR <= target < EEPROM_FS_NUM_BLOCKS ->
  relink block target (mk_state 0 tb e w err out)
  = Some (tt, mk_state 0 tb
                (poke e (get_block_pointer block) (enc16 target) sizeof_lba_t)
                (w + 2) err out).
Proof.
  intros Hb Ht. unfold relink. rewrite Hb.
  replace ((NULL_PTR <=? target) && (target <? EEPROM_FS_NUM_BLOCKS)) with true
    by (symmetry; apply andb_true_iff; split; [apply Z.leb_le | apply Z.ltb_lt]; lia).
  quiet_run. reflexivity.
Qed.

Lemma relink_invalid block target st :
  valid_block block = false ->
  relink block target st
  = Some (tt, put_stderr (Msg "Attempted to write to invalid block %d.\n" [block]) st).
Proof. intros Hb. unfold relink. rewrite Hb. reflexivity. Qed.

(** ** Cells of the medium *)

Arguments get_block_pointer : simpl never.

Lemma poke_outside e dst src n a :
  a < dst \/ dst + n <= a -> poke e dst src n a = e a.
Proof.
  intros H. unfold poke.
  destruct (dst <=? a) eqn:H1; [|reflexivity].
  destruct (a <? dst + n) eqn:H2; [|reflexivity].
  apply Z.leb_le in H1. apply Z.ltb_lt in H2. lia.
Qed.

Lemma poke_inside e dst src n a :
  dst <= a < dst + n -> poke e dst src n a = nth (Z.to_nat (a - dst)) src 0.
Proof.
  intros [H1 H2]. unfold poke.
  apply Z.leb_le in H1. apply Z.ltb_lt in H2. rewrite H1, H2. reflexivity.
Qed.

Lemma block_next_bytes e b :
  block_next e b
  = dec_s16 (e (get_block_pointer b)) (e (get_block_pointer b + 1)).
Proof.
  unfold block_next, dec_block, peek. simpl.
  rewrite Z.add_0_r. reflexivity.
Qed.

Lemma block_payload_bytes e b :
  block_payload e b
  = map (fun k => e (get_block_pointer b + Z.of_nat k))
        (seq 2 (Z.to_nat EEPROM_FS_BLOCK_DATA_SIZE)).
Proof. reflexivity. Qed.

Lemma block_next_frame e e' b :
  (forall a, get_block_pointer b <= a < get_block_pointer b + 2 -> e' a = e a) ->
  block_next e' b = block_next e b.
Proof.
  intros H. rewrite !block_next_bytes.
  rewrite (H (get_block_pointer b)), (H (get_block_pointer b + 1)) by lia.
  reflexivity.
Qed.

Lemma block_payload_frame e e' b :
  (forall a, get_block_pointer b + 2 <= a < get_block_pointer b + 32 -> e' a = e a) ->
  block_payload e' b = block_payload e b.
Proof.
  intros H. rewrite !block_payload_bytes.
  apply map_ext_in. intros k Hk. apply in_seq in Hk.
  apply H. change (Z.to_nat EEPROM_FS_BLOCK_DATA_SIZE) with 30%nat in Hk. lia.
Qed.

Lemma block_next_poke e b t rest n :
  -32768 <= t < 32768 -> 2 <= n ->
  block_next (poke e (get_block_pointer b) (enc16 t ++ rest) n) b = t.
Proof.
  intros Ht Hn. rewrite block_next_bytes.
  rewrite !poke_inside by lia.
  rewrite Z.sub_diag.
  replace (get_block_pointer b + 1 - get_block_pointer b) with 1 by lia.
  simpl. apply dec_s16_enc16, Ht.
Qed.

Lemma take_nth n d l k :
  (k < Z.to_nat n)%nat -> nth k (take n d l) d = nth k l d.
Proof.
  intros Hk. unfold take.
  rewrite (nth_indep _ d ((fun k => nth k l d) 0%nat))
    by (rewrite length_map, length_seq; exact Hk).
  rewrite (map_nth (fun k => nth k l d)), seq_nth by exact Hk.
  reflexivity.
Qed.

Lemma take_length n d l : List.length (take n d l) = Z.to_nat n.
Proof. unfold take. rewrite length_map, length_seq. reflexivity. Qed.

Lemma block_payload_poke e b hd payload :
  List.length hd = 2%nat ->
  block_payload (poke e (get_block_pointer b)
                   (hd ++ take EEPROM_FS_BLOCK_DATA_SIZE 0 payload)
                   EEPROM_FS_BLOCK_SIZE) b
  = take EEPROM_FS_BLOCK_DATA_SIZE 0 payload.
Proof.
  intros Hhd. rewrite block_payload_bytes.
  apply nth_ext with (d := 0) (d' := 0).
  - rewrite length_map, length_seq, take_length. reflexivity.
  - intros k Hk. rewrite length_map, length_seq in Hk.
    change (Z.to_nat EEPROM_FS_BLOCK_DATA_SIZE) with 30%nat in Hk.
    rewrite (nth_indep _ 0 ((fun k => poke e (get_block_pointer b)
                   (hd ++ take EEPROM_FS_BLOCK_DATA_SIZE 0 payload)
                   EEPROM_FS_BLOCK_SIZE (get_block_pointer b + Z.of_nat k)) 0%nat))
      by (rewrite length_map, length_seq; exact Hk).
    rewrite (map_nth (fun k => poke e (get_block_pointer b)
                   (hd ++ take EEPROM_FS_BLOCK_DATA_SIZE 0 payload)
                   EEPROM_FS_BLOCK_SIZE (get_block_pointer b + Z.of_nat k))).
    rewrite seq_nth by exact Hk.
    rewrite poke_inside by (change EEPROM_FS_BLOCK_SIZE with 32; lia).
    replace (Z.to_nat (get_block_pointer b + Z.of_nat (2 + k) - get_block_pointer b))
      with (List.length hd + k)%nat by lia.
    rewrite app_nth2_plus. reflexivity.
Qed.

(** ** Formatting *)

Lemma format_blocks_quiet f bd n :
  forall i tb e w err out,
    0 <= i -> i + Z.of_nat n <= EEPROM_FS_NUM_BLOCKS ->
    exists e' w',
      format_blocks f bd n i (mk_state 0 tb e w err out)
      = Some (tt, mk_state 0 tb e' w' err out)
      /\ (forall j, i <= j < i + Z.of_nat n -> block_next e' j = j - 1)
      /\ (f = FORMAT_FULL ->
          forall j, i <= j < i + Z.of_nat n ->
                    block_payload e' j = take EEPROM_FS_BLOCK_DATA_SIZE 0 bd)
      /\ (f <> FORMAT_FULL ->
          forall j, valid_block j = true -> block_payload e' j = block_payload e j)
      /\ (forall a, a < EEPROM_FS_DATA_OFFSET + EEPROM_FS_BLOCK_SIZE * i
                    \/ EEPROM_FS_DATA_OFFSET + EEPROM_FS_BLOCK_SIZE * (i + Z.of_nat n) <= a ->
                    e' a = e a).
Proof.
  induction n as [|n IH]; intros i tb e w err out Hi Hn.
  - exists e, w. simpl. repeat split; intros; try lia; reflexivity.
  - assert (Hv : valid_block i = true) by (apply valid_block_range; lia).
    pose proof (get_block_pointer_valid i Hv) as Hp.
    cbn [format_blocks]. cbv zeta.
    destruct (format_type_eqb f FORMAT_FULL) eqn:Hf.
    + quiet_run.
      destruct (IH (i + 1) tb
                  (poke e (get_block_pointer i) (enc_block (mk_block (i - 1) bd))
                        EEPROM_FS_BLOCK_SIZE)
                  (w + differing e (get_block_pointer i)
                         (enc_block (mk_block (i - 1) bd)) EEPROM_FS_BLOCK_SIZE)
                  err out) as (e' & w' & Hrun & Hnext & Hfull & _ & Hframe); try lia.
      exists e', w'. rewrite Hrun. split; [reflexivity|].
      assert (Hblk : forall a, get_block_pointer i <= a < get_block_pointer i + 32 ->
                e' a = poke e (get_block_pointer i) (enc_block (mk_block (i - 1) bd))
                            EEPROM_FS_BLOCK_SIZE a).
      { intros a Ha. apply Hframe. left.
        change EEPROM_FS_BLOCK_SIZE with 32 in *. lia. }
      repeat split.
      * intros j Hj. destruct (Z.eq_dec j i) as [->|Hne].
        -- erewrite block_next_frame by (intros; apply Hblk; lia).
           unfold enc_block. cbn [next_block data].
           apply block_next_poke; change EEPROM_FS_BLOCK_SIZE with 32;
             rewrite NUM_BLOCKS_value in *; lia.
        -- apply Hnext. lia.
      * intros _ j Hj. destruct (Z.eq_dec j i) as [->|Hne].
        -- erewrite block_payload_frame by (intros; apply Hblk; lia).
           unfold enc_block. cbn [next_block data].
           apply block_payload_poke. reflexivity.
        -- apply Hfull; [|lia].
           destruct f; try discriminate; reflexivity.
      * intros Hq. destruct f; try discriminate; contradiction.
      * intros a Ha. rewrite Hframe.
        -- apply poke_outside. change EEPROM_FS_BLOCK_SIZE with 32 in *. lia.
        -- change EEPROM_FS_BLOCK_SIZE with 32 in *. lia.
    + unfold bind. cbn [next_block].
      rewrite relink_quiet
        by (assumption || (rewrite ?NUM_BLOCKS_value in *; unfold NULL_PTR; lia)).
      destruct (IH (i + 1) tb
                  (poke e (get_block_pointer i) (enc16 (i - 1)) sizeof_lba_t)
                  (w + 2) err out)
        as (e' & w' & Hrun & Hnext & _ & Hquick & Hframe); try lia.
      exists e', w'. rewrite Hrun. split; [reflexivity|].
      assert (Hblk : forall a, get_block_pointer i <= a < get_block_pointer i + 32 ->
                e' a = poke e (get_block_pointer i) (enc16 (i - 1)) sizeof_lba_t a).
      { intros a Ha. apply Hframe. left.
        change EEPROM_FS_BLOCK_SIZE with 32 in *. lia. }
      repeat split.
      * intros j Hj. destruct (Z.eq_dec j i) as [->|Hne].
        -- erewrite block_next_frame by (intros; apply Hblk; lia).
           rewrite <- (app_nil_r (enc16 (i - 1))).
           apply block_next_poke; change sizeof_lba_t with 2;
             rewrite NUM_BLOCKS_value in *; lia.
        -- apply Hnext. lia.
      * intros Hq. rewrite Hq in Hf. discriminate.
      * intros Hq j Hj. rewrite Hquick by assumption.
        apply block_payload_frame. intros a Ha.
        apply poke_outside.
        pose proof (get_block_pointer_valid j Hj) as Hpj.
        apply valid_block_range in Hj.
        change EEPROM_FS_BLOCK_SIZE with 32 in *. change sizeof_lba_t with 2. lia.
      * intros a Ha. rewrite Hframe.
        -- apply poke_outside. change EEPROM_FS_BLOCK_SIZE with 32 in *.
           change sizeof_lba_t with 2. lia.
        -- change EEPROM_FS_BLOCK_SIZE with 32 in *. lia.
Qed.

Lemma wipe_loop_quiet n :
  forall i tb e w err out,
    exists e' w',
      wipe_loop n i (mk_state 0 tb e w err out) = Some (tt, mk_state 0 tb e' w' err out).
Proof.
  induction n as [|n IH]; intros i tb e w err out.
  - exists e, w. reflexivity.
  - cbn [wipe_loop]. unfold eeprom_write_dword. quiet_run. apply IH.
Qed.

Lemma clear_allocations_quiet null n :
  forall i tb e w err out,
    exists tb',
      clear_allocations null n i (mk_state 0 tb e w err out)
      = Some (tt, mk_state 0 tb' e w err out)
      /\ (forall j, i <= j < i + Z.of_nat n -> tb' j = null)
      /\ (forall j, j < i \/ i + Z.of_nat n <= j -> tb' j = tb j).
Proof.
  induction n as [|n IH]; intros i tb e w err out.
  - exists tb. simpl. repeat split; intros; try lia; reflexivity.
  - cbn [clear_allocations]. quiet_run.
    destruct (IH (i + 1) (upd_table tb i null) e w err out) as (tb' & Hrun & Hin & Hout).
    exists tb'. rewrite Hrun. repeat split.
    + intros j Hj. destruct (Z.eq_dec j i) as [->|Hne].
      * rewrite Hout by lia. unfold upd_table. rewrite Z.eqb_refl. reflexivity.
      * apply Hin. lia.
    + intros j Hj. rewrite Hout by lia. unfold upd_table.
      destruct (j =? i) eqn:E; [apply Z.eqb_eq in E; lia | reflexivity].
Qed.

Lemma alloc_entry_address_small n :
  0 <= n <= EEPROM_FS_MAX_FILES ->
  alloc_entry_address n = EEPROM_FS_ALLOC_TABLE_OFFSET + sizeof_file_alloc_t * n.
Proof.
  intros Hn. unfold alloc_entry_address, u16, EEPROM_FS_START.
  change EEPROM_FS_ALLOC_TABLE_OFFSET with 10. change sizeof_file_alloc_t with 4.
  change EEPROM_FS_MAX_FILES with 29 in Hn.
  rewrite Z.mod_small by lia. lia.
Qed.

Lemma stored_entry_bytes e n :
  stored_entry e n
  = dec_file_alloc [e (alloc_entry_address n); e (alloc_entry_address n + 1);
                    e (alloc_entry_address n + 2); e (alloc_entry_address n + 3)].
Proof.
  unfold stored_entry, peek. simpl. rewrite Z.add_0_r. reflexivity.
Qed.

Lemma stored_entry_frame e e' n :
  (forall a, alloc_entry_address n <= a < alloc_entry_address n + 4 -> e' a = e a) ->
  stored_entry e' n = stored_entry e n.
Proof.
  intros H. rewrite !stored_entry_bytes.
  rewrite (H (alloc_entry_address n)), (H (alloc_entry_address n + 1)),
    (H (alloc_entry_address n + 2)), (H (alloc_entry_address n + 3)) by lia.
  reflexivity.
Qed.

Lemma dec_enc_file_alloc a :
  0 <= alloc_filesize a < 65536 -> -32768 <= data_block a < 32768 ->
  dec_file_alloc (enc_file_alloc a) = a.
Proof.
  intros H1 H2. destruct a as [fs db]. unfold dec_file_alloc, enc_file_alloc, enc16.
  cbn [alloc_filesize data_block app nth] in *.
  rewrite dec_u16_enc16, dec_s16_enc16 by assumption. reflexivity.
Qed.

(** One entry written in place decodes to itself. *)
Lemma stored_entry_poke e n a :
  0 <= alloc_filesize a < 65536 -> -32768 <= data_block a < 32768 ->
  stored_entry (poke e (alloc_entry_address n) (enc_file_alloc a) sizeof_file_alloc_t) n
  = a.
Proof.
  intros H1 H2. rewrite stored_entry_bytes.
  change sizeof_file_alloc_t with 4.
  rewrite !poke_inside by lia.
  rewrite Z.sub_diag.
  replace (alloc_entry_address n + 1 - alloc_entry_address n) with 1 by lia.
  replace (alloc_entry_address n + 2 - alloc_entry_address n) with 2 by lia.
  replace (alloc_entry_address n + 3 - alloc_entry_address n) with 3 by lia.
  rewrite <- (dec_enc_file_alloc a H1 H2) at 5.
  destruct a as [fs db]. reflexivity.
Qed.

Lemma nth_flat_map_chunks (f : nat -> list Z) (c : nat) :
  (forall i, List.length (f i) = c) ->
  forall m s i k,
    (i < m)%nat -> (k < c)%nat ->
    nth (c * i + k) (flat_map f (seq s m)) 0 = nth k (f (s + i)%nat) 0.
Proof.
  intros Hc. induction m as [|m IH]; intros s i k Hi Hk; [lia|].
  cbn [seq flat_map]. destruct i as [|i].
  - rewrite Nat.mul_0_r, Nat.add_0_l, Nat.add_0_r.
    apply app_nth1. rewrite Hc. exact Hk.
  - replace (c * S i + k)%nat with (List.length (f s) + (c * i + k))%nat
      by (rewrite Hc; lia).
    rewrite app_nth2_plus, IH by lia.
    f_equal. f_equal. lia.
Qed.

(** The whole table written at its offset: every entry decodes to itself. *)
Lemma stored_entry_poke_table e t n :
  0 <= n <= EEPROM_FS_MAX_FILES ->
  0 <= alloc_filesize (t n) < 65536 -> -32768 <= data_block (t n) < 32768 ->
  stored_entry (poke e (EEPROM_FS_START + EEPROM_FS_ALLOC_TABLE_OFFSET)
                     (enc_alloc_table t) sizeof_alloc_table) n
  = t n.
Proof.
  intros Hn H1 H2. rewrite stored_entry_bytes, alloc_entry_address_small by exact Hn.
  change EEPROM_FS_MAX_FILES with 29 in Hn.
  change (EEPROM_FS_START + EEPROM_FS_ALLOC_TABLE_OFFSET) with 10.
  change EEPROM_FS_ALLOC_TABLE_OFFSET with 10.
  change sizeof_file_alloc_t with 4. change sizeof_alloc_table with 120.
  rewrite !poke_inside by lia.
  assert (Hnth : forall k, (k < 4)%nat ->
            nth (Z.to_nat (10 + 4 * n + Z.of_nat k - 10)) (enc_alloc_table t) 0
            = nth k (enc_file_alloc (t n)) 0).
  { intros k Hk. unfold enc_alloc_table.
    replace (Z.to_nat (10 + 4 * n + Z.of_nat k - 10)) with (4 * Z.to_nat n + k)%nat by lia.
    rewrite (nth_flat_map_chunks _ 4) by (reflexivity || (change (Z.to_nat (EEPROM_FS_MAX_FILES + 1)) with 30%nat; lia)).
    rewrite Nat.add_0_l, Z2Nat.id by lia. reflexivity. }
  pose proof (Hnth 0%nat ltac:(lia)) as E0. pose proof (Hnth 1%nat ltac:(lia)) as E1.
  pose proof (Hnth 2%nat ltac:(lia)) as E2. pose proof (Hnth 3%nat ltac:(lia)) as E3.
  cbn [Z.of_nat Pos.of_succ_nat Pos.succ] in E0, E1, E2, E3.
  rewrite Z.add_0_r in E0. rewrite E0, E1, E2, E3.
  rewrite <- (dec_enc_file_alloc (t n) H1 H2) at 5.
  destruct (t n) as [fs db]. reflexivity.
Qed.

Lemma format_quiet f tb e w err out :
  exists tb' e' w',
    format_eepromfs f (mk_state 0 tb e w err out)
    = Some (tt, mk_state 0 tb' e' w' err out)
    /\ (forall i, 0 <= i < EEPROM_FS_NUM_BLOCKS -> block_next e' i = i - 1)
    /\ (f = FORMAT_FULL ->
        forall i, 0 <= i < EEPROM_FS_NUM_BLOCKS ->
                  block_payload e' i = repeat 0 (Z.to_nat EEPROM_FS_BLOCK_DATA_SIZE))
    /\ (f = FORMAT_QUICK ->
        forall i, 0 <= i < EEPROM_FS_NUM_BLOCKS -> block_payload e' i = block_payload e i)
    /\ (forall n, 0 <= n < EEPROM_FS_MAX_FILES -> tb' n = mk_file_alloc 0 NULL_PTR)
    /\ tb' EEPROM_FS_MAX_FILES = mk_file_alloc 0 (EEPROM_FS_NUM_BLOCKS - 1)
    /\ (forall n, 0 <= n <= EEPROM_FS_MAX_FILES -> stored_entry e' n = tb' n)
    /\ stored_meta e' = this_meta.
Proof.
  unfold format_eepromfs. quiet_run.
  assert (Hwipe : exists e0 w0,
             (if format_type_eqb f FORMAT_WIPE then wipe_eeprom else fun st => Some (tt, st))
               (mk_state 0 tb e w err out) = Some (tt, mk_state 0 tb e0 w0 err out)
             /\ (f = FORMAT_QUICK -> e0 = e)).
  { destruct f; cbn [format_type_eqb]; try (exists e, w; split; reflexivity).
    destruct (wipe_loop_quiet (Z.to_nat (EEPROM_FS_SIZE / sizeof_uint32_t)) 0 tb e w err out)
      as (e0 & w0 & H).
    exists e0, w0. split; [exact H | discriminate]. }
  destruct Hwipe as (e0 & w0 & -> & He0).
  match goal with
  | |- context [format_blocks f ?bd _ _ _] =>
      destruct (format_blocks_quiet f bd (Z.to_nat EEPROM_FS_NUM_BLOCKS) 0 tb e0 w0 err out)
        as (e1 & w1 & Hrun & Hnext & Hfull & Hquick & _);
      [lia | rewrite NUM_BLOCKS_value; simpl; lia | rewrite Hrun ]
  end.
  quiet_run.
  destruct (clear_allocations_quiet (mk_file_alloc 0 NULL_PTR)
              (Z.to_nat EEPROM_FS_MAX_FILES) 0 tb e1 w1 err out)
    as (tb1 & Hclr & Hnull & _).
  rewrite Hclr. quiet_run.
  eexists _, _, _. split; [reflexivity|].
  assert (Hpool : forall i a, 0 <= i < EEPROM_FS_NUM_BLOCKS ->
            get_block_pointer i <= a < get_block_pointer i + 32 ->
            poke (poke e1 (EEPROM_FS_START + EEPROM_FS_ALLOC_TABLE_OFFSET)
                       (enc_alloc_table
                          (upd_table tb1 EEPROM_FS_MAX_FILES
                             (mk_file_alloc 0 (EEPROM_FS_NUM_BLOCKS - 1))))
                       sizeof_alloc_table)
                 (EEPROM_FS_START + EEPROM_FS_META_OFFSET)
                 (enc_fs_meta this_meta) sizeof_fs_meta_t a = e1 a).
  { intros i a Hi Ha.
    rewrite (get_block_pointer_valid i) in Ha by (apply valid_block_range; exact Hi).
    rewrite NUM_BLOCKS_value in Hi.
    change EEPROM_FS_DATA_OFFSET with 130 in Ha. change EEPROM_FS_BLOCK_SIZE with 32 in Ha.
    rewrite !poke_outside; [reflexivity | |].
    - change (EEPROM_FS_START + EEPROM_FS_ALLOC_TABLE_OFFSET) with 10.
      change sizeof_alloc_table with 120. lia.
    - change (EEPROM_FS_START + EEPROM_FS_META_OFFSET) with 0.
      change sizeof_fs_meta_t with 10. lia. }
  repeat split.
  - intros i Hi. erewrite block_next_frame by (intros; apply (Hpool i); lia).
    apply Hnext. rewrite NUM_BLOCKS_value in *. simpl. lia.
  - intros -> i Hi. erewrite block_payload_frame by (intros; apply (Hpool i); lia).
    rewrite Hfull; [reflexivity | reflexivity |].
    rewrite NUM_BLOCKS_value in *. simpl. lia.
  - intros -> i Hi. erewrite block_payload_frame by (intros; apply (Hpool i); lia).
    rewrite Hquick by (discriminate || (apply valid_block_range; exact Hi)).
    rewrite He0 by reflexivity. reflexivity.
  - intros n Hn. unfold upd_table.
    destruct (n =? EEPROM_FS_MAX_FILES) eqn:E; [apply Z.eqb_eq in E; lia|].
    apply Hnull. change (Z.of_nat (Z.to_nat EEPROM_FS_MAX_FILES)) with EEPROM_FS_MAX_FILES. lia.
  - intros n Hn.
    erewrite stored_entry_frame.
    + apply stored_entry_poke_table; [exact Hn | |];
        unfold upd_table; destruct (n =? EEPROM_FS_MAX_FILES) eqn:E;
        cbn [alloc_filesize data_block]; try (rewrite ?NUM_BLOCKS_value; lia);
        rewrite Hnull
          by (apply Z.eqb_neq in E;
              change (Z.of_nat (Z.to_nat EEPROM_FS_MAX_FILES)) with EEPROM_FS_MAX_FILES; lia);
        cbn [alloc_filesize data_block]; unfold NULL_PTR; lia.
    + intros a Ha. rewrite alloc_entry_address_small in Ha by exact Hn.
      change EEPROM_FS_MAX_FILES with 29 in Hn.
      change EEPROM_FS_ALLOC_TABLE_OFFSET with 10 in Ha.
      change sizeof_file_alloc_t with 4 in Ha.
      apply poke_outside.
      change (EEPROM_FS_START + EEPROM_FS_META_OFFSET) with 0.
      change sizeof_fs_meta_t with 10. lia.
Qed.

(** C8. Format postcondition: after [format_eepromfs] in any mode (FULL and
    QUICK in particular) every block [i] of the pool has [next = i - 1], so
    block 0 ends the free chain and block [NUM_BLOCKS - 1] heads it; a full
    format also zeroes every payload while a quick one leaves payloads as they
    were; all [MAX_FILES] file entries of the RAM table are [{0, null}], the
    sentinel entry is [{0, NUM_BLOCKS - 1}], and the stored table and the stored
    metadata header decode to the RAM table and to the compiled configuration. *)
Theorem format_postcondition (f : format_type_t) (st : fs_state) :
  exists st',
    format_eepromfs f st = Some (tt, st')
    /\ (forall i, 0 <= i < EEPROM_FS_NUM_BLOCKS -> block_next (eeprom st') i = i - 1)
    /\ (f = FORMAT_FULL ->
        forall i, 0 <= i < EEPROM_FS_NUM_BLOCKS ->
                  block_payload (eeprom st') i
                  = repeat 0 (Z.to_nat EEPROM_FS_BLOCK_DATA_SIZE))
    /\ (f = FORMAT_QUICK ->
        forall i, 0 <= i < EEPROM_FS_NUM_BLOCKS ->
                  block_payload (eeprom st') i = block_payload (eeprom st) i)
    /\ (forall n, 0 <= n < EEPROM_FS_MAX_FILES ->
                  alloc_table st' n = mk_file_alloc 0 NULL_PTR)
    /\ alloc_table st' EEPROM_FS_MAX_FILES = mk_file_alloc 0 (EEPROM_FS_NUM_BLOCKS - 1)
    /\ (forall n, 0 <= n <= EEPROM_FS_MAX_FILES ->
                  stored_entry (eeprom st') n = alloc_table st' n)
    /\ stored_meta (eeprom st') = this_meta.
Proof.
  destruct (format_quiet f (alloc_table st) (eeprom st) (wear st) [] [])
    as (tb' & e' & w' & Hrun & H).
  destruct (run_quiet (format_eepromfs f) st tt _ (ni_format_eepromfs f) Hrun)
    as (st' & Hst & Hcore).
  exists st'. split; [exact Hst|].
  unfold core in Hcore. cbn [alloc_table eeprom wear] in Hcore.
  injection Hcore as -> -> _. exact H.
Qed.

(** ** Buffers *)

Lemma store_length buf i v :
  i < Z.of_nat (List.length buf) -> List.length (store buf i v) = List.length buf.
Proof.
  intros Hi. unfold store.
  replace (i <? Z.of_nat (List.length buf)) with true by (symmetry; apply Z.ltb_lt; exact Hi).
  destruct (0 <=? i) eqn:H; [|reflexivity]. apply Z.leb_le in H.
  rewrite length_app, length_firstn. cbn [List.length]. rewrite length_skipn. lia.
Qed.

(** A store past the end makes the list reach up to the cell stored to. *)
Lemma store_length_past buf i v :
  Z.of_nat (List.length buf) <= i -> List.length (store buf i v) = S (Z.to_nat i).
Proof.
  intros Hi. unfold store.
  replace (i <? Z.of_nat (List.length buf)) with false by (symmetry; apply Z.ltb_ge; exact Hi).
  rewrite !length_app, repeat_length. cbn [List.length]. lia.
Qed.

Lemma store_length_le buf i v : (List.length buf <= List.length (store buf i v))%nat.
Proof.
  destruct (Z.lt_ge_cases i (Z.of_nat (List.length buf))) as [H|H].
  - rewrite store_length by exact H. lia.
  - rewrite store_length_past by exact H. lia.
Qed.

Lemma store_nth_same buf i v : 0 <= i -> nth (Z.to_nat i) (store buf i v) 0 = v.
Proof.
  intros H1. unfold store.
  destruct (i <? Z.of_nat (List.length buf)) eqn:H2.
  - apply Z.ltb_lt in H2. apply Z.leb_le in H1 as H1'. rewrite H1'.
    rewrite app_nth2; rewrite length_firstn, Nat.min_l by lia; [|lia].
    rewrite Nat.sub_diag. reflexivity.
  - apply Z.ltb_ge in H2.
    rewrite app_nth2 by lia. rewrite app_nth2 by (rewrite repeat_length; lia).
    rewrite repeat_length. rewrite Nat.sub_diag. reflexivity.
Qed.

Lemma skipn_cons_nth (buf : list Z) :
  forall m, (m < List.length buf)%nat ->
            skipn m buf = nth m buf 0 :: skipn (S m) buf.
Proof.
  induction buf as [|x buf IH]; intros m Hm; cbn [List.length] in Hm; [lia|].
  destruct m as [|m]; [reflexivity|].
  cbn [skipn nth]. apply IH. lia.
Qed.

Lemma nth_repeat_0 n k : nth k (repeat 0 n) 0 = 0.
Proof.
  revert k. induction n as [|n IH]; intros [|k]; cbn [repeat nth]; auto.
Qed.

Lemma store_nth_other buf i v k :
  Z.of_nat k <> i -> nth k (store buf i v) 0 = nth k buf 0.
Proof.
  intros Hk. unfold store.
  destruct (i <? Z.of_nat (List.length buf)) eqn:H2.
  - apply Z.ltb_lt in H2. destruct (0 <=? i) eqn:H1; [|reflexivity].
    apply Z.leb_le in H1.
    rewrite <- (firstn_skipn (Z.to_nat i) buf) at 3.
    destruct (Nat.lt_ge_cases k (Z.to_nat i)) as [Hlt|Hge].
    + rewrite !app_nth1 by (rewrite length_firstn; lia). reflexivity.
    + rewrite !app_nth2 by (rewrite length_firstn; lia).
      rewrite length_firstn, Nat.min_l by lia.
      destruct (k - Z.to_nat i)%nat as [|d] eqn:E; [lia|].
      rewrite (skipn_cons_nth buf (Z.to_nat i)) by lia.
      reflexivity.
  - apply Z.ltb_ge in H2.
    destruct (Nat.lt_ge_cases k (List.length buf)) as [Hlt|Hge].
    + apply app_nth1. exact Hlt.
    + rewrite app_nth2 by exact Hge. rewrite (nth_overflow buf) by exact Hge.
      destruct (Nat.lt_ge_cases (k - List.length buf) (Z.to_nat i - List.length buf))
        as [Hl|Hg].
      * rewrite app_nth1 by (rewrite repeat_length; exact Hl). apply nth_repeat_0.
      * rewrite app_nth2 by (rewrite repeat_length; exact Hg). rewrite repeat_length.
        destruct (k - List.length buf - (Z.to_nat i - List.length buf))%nat as [|d] eqn:E;
          [lia|]. cbn [nth]. destruct d; reflexivity.
Qed.

(** ** Chains *)

Lemma chain_prefix_length k e b : List.length (chain_prefix k e b) = k.
Proof. revert b. induction k; intros b; simpl; auto. Qed.

Lemma chain_prefix_frame e e' k :
  forall b,
    forallb valid_block (chain_prefix k e b) = true ->
    (forall x, valid_block x = true -> block_next e' x = block_next e x) ->
    chain_prefix k e' b = chain_prefix k e b.
Proof.
  induction k as [|k IH]; intros b Hv Hf; [reflexivity|].
  cbn [chain_prefix forallb] in *. apply andb_true_iff in Hv. destruct Hv as [Hb Hv].
  rewrite (Hf b Hb). f_equal. apply IH; assumption.
Qed.


Lemma last_cons_indep (x : Z) (l : list Z) (d d' : Z) :
  last (x :: l) d = last (x :: l) d'.
Proof.
  revert x. induction l as [|y l IH]; intros x; [reflexivity|].
  change (last (x :: y :: l) d) with (last (y :: l) d).
  change (last (x :: y :: l) d') with (last (y :: l) d'). apply IH.
Qed.

Lemma last_cons_In (x : Z) (l : list Z) (d : Z) : In (last (x :: l) d) (x :: l).
Proof.
  revert x. induction l as [|y l IH]; intros x; [left; reflexivity|].
  change (last (x :: y :: l) d) with (last (y :: l) d). right. apply IH.
Qed.

Lemma chain_prefix_snoc k e :
  forall b, chain_prefix (S k) e b = chain_prefix k e b ++ [chain_after k e b].
Proof.
  induction k as [|k IH]; intros b; [reflexivity|].
  change (chain_prefix (S (S k)) e b)
    with (b :: chain_prefix (S k) e (block_next e b)).
  rewrite IH. reflexivity.
Qed.

Lemma chain_walk_last fuel e :
  forall b l, chain_walk fuel e b = Some l -> block_next e (last l b) = NULL_PTR.
Proof.
  induction fuel as [|fuel IH]; intros b l H; [discriminate|].
  cbn [chain_walk] in H.
  destruct (block_next e b =? NULL_PTR) eqn:E; cbn [negb] in H.
  - injection H as <-. apply Z.eqb_eq in E. exact E.
  - destruct (chain_walk fuel e (block_next e b)) as [l'|] eqn:W; [|discriminate].
    injection H as <-. specialize (IH _ _ W).
    destruct l' as [|x l'];
      [|change (last (b :: x :: l') b) with (last (x :: l') b);
        rewrite (last_cons_indep x l' b (block_next e b)); exact IH].
    destruct fuel; [discriminate|]. cbn [chain_walk] in W.
    destruct (negb (block_next e (block_next e b) =? NULL_PTR));
      [destruct (chain_walk fuel e _)|]; discriminate.
Qed.

(** A prefix of [k] distinct valid blocks whose links are kept, except that the
    last one now points to null, is the whole chain. *)
Lemma chain_walk_of_prefix e e' k :
  forall b fuel,
    (k < fuel)%nat ->
    forallb valid_block (chain_prefix (S k) e b) = true ->
    NoDup (chain_prefix (S k) e b) ->
    (forall x, In x (chain_prefix k e b) -> block_next e' x = block_next e x) ->
    block_next e' (chain_after k e b) = NULL_PTR ->
    chain_walk fuel e' b = Some (chain_prefix (S k) e b).
Proof.
  induction k as [|k IH]; intros b fuel Hfuel Hv Hnd Hkeep Hend.
  - destruct fuel; [lia|]. cbn [chain_walk chain_prefix chain_after] in *.
    rewrite Hend. reflexivity.
  - destruct fuel; [lia|].
    cbn [chain_prefix forallb] in Hv. apply andb_true_iff in Hv. destruct Hv as [Hb Hv].
    change (chain_prefix (S (S k)) e b)
      with (b :: chain_prefix (S k) e (block_next e b)) in *.
    inversion Hnd as [|? ? Hnotin Hnd']; subst.
    cbn [chain_walk].
    assert (Hnext : block_next e' b = block_next e b)
      by (apply Hkeep; cbn [chain_prefix]; left; reflexivity).
    rewrite Hnext.
    assert (Hvn : valid_block (block_next e b) = true).
    { cbn [chain_prefix forallb] in Hv. apply andb_true_iff in Hv. apply Hv. }
    apply valid_block_range in Hvn.
    replace (block_next e b =? NULL_PTR) with false
      by (symmetry; apply Z.eqb_neq; unfold NULL_PTR; lia).
    cbn [negb].
    rewrite (IH (block_next e b) fuel); try assumption; try lia.
    + reflexivity.
    + intros x Hx. apply Hkeep. cbn [chain_prefix]. right. exact Hx.
Qed.

Lemma chain_after_frame e e' k :
  forall b,
    forallb valid_block (chain_prefix k e b) = true ->
    (forall x, valid_block x = true -> block_next e' x = block_next e x) ->
    chain_after k e' b = chain_after k e b.
Proof.
  induction k as [|k IH]; intros b Hv Hf; [reflexivity|].
  cbn [chain_prefix forallb chain_after] in *.
  apply andb_true_iff in Hv. destruct Hv as [Hb Hv].
  rewrite (Hf b Hb). apply IH; assumption.
Qed.

Lemma chain_prefix_last k e :
  forall b d, last (chain_prefix (S k) e b) d = chain_after k e b.
Proof.
  induction k as [|k IH]; intros b d; [reflexivity|].
  change (chain_prefix (S (S k)) e b)
    with (b :: chain_prefix (S k) e (block_next e b)).
  change (last (b :: chain_prefix (S k) e (block_next e b)) d)
    with (last (chain_prefix (S k) e (block_next e b)) d).
  rewrite IH. reflexivity.
Qed.

(** ** Writing blocks *)

(** A payload stored into block [h] leaves every link of the pool as it was. *)
Lemma block_next_poke_payload e h bd x :
  valid_block h = true -> valid_block x = true ->
  block_next (poke e (get_block_pointer h + 2) bd EEPROM_FS_BLOCK_DATA_SIZE) x
  = block_next e x.
Proof.
  intros Hh Hx. apply block_next_frame. intros a Ha. apply poke_outside.
  rewrite (get_block_pointer_valid h Hh). rewrite (get_block_pointer_valid x Hx) in Ha.
  apply valid_block_range in Hh, Hx.
  change EEPROM_FS_BLOCK_SIZE with 32 in *. change EEPROM_FS_BLOCK_DATA_SIZE with 30.
  lia.
Qed.

Lemma write_block_data_quiet tb e w err out bd h :
  data_block (tb EEPROM_FS_MAX_FILES) = h ->
  valid_block h = true ->
  write_block_data bd (mk_state 0 tb e w err out)
  = Some (h, mk_state 0
               (upd_table tb EEPROM_FS_MAX_FILES
                  (mk_file_alloc (alloc_filesize (tb EEPROM_FS_MAX_FILES))
                                 (block_next e h)))
               (poke e (get_block_pointer h + 2) bd EEPROM_FS_BLOCK_DATA_SIZE)
               (w + 30) err out).
Proof.
  intros Hh Hv. unfold write_block_data. quiet_run. rewrite Hh, Hv. quiet_run.
  replace (u16 (get_block_pointer h + (EEPROM_FS_BLOCK_SIZE - EEPROM_FS_BLOCK_DATA_SIZE)))
    with (get_block_pointer h + 2).
  - reflexivity.
  - rewrite (get_block_pointer_valid h Hv). apply valid_block_range in Hv.
    rewrite NUM_BLOCKS_value in Hv. unfold u16.
    change EEPROM_FS_DATA_OFFSET with 130. change EEPROM_FS_BLOCK_SIZE with 32.
    change EEPROM_FS_BLOCK_DATA_SIZE with 30.
    rewrite Z.mod_small by lia. lia.
Qed.

Lemma write_block_data_no_free bd st :
  valid_block (next_free_block st) = false ->
  write_block_data bd st
  = Some (NULL_PTR,
          put_stderr (Msg "Attempted to write to invalid block %d.\n" [next_free_block st]) st).
Proof.
  intros Hv. unfold write_block_data, bind, gets. rewrite Hv. reflexivity.
Qed.

Lemma write_copy_quiet tb e w err out n :
  forall i j data bd,
    0 <= j ->
    exists bd',
      write_copy n i j data bd (mk_state 0 tb e w err out)
      = Some (bd', mk_state 0 tb e w err out)
      /\ (j + Z.of_nat n <= Z.of_nat (List.length bd) ->
          List.length bd' = List.length bd
          /\ (forall k, j <= Z.of_nat k < j + Z.of_nat n -> (k < List.length bd)%nat ->
                        nth k bd' 0
                        = nth (Z.to_nat (u16 (i * EEPROM_FS_BLOCK_DATA_SIZE + Z.of_nat k)))
                              data 0)
          /\ (forall k, Z.of_nat k < j \/ j + Z.of_nat n <= Z.of_nat k ->
                        nth k bd' 0 = nth k bd 0)).
Proof.
  induction n as [|n IH]; intros i j data bd Hj.
  - exists bd. split; [reflexivity|]. intros _. repeat split; intros; try lia; reflexivity.
  - cbn [write_copy]. cbv zeta. quiet_run.
    destruct (IH i (j + 1) data
                (store bd j (nth (Z.to_nat (u16 (i * EEPROM_FS_BLOCK_DATA_SIZE + j))) data 0)))
      as (bd' & Hrun & Hfacts); [lia|].
    exists bd'. rewrite Hrun. split; [reflexivity|]. intros Hfit.
    destruct Hfacts as (Hlen & Hin & Hout); [rewrite store_length by lia; lia|].
    rewrite store_length in Hlen by lia. split; [exact Hlen|]. split.
    + intros k Hk Hkl. destruct (Z.eq_dec (Z.of_nat k) j) as [E|E].
      * rewrite Hout by lia. subst j.
        rewrite <- (Nat2Z.id k) at 1. rewrite store_nth_same by lia. reflexivity.
      * apply Hin; [lia|]. rewrite store_length by lia. exact Hkl.
    + intros k Hk. rewrite Hout by lia. apply store_nth_other. lia.
Qed.

Lemma block_payload_poke_same e h bd :
  List.length bd = Z.to_nat EEPROM_FS_BLOCK_DATA_SIZE ->
  block_payload (poke e (get_block_pointer h + 2) bd EEPROM_FS_BLOCK_DATA_SIZE) h = bd.
Proof.
  intros Hlen. rewrite block_payload_bytes.
  apply nth_ext with (d := 0) (d' := 0).
  - rewrite length_map, length_seq. symmetry. exact Hlen.
  - intros k Hk. rewrite length_map, length_seq in Hk.
    change (Z.to_nat EEPROM_FS_BLOCK_DATA_SIZE) with 30%nat in *.
    pose (g := fun k => poke e (get_block_pointer h + 2) bd EEPROM_FS_BLOCK_DATA_SIZE
                             (get_block_pointer h + Z.of_nat k)).
    change (nth k (map g (seq 2 30)) 0 = nth k bd 0).
    rewrite (nth_indep _ 0 (g 0%nat)) by (rewrite length_map, length_seq; exact Hk).
    rewrite (map_nth g), seq_nth by exact Hk. unfold g.
    rewrite poke_inside by (change EEPROM_FS_BLOCK_DATA_SIZE with 30; lia).
    f_equal. lia.
Qed.

Lemma block_payload_poke_other e h bd x :
  valid_block h = true -> valid_block x = true -> x <> h ->
  block_payload (poke e (get_block_pointer h + 2) bd EEPROM_FS_BLOCK_DATA_SIZE) x
  = block_payload e x.
Proof.
  intros Hh Hx Hne. apply block_payload_frame. intros a Ha. apply poke_outside.
  rewrite (get_block_pointer_valid h Hh). rewrite (get_block_pointer_valid x Hx) in Ha.
  apply valid_block_range in Hh, Hx.
  change EEPROM_FS_BLOCK_SIZE with 32 in *. change EEPROM_FS_BLOCK_DATA_SIZE with 30.
  lia.
Qed.

Lemma poke_payload_low e h bd a :
  valid_block h = true -> a < EEPROM_FS_DATA_OFFSET ->
  poke e (get_block_pointer h + 2) bd EEPROM_FS_BLOCK_DATA_SIZE a = e a.
Proof.
  intros Hh Ha. apply poke_outside.
  rewrite (get_block_pointer_valid h Hh). apply valid_block_range in Hh.
  change EEPROM_FS_BLOCK_SIZE with 32. lia.
Qed.

Lemma write_blocks_quiet n :
  forall i data size nb bd last tb e w err out,
    forallb valid_block (chain_prefix n e (data_block (tb EEPROM_FS_MAX_FILES))) = true ->
    exists last' tb' e' w',
      write_blocks n i data size nb bd last (mk_state 0 tb e w err out)
      = Some (last', mk_state 0 tb' e' w' err out)
      /\ (forall j, j <> EEPROM_FS_MAX_FILES -> tb' j = tb j)
      /\ tb' EEPROM_FS_MAX_FILES
         = mk_file_alloc (alloc_filesize (tb EEPROM_FS_MAX_FILES))
                         (chain_after n e (data_block (tb EEPROM_FS_MAX_FILES)))
      /\ last' = List.last (chain_prefix n e (data_block (tb EEPROM_FS_MAX_FILES))) last
      /\ (forall x, valid_block x = true -> block_next e' x = block_next e x)
      /\ (forall a, a < EEPROM_FS_DATA_OFFSET -> e' a = e a)
      /\ (forall x, valid_block x = true ->
                    ~ In x (chain_prefix n e (data_block (tb EEPROM_FS_MAX_FILES))) ->
                    block_payload e' x = block_payload e x)
      /\ (NoDup (chain_prefix n e (data_block (tb EEPROM_FS_MAX_FILES))) ->
          0 <= i -> (i + Z.of_nat n) * EEPROM_FS_BLOCK_DATA_SIZE < 65536 ->
          0 <= size ->
          nb = EEPROM_FS_BLOCK_DATA_SIZE
          \/ (size < i * EEPROM_FS_BLOCK_DATA_SIZE /\ nb = size mod EEPROM_FS_BLOCK_DATA_SIZE) ->
          List.length bd = Z.to_nat EEPROM_FS_BLOCK_DATA_SIZE ->
          forall j k,
            (j < n)%nat -> 0 <= Z.of_nat k < bytes_at size (i + Z.of_nat j) ->
            nth k (block_payload e'
                     (nth j (chain_prefix n e (data_block (tb EEPROM_FS_MAX_FILES))) 0)) 0
            = nth (Z.to_nat ((i + Z.of_nat j) * EEPROM_FS_BLOCK_DATA_SIZE + Z.of_nat k)) data 0).
Proof.
  induction n as [|n IH]; intros i data size nb bd last tb e w err out Hv.
  - exists last, tb, e, w. cbn [write_blocks chain_prefix chain_after List.last].
    split; [reflexivity|]. split; [reflexivity|].
    split; [destruct (tb EEPROM_FS_MAX_FILES); reflexivity|].
    repeat split; intros; try reflexivity; lia.
  - set (h := data_block (tb EEPROM_FS_MAX_FILES)) in *.
    cbn [chain_prefix forallb] in Hv. apply andb_true_iff in Hv. destruct Hv as [Hh Hv].
    cbn [write_blocks]. cbv zeta.
    set (nb' := if size <? u16 ((i + 1) * EEPROM_FS_BLOCK_DATA_SIZE)
                then size mod EEPROM_FS_BLOCK_DATA_SIZE else nb).
    unfold bind at 1.
    destruct (write_copy_quiet tb e w err out (Z.to_nat nb') i 0 data bd ltac:(lia))
      as (bd' & Hcopy & Hfacts).
    rewrite Hcopy. unfold bind at 1.
    rewrite (write_block_data_quiet tb e w err out bd' h eq_refl Hh).
    set (tb1 := upd_table tb EEPROM_FS_MAX_FILES
                  (mk_file_alloc (alloc_filesize (tb EEPROM_FS_MAX_FILES)) (block_next e h))).
    set (e1 := poke e (get_block_pointer h + 2) bd' EEPROM_FS_BLOCK_DATA_SIZE).
    assert (Hsent : data_block (tb1 EEPROM_FS_MAX_FILES) = block_next e h)
      by (unfold tb1, upd_table; rewrite Z.eqb_refl; reflexivity).
    assert (Hnext1 : forall x, valid_block x = true -> block_next e1 x = block_next e x)
      by (intros x Hx; apply block_next_poke_payload; assumption).
    assert (Hpre : chain_prefix n e1 (block_next e h) = chain_prefix n e (block_next e h))
      by (apply chain_prefix_frame; assumption).
    assert (Haft : chain_after n e1 (block_next e h) = chain_after n e (block_next e h))
      by (apply chain_after_frame; assumption).
    destruct (IH (i + 1) data size nb' bd' h tb1 e1 (w + 30) err out)
      as (last' & tb' & e' & w' & Hrun & Htb & Hs & Hlast & Hnx & Hlow & Hpay & Hdata).
    { rewrite Hsent, Hpre. exact Hv. }
    rewrite Hsent, Hpre in *. rewrite Haft in Hs.
    exists last', tb', e', w'. split; [exact Hrun|].
    split.
    { intros j Hj. rewrite Htb by exact Hj. unfold tb1, upd_table.
      destruct (j =? EEPROM_FS_MAX_FILES) eqn:E; [apply Z.eqb_eq in E; contradiction|reflexivity]. }
    split.
    { rewrite Hs. cbn [chain_after]. unfold tb1, upd_table. rewrite Z.eqb_refl. reflexivity. }
    split.
    { rewrite Hlast. destruct n; [reflexivity|].
      change (chain_prefix (S (S n)) e h)
        with (h :: block_next e h :: chain_prefix n e (block_next e (block_next e h))).
      change (chain_prefix (S n) e (block_next e h))
        with (block_next e h :: chain_prefix n e (block_next e (block_next e h))).
      change (List.last (h :: block_next e h
                           :: chain_prefix n e (block_next e (block_next e h))) last)
        with (List.last (block_next e h
                           :: chain_prefix n e (block_next e (block_next e h))) last).
      apply last_cons_indep. }
    split.
    { intros x Hx. rewrite Hnx, Hnext1 by exact Hx. reflexivity. }
    split.
    { intros a Ha. rewrite Hlow by exact Ha. apply poke_payload_low; assumption. }
    split.
    { intros x Hx Hnin. cbn [chain_prefix In] in Hnin.
      rewrite Hpay; [|exact Hx|tauto].
      apply block_payload_poke_other; try assumption. intros ->. tauto. }
    intros Hnd Hi Hbound Hsize Hinv Hbd j k Hj Hk.
    cbn [chain_prefix] in Hnd. inversion Hnd as [|? ? Hnotin Hnd']; subst.
    assert (Hu : u16 ((i + 1) * EEPROM_FS_BLOCK_DATA_SIZE) = (i + 1) * EEPROM_FS_BLOCK_DATA_SIZE).
    { unfold u16. apply Z.mod_small. change EEPROM_FS_BLOCK_DATA_SIZE with 30 in *. lia. }
    assert (Hnbv : nb' = bytes_at size i).
    { unfold nb', bytes_at. rewrite Hu.
      destruct (size <? (i + 1) * EEPROM_FS_BLOCK_DATA_SIZE) eqn:E; [reflexivity|].
      apply Z.ltb_ge in E. destruct Hinv as [->|[Hlt _]]; [reflexivity|].
      change EEPROM_FS_BLOCK_DATA_SIZE with 30 in *. lia. }
    assert (Hnbr : 0 <= nb' <= EEPROM_FS_BLOCK_DATA_SIZE).
    { rewrite Hnbv. unfold bytes_at.
      destruct (size <? (i + 1) * EEPROM_FS_BLOCK_DATA_SIZE);
        change EEPROM_FS_BLOCK_DATA_SIZE with 30;
        [pose proof (Z.mod_pos_bound size 30 ltac:(lia))|]; lia. }
    destruct Hfacts as (Hlen & Hin & Hout); [rewrite Hbd; lia|].
    destruct j as [|j].
    + cbn [chain_prefix nth]. rewrite Z.add_0_r in *.
      rewrite Hpay by assumption.
      unfold e1. rewrite block_payload_poke_same by (rewrite Hlen; exact Hbd).
      rewrite Hin.
      * f_equal. f_equal. unfold u16. apply Z.mod_small.
        change EEPROM_FS_BLOCK_DATA_SIZE with 30 in *. lia.
      * rewrite Z2Nat.id by lia. rewrite Hnbv. lia.
      * rewrite Hbd. change EEPROM_FS_BLOCK_DATA_SIZE with 30 in *. lia.
    + cbn [chain_prefix nth].
      replace (i + Z.of_nat (S j)) with (i + 1 + Z.of_nat j) in * by lia.
      apply Hdata; try assumption; try lia.
      unfold nb'. rewrite Hu.
      destruct (size <? (i + 1) * EEPROM_FS_BLOCK_DATA_SIZE) eqn:E.
      * right. apply Z.ltb_lt in E. split; [exact E | reflexivity].
      * destruct Hinv as [->|[Hlt _]]; [left; reflexivity|].
        apply Z.ltb_ge in E. change EEPROM_FS_BLOCK_DATA_SIZE with 30 in *. lia.
Qed.

(** ** Committing a write *)

Lemma block_next_range e b : -32768 <= block_next e b < 32768.
Proof.
  rewrite block_next_bytes. unfold dec_s16, s16.
  pose proof (Z.mod_pos_bound (e (get_block_pointer b)
                               + 256 * e (get_block_pointer b + 1) + 32768) 65536).
  lia.
Qed.

Lemma chain_after_range e k : forall b, -32768 <= chain_after (S k) e b < 32768.
Proof.
  induction k as [|k IH]; intros b.
  - apply block_next_range.
  - change (chain_after (S (S k)) e b) with (chain_after (S k) e (block_next e b)).
    apply IH.
Qed.

(** Cells below the block pool hold the header and the table: storing there
    leaves every block as it was. *)
Lemma block_next_poke_low e dst src n x :
  valid_block x = true -> dst + n <= EEPROM_FS_DATA_OFFSET ->
  block_next (poke e dst src n) x = block_next e x.
Proof.
  intros Hx Hn. apply block_next_frame. intros a Ha. apply poke_outside.
  rewrite (get_block_pointer_valid x Hx) in Ha. apply valid_block_range in Hx.
  change EEPROM_FS_BLOCK_SIZE with 32 in *. lia.
Qed.

Lemma block_payload_poke_low e dst src n x :
  valid_block x = true -> dst + n <= EEPROM_FS_DATA_OFFSET ->
  block_payload (poke e dst src n) x = block_payload e x.
Proof.
  intros Hx Hn. apply block_payload_frame. intros a Ha. apply poke_outside.
  rewrite (get_block_pointer_valid x Hx) in Ha. apply valid_block_range in Hx.
  change EEPROM_FS_BLOCK_SIZE with 32 in *. lia.
Qed.

(** A link rewritten in block [b] leaves the other links and all payloads. *)
Lemma block_next_relink_other e b t x :
  valid_block b = true -> valid_block x = true -> x <> b ->
  block_next (poke e (get_block_pointer b) (enc16 t) sizeof_lba_t) x = block_next e x.
Proof.
  intros Hb Hx Hne. apply block_next_frame. intros a Ha. apply poke_outside.
  rewrite (get_block_pointer_valid b Hb). rewrite (get_block_pointer_valid x Hx) in Ha.
  apply valid_block_range in Hb, Hx.
  change EEPROM_FS_BLOCK_SIZE with 32 in *. change sizeof_lba_t with 2. lia.
Qed.

Lemma block_next_relink_same e b t :
  -32768 <= t < 32768 ->
  block_next (poke e (get_block_pointer b) (enc16 t) sizeof_lba_t) b = t.
Proof.
  intros Ht. rewrite <- (app_nil_r (enc16 t)).
  apply block_next_poke; [exact Ht | change sizeof_lba_t with 2; lia].
Qed.

Lemma block_payload_relink e b t x :
  valid_block b = true -> valid_block x = true ->
  block_payload (poke e (get_block_pointer b) (enc16 t) sizeof_lba_t) x
  = block_payload e x.
Proof.
  intros Hb Hx. apply block_payload_frame. intros a Ha. apply poke_outside.
  rewrite (get_block_pointer_valid b Hb). rewrite (get_block_pointer_valid x Hx) in Ha.
  apply valid_block_range in Hb, Hx.
  change EEPROM_FS_BLOCK_SIZE with 32 in *. change sizeof_lba_t with 2. lia.
Qed.

Lemma link_quiet tb e w err out fh :
  valid_block (first_block fh) = true ->
  exists w',
    link fh (mk_state 0 tb e w err out)
    = Some (tt,
            let name := filename fh mod EEPROM_FS_MAX_FILES in
            let tb' := upd_table tb name (mk_file_alloc (filesize fh) (first_block fh)) in
            mk_state 0 tb'
              (poke (poke e (alloc_entry_address name) (enc_file_alloc (tb' name))
                          sizeof_file_alloc_t)
                    (alloc_entry_address EEPROM_FS_MAX_FILES)
                    (enc_file_alloc (tb' EEPROM_FS_MAX_FILES)) sizeof_file_alloc_t)
              w' err out).
Proof.
  intros Hv. unfold link. rewrite Hv. quiet_run. eexists. reflexivity.
Qed.

Lemma link_invalid fh st :
  valid_block (first_block fh) = false ->
  link fh st
  = Some (tt, put_stderr (Msg "Cannot link file %d to invalid block %d.\n"
                              [filename fh; first_block fh]) st).
Proof. intros Hv. unfold link. rewrite Hv. reflexivity. Qed.

Lemma open_for_write_quiet tb e w err out name :
  open_for_write name (mk_state 0 tb e w err out)
  = Some (mk_file_handle
            (if EEPROM_FS_MAX_FILES <? name then name mod EEPROM_FS_MAX_FILES else name)
            0 FH_WRITE NULL_PTR NULL_PTR,
          mk_state 0 tb e w err out).
Proof.
  unfold open_for_write. quiet_run.
  destruct (EEPROM_FS_MAX_FILES <? name); quiet_run; reflexivity.
Qed.

Lemma store_file_quiet fuel u name p tb e w err out :
  let size := Z.of_nat (List.length p) in
  let k := Z.to_nat (size / EEPROM_FS_BLOCK_DATA_SIZE) in
  let h := data_block (tb EEPROM_FS_MAX_FILES) in
  0 <= name < EEPROM_FS_MAX_FILES ->
  0 <= alloc_filesize (tb name) ->
  alloc_filesize (tb name) / EEPROM_FS_BLOCK_DATA_SIZE + size / EEPROM_FS_BLOCK_DATA_SIZE
  <= EEPROM_FS_MAX_BLOCKS_PER_FILE ->
  forallb valid_block (chain_prefix (S k) e h) = true ->
  NoDup (chain_prefix (S k) e h) ->
  exists tb' e' w',
    store_file fuel u name p (mk_state 0 tb e w err out)
    = Some (mk_file_handle name size FH_WRITE h (chain_after k e h),
            mk_state 0 tb' e' w' err out)
    /\ tb' name = mk_file_alloc size h
    /\ (forall j, j <> name -> j <> EEPROM_FS_MAX_FILES -> tb' j = tb j)
    /\ data_block (tb' EEPROM_FS_MAX_FILES) = chain_after (S k) e h
    /\ stored_entry e' name = mk_file_alloc size h
    /\ (forall fuel', (k < fuel')%nat ->
                      chain_walk fuel' e' h = Some (chain_prefix (S k) e h))
    /\ (forall j i, (j <= k)%nat -> 0 <= Z.of_nat i < bytes_at size (Z.of_nat j) ->
                    nth i (block_payload e' (nth j (chain_prefix (S k) e h) 0)) 0
                    = nth (Z.to_nat (Z.of_nat j * EEPROM_FS_BLOCK_DATA_SIZE + Z.of_nat i)) p 0)
    /\ (forall x, valid_block x = true -> ~ In x (chain_prefix (S k) e h) ->
                  block_next e' x = block_next e x
                  /\ block_payload e' x = block_payload e x)
    /\ (forall a, a < EEPROM_FS_ALLOC_TABLE_OFFSET -> e' a = e a)
    /\ (forall j, 0 <= j < EEPROM_FS_MAX_FILES -> j <> name ->
                  stored_entry e' j = stored_entry e j)
    /\ (0 <= alloc_filesize (tb EEPROM_FS_MAX_FILES) < 65536 ->
        stored_entry e' EEPROM_FS_MAX_FILES = tb' EEPROM_FS_MAX_FILES)
    /\ alloc_filesize (tb' EEPROM_FS_MAX_FILES) = alloc_filesize (tb EEPROM_FS_MAX_FILES).
Proof.
  intros size k h Hname Hfs Hcap Hv Hnd.
  assert (Hsize : 0 <= size) by (unfold size; lia).
  assert (Hq : 0 <= size / EEPROM_FS_BLOCK_DATA_SIZE)
    by (apply Z.div_pos; [exact Hsize | reflexivity]).
  assert (Hq' : 0 <= alloc_filesize (tb name) / EEPROM_FS_BLOCK_DATA_SIZE)
    by (apply Z.div_pos; [exact Hfs | reflexivity]).
  change EEPROM_FS_MAX_BLOCKS_PER_FILE with 8 in Hcap.
  change EEPROM_FS_MAX_FILES with 29 in Hname.
  unfold store_file. unfold bind at 1. rewrite open_for_write_quiet.
  replace (EEPROM_FS_MAX_FILES <? name) with false
    by (symmetry; apply Z.ltb_ge; change EEPROM_FS_MAX_FILES with 29; lia).
  unfold bind at 1. unfold write.
  cbn [type handle_type_eqb orb andb]. quiet_run.
  fold size.
  replace (EEPROM_FS_MAX_BLOCKS_PER_FILE
           <? u16 (alloc_filesize (tb name) / EEPROM_FS_BLOCK_DATA_SIZE
                   + size / EEPROM_FS_BLOCK_DATA_SIZE)) with false
    by (symmetry; apply Z.ltb_ge; unfold u16; rewrite Z.mod_small;
        change EEPROM_FS_MAX_BLOCKS_PER_FILE with 8; lia).
  quiet_run.
  assert (Hnum : u16 (size / EEPROM_FS_BLOCK_DATA_SIZE + 1)
                 = size / EEPROM_FS_BLOCK_DATA_SIZE + 1)
    by (unfold u16; apply Z.mod_small; lia).
  rewrite Hnum.
  replace (0 <? size / EEPROM_FS_BLOCK_DATA_SIZE + 1) with true
    by (symmetry; apply Z.ltb_lt; lia).
  quiet_run.
  replace (Z.to_nat (size / EEPROM_FS_BLOCK_DATA_SIZE + 1)) with (S k) by (unfold k; lia).
  match goal with
  | |- context [write_blocks (S k) 0 p size ?nb ?bd ?last _] =>
      destruct (write_blocks_quiet (S k) 0 p size nb bd last tb e w err out Hv)
        as (last' & tb1 & e1 & w1 & Hrun & Htb & Hs & Hlast & Hnx & Hlow & Hpay & Hdata)
  end.
  fold h in Htb, Hs, Hlast, Hpay, Hdata.
  rewrite Hrun. quiet_run.
  rewrite chain_prefix_last in Hlast. subst last'.
  replace (u16 ((size / EEPROM_FS_BLOCK_DATA_SIZE + 1) * EEPROM_FS_BLOCK_DATA_SIZE) <? size)
    with false.
  2:{ symmetry. apply Z.ltb_ge. unfold u16. rewrite Z.mod_small.
      - pose proof (Z.mod_pos_bound size EEPROM_FS_BLOCK_DATA_SIZE ltac:(reflexivity)).
        pose proof (Z.div_mod size EEPROM_FS_BLOCK_DATA_SIZE ltac:(discriminate)).
        change EEPROM_FS_BLOCK_DATA_SIZE with 30 in *. lia.
      - change EEPROM_FS_BLOCK_DATA_SIZE with 30 in *. lia. }
  quiet_run.
  (* close *)
  unfold close. cbn [type handle_type_eqb]. quiet_run.
  assert (Hvh : valid_block h = true).
  { cbn [chain_prefix forallb] in Hv. apply andb_true_iff in Hv. apply Hv. }
  assert (Hvl : valid_block (chain_after k e h) = true).
  { rewrite <- (chain_prefix_last k e h 0).
    rewrite forallb_forall in Hv. apply Hv.
    change (chain_prefix (S k) e h) with (h :: chain_prefix k e (block_next e h)).
    apply last_cons_In. }
  destruct (link_quiet tb1 e1 w1 err out
              (mk_file_handle name size FH_WRITE h (chain_after k e h)) Hvh)
    as (w2 & Hlink).
  cbn [first_block filename filesize] in Hlink. cbv zeta in Hlink.
  rewrite (Z.mod_small name) in Hlink by (change EEPROM_FS_MAX_FILES with 29; lia).
  fold h. rewrite Hlink. quiet_run.
  rewrite relink_quiet by (assumption || (rewrite NUM_BLOCKS_value; unfold NULL_PTR; lia)).
  quiet_run.
  set (tbF := upd_table tb1 name (mk_file_alloc size h)).
  set (eA := poke e1 (alloc_entry_address name) (enc_file_alloc (tbF name))
                  sizeof_file_alloc_t).
  set (eB := poke eA (alloc_entry_address EEPROM_FS_MAX_FILES)
                  (enc_file_alloc (tbF EEPROM_FS_MAX_FILES)) sizeof_file_alloc_t).
  set (eF := poke eB (get_block_pointer (chain_after k e h)) (enc16 NULL_PTR) sizeof_lba_t).
  exists tbF, eF, (w2 + 2). split; [reflexivity|].
  assert (Hall : forall x, In x (chain_prefix (S k) e h) -> valid_block x = true)
    by (apply forallb_forall; exact Hv).
  assert (HtbF : tbF name = mk_file_alloc size h)
    by (unfold tbF, upd_table; rewrite Z.eqb_refl; reflexivity).
  assert (Haddr_n : alloc_entry_address name = 10 + 4 * name)
    by (apply alloc_entry_address_small; change EEPROM_FS_MAX_FILES with 29; lia).
  assert (Haddr_s : alloc_entry_address EEPROM_FS_MAX_FILES = 126) by reflexivity.
  assert (Hpayload : forall x, valid_block x = true ->
                               block_payload eF x = block_payload e1 x).
  { intros x Hx. unfold eF, eB, eA.
    rewrite block_payload_relink by assumption.
    rewrite !block_payload_poke_low; try assumption; try reflexivity.
    rewrite Haddr_n. change sizeof_file_alloc_t with 4.
    change EEPROM_FS_DATA_OFFSET with 130. lia. }
  assert (Hnext : forall x, valid_block x = true -> x <> chain_after k e h ->
                            block_next eF x = block_next e x).
  { intros x Hx Hne. unfold eF, eB, eA.
    rewrite block_next_relink_other by assumption.
    rewrite !block_next_poke_low; try assumption; try reflexivity.
    - apply Hnx. exact Hx.
    - rewrite Haddr_n. change sizeof_file_alloc_t with 4.
      change EEPROM_FS_DATA_OFFSET with 130. lia. }
  assert (Hlast_in : In (chain_after k e h) (chain_prefix (S k) e h)).
  { rewrite chain_prefix_snoc. apply in_or_app. right. left. reflexivity. }
  split; [exact HtbF|].
  split.
  { intros j Hj1 Hj2. unfold tbF, upd_table.
    destruct (j =? name) eqn:E; [apply Z.eqb_eq in E; contradiction|].
    apply Htb. exact Hj2. }
  split.
  { unfold tbF, upd_table.
    replace (EEPROM_FS_MAX_FILES =? name) with false
      by (symmetry; apply Z.eqb_neq; change EEPROM_FS_MAX_FILES with 29; lia).
    rewrite Hs. reflexivity. }
  split.
  { rewrite (stored_entry_frame eA eF).
    - unfold eA. rewrite HtbF. apply stored_entry_poke; cbn [alloc_filesize data_block].
      + pose proof (Z.div_mod size EEPROM_FS_BLOCK_DATA_SIZE ltac:(discriminate)).
        pose proof (Z.mod_pos_bound size EEPROM_FS_BLOCK_DATA_SIZE ltac:(reflexivity)).
        change EEPROM_FS_BLOCK_DATA_SIZE with 30 in *. lia.
      + apply valid_block_range in Hvh. rewrite NUM_BLOCKS_value in Hvh. lia.
    - intros a Ha. rewrite Haddr_n in Ha. unfold eF, eB.
      rewrite !poke_outside; [reflexivity| |].
      + rewrite Haddr_s. change sizeof_file_alloc_t with 4. lia.
      + rewrite (get_block_pointer_valid _ Hvl). apply valid_block_range in Hvl.
        change EEPROM_FS_DATA_OFFSET with 130. change EEPROM_FS_BLOCK_SIZE with 32. lia. }
  split.
  { intros fuel' Hfuel. apply chain_walk_of_prefix; try assumption.
    - intros x Hx. apply Hnext.
      + apply Hall. rewrite chain_prefix_snoc. apply in_or_app. left. exact Hx.
      + intros ->. rewrite chain_prefix_snoc in Hnd.
        apply NoDup_remove_2 in Hnd. rewrite app_nil_r in Hnd. contradiction.
    - unfold eF. apply block_next_relink_same. unfold NULL_PTR. lia. }
  split.
  { intros j i Hj Hi. rewrite Hpayload.
    - replace (Z.of_nat j * EEPROM_FS_BLOCK_DATA_SIZE + Z.of_nat i)
        with ((0 + Z.of_nat j) * EEPROM_FS_BLOCK_DATA_SIZE + Z.of_nat i) by lia.
      apply Hdata;
        [ exact Hnd | lia | change EEPROM_FS_BLOCK_DATA_SIZE with 30 in *; lia
        | exact Hsize | left; reflexivity | apply take_length | lia
        | rewrite Z.add_0_l; exact Hi ].
    - apply Hall. apply nth_In. rewrite chain_prefix_length. lia. }
  split.
  { intros x Hx Hnin. split.
    - apply Hnext; [exact Hx|]. intros ->. contradiction.
    - rewrite Hpayload by exact Hx. apply Hpay; assumption. }
  assert (Hptr : EEPROM_FS_DATA_OFFSET <= get_block_pointer (chain_after k e h)).
  { rewrite (get_block_pointer_valid _ Hvl). apply valid_block_range in Hvl.
    change EEPROM_FS_BLOCK_SIZE with 32. lia. }
  change EEPROM_FS_DATA_OFFSET with 130 in Hptr, Hlow.
  assert (HtbS : tbF EEPROM_FS_MAX_FILES
                 = mk_file_alloc (alloc_filesize (tb EEPROM_FS_MAX_FILES))
                                 (chain_after (S k) e h)).
  { unfold tbF, upd_table.
    replace (EEPROM_FS_MAX_FILES =? name) with false
      by (symmetry; apply Z.eqb_neq; change EEPROM_FS_MAX_FILES with 29; lia).
    exact Hs. }
  split.
  { intros a Ha. change EEPROM_FS_ALLOC_TABLE_OFFSET with 10 in Ha.
    unfold eF, eB, eA. rewrite !poke_outside; [apply Hlow; lia | | |].
    - rewrite Haddr_n. lia.
    - rewrite Haddr_s. lia.
    - lia. }
  split.
  { intros j Hj Hne. apply stored_entry_frame. intros a Ha.
    rewrite (alloc_entry_address_small j) in Ha by lia.
    change EEPROM_FS_ALLOC_TABLE_OFFSET with 10 in Ha.
    change sizeof_file_alloc_t with 4 in Ha.
    change EEPROM_FS_MAX_FILES with 29 in Hj.
    unfold eF, eB, eA. rewrite !poke_outside; [apply Hlow; lia | | |].
    - rewrite Haddr_n. change sizeof_file_alloc_t with 4. lia.
    - rewrite Haddr_s. change sizeof_file_alloc_t with 4. lia.
    - lia. }
  split.
  { intros Hrange. rewrite (stored_entry_frame eB eF).
    - unfold eB. apply stored_entry_poke; rewrite HtbS; cbn [alloc_filesize data_block].
      + exact Hrange.
      + apply chain_after_range.
    - intros a Ha. rewrite Haddr_s in Ha. unfold eF. apply poke_outside. lia. }
  rewrite HtbS. reflexivity.
Qed.

Lemma open_for_write_returns name st :
  exists st',
    open_for_write name st
    = Some (mk_file_handle
              (if EEPROM_FS_MAX_FILES <? name then name mod EEPROM_FS_MAX_FILES else name)
              0 FH_WRITE NULL_PTR NULL_PTR, st').
Proof.
  destruct st as [d tb e w err out].
  unfold open_for_write, bind, _fs_debug1, _fs_debug2, ret, modify.
  destruct (1 <=? d) eqn:E1, (2 <=? d) eqn:E2, (EEPROM_FS_MAX_FILES <? name) eqn:E3;
    repeat (first [ rewrite E1 | rewrite E2
                  | progress unfold put_stderr
                  | progress cbn [__debug alloc_table eeprom wear stderr stdout] ]);
    eexists; reflexivity.
Qed.

Lemma settled_pinned u d : settled (pinned u d).
Proof. intros fh l s1 s2 _. reflexivity. Qed.

(** A WRITE handle never reaches the merge, so the dead buffer plays no part. *)
Lemma write_no_dead_buffer fuel u d fh data size :
  type fh = FH_WRITE ->
  write fuel (pinned u d) fh data size = write fuel u fh data size.
Proof. intros Ht. unfold write. rewrite Ht. reflexivity. Qed.

Lemma store_file_no_dead_buffer fuel u d name p st :
  store_file fuel (pinned u d) name p st = store_file fuel u name p st.
Proof.
  unfold store_file, bind.
  destruct (open_for_write_returns name st) as (st' & H). rewrite H.
  rewrite write_no_dead_buffer by reflexivity. reflexivity.
Qed.

Lemma ni_append_file fuel u name p :
  settled u -> noninterf (append_file fuel u name p).
Proof.
  intros Hu. unfold append_file.
  apply ni_bind; [apply ni_open_for_append | intros fh].
  apply ni_bind; [apply ni_write; exact Hu | intros fh'; apply ni_close].
Qed.

Lemma ni_store_file fuel u name p : noninterf (store_file fuel u name p).
Proof.
  intros s1 s2 H. rewrite <- !(store_file_no_dead_buffer fuel u [] name p).
  revert s1 s2 H. unfold store_file.
  apply ni_bind; [apply ni_open_for_write | intros fh].
  apply ni_bind; [apply ni_write, settled_pinned | intros fh'; apply ni_close].
Qed.

Lemma ni_load_file fuel name : noninterf (load_file fuel name).
Proof. unfold load_file. ni. Qed.

(** ** C6: how long a committed chain is *)

(** C6, as the claim states it, fails: a file of exactly [BLOCK_DATA_SIZE]
    bytes committed on a fresh volume occupies two blocks, not
    [ceil (30 / 30) = 1]. *)
Lemma size_to_length_fails : ~ size_to_length one_block_file 3.
Proof.
  intros H. destruct H as (fuel & l & Hl & Hlen & _).
  - vm_compute. discriminate.
  - vm_compute in Hlen.
    destruct fuel as [|[|fuel]]; vm_compute in Hl; try discriminate Hl.
    injection Hl as <-. discriminate Hlen.
Qed.

(** C6, amended.  A file committed by [open_for_write; write; close] whose
    write is not truncated and whose blocks come from a free chain of distinct
    valid blocks has a chain of exactly [floor (size / BLOCK_DATA_SIZE) + 1]
    blocks from [alloc_table[name].first_block] on, the last of which points to
    the null sentinel: the ceiling when the size is no multiple of the block
    payload, and one block more than the ceiling when it is (size 0 included). *)
Theorem committed_chain_length fuel u st name p :
  let size := Z.of_nat (List.length p) in
  let k := Z.to_nat (size / EEPROM_FS_BLOCK_DATA_SIZE) in
  0 <= name < EEPROM_FS_MAX_FILES ->
  0 <= alloc_filesize (alloc_table st name) ->
  alloc_filesize (alloc_table st name) / EEPROM_FS_BLOCK_DATA_SIZE
  + size / EEPROM_FS_BLOCK_DATA_SIZE <= EEPROM_FS_MAX_BLOCKS_PER_FILE ->
  forallb valid_block (chain_prefix (S k) (eeprom st) (next_free_block st)) = true ->
  NoDup (chain_prefix (S k) (eeprom st) (next_free_block st)) ->
  exists fh st' l,
    store_file fuel u name p st = Some (fh, st')
    /\ alloc_table st' name = mk_file_alloc size (next_free_block st)
    /\ file_chain (Z.to_nat EEPROM_FS_NUM_BLOCKS) st' name = Some l
    /\ Z.of_nat (List.length l) = size / EEPROM_FS_BLOCK_DATA_SIZE + 1
    /\ block_next (eeprom st') (last l NULL_PTR) = NULL_PTR
    /\ (size mod EEPROM_FS_BLOCK_DATA_SIZE <> 0 ->
        Z.of_nat (List.length l) = ceil_div size EEPROM_FS_BLOCK_DATA_SIZE)
    /\ (size mod EEPROM_FS_BLOCK_DATA_SIZE = 0 ->
        Z.of_nat (List.length l) = ceil_div size EEPROM_FS_BLOCK_DATA_SIZE + 1).
Proof.
  intros size k Hname Hfs Hcap Hv Hnd.
  destruct (store_file_quiet fuel u name p (alloc_table st) (eeprom st) (wear st) [] []
              Hname Hfs Hcap Hv Hnd)
    as (tb' & e' & w' & Hrun & Hentry & _ & _ & _ & Hchain & _).
  destruct (run_quiet _ st _ _ (ni_store_file fuel u name p) Hrun) as (st' & Hst & Hcore).
  unfold core in Hcore. cbn [alloc_table eeprom wear] in Hcore.
  injection Hcore as Htb He _.
  fold size k in Hst, Hentry, Hchain.
  assert (Hsize : 0 <= size) by (unfold size; lia).
  assert (Hq : 0 <= size / EEPROM_FS_BLOCK_DATA_SIZE)
    by (apply Z.div_pos; [exact Hsize | reflexivity]).
  assert (Hk : (k < Z.to_nat EEPROM_FS_NUM_BLOCKS)%nat).
  { unfold k. rewrite NUM_BLOCKS_value.
    assert (0 <= alloc_filesize (alloc_table st name) / EEPROM_FS_BLOCK_DATA_SIZE)
      by (apply Z.div_pos; [exact Hfs | reflexivity]).
    change EEPROM_FS_MAX_BLOCKS_PER_FILE with 8 in Hcap. lia. }
  eexists _, st', (chain_prefix (S k) (eeprom st) (next_free_block st)).
  split; [exact Hst|].
  assert (Hlen : Z.of_nat (List.length (chain_prefix (S k) (eeprom st) (next_free_block st)))
                 = size / EEPROM_FS_BLOCK_DATA_SIZE + 1)
    by (rewrite chain_prefix_length; unfold k; lia).
  assert (Hwalk : file_chain (Z.to_nat EEPROM_FS_NUM_BLOCKS) st' name
                  = Some (chain_prefix (S k) (eeprom st) (next_free_block st))).
  { unfold file_chain. rewrite Htb, He, Hentry. cbn [data_block].
    apply Hchain. exact Hk. }
  split; [rewrite Htb; exact Hentry|].
  split; [exact Hwalk|].
  split; [exact Hlen|].
  split.
  { unfold file_chain in Hwalk. apply chain_walk_last in Hwalk.
    rewrite Htb, Hentry in Hwalk. cbn [data_block] in Hwalk.
    change (chain_prefix (S k) (eeprom st) (next_free_block st))
      with (next_free_block st
              :: chain_prefix k (eeprom st) (block_next (eeprom st) (next_free_block st)))
      in *.
    rewrite (last_cons_indep _ _ NULL_PTR (next_free_block st)). exact Hwalk. }
  rewrite Hlen. unfold ceil_div. clear -Hsize.
  change EEPROM_FS_BLOCK_DATA_SIZE with 30.
  split; intros Hm; Z.div_mod_to_equations; lia.
Qed.

Lemma committed_chain_length_witness :
  exists fh st' l,
    store_file 60 stale 3 (counting 30 0) fresh = Some (fh, st')
    /\ alloc_table st' 3 = mk_file_alloc 30 (next_free_block fresh)
    /\ file_chain (Z.to_nat EEPROM_FS_NUM_BLOCKS) st' 3 = Some l
    /\ Z.of_nat (List.length l) = 30 / EEPROM_FS_BLOCK_DATA_SIZE + 1
    /\ block_next (eeprom st') (last l NULL_PTR) = NULL_PTR
    /\ (30 mod EEPROM_FS_BLOCK_DATA_SIZE <> 0 ->
        Z.of_nat (List.length l) = ceil_div 30 EEPROM_FS_BLOCK_DATA_SIZE)
    /\ (30 mod EEPROM_FS_BLOCK_DATA_SIZE = 0 ->
        Z.of_nat (List.length l) = ceil_div 30 EEPROM_FS_BLOCK_DATA_SIZE + 1).
Proof.
  apply (committed_chain_length 60 stale fresh 3 (counting 30 0)).
  - vm_compute. split; [discriminate | reflexivity].
  - vm_compute. discriminate.
  - vm_compute. discriminate.
  - vm_compute. reflexivity.
  - vm_compute. repeat constructor; simpl; intuition discriminate.
Defined.

(** ** The claims the code does not meet, evaluated on the device *)

(** C1. A write to a name that already holds a file of [MAX_BLOCKS_PER_FILE]
    full blocks allocates nothing, so the round trip returns the old file: its
    240 bytes and its size, not the 30 bytes just written.  [write] counts the
    blocks of the file it is about to replace against the cap. *)
Lemma roundtrip_returns_the_old_file :
  option_map fst (load_file 60 0 full_then_short)
  = Some (mk_file_handle 0 240 FH_READ 58 NULL_PTR, counting 240 0)
  /\ stderr full_then_short
     = [Msg "File too large - write truncated to %d bytes.\n" [0];
        Msg "No more space available for file %d.\n" [0];
        Msg "Cannot link file %d to invalid block %d.\n" [0; -1];
        Msg "Attempted to write to invalid block %d.\n" [-1]].
Proof. split; vm_compute; reflexivity. Qed.

(** C2. Five bytes appended to a file of forty: the read returns the forty old
    bytes and size 40, the appended bytes are not part of the file.  The handle
    leaves [close] with size 55, the ten bytes of the old tail counted twice.
    The chain has grown to three blocks under the size 40, so the read also
    stores behind the forty cells it was given, up to cell 69. *)
Lemma append_past_one_block_is_lost :
  option_map (fun r => (fst (fst r), firstn 40 (snd (fst r)), List.length (snd (fst r))))
             (load_file 60 7 forty_plus_five)
  = Some (mk_file_handle 7 40 FH_READ 58 NULL_PTR, counting 40 0, 70%nat)
  /\ option_map fst (append_file 60 stale 7 (counting 5 200) forty_bytes)
     = Some (mk_file_handle 7 55 FH_APPEND 56 56)
  /\ file_chain 60 forty_plus_five 7 = Some [58; 57; 56].
Proof. repeat split; vm_compute; reflexivity. Qed.

(** C3. Close of an append handle on a file of sixty bytes: the new block is
    chained behind the old last block and ends in null, but the allocation
    entry keeps size 60 in RAM and on the medium while the handle says 65, and
    the stored free-chain head is left behind the one in RAM. *)
Lemma close_append_leaves_the_entry :
  alloc_table sixty_plus_five 7 = mk_file_alloc 60 58
  /\ stored_entry (eeprom sixty_plus_five) 7 = mk_file_alloc 60 58
  /\ option_map fst (append_file 60 stale 7 (counting 5 200) sixty_bytes)
     = Some (mk_file_handle 7 65 FH_APPEND 55 55)
  /\ file_chain 60 sixty_bytes 7 = Some [58; 57; 56]
  /\ file_chain 60 sixty_plus_five 7 = Some [58; 57; 56; 55]
  /\ next_free_block sixty_plus_five = 54
  /\ data_block (stored_entry (eeprom sixty_plus_five) EEPROM_FS_MAX_FILES) = 55.
Proof. repeat split; vm_compute; reflexivity. Qed.

(** C4. Writing 250 bytes to a fresh name reports nothing, commits size 250
    and occupies nine blocks, one more than [MAX_BLOCKS_PER_FILE]; the read
    returns all 250 bytes. *)
Lemma write_250_is_not_truncated :
  stderr wrote_250 = []
  /\ alloc_table wrote_250 0 = mk_file_alloc 250 58
  /\ stored_entry (eeprom wrote_250) 0 = mk_file_alloc 250 58
  /\ file_chain 60 wrote_250 0 = Some [58; 57; 56; 55; 54; 53; 52; 51; 50]
  /\ option_map fst (load_file 60 0 wrote_250)
     = Some (mk_file_handle 0 250 FH_READ 58 NULL_PTR, counting 250 0).
Proof. repeat split; vm_compute; reflexivity. Qed.

(** C5. The name [MAX_FILES] is not folded by the open calls: on a fresh volume
    [open_for_read 29] returns a handle on the free-chain sentinel, with the
    free chain's head as its first block and no error, where
    [open_for_read (29 mod 29)] reports that file 0 is not found. *)
Lemma name_MAX_FILES_is_not_folded :
  option_map fst (open_for_read EEPROM_FS_MAX_FILES fresh)
  = Some (mk_file_handle 29 0 FH_READ 58 NULL_PTR)
  /\ stderr (exec (open_for_read EEPROM_FS_MAX_FILES) fresh) = []
  /\ option_map fst (open_for_read (EEPROM_FS_MAX_FILES mod EEPROM_FS_MAX_FILES) fresh)
     = Some (mk_file_handle 0 0 FH_READ NULL_PTR NULL_PTR)
  /\ stderr (exec (open_for_read (EEPROM_FS_MAX_FILES mod EEPROM_FS_MAX_FILES)) fresh)
     = [Msg "File %d not found.\n" [0]]
  /\ option_map fst (open_for_write EEPROM_FS_MAX_FILES fresh)
     = Some (mk_file_handle 29 0 FH_WRITE NULL_PTR NULL_PTR)
  /\ option_map fst (open_for_append EEPROM_FS_MAX_FILES fresh)
     = Some (mk_file_handle 29 0 FH_APPEND NULL_PTR NULL_PTR).
Proof. repeat split; vm_compute; reflexivity. Qed.

(** ** C9: the debug level *)


Lemma ni_run_call fuel c :
  (forall u fh data size,
      c = Call_write u fh data size ->
      type fh = FH_APPEND -> filesize fh mod EEPROM_FS_BLOCK_DATA_SIZE = 0) ->
  noninterf (run_call fuel c).
Proof.
  intros Hc.
  destruct c; cbn [run_call]; (apply ni_bind; [ | intros ?; apply ni_ret ]).
  - apply ni_set_debug.
  - apply ni_init_eepromfs.
  - apply ni_format_eepromfs.
  - apply ni_open_for_write.
  - apply ni_open_for_append.
  - apply ni_open_for_read.
  - apply ni_close.
  - apply ni_write_no_merge.
    destruct (type fh) eqn:Et; try reflexivity.
    rewrite (Hc _ _ _ _ eq_refl Et). reflexivity.
  - apply ni_read.
  - apply ni_delete.
  - apply ni_dump_eeprom.
  - apply ni_wipe_eeprom.
Qed.

(** X5. Where the debug level changes the log only.  For every API call but
    a [write] through an APPEND handle whose size leaves a tail to merge,
    whatever two levels [set_debug] sets, the call run from the same state and
    with the same stale storage returns the same value (the handle or the
    buffer it yields) and leaves the same allocation table in RAM, the same
    medium and the same wear, or runs out of fuel in both runs. *)
Theorem debug_level_spares_all_but_the_merge fuel (c : api_call) st level1 level2 :
  (forall u fh data size,
      c = Call_write u fh data size ->
      type fh = FH_APPEND -> filesize fh mod EEPROM_FS_BLOCK_DATA_SIZE = 0) ->
  agree ((set_debug level1 ;;; run_call fuel c) st)
        ((set_debug level2 ;;; run_call fuel c) st).
Proof.
  intros Hc. unfold bind, set_debug, modify. apply ni_run_call; [exact Hc | reflexivity].
Qed.

Lemma debug_level_spares_all_but_the_merge_witness :
  let c := Call_write level_marked (mk_file_handle 7 60 FH_APPEND NULL_PTR NULL_PTR)
                      (counting 5 200) 5 in
  agree ((set_debug 0 ;;; run_call 60 c) sixty_bytes)
        ((set_debug 4 ;;; run_call 60 c) sixty_bytes).
Proof.
  apply (debug_level_spares_all_but_the_merge 60 _ sixty_bytes 0 4).
  intros u fh data size E Ht. injection E as _ <- _ _. reflexivity.
Defined.

(** ** C10: closing a handle that holds no block *)

Lemma bind_inv {A B} (m : M A) (k : A -> M B) st r :
  bind m k st = Some r -> exists a st1, m st = Some (a, st1) /\ k a st1 = Some r.
Proof.
  unfold bind. destruct (m st) as [[a st1]|]; [|discriminate]. eauto.
Qed.

Lemma debug4_table fmt args st st1 :
  _fs_debug4 fmt args st = Some (tt, st1) -> alloc_table st1 = alloc_table st.
Proof.
  unfold _fs_debug4. destruct (4 <=? __debug st); intros H; injection H as <-; reflexivity.
Qed.

Lemma write_copy_table n :
  forall i j data bd st bd' st1,
    write_copy n i j data bd st = Some (bd', st1) -> alloc_table st1 = alloc_table st.
Proof.
  induction n as [|n IH]; intros i j data bd st bd' st1 H.
  - injection H as _ <-. reflexivity.
  - cbn [write_copy] in H. cbv zeta in H.
    apply bind_inv in H. destruct H as ([] & s1 & H1 & H2).
    apply debug4_table in H1. apply IH in H2. congruence.
Qed.

(** With no valid free block every block write fails: the loop of [write]
    leaves the null sentinel in [fh->last_block]. *)
Lemma write_blocks_no_free n :
  forall i data size nb bd last st last' st',
    valid_block (next_free_block st) = false -> (0 < n)%nat ->
    write_blocks n i data size nb bd last st = Some (last', st') ->
    last' = NULL_PTR.
Proof.
  induction n as [|n IH]; intros i data size nb bd last st last' st' Hv Hn H; [lia|].
  cbn [write_blocks] in H. cbv zeta in H.
  apply bind_inv in H. destruct H as (bd1 & s1 & H1 & H).
  apply write_copy_table in H1.
  assert (Hv1 : valid_block (next_free_block s1) = false)
    by (unfold next_free_block in *; rewrite H1; exact Hv).
  apply bind_inv in H. destruct H as (l1 & s2 & H2 & H).
  rewrite (write_block_data_no_free _ _ Hv1) in H2. injection H2 as <- <-.
  destruct n as [|n].
  - injection H as <- _. reflexivity.
  - eapply IH; [| |exact H]; [exact Hv1 | lia].
Qed.

(** What [write] makes of a handle: its type is kept, and a handle left
    without a first block is left without a last block. *)
Lemma write_keeps_empty fuel u fh data size st fh' st' :
  write fuel u fh data size st = Some (fh', st') ->
  type fh' = type fh
  /\ ((first_block fh = NULL_PTR -> last_block fh = NULL_PTR) ->
      first_block fh' = NULL_PTR -> last_block fh' = NULL_PTR).
Proof.
  unfold write. intros H.
  destruct (handle_type_eqb (type fh) FH_WRITE || handle_type_eqb (type fh) FH_APPEND).
  - apply bind_inv in H. destruct H as (ds & s1 & _ & H).
    cbv zeta in H.
    apply bind_inv in H. destruct H as ([] & s2 & _ & H).
    apply bind_inv in H. destruct H as (entry & s3 & _ & H).
    apply bind_inv in H. destruct H as (num_blocks & s4 & _ & H).
    destruct (0 <? num_blocks) eqn:Hnum.
    + apply bind_inv in H. destruct H as (nfb & s5 & Hnfb & H).
      unfold gets in Hnfb. injection Hnfb as <- <-.
      apply bind_inv in H. destruct H as (last' & s6 & Hblocks & H).
      apply bind_inv in H. destruct H as ([] & s7 & _ & H).
      unfold ret in H. injection H as <- _.
      split.
      * destruct (u16 (num_blocks * EEPROM_FS_BLOCK_DATA_SIZE) <? snd ds); reflexivity.
      * intros _ Hfirst.
        assert (Hf : next_free_block s4 = NULL_PTR)
          by (destruct (u16 (num_blocks * EEPROM_FS_BLOCK_DATA_SIZE) <? snd ds);
              exact Hfirst).
        assert (Hl : last' = NULL_PTR).
        { eapply write_blocks_no_free; [| |exact Hblocks].
          - rewrite Hf. reflexivity.
          - apply Z.ltb_lt in Hnum. lia. }
        destruct (u16 (num_blocks * EEPROM_FS_BLOCK_DATA_SIZE) <? snd ds); exact Hl.
    + apply bind_inv in H. destruct H as ([] & s5 & _ & H).
      unfold ret in H. injection H as <- _. split; [reflexivity | auto].
  - apply bind_inv in H. destruct H as ([] & s1 & _ & H).
    unfold ret in H. injection H as <- _. split; [reflexivity | auto].
Qed.

Lemma write_handle_empty fh :
  write_handle fh ->
  type fh = FH_WRITE /\ (first_block fh = NULL_PTR -> last_block fh = NULL_PTR).
Proof.
  induction 1 as [name st fh st' Hopen | fuel u fh data size st fh' st' _ [IHt IHl] Hw].
  - destruct (open_for_write_returns name st) as (st2 & H2).
    rewrite Hopen in H2. injection H2 as -> _. split; reflexivity.
  - destruct (write_keeps_empty _ _ _ _ _ _ _ _ Hw) as [Ht Hl].
    split; [congruence | auto].
Qed.

(** Close of a handle whose two block fields are null stores nothing. *)
Lemma close_null_handle fuel st fh :
  type fh = FH_WRITE ->
  first_block fh = NULL_PTR ->
  last_block fh = NULL_PTR ->
  exists st',
    close fuel fh st = Some (fh, st')
    /\ alloc_table st' = alloc_table st
    /\ eeprom st' = eeprom st
    /\ wear st' = wear st
    /\ In (Msg "Cannot link file %d to invalid block %d.\n" [filename fh; NULL_PTR])
          (stderr st')
    /\ In (Msg "Attempted to write to invalid block %d.\n" [NULL_PTR]) (stderr st').
Proof.
  intros Ht Hf Hl. destruct fh as [n fs ty fb lb]. cbn [type first_block last_block] in *.
  subst ty fb lb. destruct st as [d tb e w err out].
  unfold close, link, relink, bind, _fs_debug1, _fs_debug2, _fs_error, modify, ret.
  destruct (1 <=? d) eqn:E1, (2 <=? d) eqn:E2;
    repeat (first [ rewrite E1 | rewrite E2
                  | progress change (valid_block NULL_PTR) with false
                  | progress cbn [type handle_type_eqb filename first_block last_block
                                  __debug put_stderr alloc_table eeprom wear stderr
                                  stdout] ]);
    (eexists; split; [reflexivity|]);
    unfold put_stderr; cbn [alloc_table eeprom wear stderr];
    repeat split; intros; try reflexivity; rewrite ?in_app_iff; cbn [In]; auto 10.
Qed.

(** C10. Close on an empty handle.  For a handle that [open_for_write]
    returned, written through any number of times, whose [first_block] is still
    the null sentinel (no write got a block), [close] returns the handle as it
    was and leaves the allocation table in RAM, the whole medium (so the stored
    table and every block's [next]) and the wear as they were: [link] and
    [relink] each log their error and store nothing. *)
Theorem close_empty_handle fuel st fh :
  write_handle fh ->
  first_block fh = NULL_PTR ->
  exists st',
    close fuel fh st = Some (fh, st')
    /\ alloc_table st' = alloc_table st
    /\ eeprom st' = eeprom st
    /\ wear st' = wear st
    /\ (forall name, stored_entry (eeprom st') name = stored_entry (eeprom st) name)
    /\ (forall b, block_next (eeprom st') b = block_next (eeprom st) b)
    /\ In (Msg "Cannot link file %d to invalid block %d.\n" [filename fh; NULL_PTR])
          (stderr st')
    /\ In (Msg "Attempted to write to invalid block %d.\n" [NULL_PTR]) (stderr st').
Proof.
  intros Hwh Hfirst. destruct (write_handle_empty fh Hwh) as [Ht Hl].
  destruct (close_null_handle fuel st fh Ht Hfirst (Hl Hfirst))
    as (st' & Hrun & Htb & He & Hw & Hin1 & Hin2).
  exists st'. rewrite He. repeat split; assumption.
Qed.

(** A write of 40 bytes on a volume whose free chain is empty gets no block;
    closing the handle it leaves changes nothing. *)
Lemma close_empty_handle_witness :
  exists st',
    close 60 (mk_file_handle 6 40 FH_WRITE NULL_PTR NULL_PTR) fresh
    = Some (mk_file_handle 6 40 FH_WRITE NULL_PTR NULL_PTR, st')
    /\ alloc_table st' = alloc_table fresh
    /\ eeprom st' = eeprom fresh.
Proof.
  destruct (close_empty_handle 60 fresh (mk_file_handle 6 40 FH_WRITE NULL_PTR NULL_PTR))
    as (st' & H1 & H2 & H3 & _).
  - pose (full := exec (modify (set_next_free_block NULL_PTR)) fresh).
    assert (H : option_map fst
                  (write 60 stale (mk_file_handle 6 0 FH_WRITE NULL_PTR NULL_PTR)
                         (counting 40 0) 40 full)
                = Some (mk_file_handle 6 40 FH_WRITE NULL_PTR NULL_PTR))
      by (vm_compute; reflexivity).
    destruct (write 60 stale (mk_file_handle 6 0 FH_WRITE NULL_PTR NULL_PTR)
                    (counting 40 0) 40 full) as [[fh' st1]|] eqn:E; [|discriminate H].
    cbn [option_map fst] in H. injection H as ->.
    refine (wh_write _ _ _ _ _ _ _ _ _ E).
    destruct (open_for_write_returns 6 fresh) as (st0 & H0).
    exact (wh_open _ _ _ _ H0).
  - reflexivity.
  - exists st'. auto.
Defined.

(** ** C7: delete *)

Lemma fold_name name :
  (if EEPROM_FS_MAX_FILES <? name then name mod EEPROM_FS_MAX_FILES else name)
    mod EEPROM_FS_MAX_FILES
  = name mod EEPROM_FS_MAX_FILES.
Proof.
  destruct (EEPROM_FS_MAX_FILES <? name); [|reflexivity].
  apply Z.mod_mod. discriminate.
Qed.

Lemma upd_table_same t i a : upd_table t i a i = a.
Proof. unfold upd_table. rewrite Z.eqb_refl. reflexivity. Qed.

Lemma upd_table_other t i a j : j <> i -> upd_table t i a j = t j.
Proof.
  intros H. unfold upd_table.
  destruct (j =? i) eqn:E; [apply Z.eqb_eq in E; contradiction | reflexivity].
Qed.

Lemma unlink_invalid fuel block st :
  valid_block block = false ->
  unlink fuel block st
  = Some (tt, put_stderr (Msg "Cannot unlink invalid block %d.\n" [block]) st).
Proof. intros Hb. unfold unlink. rewrite Hb. reflexivity. Qed.

Lemma chain_walk_head fuel e b l :
  chain_walk fuel e b = Some l -> exists l', l = b :: l'.
Proof.
  destruct fuel as [|fuel]; [discriminate|]. cbn [chain_walk].
  destruct (negb (block_next e b =? NULL_PTR)).
  - destruct (chain_walk fuel e (block_next e b)) as [l'|]; [|discriminate].
    intros H. injection H as <-. eauto.
  - intros H. injection H as <-. eauto.
Qed.

Lemma last_block_walk_quiet tb e w err out fuel :
  forall b l,
    chain_walk fuel e b = Some l ->
    last_block_walk fuel b (mk_state 0 tb e w err out)
    = Some (last l b, mk_state 0 tb e w err out).
Proof.
  induction fuel as [|fuel IH]; intros b l H; [discriminate|].
  cbn [chain_walk last_block_walk] in *. cbv zeta. quiet_run.
  change (next_block (dec_block (peek e (get_block_pointer b) EEPROM_FS_BLOCK_SIZE)))
    with (block_next e b).
  destruct (negb (block_next e b =? NULL_PTR)).
  - destruct (chain_walk fuel e (block_next e b)) as [l'|] eqn:W; [|discriminate].
    injection H as <-. rewrite (IH _ _ W).
    destruct (chain_walk_head _ _ _ _ W) as (l'' & ->).
    change (last (b :: block_next e b :: l'') b) with (last (block_next e b :: l'') b).
    rewrite (last_cons_indep _ _ b (block_next e b)). reflexivity.
  - injection H as <-. reflexivity.
Qed.

(** In a quiet state [unlink] returns whenever the walk of the free chain
    ends; it leaves the table in RAM alone. *)
Lemma unlink_quiet tb e w err out fuel block :
  (valid_block block = true ->
   valid_block (data_block (tb EEPROM_FS_MAX_FILES)) = true ->
   chain_walk fuel e (data_block (tb EEPROM_FS_MAX_FILES)) <> None) ->
  exists e' w' err',
    unlink fuel block (mk_state 0 tb e w err out)
    = Some (tt, mk_state 0 tb e' w' err' out).
Proof.
  intros Hwalk. destruct (valid_block block) eqn:Hb.
  - unfold unlink. rewrite Hb. quiet_run. unfold last_block_in_chain.
    destruct (valid_block (data_block (tb EEPROM_FS_MAX_FILES))) eqn:Hf.
    + destruct (chain_walk fuel e (data_block (tb EEPROM_FS_MAX_FILES))) as [l|] eqn:W;
        [|exfalso; apply Hwalk; reflexivity].
      quiet_run. rewrite (last_block_walk_quiet _ _ _ _ _ _ _ _ W). quiet_run.
      eexists _, _, _. reflexivity.
    + quiet_run. eexists _, _, _. reflexivity.
  - rewrite unlink_invalid by exact Hb. eexists _, _, _. reflexivity.
Qed.

(** With a file to free and a free chain to walk, [unlink] stores at the
    [next] cells of the free chain's last block and nowhere else. *)
Lemma unlink_quiet_tail tb e w err out fuel block l :
  valid_block block = true ->
  valid_block (data_block (tb EEPROM_FS_MAX_FILES)) = true ->
  chain_walk fuel e (data_block (tb EEPROM_FS_MAX_FILES)) = Some l ->
  exists src w' err',
    unlink fuel block (mk_state 0 tb e w err out)
    = Some (tt, mk_state 0 tb
                  (poke e (get_block_pointer
                             (List.last l (data_block (tb EEPROM_FS_MAX_FILES))))
                        src sizeof_lba_t)
                  w' err' out).
Proof.
  intros Hb Hf W. unfold unlink. rewrite Hb. quiet_run. unfold last_block_in_chain.
  rewrite Hf. quiet_run. rewrite (last_block_walk_quiet _ _ _ _ _ _ _ _ W). quiet_run.
  eexists _, _, _. reflexivity.
Qed.

Lemma delete_quiet tb e w err out fuel name :
  let f := name mod EEPROM_FS_MAX_FILES in
  (valid_block (data_block (tb f)) = true ->
   valid_block (data_block (tb EEPROM_FS_MAX_FILES)) = true ->
   chain_walk fuel e (data_block (tb EEPROM_FS_MAX_FILES)) <> None) ->
  exists eu wu erru tb' w' err',
    unlink fuel (data_block (tb f)) (mk_state 0 tb e w err out)
    = Some (tt, mk_state 0 tb eu wu erru out)
    /\ delete fuel name (mk_state 0 tb e w err out)
       = Some (tt, mk_state 0 tb'
                     (poke eu (alloc_entry_address f)
                           (enc_file_alloc (mk_file_alloc 0 NULL_PTR)) sizeof_file_alloc_t)
                     w' err' out)
    /\ tb' f = mk_file_alloc 0 NULL_PTR
    /\ (forall j, j <> f -> tb' j = tb j).
Proof.
  intros f Hwalk.
  destruct (unlink_quiet tb e w err out fuel (data_block (tb f)) Hwalk)
    as (eu & wu & erru & Hun).
  exists eu, wu, erru.
  unfold delete. quiet_run.
  destruct (EEPROM_FS_MAX_FILES <? name) eqn:E; quiet_run;
    rewrite ?Z.mod_mod by discriminate; fold f; rewrite Hun; quiet_run;
    rewrite !upd_table_same; cbn [alloc_filesize];
    (eexists _, _, _; split; [reflexivity|]; split; [reflexivity|]; split;
     [ apply upd_table_same
     | intros j Hj; rewrite !upd_table_other by exact Hj; reflexivity ]).
Qed.

(** A name with no file: [delete] walks nothing, logs the error of [unlink]
    and stores the cleared entry. *)
Lemma delete_absent fuel name st :
  let f := name mod EEPROM_FS_MAX_FILES in
  valid_block (data_block (alloc_table st f)) = false ->
  exists st',
    delete fuel name st = Some (tt, st')
    /\ eeprom st' = poke (eeprom st) (alloc_entry_address f)
                         (enc_file_alloc (mk_file_alloc 0 NULL_PTR)) sizeof_file_alloc_t
    /\ In (Msg "Cannot unlink invalid block %d.\n" [data_block (alloc_table st f)])
          (stderr st').
Proof.
  intros f Hv. destruct st as [d tb e w err out]. cbn [alloc_table] in Hv.
  unfold f in *. clear f.
  unfold delete, bind, _fs_debug1, _fs_debug2, ret, gets, modify, eeprom_update_block.
  destruct (1 <=? d) eqn:E1, (2 <=? d) eqn:E2, (EEPROM_FS_MAX_FILES <? name) eqn:E3;
    repeat (first [ rewrite E1 | rewrite E2
                  | rewrite Z.mod_mod by discriminate
                  | rewrite unlink_invalid by exact Hv
                  | rewrite upd_table_same
                  | progress unfold put_stderr, set_alloc_table, set_eeprom, modify
                  | progress cbn [__debug alloc_table eeprom wear stderr stdout
                                  alloc_filesize] ]);
    (eexists; split; [reflexivity|]);
    cbn [eeprom stderr]; (split; [reflexivity|]);
    rewrite ?in_app_iff; cbn [In]; auto 10.
Qed.

Lemma open_for_read_not_found name st :
  let f := if EEPROM_FS_MAX_FILES <? name then name mod EEPROM_FS_MAX_FILES else name in
  data_block (alloc_table st f) = NULL_PTR ->
  exists st',
    open_for_read name st
    = Some (mk_file_handle f (alloc_filesize (alloc_table st f)) FH_READ
                           NULL_PTR NULL_PTR, st')
    /\ In (Msg "File %d not found.\n" [f]) (stderr st').
Proof.
  intros f Hnull. destruct st as [d tb e w err out]. cbn [alloc_table] in Hnull.
  unfold f in *. clear f.
  unfold open_for_read, bind, _fs_debug1, _fs_debug2, _fs_error, ret, gets, modify.
  destruct (1 <=? d) eqn:E1, (2 <=? d) eqn:E2, (EEPROM_FS_MAX_FILES <? name) eqn:E3;
    repeat (first [ rewrite E1 | rewrite E2 | rewrite Hnull | rewrite Z.eqb_refl
                  | progress unfold put_stderr
                  | progress cbn [__debug alloc_table eeprom wear stderr stdout
                                  first_block] ]);
    (eexists; split; [reflexivity|]);
    cbn [stderr]; rewrite ?in_app_iff; cbn [In]; auto 10.
Qed.

(** C7. Delete isolates.  Whenever the walk of the free chain that [unlink]
    starts comes to an end, [delete name] returns and leaves the entry of
    [name mod MAX_FILES] at [{0, null}] in RAM, every other entry of the RAM
    table as it was, and the stored entry decoding to [{0, null}]; what it
    stores itself is confined to the cells of that one entry, the rest of the
    medium being as [unlink] left it; a following [open_for_read name] returns
    a handle with a null first block and reports that the file is not found.
    When no file was present (null first block) the whole medium outside that
    entry, the block pool included, is untouched and the error of [unlink] is
    logged.  When a file was present and the free chain holds a block, the
    only other cells stored are the [next] cells of the free chain's last
    block: every other stored entry and the stored header are as they were. *)
Theorem delete_isolates fuel st name :
  let f := name mod EEPROM_FS_MAX_FILES in
  let first := data_block (alloc_table st f) in
  0 <= name -> name <> EEPROM_FS_MAX_FILES ->
  (valid_block first = true -> valid_block (next_free_block st) = true ->
   chain_walk fuel (eeprom st) (next_free_block st) <> None) ->
  exists st',
    delete fuel name st = Some (tt, st')
    /\ alloc_table st' f = mk_file_alloc 0 NULL_PTR
    /\ (forall j, j <> f -> alloc_table st' j = alloc_table st j)
    /\ stored_entry (eeprom st') f = mk_file_alloc 0 NULL_PTR
    /\ (exists st_u,
          unlink fuel first st = Some (tt, st_u)
          /\ forall a, ~ (alloc_entry_address f <= a
                          < alloc_entry_address f + sizeof_file_alloc_t) ->
                       eeprom st' a = eeprom st_u a)
    /\ (exists fh st'',
          open_for_read name st' = Some (fh, st'')
          /\ first_block fh = NULL_PTR /\ filesize fh = 0
          /\ In (Msg "File %d not found.\n" [f]) (stderr st''))
    /\ (first = NULL_PTR ->
        (forall a, ~ (alloc_entry_address f <= a
                      < alloc_entry_address f + sizeof_file_alloc_t) ->
                   eeprom st' a = eeprom st a)
        /\ In (Msg "Cannot unlink invalid block %d.\n" [NULL_PTR]) (stderr st'))
    /\ (valid_block first = true -> valid_block (next_free_block st) = true ->
        forall l, chain_walk fuel (eeprom st) (next_free_block st) = Some l ->
        let tail := List.last l (next_free_block st) in
        valid_block tail = true ->
        (forall a, ~ (alloc_entry_address f <= a
                      < alloc_entry_address f + sizeof_file_alloc_t) ->
                   ~ (get_block_pointer tail <= a < get_block_pointer tail + sizeof_lba_t) ->
                   eeprom st' a = eeprom st a)
        /\ (forall j, 0 <= j <= EEPROM_FS_MAX_FILES -> j <> f ->
                      stored_entry (eeprom st') j = stored_entry (eeprom st) j)
        /\ stored_meta (eeprom st') = stored_meta (eeprom st)).
Proof.
  intros f first Hname Hne Hwalk.
  destruct (delete_quiet (alloc_table st) (eeprom st) (wear st) [] [] fuel name Hwalk)
    as (eu & wu & erru & tb' & w' & err' & Hun & Hdel & Hf & Hother).
  fold f in Hun, Hdel, Hf, Hother. fold first in Hun.
  destruct (run_quiet _ st _ _ (ni_delete fuel name) Hdel) as (st' & Hst & Hcore).
  destruct (run_quiet _ st _ _ (ni_unlink fuel first) Hun) as (st_u & Hstu & Hcoreu).
  unfold core in Hcore, Hcoreu. cbn [alloc_table eeprom wear] in Hcore, Hcoreu.
  injection Hcore as Htb He _. injection Hcoreu as _ Heu _.
  exists st'. split; [exact Hst|].
  split; [rewrite Htb; exact Hf|].
  split; [intros j Hj; rewrite Htb; apply Hother; exact Hj|].
  split.
  { rewrite He. apply stored_entry_poke; cbn [alloc_filesize data_block];
      unfold NULL_PTR; lia. }
  split.
  { exists st_u. split; [exact Hstu|]. intros a Ha. rewrite He, Heu.
    apply poke_outside. lia. }
  split.
  { assert (Hfold : (if EEPROM_FS_MAX_FILES <? name
                     then name mod EEPROM_FS_MAX_FILES else name) = f).
    { destruct (EEPROM_FS_MAX_FILES <? name) eqn:E; [reflexivity|].
      apply Z.ltb_ge in E. unfold f. symmetry. apply Z.mod_small. lia. }
    destruct (open_for_read_not_found name st') as (st'' & Hopen & Hin).
    - rewrite Hfold, Htb, Hf. reflexivity.
    - rewrite Hfold in Hopen, Hin. rewrite Htb, Hf in Hopen.
      eexists _, st''. split; [exact Hopen|]. repeat split. exact Hin. }
  split.
  { intros Hnull.
    destruct (delete_absent fuel name st) as (st2 & Hst2 & He2 & Hin2).
    { fold f. fold first. rewrite Hnull. reflexivity. }
    rewrite Hst in Hst2. injection Hst2 as <-.
    fold f in He2, Hin2. fold first in Hin2. rewrite Hnull in Hin2.
    split; [|exact Hin2].
    intros a Ha. rewrite He2. apply poke_outside. lia. }
  intros Hfirst Hfree l W tail Htail.
  destruct (unlink_quiet_tail (alloc_table st) (eeprom st) (wear st) [] [] fuel first l
              Hfirst Hfree W) as (src & w2 & err2 & Hun2).
  fold (next_free_block st) in Hun2. fold tail in Hun2.
  rewrite Hun in Hun2. injection Hun2 as Heu2 _ _.
  assert (Hcells : forall a,
             ~ (alloc_entry_address f <= a < alloc_entry_address f + sizeof_file_alloc_t) ->
             ~ (get_block_pointer tail <= a < get_block_pointer tail + sizeof_lba_t) ->
             eeprom st' a = eeprom st a).
  { intros a Ha Hb. rewrite He, Heu2. rewrite !poke_outside by lia. reflexivity. }
  assert (Hf29 : 0 <= f < EEPROM_FS_MAX_FILES)
    by (apply Z.mod_pos_bound; reflexivity).
  assert (Hptr : EEPROM_FS_DATA_OFFSET <= get_block_pointer tail).
  { rewrite (get_block_pointer_valid _ Htail).
    apply valid_block_range in Htail. unfold EEPROM_FS_BLOCK_SIZE. lia. }
  change EEPROM_FS_DATA_OFFSET with 130 in Hptr.
  assert (Haddr : alloc_entry_address f = 10 + 4 * f)
    by (apply alloc_entry_address_small; lia).
  change EEPROM_FS_MAX_FILES with 29 in *. change sizeof_file_alloc_t with 4 in *.
  split; [exact Hcells|]. split.
  - intros j Hj Hjf. apply stored_entry_frame. intros a Ha.
    rewrite (alloc_entry_address_small j) in Ha by exact Hj.
    change EEPROM_FS_ALLOC_TABLE_OFFSET with 10 in Ha.
    change sizeof_file_alloc_t with 4 in Ha.
    apply Hcells; lia.
  - unfold stored_meta. f_equal. unfold peek. apply map_ext_in. intros k Hk.
    apply in_seq in Hk. change (Z.to_nat sizeof_fs_meta_t) with 10%nat in Hk.
    apply Hcells; change (EEPROM_FS_START + EEPROM_FS_META_OFFSET) with 0; lia.
Qed.

Lemma delete_isolates_witness :
  exists st',
    delete 60 3 one_block_file = Some (tt, st')
    /\ alloc_table st' (3 mod EEPROM_FS_MAX_FILES) = mk_file_alloc 0 NULL_PTR
    /\ stored_entry (eeprom st') (3 mod EEPROM_FS_MAX_FILES) = mk_file_alloc 0 NULL_PTR
    /\ stored_entry (eeprom st') 22 = stored_entry (eeprom one_block_file) 22.
Proof.
  destruct (delete_isolates 60 one_block_file 3)
    as (st' & H1 & H2 & _ & H3 & _ & _ & _ & H7).
  - lia.
  - discriminate.
  - intros _ _. vm_compute. discriminate.
  - exists st'. split; [exact H1|]. split; [exact H2|]. split; [exact H3|].
    edestruct H7 as (_ & Hj & _).
    + vm_compute. reflexivity.
    + vm_compute. reflexivity.
    + vm_compute. reflexivity.
    + vm_compute. reflexivity.
    + apply Hj; [vm_compute; split; discriminate | vm_compute; discriminate].
Defined.

(** ** Reading a chain back *)

Lemma read_copy_quiet tb e w err out block n :
  forall i j buf,
    0 <= j -> 0 <= i ->
    i * EEPROM_FS_BLOCK_DATA_SIZE + j + Z.of_nat n <= 65536 ->
    exists buf',
      read_copy n i j block buf (mk_state 0 tb e w err out)
      = Some (buf', mk_state 0 tb e w err out)
      /\ (List.length buf <= List.length buf')%nat
      /\ (((0 < n)%nat ->
            i * EEPROM_FS_BLOCK_DATA_SIZE + j + Z.of_nat n <= Z.of_nat (List.length buf)) ->
          List.length buf' = List.length buf)
      /\ (forall k, j <= Z.of_nat k < j + Z.of_nat n ->
                    i * EEPROM_FS_BLOCK_DATA_SIZE + Z.of_nat k < Z.of_nat (List.length buf) ->
                    nth (Z.to_nat (i * EEPROM_FS_BLOCK_DATA_SIZE + Z.of_nat k)) buf' 0
                    = nth k (data block) 0)
      /\ (forall x, Z.of_nat x < i * EEPROM_FS_BLOCK_DATA_SIZE + j
                    \/ i * EEPROM_FS_BLOCK_DATA_SIZE + j + Z.of_nat n <= Z.of_nat x ->
                    nth x buf' 0 = nth x buf 0).
Proof.
  induction n as [|n IH]; intros i j buf Hj Hi Hbound.
  - exists buf. repeat split; intros; try lia; reflexivity.
  - cbn [read_copy]. cbv zeta. quiet_run.
    change EEPROM_FS_BLOCK_DATA_SIZE with 30 in *.
    assert (Hu : u16 (i * 30 + j) = i * 30 + j)
      by (unfold u16; apply Z.mod_small; lia).
    rewrite Hu.
    set (buf1 := store buf (i * 30 + j) (nth (Z.to_nat j) (data block) 0)).
    assert (Hle1 : (List.length buf <= List.length buf1)%nat) by apply store_length_le.
    destruct (IH i (j + 1) buf1) as (buf' & Hrun & Hle & Hlen & Hin & Hout); try lia.
    exists buf'. rewrite Hrun. split; [reflexivity|].
    split; [lia|]. split.
    + intros Hfit. specialize (Hfit ltac:(lia)).
      assert (Hl1 : List.length buf1 = List.length buf) by (apply store_length; lia).
      rewrite Hlen by lia. exact Hl1.
    + split.
      * intros k Hk Hkl. destruct (Z.eq_dec (Z.of_nat k) j) as [E|E].
        -- rewrite Hout by lia. subst j. unfold buf1.
           rewrite store_nth_same by lia.
           rewrite Nat2Z.id. reflexivity.
        -- apply Hin; lia.
      * intros x Hx. rewrite Hout by lia. apply store_nth_other. lia.
Qed.

Lemma read_walk_quiet tb e w err out fh fuel :
  forall b l i nb buf,
    chain_walk fuel e b = Some l ->
    0 <= i -> (i + Z.of_nat (List.length l)) * EEPROM_FS_BLOCK_DATA_SIZE < 65536 ->
    0 <= filesize fh ->
    nb = EEPROM_FS_BLOCK_DATA_SIZE
    \/ (filesize fh < i * EEPROM_FS_BLOCK_DATA_SIZE
        /\ nb = filesize fh mod EEPROM_FS_BLOCK_DATA_SIZE) ->
    exists buf',
      read_walk fuel fh b i nb buf (mk_state 0 tb e w err out)
      = Some (buf', mk_state 0 tb e w err out)
      /\ (List.length buf <= List.length buf')%nat
      /\ ((forall j, (j < List.length l)%nat ->
                     0 < bytes_at (filesize fh) (i + Z.of_nat j) ->
                     (i + Z.of_nat j) * EEPROM_FS_BLOCK_DATA_SIZE
                     + bytes_at (filesize fh) (i + Z.of_nat j)
                     <= Z.of_nat (List.length buf)) ->
          List.length buf' = List.length buf)
      /\ (forall j k,
            (j < List.length l)%nat ->
            0 <= Z.of_nat k < bytes_at (filesize fh) (i + Z.of_nat j) ->
            (i + Z.of_nat j) * EEPROM_FS_BLOCK_DATA_SIZE + Z.of_nat k
            < Z.of_nat (List.length buf) ->
            nth (Z.to_nat ((i + Z.of_nat j) * EEPROM_FS_BLOCK_DATA_SIZE + Z.of_nat k)) buf' 0
            = nth k (block_payload e (nth j l 0)) 0)
      /\ (forall x, Z.of_nat x < i * EEPROM_FS_BLOCK_DATA_SIZE ->
                    nth x buf' 0 = nth x buf 0).
Proof.
  induction fuel as [|fuel IH]; intros b l i nb buf Hwalk Hi Hbound Hfs Hinv;
    [discriminate|].
  cbn [chain_walk] in Hwalk. cbn [read_walk]. cbv zeta. quiet_run.
  change (dec_block (peek e (get_block_pointer b) EEPROM_FS_BLOCK_SIZE))
    with (mk_block (block_next e b) (block_payload e b)).
  cbn [next_block].
  set (nb' := if filesize fh <? u16 ((i + 1) * EEPROM_FS_BLOCK_DATA_SIZE)
              then filesize fh mod EEPROM_FS_BLOCK_DATA_SIZE else nb).
  assert (Hlen1 : (1 <= List.length l)%nat).
  { destruct (negb (block_next e b =? NULL_PTR));
      [destruct (chain_walk fuel e (block_next e b)); [|discriminate]|];
      injection Hwalk as <-; cbn [List.length]; lia. }
  assert (Hu : u16 ((i + 1) * EEPROM_FS_BLOCK_DATA_SIZE) = (i + 1) * EEPROM_FS_BLOCK_DATA_SIZE).
  { unfold u16. apply Z.mod_small. change EEPROM_FS_BLOCK_DATA_SIZE with 30 in *. lia. }
  assert (Hnbv : nb' = bytes_at (filesize fh) i).
  { unfold nb', bytes_at. rewrite Hu.
    destruct (filesize fh <? (i + 1) * EEPROM_FS_BLOCK_DATA_SIZE) eqn:E; [reflexivity|].
    apply Z.ltb_ge in E. destruct Hinv as [->|[Hlt _]]; [reflexivity|].
    change EEPROM_FS_BLOCK_DATA_SIZE with 30 in *. lia. }
  assert (Hnbr : 0 <= nb' <= EEPROM_FS_BLOCK_DATA_SIZE).
  { rewrite Hnbv. unfold bytes_at.
    destruct (filesize fh <? (i + 1) * EEPROM_FS_BLOCK_DATA_SIZE);
      change EEPROM_FS_BLOCK_DATA_SIZE with 30;
      [pose proof (Z.mod_pos_bound (filesize fh) 30 ltac:(lia))|]; lia. }
  assert (Hinv' : nb' = EEPROM_FS_BLOCK_DATA_SIZE
                  \/ (filesize fh < (i + 1) * EEPROM_FS_BLOCK_DATA_SIZE
                      /\ nb' = filesize fh mod EEPROM_FS_BLOCK_DATA_SIZE)).
  { unfold nb'. rewrite Hu.
    destruct (filesize fh <? (i + 1) * EEPROM_FS_BLOCK_DATA_SIZE) eqn:E.
    - right. apply Z.ltb_lt in E. split; [exact E | reflexivity].
    - destruct Hinv as [->|[Hlt _]]; [left; reflexivity|].
      apply Z.ltb_ge in E. change EEPROM_FS_BLOCK_DATA_SIZE with 30 in *. lia. }
  destruct (read_copy_quiet tb e w err out (mk_block (block_next e b) (block_payload e b))
              (Z.to_nat nb') i 0 buf)
    as (buf1 & Hcopy & Hle1 & Hl1 & Hin1 & Hout1);
    try lia; [change EEPROM_FS_BLOCK_DATA_SIZE with 30 in *; lia|].
  assert (Hl1' : (0 < bytes_at (filesize fh) i ->
                  i * EEPROM_FS_BLOCK_DATA_SIZE + bytes_at (filesize fh) i
                  <= Z.of_nat (List.length buf)) ->
                 List.length buf1 = List.length buf).
  { intros H. apply Hl1. intros Hpos. rewrite Z2Nat.id, Z.add_0_r, Hnbv by lia.
    apply H. rewrite <- Hnbv. lia. }
  clear Hl1. rename Hl1' into Hl1.
  rewrite Hcopy. cbn [data] in Hin1.
  assert (Hu1 : u16 (i + 1) = i + 1).
  { unfold u16. apply Z.mod_small. change EEPROM_FS_BLOCK_DATA_SIZE with 30 in *. lia. }
  rewrite Hu1.
  destruct (negb (block_next e b =? NULL_PTR)).
  - destruct (chain_walk fuel e (block_next e b)) as [l'|] eqn:W; [|discriminate].
    injection Hwalk as <-. cbn [List.length] in Hbound.
    destruct (IH (block_next e b) l' (i + 1) nb' buf1 W)
      as (buf' & Hrun & Hle & Hl & Hin & Hout);
      try assumption; try lia.
    exists buf'. rewrite Hrun. split; [reflexivity|].
    split; [lia|]. split; [|split].
    + intros Hfit. cbn [List.length] in Hfit.
      pose proof (Hfit 0%nat ltac:(lia)) as Hfit0. rewrite Z.add_0_r in Hfit0.
      rewrite Hl; [exact (Hl1 Hfit0)|].
      intros j Hj. rewrite (Hl1 Hfit0).
      replace (i + 1 + Z.of_nat j) with (i + Z.of_nat (S j)) by lia.
      apply Hfit. lia.
    + intros j k Hj Hk Hidx. destruct j as [|j].
      * cbn [nth]. rewrite Z.add_0_r in *.
        rewrite Hout by (change EEPROM_FS_BLOCK_DATA_SIZE with 30 in *; lia).
        apply Hin1; [rewrite Z2Nat.id by lia; rewrite Hnbv; lia|exact Hidx].
      * cbn [nth]. cbn [List.length] in Hj.
        replace (i + Z.of_nat (S j)) with (i + 1 + Z.of_nat j) in * by lia.
        apply Hin; [lia | exact Hk | lia].
    + intros x Hx. rewrite Hout by (change EEPROM_FS_BLOCK_DATA_SIZE with 30 in *; lia).
      apply Hout1. left. lia.
  - injection Hwalk as <-. exists buf1. split; [reflexivity|].
    split; [exact Hle1|]. split; [|split].
    + intros Hfit. cbn [List.length] in Hfit.
      pose proof (Hfit 0%nat ltac:(lia)) as Hfit0. rewrite Z.add_0_r in Hfit0.
      exact (Hl1 Hfit0).
    + intros j k Hj Hk Hidx. cbn [List.length] in Hj.
      assert (j = 0%nat) by lia. subst j. cbn [nth]. rewrite Z.add_0_r in *.
      apply Hin1; [rewrite Z2Nat.id by lia; rewrite Hnbv; lia|exact Hidx].
    + intros x Hx. apply Hout1. left. lia.
Qed.

(** How far the stores of [read] reach: the copy loop of a block that gives
    bytes makes the buffer reach the cell behind the last one it stores to,
    and so does the walk for the last block of the chain. *)
Lemma read_copy_reach tb e w err out block n :
  forall i j buf buf' s',
    0 <= j -> 0 <= i ->
    i * EEPROM_FS_BLOCK_DATA_SIZE + j + Z.of_nat n <= 65536 ->
    read_copy n i j block buf (mk_state 0 tb e w err out) = Some (buf', s') ->
    List.length buf'
    = match n with
      | O => List.length buf
      | S _ => Nat.max (List.length buf)
                       (Z.to_nat (i * EEPROM_FS_BLOCK_DATA_SIZE + j) + n)
      end.
Proof.
  induction n as [|n IH]; intros i j buf buf' s' Hj Hi Hbound H.
  - injection H as <- _. reflexivity.
  - revert H. cbn [read_copy]. cbv zeta. quiet_run.
    change EEPROM_FS_BLOCK_DATA_SIZE with 30 in *.
    assert (Hu : u16 (i * 30 + j) = i * 30 + j)
      by (unfold u16; apply Z.mod_small; lia).
    rewrite Hu. intros H.
    apply IH in H; try lia. rewrite H.
    set (v := nth (Z.to_nat j) (data block) 0).
    destruct (Z.lt_ge_cases (i * 30 + j) (Z.of_nat (List.length buf))) as [Hin|Hout].
    + rewrite (store_length buf _ v Hin). destruct n; lia.
    + rewrite (store_length_past buf _ v Hout). destruct n; lia.
Qed.

Lemma read_walk_reach tb e w err out fh fuel :
  forall b l i nb buf buf' s',
    chain_walk fuel e b = Some l ->
    0 <= i -> (i + Z.of_nat (List.length l)) * EEPROM_FS_BLOCK_DATA_SIZE < 65536 ->
    0 <= filesize fh ->
    nb = EEPROM_FS_BLOCK_DATA_SIZE
    \/ (filesize fh < i * EEPROM_FS_BLOCK_DATA_SIZE
        /\ nb = filesize fh mod EEPROM_FS_BLOCK_DATA_SIZE) ->
    read_walk fuel fh b i nb buf (mk_state 0 tb e w err out) = Some (buf', s') ->
    let last := i + Z.of_nat (List.length l) - 1 in
    0 < bytes_at (filesize fh) last ->
    List.length buf'
    = Nat.max (List.length buf)
              (Z.to_nat (last * EEPROM_FS_BLOCK_DATA_SIZE + bytes_at (filesize fh) last)).
Proof.
  induction fuel as [|fuel IH];
    intros b l i nb buf buf' s' Hwalk Hi Hbound Hfs Hinv H last Hpos;
    [discriminate|].
  cbn [chain_walk] in Hwalk. revert H. cbn [read_walk]. cbv zeta. quiet_run.
  change (dec_block (peek e (get_block_pointer b) EEPROM_FS_BLOCK_SIZE))
    with (mk_block (block_next e b) (block_payload e b)).
  cbn [next_block].
  set (nb' := if filesize fh <? u16 ((i + 1) * EEPROM_FS_BLOCK_DATA_SIZE)
              then filesize fh mod EEPROM_FS_BLOCK_DATA_SIZE else nb).
  assert (Hlen1 : (1 <= List.length l)%nat).
  { destruct (negb (block_next e b =? NULL_PTR));
      [destruct (chain_walk fuel e (block_next e b)); [|discriminate]|];
      injection Hwalk as <-; cbn [List.length]; lia. }
  assert (Hu : u16 ((i + 1) * EEPROM_FS_BLOCK_DATA_SIZE) = (i + 1) * EEPROM_FS_BLOCK_DATA_SIZE).
  { unfold u16. apply Z.mod_small. change EEPROM_FS_BLOCK_DATA_SIZE with 30 in *. lia. }
  assert (Hnbv : nb' = bytes_at (filesize fh) i).
  { unfold nb', bytes_at. rewrite Hu.
    destruct (filesize fh <? (i + 1) * EEPROM_FS_BLOCK_DATA_SIZE) eqn:E; [reflexivity|].
    apply Z.ltb_ge in E. destruct Hinv as [->|[Hlt _]]; [reflexivity|].
    change EEPROM_FS_BLOCK_DATA_SIZE with 30 in *. lia. }
  assert (Hnbr : 0 <= nb' <= EEPROM_FS_BLOCK_DATA_SIZE).
  { rewrite Hnbv. unfold bytes_at.
    destruct (filesize fh <? (i + 1) * EEPROM_FS_BLOCK_DATA_SIZE);
      change EEPROM_FS_BLOCK_DATA_SIZE with 30;
      [pose proof (Z.mod_pos_bound (filesize fh) 30 ltac:(lia))|]; lia. }
  assert (Hinv' : nb' = EEPROM_FS_BLOCK_DATA_SIZE
                  \/ (filesize fh < (i + 1) * EEPROM_FS_BLOCK_DATA_SIZE
                      /\ nb' = filesize fh mod EEPROM_FS_BLOCK_DATA_SIZE)).
  { unfold nb'. rewrite Hu.
    destruct (filesize fh <? (i + 1) * EEPROM_FS_BLOCK_DATA_SIZE) eqn:E.
    - right. apply Z.ltb_lt in E. split; [exact E | reflexivity].
    - destruct Hinv as [->|[Hlt _]]; [left; reflexivity|].
      apply Z.ltb_ge in E. change EEPROM_FS_BLOCK_DATA_SIZE with 30 in *. lia. }
  destruct (read_copy_quiet tb e w err out (mk_block (block_next e b) (block_payload e b))
              (Z.to_nat nb') i 0 buf)
    as (buf1 & Hcopy & Hle1 & _);
    try lia; [change EEPROM_FS_BLOCK_DATA_SIZE with 30 in *; lia|].
  assert (Hreach1 := read_copy_reach tb e w err out
                       (mk_block (block_next e b) (block_payload e b)) (Z.to_nat nb')
                       i 0 buf buf1 (mk_state 0 tb e w err out)).
  specialize (Hreach1 ltac:(lia) Hi).
  specialize (Hreach1 ltac:(change EEPROM_FS_BLOCK_DATA_SIZE with 30 in *; lia) Hcopy).
  rewrite Hcopy.
  assert (Hu1 : u16 (i + 1) = i + 1).
  { unfold u16. apply Z.mod_small. change EEPROM_FS_BLOCK_DATA_SIZE with 30 in *. lia. }
  rewrite Hu1.
  assert (Hb1 : (List.length buf1
                 <= Nat.max (List.length buf)
                            (Z.to_nat (i * EEPROM_FS_BLOCK_DATA_SIZE + EEPROM_FS_BLOCK_DATA_SIZE)))%nat).
  { rewrite Hreach1. change EEPROM_FS_BLOCK_DATA_SIZE with 30 in *.
    destruct (Z.to_nat nb') eqn:En; lia. }
  destruct (negb (block_next e b =? NULL_PTR)).
  - destruct (chain_walk fuel e (block_next e b)) as [l'|] eqn:W; [|discriminate].
    injection Hwalk as Hwalk. symmetry in Hwalk.
    subst l. cbn [List.length] in Hbound, last.
    intros H.
    assert (Hl' : (1 <= List.length l')%nat).
    { destruct fuel as [|fuel']; [discriminate W|]. cbn [chain_walk] in W.
      destruct (negb (block_next e (block_next e b) =? NULL_PTR));
        [destruct (chain_walk fuel' e (block_next e (block_next e b))); [|discriminate]|];
        injection W as <-; cbn [List.length]; lia. }
    assert (Elast : last = i + 1 + Z.of_nat (List.length l') - 1) by (unfold last; lia).
    pose proof (IH (block_next e b) l' (i + 1) nb' buf1 buf' s' W ltac:(lia) ltac:(lia)
                   Hfs Hinv' H) as Hrec.
    cbv zeta in Hrec. rewrite <- Elast in Hrec. rewrite (Hrec Hpos).
    change EEPROM_FS_BLOCK_DATA_SIZE with 30 in *. lia.
  - injection Hwalk as Hwalk. symmetry in Hwalk.
    subst l. cbn [List.length] in last. intros H.
    injection H as <- _.
    assert (Elast : last = i) by (unfold last; lia). rewrite Elast in *.
    rewrite Hreach1. rewrite <- Hnbv in *. change EEPROM_FS_BLOCK_DATA_SIZE with 30 in *.
    destruct (Z.to_nat nb') eqn:En; [lia|]. rewrite <- En. lia.
Qed.

Lemma bytes_at_covers size idx :
  0 <= idx < size ->
  idx mod EEPROM_FS_BLOCK_DATA_SIZE
  < bytes_at size (idx / EEPROM_FS_BLOCK_DATA_SIZE).
Proof.
  intros Hidx. unfold bytes_at. change EEPROM_FS_BLOCK_DATA_SIZE with 30.
  destruct (size <? (idx / 30 + 1) * 30) eqn:E.
  - apply Z.ltb_lt in E. Z.div_mod_to_equations. lia.
  - Z.div_mod_to_equations. lia.
Qed.

(** The stores of [read] stay inside a buffer of [size] cells when the chain
    is no longer than the size asks for, or when the size is a multiple of the
    payload of a block (the surplus blocks then give no byte). *)
Lemma read_fits size n :
  0 <= size ->
  size mod EEPROM_FS_BLOCK_DATA_SIZE = 0
  \/ Z.of_nat n <= size / EEPROM_FS_BLOCK_DATA_SIZE + 1 ->
  forall j, (j < n)%nat -> 0 < bytes_at size (Z.of_nat j) ->
            Z.of_nat j * EEPROM_FS_BLOCK_DATA_SIZE + bytes_at size (Z.of_nat j) <= size.
Proof.
  intros Hsize Hfit j Hj. unfold bytes_at. change EEPROM_FS_BLOCK_DATA_SIZE with 30 in *.
  destruct (size <? (Z.of_nat j + 1) * 30) eqn:E.
  - apply Z.ltb_lt in E. intros Hpos.
    destruct Hfit as [H0|Hn]; [lia|]. Z.div_mod_to_equations. lia.
  - apply Z.ltb_ge in E. lia.
Qed.

Lemma load_file_quiet tb e w err out fuel name l :
  0 <= name <= EEPROM_FS_MAX_FILES ->
  valid_block (data_block (tb name)) = true ->
  chain_walk fuel e (data_block (tb name)) = Some l ->
  0 <= alloc_filesize (tb name) ->
  Z.of_nat (List.length l) * EEPROM_FS_BLOCK_DATA_SIZE < 65536 ->
  exists buf,
    load_file fuel name (mk_state 0 tb e w err out)
    = Some ((mk_file_handle name (alloc_filesize (tb name)) FH_READ
                            (data_block (tb name)) NULL_PTR, buf),
            mk_state 0 tb e w err out)
    /\ (alloc_filesize (tb name) mod EEPROM_FS_BLOCK_DATA_SIZE = 0
        \/ Z.of_nat (List.length l)
           <= alloc_filesize (tb name) / EEPROM_FS_BLOCK_DATA_SIZE + 1 ->
        List.length buf = Z.to_nat (alloc_filesize (tb name)))
    /\ (forall idx,
          0 <= idx < alloc_filesize (tb name) ->
          idx / EEPROM_FS_BLOCK_DATA_SIZE < Z.of_nat (List.length l) ->
          nth (Z.to_nat idx) buf 0
          = nth (Z.to_nat (idx mod EEPROM_FS_BLOCK_DATA_SIZE))
                (block_payload e (nth (Z.to_nat (idx / EEPROM_FS_BLOCK_DATA_SIZE)) l 0)) 0)
    /\ (Z.to_nat (alloc_filesize (tb name)) <= List.length buf)%nat
    /\ (0 < alloc_filesize (tb name) mod EEPROM_FS_BLOCK_DATA_SIZE ->
        alloc_filesize (tb name) / EEPROM_FS_BLOCK_DATA_SIZE + 1
        < Z.of_nat (List.length l) ->
        List.length buf
        = Z.to_nat ((Z.of_nat (List.length l) - 1) * EEPROM_FS_BLOCK_DATA_SIZE
                    + alloc_filesize (tb name) mod EEPROM_FS_BLOCK_DATA_SIZE)).
Proof.
  intros Hname Hv Hwalk Hfs Hbound.
  unfold load_file, open_for_read. quiet_run.
  replace (EEPROM_FS_MAX_FILES <? name) with false by (symmetry; apply Z.ltb_ge; lia).
  quiet_run.
  replace (data_block (tb name) =? NULL_PTR) with false.
  2:{ symmetry. apply Z.eqb_neq. apply valid_block_range in Hv. unfold NULL_PTR. lia. }
  quiet_run. unfold read. cbn [first_block]. rewrite Hv.
  destruct (read_walk_quiet tb e w err out
              (mk_file_handle name (alloc_filesize (tb name)) FH_READ
                              (data_block (tb name)) NULL_PTR)
              fuel (data_block (tb name)) l 0 EEPROM_FS_BLOCK_DATA_SIZE
              (repeat 0 (Z.to_nat (alloc_filesize (tb name)))) Hwalk
              ltac:(lia) ltac:(rewrite Z.add_0_l; exact Hbound) Hfs
              (or_introl eq_refl))
    as (buf & Hrun & Hle & Hlen & Hin & _).
  assert (Hreach := read_walk_reach tb e w err out
                      (mk_file_handle name (alloc_filesize (tb name)) FH_READ
                                      (data_block (tb name)) NULL_PTR)
                      fuel (data_block (tb name)) l 0 EEPROM_FS_BLOCK_DATA_SIZE
                      (repeat 0 (Z.to_nat (alloc_filesize (tb name)))) buf
                      (mk_state 0 tb e w err out) Hwalk).
  specialize (Hreach ltac:(lia)).
  specialize (Hreach ltac:(rewrite Z.add_0_l; exact Hbound) Hfs (or_introl eq_refl) Hrun).
  cbv zeta in Hreach. cbn [filesize] in Hreach. rewrite repeat_length in Hreach.
  rewrite Hrun. exists buf. split; [reflexivity|].
  rewrite repeat_length in Hlen, Hle. cbn [filesize] in Hlen.
  split; [|split; [|split; [exact Hle|]]].
  3:{ intros Hmod Hlong. clear Hlen Hin.
      assert (Hb : bytes_at (alloc_filesize (tb name)) (0 + Z.of_nat (List.length l) - 1)
                   = alloc_filesize (tb name) mod EEPROM_FS_BLOCK_DATA_SIZE).
      { unfold bytes_at. change EEPROM_FS_BLOCK_DATA_SIZE with 30 in *.
        replace (alloc_filesize (tb name) <? (0 + Z.of_nat (List.length l) - 1 + 1) * 30)
          with true; [reflexivity|].
        symmetry. apply Z.ltb_lt. Z.div_mod_to_equations. lia. }
      rewrite Hb in Hreach. rewrite (Hreach Hmod). rewrite Z.add_0_l.
      change EEPROM_FS_BLOCK_DATA_SIZE with 30 in *. Z.div_mod_to_equations. lia. }
  { intros Hfit. apply Hlen. intros j Hj Hpos. rewrite Z.add_0_l in *.
    rewrite Z2Nat.id by exact Hfs. apply (read_fits _ (List.length l)); assumption. }
  intros idx Hidx Hj.
  pose proof (Z.div_mod idx EEPROM_FS_BLOCK_DATA_SIZE ltac:(discriminate)) as Hdm.
  pose proof (Z.mod_pos_bound idx EEPROM_FS_BLOCK_DATA_SIZE ltac:(reflexivity)) as Hmb.
  assert (Hq : 0 <= idx / EEPROM_FS_BLOCK_DATA_SIZE)
    by (apply Z.div_pos; [lia | reflexivity]).
  specialize (Hin (Z.to_nat (idx / EEPROM_FS_BLOCK_DATA_SIZE))
                  (Z.to_nat (idx mod EEPROM_FS_BLOCK_DATA_SIZE))).
  cbn [filesize] in Hin. rewrite !Z2Nat.id in Hin by lia.
  rewrite Z.add_0_l in Hin.
  replace (idx / EEPROM_FS_BLOCK_DATA_SIZE * EEPROM_FS_BLOCK_DATA_SIZE
           + idx mod EEPROM_FS_BLOCK_DATA_SIZE) with idx in Hin by lia.
  apply Hin.
  - lia.
  - split; [lia|]. apply bytes_at_covers. exact Hidx.
  - rewrite repeat_length. lia.
Qed.

Lemma ni_roundtrip fuel u name p : noninterf (roundtrip fuel u name p).
Proof. unfold roundtrip. apply ni_bind; [apply ni_store_file | intros _; apply ni_load_file]. Qed.

(** X1. Round trip with room.  On a name whose current entry leaves room under the
    cap, with a free chain that supplies the blocks, [open_for_write; write;
    close; open_for_read; read] returns exactly the payload, and the read
    handle's size is the payload's length. *)
Theorem roundtrip_with_room fuel u st name p :
  let size := Z.of_nat (List.length p) in
  let k := Z.to_nat (size / EEPROM_FS_BLOCK_DATA_SIZE) in
  0 <= name < EEPROM_FS_MAX_FILES ->
  0 <= alloc_filesize (alloc_table st name) ->
  alloc_filesize (alloc_table st name) / EEPROM_FS_BLOCK_DATA_SIZE
  + size / EEPROM_FS_BLOCK_DATA_SIZE <= EEPROM_FS_MAX_BLOCKS_PER_FILE ->
  forallb valid_block (chain_prefix (S k) (eeprom st) (next_free_block st)) = true ->
  NoDup (chain_prefix (S k) (eeprom st) (next_free_block st)) ->
  (k < fuel)%nat ->
  exists fh st',
    roundtrip fuel u name p st = Some ((fh, p), st')
    /\ filesize fh = size
    /\ type fh = FH_READ.
Proof.
  intros size k Hname Hfs Hcap Hv Hnd Hfuel.
  destruct (store_file_quiet fuel u name p (alloc_table st) (eeprom st) (wear st) [] []
              Hname Hfs Hcap Hv Hnd)
    as (tb' & e' & w' & Hrun & Hentry & _ & _ & _ & Hchain & Hpay & _).
  fold size k in Hrun, Hentry, Hchain, Hpay.
  set (h := next_free_block st) in *.
  assert (Hsize : 0 <= size) by (unfold size; lia).
  assert (Hq : 0 <= size / EEPROM_FS_BLOCK_DATA_SIZE)
    by (apply Z.div_pos; [exact Hsize | reflexivity]).
  assert (Hq' : 0 <= alloc_filesize (alloc_table st name) / EEPROM_FS_BLOCK_DATA_SIZE)
    by (apply Z.div_pos; [exact Hfs | reflexivity]).
  change EEPROM_FS_MAX_BLOCKS_PER_FILE with 8 in Hcap.
  assert (Hvh : valid_block h = true).
  { cbn [chain_prefix forallb] in Hv. apply andb_true_iff in Hv. apply Hv. }
  destruct (load_file_quiet tb' e' w' [] [] fuel name (chain_prefix (S k) (eeprom st) h))
    as (buf & Hload & Hlen & Hbuf & _).
  { change EEPROM_FS_MAX_FILES with 29 in *. lia. }
  { rewrite Hentry. exact Hvh. }
  { rewrite Hentry. cbn [data_block]. apply Hchain. exact Hfuel. }
  { rewrite Hentry. exact Hsize. }
  { rewrite chain_prefix_length. unfold k.
    change EEPROM_FS_BLOCK_DATA_SIZE with 30 in *. lia. }
  rewrite Hentry in Hload, Hlen, Hbuf. cbn [alloc_filesize data_block] in Hload, Hlen, Hbuf.
  specialize (Hlen ltac:(right; rewrite chain_prefix_length; unfold k; lia)).
  assert (Hp : buf = p).
  { apply nth_ext with (d := 0) (d' := 0); [rewrite Hlen; unfold size; lia|].
    intros n Hn. rewrite Hlen in Hn.
    assert (Hidx : 0 <= Z.of_nat n < size) by lia.
    pose proof (Z.div_mod (Z.of_nat n) EEPROM_FS_BLOCK_DATA_SIZE ltac:(discriminate)) as Hdm.
    pose proof (Z.mod_pos_bound (Z.of_nat n) EEPROM_FS_BLOCK_DATA_SIZE ltac:(reflexivity)) as Hmb.
    assert (Hjn : 0 <= Z.of_nat n / EEPROM_FS_BLOCK_DATA_SIZE <= size / EEPROM_FS_BLOCK_DATA_SIZE).
    { split; [apply Z.div_pos; [lia | reflexivity]|].
      apply Z.div_le_mono; [reflexivity | lia]. }
    specialize (Hbuf (Z.of_nat n) Hidx). rewrite Nat2Z.id in Hbuf.
    rewrite Hbuf by (rewrite chain_prefix_length; unfold k; lia).
    rewrite Hpay.
    - rewrite !Z2Nat.id by lia. f_equal.
      replace (Z.of_nat n / EEPROM_FS_BLOCK_DATA_SIZE * EEPROM_FS_BLOCK_DATA_SIZE
               + Z.of_nat n mod EEPROM_FS_BLOCK_DATA_SIZE) with (Z.of_nat n) by lia.
      apply Nat2Z.id.
    - unfold k. lia.
    - rewrite !Z2Nat.id by lia. split; [lia|]. apply bytes_at_covers. exact Hidx. }
  subst buf.
  assert (Hboth : roundtrip fuel u name p (quiet st)
                  = Some ((mk_file_handle name size FH_READ h NULL_PTR, p),
                          mk_state 0 tb' e' w' [] [])).
  { unfold roundtrip, bind, quiet. rewrite Hrun. exact Hload. }
  destruct (run_quiet _ st _ _ (ni_roundtrip fuel u name p) Hboth) as (st' & Hst & _).
  eexists _, st'. split; [exact Hst|]. split; reflexivity.
Qed.

Lemma roundtrip_with_room_witness :
  exists fh st',
    roundtrip 60 stale 6 (counting 14 65) fresh = Some ((fh, counting 14 65), st')
    /\ filesize fh = 14 /\ type fh = FH_READ.
Proof.
  apply (roundtrip_with_room 60 stale fresh 6 (counting 14 65)).
  - vm_compute. split; [discriminate | reflexivity].
  - vm_compute. discriminate.
  - vm_compute. discriminate.
  - vm_compute. reflexivity.
  - vm_compute. repeat constructor; simpl; intuition discriminate.
  - vm_compute. lia.
Defined.

(** ** Name folding, where it holds *)

Lemma agree_sym {A} (r1 r2 : option (A * fs_state)) : agree r1 r2 -> agree r2 r1.
Proof.
  unfold agree. destruct r1 as [[a1 s1]|], r2 as [[a2 s2]|]; auto.
  intros [-> ->]. auto.
Qed.

Lemma agree_trans {A} (r1 r2 r3 : option (A * fs_state)) :
  agree r1 r2 -> agree r2 r3 -> agree r1 r3.
Proof.
  unfold agree.
  destruct r1 as [[a1 s1]|], r2 as [[a2 s2]|], r3 as [[a3 s3]|]; auto; try contradiction.
  intros [-> ->] [-> ->]. auto.
Qed.

(** Two computations that coincide on quiet states agree on every state. *)
Lemma agree_by_quiet {A} (m1 m2 : M A) st :
  noninterf m1 -> noninterf m2 ->
  m1 (quiet st) = m2 (quiet st) -> agree (m1 st) (m2 st).
Proof.
  intros H1 H2 E.
  apply agree_trans with (r2 := m1 (quiet st)); [apply H1; reflexivity|].
  rewrite E. apply H2. reflexivity.
Qed.

Lemma fold_twice name :
  0 <= name -> name <> EEPROM_FS_MAX_FILES ->
  (if EEPROM_FS_MAX_FILES <? name then name mod EEPROM_FS_MAX_FILES else name)
  = name mod EEPROM_FS_MAX_FILES
  /\ (EEPROM_FS_MAX_FILES <? name mod EEPROM_FS_MAX_FILES) = false.
Proof.
  intros H0 Hne.
  pose proof (Z.mod_pos_bound name EEPROM_FS_MAX_FILES ltac:(reflexivity)) as Hb.
  split.
  - destruct (EEPROM_FS_MAX_FILES <? name) eqn:E; [reflexivity|].
    apply Z.ltb_ge in E. symmetry. apply Z.mod_small. lia.
  - apply Z.ltb_ge. lia.
Qed.

(** X3. Name folding, for the names an [fname_t] holds.  For every name below
    65536 other than [MAX_FILES] itself the open calls return the handle and
    leave the core they would for [name mod MAX_FILES]; [delete] does so for
    every name below 65536. *)
Theorem name_folding fuel st name :
  0 <= name < 65536 ->
  agree (delete fuel name st) (delete fuel (name mod EEPROM_FS_MAX_FILES) st)
  /\ (name <> EEPROM_FS_MAX_FILES ->
      agree (open_for_write name st) (open_for_write (name mod EEPROM_FS_MAX_FILES) st)
      /\ agree (open_for_append name st)
               (open_for_append (name mod EEPROM_FS_MAX_FILES) st)
      /\ agree (open_for_read name st)
               (open_for_read (name mod EEPROM_FS_MAX_FILES) st)).
Proof.
  intros [H0 _]. split.
  - apply agree_by_quiet; try apply ni_delete.
    pose proof (Z.mod_pos_bound name EEPROM_FS_MAX_FILES ltac:(reflexivity)) as Hb.
    unfold delete, quiet. quiet_run.
    replace (EEPROM_FS_MAX_FILES <? name mod EEPROM_FS_MAX_FILES) with false
      by (symmetry; apply Z.ltb_ge; lia).
    destruct (EEPROM_FS_MAX_FILES <? name); quiet_run;
      rewrite !Z.mod_mod by discriminate; reflexivity.
  - intros Hne. destruct (fold_twice name H0 Hne) as [E1 E2].
    repeat split.
    + apply agree_by_quiet; try apply ni_open_for_write.
      unfold quiet. rewrite !open_for_write_quiet. rewrite E1, E2. reflexivity.
    + apply agree_by_quiet; try apply ni_open_for_append.
      unfold open_for_append, quiet. quiet_run. rewrite E2.
      destruct (EEPROM_FS_MAX_FILES <? name) eqn:E; quiet_run.
      * reflexivity.
      * rewrite <- E1. reflexivity.
    + apply agree_by_quiet; try apply ni_open_for_read.
      unfold open_for_read, quiet. quiet_run. rewrite E2.
      destruct (EEPROM_FS_MAX_FILES <? name) eqn:E; quiet_run.
      * reflexivity.
      * rewrite <- E1. reflexivity.
Qed.

Lemma name_folding_witness :
  agree (delete 60 1337 one_block_file) (delete 60 (1337 mod EEPROM_FS_MAX_FILES) one_block_file)
  /\ (1337 <> EEPROM_FS_MAX_FILES ->
      agree (open_for_write 1337 one_block_file)
            (open_for_write (1337 mod EEPROM_FS_MAX_FILES) one_block_file)
      /\ agree (open_for_append 1337 one_block_file)
               (open_for_append (1337 mod EEPROM_FS_MAX_FILES) one_block_file)
      /\ agree (open_for_read 1337 one_block_file)
               (open_for_read (1337 mod EEPROM_FS_MAX_FILES) one_block_file)).
Proof. apply (name_folding 60 one_block_file 1337). lia. Defined.

(** ** Update, not write *)

Lemma filter_none {A} (f : A -> bool) (l : list A) :
  (forall x, In x l -> f x = false) -> filter f l = [].
Proof.
  induction l as [|x l IH]; intros H; [reflexivity|].
  cbn [filter]. rewrite (H x) by (left; reflexivity).
  apply IH. intros y Hy. apply H. right. exact Hy.
Qed.

Lemma differing_none e dst src n :
  (forall k, (k < Z.to_nat n)%nat -> e (dst + Z.of_nat k) = nth k src 0) ->
  differing e dst src n = 0.
Proof.
  intros H. unfold differing.
  rewrite filter_none; [reflexivity|].
  intros k Hk. apply in_seq in Hk.
  rewrite H by lia. rewrite Z.eqb_refl. reflexivity.
Qed.

Lemma update_unchanged e dst src n :
  peek e dst n = take n 0 src ->
  differing e dst src n = 0 /\ forall a, poke e dst src n a = e a.
Proof.
  intros Hpeek.
  assert (Hcell : forall k, (k < Z.to_nat n)%nat -> e (dst + Z.of_nat k) = nth k src 0).
  { intros k Hk.
    assert (E : nth k (peek e dst n) 0 = nth k (take n 0 src) 0)
      by (rewrite Hpeek; reflexivity).
    rewrite take_nth in E by exact Hk. rewrite <- E. unfold peek.
    rewrite (nth_indep _ 0 ((fun k => e (dst + Z.of_nat k)) 0%nat))
      by (rewrite length_map, length_seq; exact Hk).
    rewrite (map_nth (fun k => e (dst + Z.of_nat k))), seq_nth by exact Hk.
    reflexivity. }
  split; [apply differing_none; exact Hcell|].
  intros a. unfold poke.
  destruct ((dst <=? a) && (a <? dst + n)) eqn:E; [|reflexivity].
  apply andb_true_iff in E. destruct E as [E1 E2].
  apply Z.leb_le in E1. apply Z.ltb_lt in E2.
  rewrite <- (Hcell (Z.to_nat (a - dst))) by lia.
  f_equal. lia.
Qed.

(** X4. Deleting a name that holds no file, on a medium that already stores the
    cleared entry for it: [delete] returns, programs no cell (the wear count is
    as it was) and leaves every cell of the medium as it was, because the
    entry is mirrored with [eeprom_update_block]. *)
Theorem delete_without_a_file_programs_nothing fuel name st :
  let f := name mod EEPROM_FS_MAX_FILES in
  valid_block (data_block (alloc_table st f)) = false ->
  peek (eeprom st) (alloc_entry_address f) sizeof_file_alloc_t
  = enc_file_alloc (mk_file_alloc 0 NULL_PTR) ->
  exists st',
    delete fuel name st = Some (tt, st')
    /\ wear st' = wear st
    /\ (forall a, eeprom st' a = eeprom st a)
    /\ alloc_table st' f = mk_file_alloc 0 NULL_PTR.
Proof.
  intros f Hv Hpeek. destruct st as [d tb e w err out].
  cbn [alloc_table eeprom wear] in *. unfold f in *. clear f.
  change (enc_file_alloc (mk_file_alloc 0 NULL_PTR))
    with (take sizeof_file_alloc_t 0 (enc_file_alloc (mk_file_alloc 0 NULL_PTR))) in Hpeek.
  destruct (update_unchanged _ _ _ _ Hpeek) as [Hd Hp].
  unfold delete, bind, _fs_debug1, _fs_debug2, ret, gets, modify, eeprom_update_block.
  destruct (1 <=? d) eqn:E1, (2 <=? d) eqn:E2, (EEPROM_FS_MAX_FILES <? name) eqn:E3;
    repeat (first [ rewrite E1 | rewrite E2
                  | rewrite Z.mod_mod by discriminate
                  | rewrite unlink_invalid by exact Hv
                  | rewrite upd_table_same
                  | progress unfold put_stderr, set_alloc_table, set_eeprom, modify
                  | progress cbn [__debug alloc_table eeprom wear stderr stdout
                                  alloc_filesize] ]);
    (eexists; split; [reflexivity|]);
    cbn [eeprom wear alloc_table];
    (split; [rewrite Hd; lia|]); (split; [exact Hp|]);
    apply upd_table_same.
Qed.

Lemma delete_without_a_file_programs_nothing_witness :
  exists st',
    delete 60 5 fresh = Some (tt, st')
    /\ wear st' = wear fresh
    /\ (forall a, eeprom st' a = eeprom fresh a)
    /\ alloc_table st' 5 = mk_file_alloc 0 NULL_PTR.
Proof.
  apply (delete_without_a_file_programs_nothing 60 5 fresh); vm_compute; reflexivity.
Defined.

(** ** The truncation rule *)

Lemma logs_ret {A} (a : A) : logs (ret a).
Proof. intros st. exists a, st, []. rewrite app_nil_r. auto. Qed.

Lemma logs_bind {A B} (m : M A) (k : A -> M B) :
  logs m -> (forall a, logs (k a)) -> logs (bind m k).
Proof.
  intros Hm Hk st. destruct (Hm st) as (a & s1 & l1 & E1 & L1).
  destruct (Hk a s1) as (b & s2 & l2 & E2 & L2).
  exists b, s2, (l1 ++ l2). unfold bind. rewrite E1. split; [exact E2|].
  rewrite L2, L1, app_assoc. reflexivity.
Qed.

Lemma logs_gets {A} (f : fs_state -> A) : logs (gets f).
Proof. intros st. exists (f st), st, []. rewrite app_nil_r. auto. Qed.

Lemma logs_error fmt args : logs (_fs_error fmt args).
Proof. intros st. exists tt, (put_stderr (Msg fmt args) st), [Msg fmt args]. auto. Qed.

Lemma logs_debug1 fmt args : logs (_fs_debug1 fmt args).
Proof.
  intros st. unfold _fs_debug1. destruct (1 <=? __debug st).
  - apply logs_error.
  - apply logs_ret.
Qed.

Lemma logs_debug2 fmt args : logs (_fs_debug2 fmt args).
Proof.
  intros st. unfold _fs_debug2. destruct (2 <=? __debug st).
  - apply logs_error.
  - apply logs_ret.
Qed.

Lemma logs_debug3 fmt args : logs (_fs_debug3 fmt args).
Proof.
  intros st. unfold _fs_debug3. destruct (3 <=? __debug st).
  - apply logs_error.
  - apply logs_ret.
Qed.

Lemma logs_debug4 fmt args : logs (_fs_debug4 fmt args).
Proof.
  intros st. unfold _fs_debug4. destruct (4 <=? __debug st).
  - apply logs_error.
  - apply logs_ret.
Qed.

Lemma logs_modify_quiet (f : fs_state -> fs_state) :
  (forall st, stderr (f st) = stderr st) -> logs (modify f).
Proof.
  intros Hf st. exists tt, (f st), []. rewrite app_nil_r, Hf. auto.
Qed.

Lemma logs_write_copy n : forall i j data bd, logs (write_copy n i j data bd).
Proof.
  induction n as [|n IH]; intros i j data bd; cbn [write_copy]; [apply logs_ret|].
  cbv zeta. apply logs_bind; [apply logs_debug4 | intros _; apply IH].
Qed.

Lemma logs_write_block_data bd : logs (write_block_data bd).
Proof.
  unfold write_block_data. apply logs_bind; [apply logs_gets | intros write_to].
  destruct (valid_block write_to).
  - apply logs_bind; [apply logs_gets | intros bs]. cbv zeta.
    apply logs_bind; [apply logs_modify_quiet; reflexivity | intros _].
    apply logs_bind; [apply logs_debug2 | intros _].
    apply logs_bind; [apply logs_modify_quiet; reflexivity | intros _].
    apply logs_bind; [apply logs_debug2 | intros _].
    apply logs_bind; [apply logs_gets | intros nfb].
    apply logs_bind; [apply logs_debug3 | intros _; apply logs_ret].
  - apply logs_bind; [apply logs_error | intros _; apply logs_ret].
Qed.

Lemma logs_write_blocks n :
  forall i data size nb bd last, logs (write_blocks n i data size nb bd last).
Proof.
  induction n as [|n IH]; intros i data size nb bd last; cbn [write_blocks];
    [apply logs_ret|].
  cbv zeta. apply logs_bind; [apply logs_write_copy | intros bd'].
  apply logs_bind; [apply logs_write_block_data | intros last'; apply IH].
Qed.

(** X2. The truncation rule of [write], for a WRITE handle, a size and an
    entry size of 16 bits.  Whenever the full blocks of the entry under the
    handle's name plus the full blocks of the payload exceed
    [MAX_BLOCKS_PER_FILE], the write returns and reports a truncation to
    [num_blocks * BLOCK_DATA_SIZE] bytes, where
    [num_blocks = MAX_BLOCKS_PER_FILE - blocks_in_use] and the product are
    taken in [size_t].  When [num_blocks] is positive the handle's size becomes
    that product if it is below the size asked for, and the size asked for
    otherwise; when it is zero the handle is returned as it was and the lack of
    space is reported.  While the entry holds at most [MAX_BLOCKS_PER_FILE]
    full blocks the difference does not wrap and the product is below the size
    asked for; past that it wraps to [65536 + MAX_BLOCKS_PER_FILE -
    blocks_in_use] blocks. *)
Theorem write_truncation fuel u fh data size st :
  let in_use := alloc_filesize (alloc_table st (filename fh)) / EEPROM_FS_BLOCK_DATA_SIZE in
  let num_blocks := u16 (EEPROM_FS_MAX_BLOCKS_PER_FILE - in_use) in
  let bytes := u16 (num_blocks * EEPROM_FS_BLOCK_DATA_SIZE) in
  type fh = FH_WRITE ->
  0 <= size < 65536 ->
  0 <= alloc_filesize (alloc_table st (filename fh)) < 65536 ->
  EEPROM_FS_MAX_BLOCKS_PER_FILE < in_use + size / EEPROM_FS_BLOCK_DATA_SIZE ->
  exists fh' st',
    write fuel u fh data size st = Some (fh', st')
    /\ In (Msg "File too large - write truncated to %d bytes.\n" [bytes]) (stderr st')
    /\ (0 < num_blocks -> filesize fh' = if bytes <? size then bytes else size)
    /\ (num_blocks = 0 ->
        fh' = fh
        /\ In (Msg "No more space available for file %d.\n" [filename fh]) (stderr st'))
    /\ (in_use <= EEPROM_FS_MAX_BLOCKS_PER_FILE ->
        num_blocks = EEPROM_FS_MAX_BLOCKS_PER_FILE - in_use
        /\ bytes = num_blocks * EEPROM_FS_BLOCK_DATA_SIZE
        /\ bytes < size)
    /\ (EEPROM_FS_MAX_BLOCKS_PER_FILE < in_use ->
        num_blocks = 65536 + EEPROM_FS_MAX_BLOCKS_PER_FILE - in_use).
Proof.
  intros in_use num_blocks bytes Ht Hsize Hfs Hcap.
  assert (Hq : 0 <= size / EEPROM_FS_BLOCK_DATA_SIZE < 2185).
  { change EEPROM_FS_BLOCK_DATA_SIZE with 30. Z.div_mod_to_equations. lia. }
  assert (Huse : 0 <= in_use < 2185).
  { unfold in_use. change EEPROM_FS_BLOCK_DATA_SIZE with 30. Z.div_mod_to_equations. lia. }
  assert (Hrule : (in_use <= EEPROM_FS_MAX_BLOCKS_PER_FILE ->
                   num_blocks = EEPROM_FS_MAX_BLOCKS_PER_FILE - in_use
                   /\ bytes = num_blocks * EEPROM_FS_BLOCK_DATA_SIZE
                   /\ bytes < size)
                  /\ (EEPROM_FS_MAX_BLOCKS_PER_FILE < in_use ->
                      num_blocks = 65536 + EEPROM_FS_MAX_BLOCKS_PER_FILE - in_use)).
  { change EEPROM_FS_MAX_BLOCKS_PER_FILE with 8 in *. split.
    - intros Hle.
      assert (E : num_blocks = 8 - in_use) by (unfold num_blocks, u16; apply Z.mod_small; lia).
      split; [exact E|]. unfold bytes. rewrite E.
      change EEPROM_FS_BLOCK_DATA_SIZE with 30 in *.
      unfold u16. rewrite Z.mod_small by lia.
      split; [reflexivity|]. Z.div_mod_to_equations. lia.
    - intros Hgt. unfold num_blocks, u16.
      replace (8 - in_use) with (65536 + 8 - in_use + (-1) * 65536) by lia.
      rewrite Z.mod_add by discriminate. apply Z.mod_small. lia. }
  unfold write. rewrite Ht. cbn [handle_type_eqb orb andb]. cbv zeta.
  unfold bind at 1. unfold ret at 1. cbn [fst snd].
  destruct (logs_debug1 "Writing %d bytes to file %d.\n" [size; filename fh] st)
    as ([] & s1 & l1 & E1 & L1).
  unfold bind at 1. rewrite E1.
  assert (Htb1 : alloc_table s1 = alloc_table st).
  { unfold _fs_debug1 in E1. destruct (1 <=? __debug st); injection E1 as <-; reflexivity. }
  unfold bind at 1. unfold gets at 1. rewrite Htb1. fold in_use.
  replace (EEPROM_FS_MAX_BLOCKS_PER_FILE
           <? u16 (in_use + size / EEPROM_FS_BLOCK_DATA_SIZE)) with true
    by (symmetry; apply Z.ltb_lt; unfold u16; rewrite Z.mod_small; lia).
  fold num_blocks. fold bytes.
  unfold bind at 1. unfold bind at 1. unfold _fs_error at 1, modify at 1, ret at 1.
  set (s2 := put_stderr (Msg "File too large - write truncated to %d bytes.\n" [bytes]) s1).
  assert (L2 : In (Msg "File too large - write truncated to %d bytes.\n" [bytes])
                  (stderr s2)).
  { unfold s2, put_stderr. cbn [stderr]. apply in_or_app. right. left. reflexivity. }
  destruct (0 <? num_blocks) eqn:Hpos.
  - apply Z.ltb_lt in Hpos.
    match goal with
    | |- context [bind (gets next_free_block) ?k s2] =>
        destruct (logs_bind (gets next_free_block) k (logs_gets _)) with (st := s2)
          as (fh' & s3 & l3 & E3 & L3)
    end.
    { intros nfb. cbv zeta.
      apply logs_bind; [apply logs_write_blocks | intros last'].
      apply logs_bind; [apply logs_debug1 | intros _; apply logs_ret]. }
    exists fh', s3. split; [exact E3|].
    split; [rewrite L3; apply in_or_app; left; exact L2|].
    split; [|split; [lia | exact Hrule]].
    intros _. revert E3. unfold bind, gets, ret. fold bytes.
    destruct (write_blocks _ _ _ _ _ _ _ s2) as [[last' s4]|]; [|discriminate].
    destruct (bytes <? size).
    + destruct (_fs_debug1 _ _ s4) as [[[] s5]|]; [|discriminate].
      intros E. injection E as <- _. reflexivity.
    + destruct (_fs_debug1 _ _ s4) as [[[] s5]|]; [|discriminate].
      intros E. injection E as <- _. reflexivity.
  - apply Z.ltb_ge in Hpos.
    eexists fh, _. unfold bind, _fs_error, modify, ret. split; [reflexivity|].
    unfold put_stderr at 1. cbn [stderr].
    split; [apply in_or_app; left; exact L2|].
    split; [lia|]. split; [|exact Hrule]. intros _. split; [reflexivity|].
    apply in_or_app. right. left. reflexivity.
Qed.

Lemma write_truncation_witness :
  exists fh' st',
    write 60 stale (mk_file_handle 0 0 FH_WRITE NULL_PTR NULL_PTR) (counting 270 0) 270 fresh
    = Some (fh', st')
    /\ In (Msg "File too large - write truncated to %d bytes.\n" [240]) (stderr st')
    /\ filesize fh' = 240.
Proof.
  destruct (write_truncation 60 stale (mk_file_handle 0 0 FH_WRITE NULL_PTR NULL_PTR)
                             (counting 270 0) 270 fresh)
    as (fh' & st' & H1 & H2 & H3 & _).
  - reflexivity.
  - lia.
  - vm_compute. split; [discriminate | reflexivity].
  - vm_compute. reflexivity.
  - exists fh', st'. split; [exact H1|]. split; [exact H2|].
    apply H3. vm_compute. reflexivity.
Defined.


(** ** Calls that store nothing *)

Lemma readonly_ret {A} (a : A) : readonly (ret a).
Proof. intros st r st' H. injection H as _ <-. reflexivity. Qed.

Lemma readonly_diverge {A} : readonly (@diverge A).
Proof. intros st r st' H. discriminate H. Qed.

Lemma readonly_bind {A B} (m : M A) (k : A -> M B) :
  readonly m -> (forall a, readonly (k a)) -> readonly (bind m k).
Proof.
  intros Hm Hk st r st' H. apply bind_inv in H. destruct H as (a & s1 & H1 & H2).
  rewrite (Hk a _ _ _ H2). exact (Hm _ _ _ H1).
Qed.

Lemma readonly_gets {A} (f : fs_state -> A) : readonly (gets f).
Proof. intros st r st' H. injection H as _ <-. reflexivity. Qed.

Lemma readonly_error fmt args : readonly (_fs_error fmt args).
Proof. intros st r st' H. injection H as _ <-. reflexivity. Qed.

Lemma readonly_put_stdout m : readonly (modify (put_stdout m)).
Proof. intros st r st' H. injection H as _ <-. reflexivity. Qed.

Lemma readonly_debug1 fmt args : readonly (_fs_debug1 fmt args).
Proof.
  intros st r st' H. unfold _fs_debug1 in H.
  destruct (1 <=? __debug st); injection H as _ <-; reflexivity.
Qed.

Lemma readonly_debug2 fmt args : readonly (_fs_debug2 fmt args).
Proof.
  intros st r st' H. unfold _fs_debug2 in H.
  destruct (2 <=? __debug st); injection H as _ <-; reflexivity.
Qed.

Lemma readonly_debug3 fmt args : readonly (_fs_debug3 fmt args).
Proof.
  intros st r st' H. unfold _fs_debug3 in H.
  destruct (3 <=? __debug st); injection H as _ <-; reflexivity.
Qed.

Lemma readonly_debug4 fmt args : readonly (_fs_debug4 fmt args).
Proof.
  intros st r st' H. unfold _fs_debug4 in H.
  destruct (4 <=? __debug st); injection H as _ <-; reflexivity.
Qed.

Lemma readonly_set_debug level : readonly (set_debug level).
Proof. intros st r st' H. injection H as _ <-. reflexivity. Qed.

Create HintDb ro discriminated.
#[local] Hint Constants Opaque : ro.
#[local] Hint Resolve readonly_ret readonly_diverge readonly_gets readonly_error
  readonly_put_stdout readonly_debug1 readonly_debug2 readonly_debug3 readonly_debug4
  readonly_set_debug : ro.

(** One step of a proof that a computation stores nothing. *)
Ltac ro_step :=
  cbv zeta;
  lazymatch goal with
  | |- readonly (bind _ _) => apply readonly_bind; [ | intros ? ]
  | |- readonly (if ?b then _ else _) => destruct b
  | |- readonly _ => solve [auto with ro nocore]
  end.

Ltac ro := repeat ro_step.

Lemma readonly_read_block src n : readonly (eeprom_read_block src n).
Proof. apply readonly_gets. Qed.

Lemma readonly_read_byte a : readonly (eeprom_read_byte a).
Proof. apply readonly_gets. Qed.
#[local] Hint Resolve readonly_read_block readonly_read_byte : ro.

Lemma readonly_last_block_walk fuel : forall next, readonly (last_block_walk fuel next).
Proof. induction fuel as [|fuel IH]; intros next; cbn [last_block_walk]; ro. Qed.
#[local] Hint Resolve readonly_last_block_walk : ro.

Lemma readonly_last_block_in_chain fuel block : readonly (last_block_in_chain fuel block).
Proof. unfold last_block_in_chain. ro. Qed.
#[local] Hint Resolve readonly_last_block_in_chain : ro.

Lemma readonly_read_copy n : forall i j block buf, readonly (read_copy n i j block buf).
Proof. induction n as [|n IH]; intros i j block buf; cbn [read_copy]; ro. Qed.
#[local] Hint Resolve readonly_read_copy : ro.

Lemma readonly_read_walk fuel fh :
  forall next i nb buf, readonly (read_walk fuel fh next i nb buf).
Proof. induction fuel as [|fuel IH]; intros next i nb buf; cbn [read_walk]; ro. Qed.
#[local] Hint Resolve readonly_read_walk : ro.

Lemma readonly_read fuel fh buf : readonly (read fuel fh buf).
Proof. unfold read. ro. Qed.
#[local] Hint Resolve readonly_read : ro.

Lemma readonly_open_for_write name : readonly (open_for_write name).
Proof. unfold open_for_write. ro. Qed.

Lemma readonly_open_for_append name : readonly (open_for_append name).
Proof. unfold open_for_append. ro. Qed.

Lemma readonly_open_for_read name : readonly (open_for_read name).
Proof. unfold open_for_read. ro. Qed.

Lemma readonly_dump_loop n : forall i buf, readonly (dump_loop n i buf).
Proof. induction n as [|n IH]; intros i buf; cbn [dump_loop]; ro. Qed.
#[local] Hint Resolve readonly_dump_loop : ro.

Lemma readonly_dump_eeprom : readonly dump_eeprom.
Proof. unfold dump_eeprom. ro. Qed.

Lemma readonly_write_copy n : forall i j data bd, readonly (write_copy n i j data bd).
Proof. induction n as [|n IH]; intros i j data bd; cbn [write_copy]; ro. Qed.
#[local] Hint Resolve readonly_write_copy : ro.

Lemma logs_put_stdout m : logs (modify (put_stdout m)).
Proof. apply logs_modify_quiet. reflexivity. Qed.

Lemma logs_dump_loop n : forall i buf, logs (dump_loop n i buf).
Proof.
  induction n as [|n IH]; intros i buf; cbn [dump_loop]; [apply logs_ret|].
  apply logs_bind; [apply logs_gets | intros val]. cbv zeta.
  apply logs_bind; [destruct (i mod 16 =? 0); [apply logs_put_stdout | apply logs_ret]
                   | intros _].
  apply logs_bind; [apply logs_put_stdout | intros _].
  apply logs_bind; [destruct (i mod 16 =? 15); [apply logs_put_stdout | apply logs_ret]
                   | intros _].
  apply IH.
Qed.

Lemma logs_returns {A} (m : M A) : logs m -> forall st, exists a st', m st = Some (a, st').
Proof. intros H st. destruct (H st) as (a & st' & _ & E & _). eauto. Qed.

Ltac lg_step :=
  cbv zeta;
  lazymatch goal with
  | |- logs (bind _ _) => apply logs_bind; [ | intros ? ]
  | |- logs (if ?b then _ else _) => destruct b
  | |- logs (ret _) => apply logs_ret
  | |- logs (gets _) => apply logs_gets
  | |- logs (_fs_error _ _) => apply logs_error
  | |- logs (_fs_debug1 _ _) => apply logs_debug1
  | |- logs (_fs_debug2 _ _) => apply logs_debug2
  | |- logs (_fs_debug3 _ _) => apply logs_debug3
  | |- logs (_fs_debug4 _ _) => apply logs_debug4
  | |- logs (modify (put_stdout _)) => apply logs_put_stdout
  end.

Ltac lg := repeat lg_step.

Lemma logs_open_for_write name : logs (open_for_write name).
Proof. unfold open_for_write. lg. Qed.

Lemma logs_open_for_append name : logs (open_for_append name).
Proof. unfold open_for_append. lg. Qed.

Lemma logs_open_for_read name : logs (open_for_read name).
Proof. unfold open_for_read. lg. Qed.

Lemma logs_dump_eeprom : logs dump_eeprom.
Proof. unfold dump_eeprom. apply logs_bind; [apply logs_dump_loop | intros _; lg]. Qed.

(** X9. The read side of the API stores nothing.  The three open calls and
    [dump_eeprom] always return, and they and [last_block_in_chain] leave the
    allocation table in RAM, every cell of the medium and the wear as they
    were, whatever the state.  So does [read] for any handle and buffer, as
    long as none of its stores lands behind the buffer: the buffer it returns
    then has the length of the one it was given. *)
Theorem read_side_stores_nothing fuel name fh buf block st :
  (exists h s, open_for_write name st = Some (h, s) /\ core s = core st)
  /\ (exists h s, open_for_append name st = Some (h, s) /\ core s = core st)
  /\ (exists h s, open_for_read name st = Some (h, s) /\ core s = core st)
  /\ (exists s, dump_eeprom st = Some (tt, s) /\ core s = core st)
  /\ (forall r s, read fuel fh buf st = Some (r, s) ->
                  List.length r = List.length buf -> core s = core st)
  /\ (forall r s, last_block_in_chain fuel block st = Some (r, s) -> core s = core st).
Proof.
  repeat split.
  - destruct (logs_returns _ (logs_open_for_write name) st) as (h & s & E).
    exists h, s. split; [exact E | exact (readonly_open_for_write name _ _ _ E)].
  - destruct (logs_returns _ (logs_open_for_append name) st) as (h & s & E).
    exists h, s. split; [exact E | exact (readonly_open_for_append name _ _ _ E)].
  - destruct (logs_returns _ (logs_open_for_read name) st) as (h & s & E).
    exists h, s. split; [exact E | exact (readonly_open_for_read name _ _ _ E)].
  - destruct (logs_returns _ logs_dump_eeprom st) as ([] & s & E).
    exists s. split; [exact E | exact (readonly_dump_eeprom _ _ _ E)].
  - intros r s E _. exact (readonly_read fuel fh buf _ _ _ E).
  - intros r s E. exact (readonly_last_block_in_chain fuel block _ _ _ E).
Qed.

(** ** What an uncommitted write leaves alone *)

(** What a run from the quiet state tells about the run from the state itself. *)
Lemma by_quiet {A} (m : M A) st a q r st' :
  noninterf m -> m (quiet st) = Some (a, q) -> m st = Some (r, st') ->
  r = a /\ alloc_table st' = alloc_table q /\ eeprom st' = eeprom q /\ wear st' = wear q.
Proof.
  intros Hm Hq Hr. destruct (run_quiet m st a q Hm Hq) as (s & Hs & Hc).
  rewrite Hr in Hs. injection Hs as -> ->.
  unfold core in Hc. injection Hc as H1 H2 H3. auto.
Qed.

(** Every block address, of a valid block or not, is 2 modulo the block size. *)
Lemma block_pointer_aligned x : get_block_pointer x mod 32 = 2.
Proof.
  unfold get_block_pointer, u16, s16.
  change EEPROM_FS_START with 0. change EEPROM_FS_DATA_OFFSET with 130.
  change EEPROM_FS_BLOCK_SIZE with 32. change EEPROM_FS_SIZE with 2048.
  Z.quot_rem_to_equations. Z.div_mod_to_equations. lia.
Qed.

Lemma block_next_poke_payload_any e h bd x :
  valid_block h = true ->
  block_next (poke e (get_block_pointer h + 2) bd EEPROM_FS_BLOCK_DATA_SIZE) x
  = block_next e x.
Proof.
  intros Hh. apply block_next_frame. intros a Ha. apply poke_outside.
  pose proof (block_pointer_aligned x) as Hx.
  rewrite (get_block_pointer_valid h Hh).
  apply valid_block_range in Hh.
  change EEPROM_FS_BLOCK_SIZE with 32 in *. change EEPROM_FS_BLOCK_DATA_SIZE with 30.
  change EEPROM_FS_DATA_OFFSET with 130.
  revert Hx Ha. generalize (get_block_pointer x). intros p Hx Ha.
  Z.div_mod_to_equations. lia.
Qed.

Lemma chain_after_ext e e' k :
  (forall x, block_next e' x = block_next e x) ->
  forall b, chain_after k e' b = chain_after k e b.
Proof.
  intros H. induction k as [|k IH]; intros b; [reflexivity|].
  cbn [chain_after]. rewrite H. apply IH.
Qed.

Lemma on_chain_ext e e' h b :
  (forall x, block_next e' x = block_next e x) -> on_chain e' h b -> on_chain e h b.
Proof.
  intros H (k & Hk & Hv). exists k. split.
  - rewrite <- Hk. symmetry. apply chain_after_ext. exact H.
  - intros j Hj. rewrite <- (chain_after_ext e e' j H). apply Hv. exact Hj.
Qed.

Lemma on_chain_head e h : on_chain e h h.
Proof. exists 0%nat. split; [reflexivity|]. intros j Hj. lia. Qed.

Lemma on_chain_next e h b :
  valid_block h = true -> on_chain e (block_next e h) b -> on_chain e h b.
Proof.
  intros Hh (k & Hk & Hv). exists (S k). split; [exact Hk|].
  intros [|j] Hj; [exact Hh|]. cbn [chain_after]. apply Hv. lia.
Qed.

(** One block write, in any state: with a valid free block its payload is
    stored and the free head moves to its successor; with none, nothing
    changes. *)
Lemma write_block_data_core bd st r st' :
  write_block_data bd st = Some (r, st') ->
  let h := next_free_block st in
  (valid_block h = true ->
   r = h
   /\ alloc_table st'
      = upd_table (alloc_table st) EEPROM_FS_MAX_FILES
          (mk_file_alloc (alloc_filesize (alloc_table st EEPROM_FS_MAX_FILES))
                         (block_next (eeprom st) h))
   /\ eeprom st' = poke (eeprom st) (get_block_pointer h + 2) bd EEPROM_FS_BLOCK_DATA_SIZE)
  /\ (valid_block h = false -> r = NULL_PTR /\ core st' = core st).
Proof.
  intros H h. split; intros Hv.
  - pose proof (write_block_data_quiet (alloc_table st) (eeprom st) (wear st) [] [] bd h
                  eq_refl Hv) as Hq.
    destruct (by_quiet _ _ _ _ _ _ (ni_write_block_data bd) Hq H) as (-> & Ht & He & _).
    auto.
  - rewrite (write_block_data_no_free bd st Hv) in H. injection H as <- <-.
    split; reflexivity.
Qed.

(** The loop of [write] stores into payload cells of valid blocks on the free
    chain only, and moves nothing in the table but the free head. *)
Lemma write_blocks_frame n :
  forall i data size nb bd last st last' st',
    write_blocks n i data size nb bd last st = Some (last', st') ->
    (forall a, (forall b, on_chain (eeprom st) (next_free_block st) b ->
                          valid_block b = true -> ~ payload_cell b a) ->
               eeprom st' a = eeprom st a)
    /\ (forall j, j <> EEPROM_FS_MAX_FILES -> alloc_table st' j = alloc_table st j).
Proof.
  induction n as [|n IH]; intros i data size nb bd last st last' st' H.
  - injection H as _ <-. split; reflexivity.
  - cbn [write_blocks] in H. cbv zeta in H.
    apply bind_inv in H. destruct H as (bd1 & s1 & H1 & H).
    apply readonly_write_copy in H1. unfold core in H1. injection H1 as Ht1 He1 _.
    apply bind_inv in H. destruct H as (l1 & s2 & H2 & H).
    apply write_block_data_core in H2. cbv zeta in H2.
    unfold next_free_block in H2 |- *. rewrite Ht1, He1 in H2.
    set (h := data_block (alloc_table st EEPROM_FS_MAX_FILES)) in *.
    destruct (IH _ _ _ _ _ _ _ _ _ H) as [IHe IHt]. clear IH H.
    destruct H2 as [Hvalid Hinvalid].
    destruct (valid_block h) eqn:Hv.
    + destruct (Hvalid eq_refl) as (_ & Ht2 & He2). clear Hvalid Hinvalid.
      assert (Hnext : forall x, block_next (eeprom s2) x = block_next (eeprom st) x)
        by (intros x; rewrite He2; apply block_next_poke_payload_any; exact Hv).
      split.
      * intros a Ha. rewrite IHe.
        -- rewrite He2. apply poke_outside.
           specialize (Ha h (on_chain_head _ _) Hv). unfold payload_cell in Ha.
           change sizeof_lba_t with 2 in Ha. change EEPROM_FS_BLOCK_SIZE with 32 in Ha.
           change EEPROM_FS_BLOCK_DATA_SIZE with 30. lia.
        -- intros b Hb Hvb. apply Ha; [|exact Hvb].
           apply on_chain_next; [exact Hv|]. apply (on_chain_ext _ _ _ _ Hnext).
           unfold next_free_block in Hb. rewrite Ht2 in Hb.
           rewrite upd_table_same in Hb. exact Hb.
      * intros j Hj. rewrite IHt by exact Hj. rewrite Ht2.
        apply upd_table_other. exact Hj.
    + destruct (Hinvalid eq_refl) as (_ & Hc). clear Hvalid Hinvalid.
      unfold core in Hc. injection Hc as Ht2 He2 _.
      rewrite Ht1 in Ht2. rewrite He1 in He2.
      split.
      * intros a Ha. rewrite IHe; [rewrite He2; reflexivity|].
        intros b Hb Hvb. apply Ha; [|exact Hvb].
        unfold next_free_block in Hb. rewrite Ht2, He2 in Hb. exact Hb.
      * intros j Hj. rewrite IHt by exact Hj. rewrite Ht2. reflexivity.
Qed.

Lemma write_frame fuel u fh data size st fh' st' :
  write fuel u fh data size st = Some (fh', st') ->
  (forall a, (forall b, on_chain (eeprom st) (next_free_block st) b ->
                        valid_block b = true -> ~ payload_cell b a) ->
             eeprom st' a = eeprom st a)
  /\ (forall j, j <> EEPROM_FS_MAX_FILES -> alloc_table st' j = alloc_table st j)
  /\ filename fh' = filename fh.
Proof.
  unfold write. intros H.
  destruct (handle_type_eqb (type fh) FH_WRITE || handle_type_eqb (type fh) FH_APPEND).
  - apply bind_inv in H. destruct H as (ds & s1 & H1 & H).
    assert (C1 : core s1 = core st).
    { revert H1. generalize s1. generalize ds. generalize st.
      change (readonly
                (if handle_type_eqb (type fh) FH_APPEND
                    && (0 <? filesize fh mod EEPROM_FS_BLOCK_DATA_SIZE)
                 then
                   let overflow := filesize fh mod EEPROM_FS_BLOCK_DATA_SIZE in
                   let to_write := take (2 * u16 (overflow + size)) 0 (to_write0 u) in
                   entry <- gets (fun st => alloc_table st (filename fh)) ;;
                   last <- last_block_in_chain fuel (data_block entry) ;;
                   let last_block_fh := set_filesize (set_first_block fh last) overflow in
                   to_write <- read fuel last_block_fh to_write ;;
                   let to_write := blit to_write overflow (take size 0 data) in
                   data <- gets (fun st => dead_vla u st fh to_write) ;;
                   ret (data, u16 (overflow + size))
                 else ret (data, size))).
      ro. }
    clear H1. cbv zeta in H.
    apply bind_inv in H. destruct H as ([] & s2 & H2 & H).
    apply readonly_debug1 in H2.
    apply bind_inv in H. destruct H as (entry & s3 & H3 & H).
    apply readonly_gets in H3.
    apply bind_inv in H. destruct H as (num_blocks & s4 & H4 & H).
    assert (C4 : core s4 = core s3).
    { revert H4. generalize s4. generalize num_blocks. generalize s3.
      match goal with |- forall s n s', ?m s = Some (n, s') -> _ => change (readonly m) end.
      ro. }
    clear H4.
    assert (C : core s4 = core st) by congruence. clear C1 H2 H3 C4.
    unfold core in C. injection C as Ct Ce _.
    destruct (0 <? num_blocks).
    + apply bind_inv in H. destruct H as (nfb & s5 & H5 & H).
      injection H5 as <- <-.
      apply bind_inv in H. destruct H as (last' & s6 & H6 & H).
      apply write_blocks_frame in H6. destruct H6 as [He Ht].
      apply bind_inv in H. destruct H as ([] & s7 & H7 & H).
      apply readonly_debug1 in H7. unfold core in H7. injection H7 as Ht7 He7 _.
      injection H as <- <-.
      unfold next_free_block in *. rewrite Ct, Ce in He. rewrite Ct in Ht.
      rewrite Ht7, He7.
      split; [exact He|]. split; [exact Ht|].
      destruct (u16 (num_blocks * EEPROM_FS_BLOCK_DATA_SIZE) <? snd ds); reflexivity.
    + apply bind_inv in H. destruct H as ([] & s5 & H5 & H).
      apply readonly_error in H5. unfold core in H5. injection H5 as Ht5 He5 _.
      injection H as <- <-. rewrite Ht5, He5, Ct, Ce.
      repeat split; reflexivity.
  - apply bind_inv in H. destruct H as ([] & s1 & H1 & H).
    apply readonly_error in H1. unfold core in H1. injection H1 as Ht1 He1 _.
    injection H as <- <-. rewrite Ht1, He1. repeat split; reflexivity.
Qed.

Lemma logs_write_handle fuel u fh data size :
  type fh = FH_WRITE -> logs (write fuel u fh data size).
Proof.
  intros Ht. unfold write. rewrite Ht. cbn [handle_type_eqb orb andb].
  apply logs_bind; [apply logs_ret | intros ds]. cbv zeta.
  apply logs_bind; [apply logs_debug1 | intros _].
  apply logs_bind; [apply logs_gets | intros entry].
  apply logs_bind; [lg | intros num_blocks].
  destruct (0 <? num_blocks); [|lg].
  apply logs_bind; [apply logs_gets | intros nfb].
  apply logs_bind; [apply logs_write_blocks | intros last'].
  lg.
Qed.

Lemma payload_cell_high b a :
  valid_block b = true -> payload_cell b a ->
  EEPROM_FS_DATA_OFFSET + sizeof_lba_t <= a
  /\ a mod EEPROM_FS_BLOCK_SIZE <> 2 /\ a mod EEPROM_FS_BLOCK_SIZE <> 3.
Proof.
  intros Hb. unfold payload_cell. rewrite (get_block_pointer_valid b Hb).
  apply valid_block_range in Hb.
  change EEPROM_FS_DATA_OFFSET with 130. change sizeof_lba_t with 2.
  change EEPROM_FS_BLOCK_SIZE with 32. intros Ha.
  Z.div_mod_to_equations. lia.
Qed.

(** X10. A write that is not closed commits nothing.  For a WRITE handle,
    [write] always returns, and whatever the payload and the state it stores
    into payload cells of valid blocks on the free chain only: the stored
    header, every stored table entry, the [next] field of every block and the
    payload of every block that is not on the free chain are as they were,
    and so is every entry of the table in RAM but the free head. *)
Theorem write_is_uncommitted fuel u fh data size st :
  type fh = FH_WRITE ->
  exists fh' st',
    write fuel u fh data size st = Some (fh', st')
    /\ stored_meta (eeprom st') = stored_meta (eeprom st)
    /\ (forall j, 0 <= j <= EEPROM_FS_MAX_FILES ->
                  stored_entry (eeprom st') j = stored_entry (eeprom st) j)
    /\ (forall b, block_next (eeprom st') b = block_next (eeprom st) b)
    /\ (forall b, valid_block b = true ->
                  ~ on_chain (eeprom st) (next_free_block st) b ->
                  block_payload (eeprom st') b = block_payload (eeprom st) b)
    /\ (forall j, j <> EEPROM_FS_MAX_FILES -> alloc_table st' j = alloc_table st j)
    /\ filename fh' = filename fh.
Proof.
  intros Ht.
  destruct (logs_returns _ (logs_write_handle fuel u fh data size Ht) st) as (fh' & st' & E).
  exists fh', st'. split; [exact E|].
  destruct (write_frame _ _ _ _ _ _ _ _ E) as (He & Htb & Hname).
  assert (Hlow : forall a, a < EEPROM_FS_DATA_OFFSET + sizeof_lba_t ->
                           eeprom st' a = eeprom st a).
  { intros a Ha. apply He. intros b _ Hb Hc.
    destruct (payload_cell_high b a Hb Hc) as [H _]. lia. }
  change (EEPROM_FS_DATA_OFFSET + sizeof_lba_t) with 132 in Hlow.
  split.
  { unfold stored_meta. f_equal. unfold peek. apply map_ext_in. intros k Hk.
    apply in_seq in Hk. change (Z.to_nat sizeof_fs_meta_t) with 10%nat in Hk.
    apply Hlow. change (EEPROM_FS_START + EEPROM_FS_META_OFFSET) with 0. lia. }
  split.
  { intros j Hj. apply stored_entry_frame. intros a Ha.
    rewrite (alloc_entry_address_small j Hj) in Ha.
    change EEPROM_FS_ALLOC_TABLE_OFFSET with 10 in Ha.
    change sizeof_file_alloc_t with 4 in Ha. change EEPROM_FS_MAX_FILES with 29 in Hj.
    apply Hlow. lia. }
  split.
  { intros b. apply block_next_frame. intros a Ha. apply He. intros b' _ Hb' Hc.
    destruct (payload_cell_high b' a Hb' Hc) as (_ & H2 & H3).
    pose proof (block_pointer_aligned b) as Hal.
    change EEPROM_FS_BLOCK_SIZE with 32 in H2, H3.
    revert Hal Ha H2 H3. generalize (get_block_pointer b). intros p Hal Ha H2 H3.
    Z.div_mod_to_equations. lia. }
  split.
  { intros b Hb Hoff. apply block_payload_frame. intros a Ha. apply He.
    intros b' Hon Hb' Hc.
    assert (b' = b); [|subst b'; contradiction].
    unfold payload_cell in Hc.
    rewrite (get_block_pointer_valid b Hb) in Ha.
    rewrite (get_block_pointer_valid b' Hb') in Hc.
    change EEPROM_FS_BLOCK_SIZE with 32 in *. change sizeof_lba_t with 2 in Hc. lia. }
  split; [exact Htb | exact Hname].
Qed.

(** ** Mounting *)

Lemma load_alloc_table_stored e old n :
  0 <= n <= EEPROM_FS_MAX_FILES -> load_alloc_table e old n = stored_entry e n.
Proof.
  intros Hn. unfold load_alloc_table, stored_entry.
  replace ((0 <=? n) && (n <=? EEPROM_FS_MAX_FILES)) with true
    by (symmetry; apply andb_true_iff; split; apply Z.leb_le; lia).
  rewrite (alloc_entry_address_small n Hn).
  change EEPROM_FS_START with 0.
  replace (0 + EEPROM_FS_ALLOC_TABLE_OFFSET + n * sizeof_file_alloc_t)
    with (EEPROM_FS_ALLOC_TABLE_OFFSET + sizeof_file_alloc_t * n) by lia.
  reflexivity.
Qed.

Lemma load_alloc_table_outside e old n :
  ~ 0 <= n <= EEPROM_FS_MAX_FILES -> load_alloc_table e old n = old n.
Proof.
  intros Hn. unfold load_alloc_table.
  destruct ((0 <=? n) && (n <=? EEPROM_FS_MAX_FILES)) eqn:E; [|reflexivity].
  apply andb_true_iff in E. destruct E as [E1 E2].
  apply Z.leb_le in E1. apply Z.leb_le in E2. lia.
Qed.

Lemma meta_differs_iff m : meta_differs m = false <-> m = this_meta.
Proof.
  unfold meta_differs, this_meta. destruct m as [a b c d f]. cbn [block_size start_address
    fs_size max_files max_blocks_per_file]. split.
  - intros H. repeat (apply orb_false_iff in H; destruct H as [H ?]).
    repeat match goal with
           | H : negb (_ =? _) = false |- _ =>
               apply negb_false_iff in H; apply Z.eqb_eq in H
           end.
    congruence.
  - intros H. injection H as -> -> -> -> ->. reflexivity.
Qed.

Lemma init_quiet_mounted tb e w err out :
  stored_meta e = this_meta ->
  init_eepromfs (mk_state 0 tb e w err out)
  = Some (tt, mk_state 0 (load_alloc_table e tb) e w err out).
Proof.
  intros Hm. apply meta_differs_iff in Hm.
  unfold init_eepromfs. quiet_run.
  change (negb (block_size (dec_fs_meta (peek e (EEPROM_FS_START + EEPROM_FS_META_OFFSET)
                                              sizeof_fs_meta_t)) =? EEPROM_FS_BLOCK_SIZE)
          || negb (start_address (dec_fs_meta (peek e (EEPROM_FS_START + EEPROM_FS_META_OFFSET)
                                              sizeof_fs_meta_t)) =? EEPROM_FS_START)
          || negb (fs_size (dec_fs_meta (peek e (EEPROM_FS_START + EEPROM_FS_META_OFFSET)
                                              sizeof_fs_meta_t)) =? EEPROM_FS_SIZE)
          || negb (max_files (dec_fs_meta (peek e (EEPROM_FS_START + EEPROM_FS_META_OFFSET)
                                              sizeof_fs_meta_t)) =? EEPROM_FS_MAX_FILES)
          || negb (max_blocks_per_file
                     (dec_fs_meta (peek e (EEPROM_FS_START + EEPROM_FS_META_OFFSET)
                                        sizeof_fs_meta_t)) =? EEPROM_FS_MAX_BLOCKS_PER_FILE))
    with (meta_differs (stored_meta e)).
  rewrite Hm. quiet_run. reflexivity.
Qed.

Lemma init_quiet_foreign tb e w err out :
  stored_meta e <> this_meta ->
  exists tb' e' w',
    format_eepromfs FORMAT_QUICK (mk_state 0 tb e w err out)
    = Some (tt, mk_state 0 tb' e' w' err out)
    /\ init_eepromfs (mk_state 0 tb e w err out)
       = Some (tt, mk_state 0 (load_alloc_table e' tb') e' w' err out).
Proof.
  intros Hm.
  assert (Hd : meta_differs (stored_meta e) = true).
  { destruct (meta_differs (stored_meta e)) eqn:E; [reflexivity|].
    apply meta_differs_iff in E. contradiction. }
  destruct (format_quiet FORMAT_QUICK tb e w err out) as (tb' & e' & w' & Hrun & _).
  exists tb', e', w'. split; [exact Hrun|].
  unfold init_eepromfs. quiet_run.
  change (negb (block_size (dec_fs_meta (peek e (EEPROM_FS_START + EEPROM_FS_META_OFFSET)
                                              sizeof_fs_meta_t)) =? EEPROM_FS_BLOCK_SIZE)
          || negb (start_address (dec_fs_meta (peek e (EEPROM_FS_START + EEPROM_FS_META_OFFSET)
                                              sizeof_fs_meta_t)) =? EEPROM_FS_START)
          || negb (fs_size (dec_fs_meta (peek e (EEPROM_FS_START + EEPROM_FS_META_OFFSET)
                                              sizeof_fs_meta_t)) =? EEPROM_FS_SIZE)
          || negb (max_files (dec_fs_meta (peek e (EEPROM_FS_START + EEPROM_FS_META_OFFSET)
                                              sizeof_fs_meta_t)) =? EEPROM_FS_MAX_FILES)
          || negb (max_blocks_per_file
                     (dec_fs_meta (peek e (EEPROM_FS_START + EEPROM_FS_META_OFFSET)
                                        sizeof_fs_meta_t)) =? EEPROM_FS_MAX_BLOCKS_PER_FILE))
    with (meta_differs (stored_meta e)).
  rewrite Hd. rewrite Hrun. quiet_run. reflexivity.
Qed.

(** X11. Mounting a formatted volume.  When the stored header is the one of
    the compiled configuration, [init_eepromfs] stores nothing and loads the
    table: every entry of the table in RAM, the free head included, becomes
    the stored entry. *)
Theorem init_mounts_a_formatted_volume st :
  stored_meta (eeprom st) = this_meta ->
  exists st',
    init_eepromfs st = Some (tt, st')
    /\ eeprom st' = eeprom st
    /\ wear st' = wear st
    /\ (forall n, 0 <= n <= EEPROM_FS_MAX_FILES ->
                  alloc_table st' n = stored_entry (eeprom st) n)
    /\ next_free_block st' = data_block (stored_entry (eeprom st) EEPROM_FS_MAX_FILES).
Proof.
  intros Hm.
  pose proof (init_quiet_mounted (alloc_table st) (eeprom st) (wear st) [] [] Hm) as Hq.
  destruct (run_quiet _ st _ _ ni_init_eepromfs Hq) as (st' & Hst & Hc).
  unfold core in Hc. cbn [alloc_table eeprom wear] in Hc. injection Hc as Ht He Hw.
  exists st'. split; [exact Hst|]. split; [exact He|]. split; [exact Hw|].
  split.
  - intros n Hn. rewrite Ht. apply load_alloc_table_stored. exact Hn.
  - unfold next_free_block. rewrite Ht. rewrite load_alloc_table_stored; [reflexivity|].
    change EEPROM_FS_MAX_FILES with 29. lia.
Qed.

(** X12. First boot.  When the stored header is not the one of the compiled
    configuration, [init_eepromfs] quick-formats: afterwards the header is
    stored, every block [i] points to [i - 1] with its payload as it was, no
    name holds a file, the free chain starts at the last block, and the table
    in RAM is the stored one. *)
Theorem init_formats_a_foreign_volume st :
  stored_meta (eeprom st) <> this_meta ->
  exists st',
    init_eepromfs st = Some (tt, st')
    /\ stored_meta (eeprom st') = this_meta
    /\ (forall i, 0 <= i < EEPROM_FS_NUM_BLOCKS ->
                  block_next (eeprom st') i = i - 1
                  /\ block_payload (eeprom st') i = block_payload (eeprom st) i)
    /\ (forall n, 0 <= n < EEPROM_FS_MAX_FILES ->
                  alloc_table st' n = mk_file_alloc 0 NULL_PTR)
    /\ next_free_block st' = EEPROM_FS_NUM_BLOCKS - 1
    /\ (forall n, 0 <= n <= EEPROM_FS_MAX_FILES ->
                  stored_entry (eeprom st') n = alloc_table st' n).
Proof.
  intros Hm.
  destruct (init_quiet_foreign (alloc_table st) (eeprom st) (wear st) [] [] Hm)
    as (tb' & e' & w' & Hfmt & Hq).
  destruct (format_quiet FORMAT_QUICK (alloc_table st) (eeprom st) (wear st) [] [])
    as (tb2 & e2 & w2 & Hfmt2 & Hnext & _ & Hpay & Hnull & Hfree & Hstored & Hmeta).
  rewrite Hfmt in Hfmt2. injection Hfmt2 as <- <- <-.
  destruct (run_quiet _ st _ _ ni_init_eepromfs Hq) as (st' & Hst & Hc).
  unfold core in Hc. cbn [alloc_table eeprom wear] in Hc. injection Hc as Ht He Hw.
  exists st'. split; [exact Hst|]. rewrite He.
  assert (Hload : forall n, 0 <= n <= EEPROM_FS_MAX_FILES -> alloc_table st' n = tb' n).
  { intros n Hn. rewrite Ht. rewrite load_alloc_table_stored by exact Hn.
    apply Hstored. exact Hn. }
  split; [exact Hmeta|]. split.
  { intros i Hi. split; [apply Hnext; exact Hi | apply Hpay; [reflexivity | exact Hi]]. }
  split.
  { intros n Hn. rewrite Hload by lia. apply Hnull. exact Hn. }
  split.
  { unfold next_free_block. rewrite Hload by (change EEPROM_FS_MAX_FILES with 29; lia).
    rewrite Hfree. reflexivity. }
  intros n Hn. rewrite Hload by exact Hn. apply Hstored. exact Hn.
Qed.

(** ** A commit survives a reset *)

(** A file whose entry, chain and payloads are those of a committed write of
    [p] reads back as [p]. *)
Lemma load_committed tb e w err out fuel name p h l :
  let size := Z.of_nat (List.length p) in
  let k := Z.to_nat (size / EEPROM_FS_BLOCK_DATA_SIZE) in
  0 <= name <= EEPROM_FS_MAX_FILES ->
  size / EEPROM_FS_BLOCK_DATA_SIZE <= EEPROM_FS_MAX_BLOCKS_PER_FILE ->
  tb name = mk_file_alloc size h ->
  valid_block h = true ->
  chain_walk fuel e h = Some l ->
  List.length l = S k ->
  (forall j i, (j <= k)%nat -> 0 <= Z.of_nat i < bytes_at size (Z.of_nat j) ->
               nth i (block_payload e (nth j l 0)) 0
               = nth (Z.to_nat (Z.of_nat j * EEPROM_FS_BLOCK_DATA_SIZE + Z.of_nat i)) p 0) ->
  load_file fuel name (mk_state 0 tb e w err out)
  = Some ((mk_file_handle name size FH_READ h NULL_PTR, p), mk_state 0 tb e w err out).
Proof.
  intros size k Hname Hcap Hentry Hvh Hchain Hlen_l Hpay.
  assert (Hsize : 0 <= size) by (unfold size; lia).
  assert (Hq : 0 <= size / EEPROM_FS_BLOCK_DATA_SIZE)
    by (apply Z.div_pos; [exact Hsize | reflexivity]).
  change EEPROM_FS_MAX_BLOCKS_PER_FILE with 8 in Hcap.
  destruct (load_file_quiet tb e w err out fuel name l) as (buf & Hload & Hlen & Hbuf & _).
  { exact Hname. }
  { rewrite Hentry. exact Hvh. }
  { rewrite Hentry. exact Hchain. }
  { rewrite Hentry. exact Hsize. }
  { rewrite Hlen_l. unfold k. change EEPROM_FS_BLOCK_DATA_SIZE with 30 in *. lia. }
  rewrite Hentry in Hload, Hlen, Hbuf. cbn [alloc_filesize data_block] in Hload, Hlen, Hbuf.
  specialize (Hlen ltac:(right; rewrite Hlen_l; unfold k; lia)).
  assert (Hp : buf = p).
  { apply nth_ext with (d := 0) (d' := 0); [rewrite Hlen; unfold size; lia|].
    intros n Hn. rewrite Hlen in Hn.
    assert (Hidx : 0 <= Z.of_nat n < size) by lia.
    pose proof (Z.div_mod (Z.of_nat n) EEPROM_FS_BLOCK_DATA_SIZE ltac:(discriminate)) as Hdm.
    pose proof (Z.mod_pos_bound (Z.of_nat n) EEPROM_FS_BLOCK_DATA_SIZE ltac:(reflexivity)) as Hmb.
    assert (Hjn : 0 <= Z.of_nat n / EEPROM_FS_BLOCK_DATA_SIZE <= size / EEPROM_FS_BLOCK_DATA_SIZE).
    { split; [apply Z.div_pos; [lia | reflexivity]|].
      apply Z.div_le_mono; [reflexivity | lia]. }
    specialize (Hbuf (Z.of_nat n) Hidx). rewrite Nat2Z.id in Hbuf.
    rewrite Hbuf by (rewrite Hlen_l; unfold k; lia).
    rewrite Hpay.
    - rewrite !Z2Nat.id by lia. f_equal.
      replace (Z.of_nat n / EEPROM_FS_BLOCK_DATA_SIZE * EEPROM_FS_BLOCK_DATA_SIZE
               + Z.of_nat n mod EEPROM_FS_BLOCK_DATA_SIZE) with (Z.of_nat n) by lia.
      apply Nat2Z.id.
    - unfold k. lia.
    - rewrite !Z2Nat.id by lia. split; [lia|]. apply bytes_at_covers. exact Hidx. }
  subst buf. exact Hload.
Qed.

Lemma stored_meta_frame e e' :
  (forall a, a < EEPROM_FS_ALLOC_TABLE_OFFSET -> e' a = e a) ->
  stored_meta e' = stored_meta e.
Proof.
  intros H. unfold stored_meta. f_equal. unfold peek. apply map_ext_in. intros k Hk.
  apply in_seq in Hk. change (Z.to_nat sizeof_fs_meta_t) with 10%nat in Hk.
  apply H. change (EEPROM_FS_START + EEPROM_FS_META_OFFSET) with 0.
  change EEPROM_FS_ALLOC_TABLE_OFFSET with 10. lia.
Qed.

Lemma stored_entry_range e n :
  0 <= alloc_filesize (stored_entry e n) < 65536.
Proof.
  unfold stored_entry, dec_file_alloc, dec_u16, u16. cbn [alloc_filesize].
  apply Z.mod_pos_bound. reflexivity.
Qed.

(** X13. A commit survives a reset.  On a mounted volume, under the
    conditions of the round trip, [open_for_write; write; close] followed by
    [init_eepromfs] (the reset) and [open_for_read; read] returns exactly the
    payload: the reset stores nothing, and if the stored table agreed with the
    table in RAM before the commit, it loads back every entry the commit
    left in RAM. *)
Theorem commit_survives_reset fuel u st name p :
  let size := Z.of_nat (List.length p) in
  let k := Z.to_nat (size / EEPROM_FS_BLOCK_DATA_SIZE) in
  0 <= name < EEPROM_FS_MAX_FILES ->
  0 <= alloc_filesize (alloc_table st name) ->
  alloc_filesize (alloc_table st name) / EEPROM_FS_BLOCK_DATA_SIZE
  + size / EEPROM_FS_BLOCK_DATA_SIZE <= EEPROM_FS_MAX_BLOCKS_PER_FILE ->
  forallb valid_block (chain_prefix (S k) (eeprom st) (next_free_block st)) = true ->
  NoDup (chain_prefix (S k) (eeprom st) (next_free_block st)) ->
  (k < fuel)%nat ->
  stored_meta (eeprom st) = this_meta ->
  exists fh1 st1 st2 fh st3,
    store_file fuel u name p st = Some (fh1, st1)
    /\ init_eepromfs st1 = Some (tt, st2)
    /\ load_file fuel name st2 = Some ((fh, p), st3)
    /\ filesize fh = size
    /\ eeprom st2 = eeprom st1
    /\ ((forall j, 0 <= j <= EEPROM_FS_MAX_FILES ->
                   stored_entry (eeprom st) j = alloc_table st j) ->
        forall j, 0 <= j <= EEPROM_FS_MAX_FILES -> alloc_table st2 j = alloc_table st1 j).
Proof.
  intros size k Hname Hfs Hcap Hv Hnd Hfuel Hmeta.
  destruct (store_file_quiet fuel u name p (alloc_table st) (eeprom st) (wear st) [] []
              Hname Hfs Hcap Hv Hnd)
    as (tb' & e' & w' & Hrun & Hentry & Hothers & _ & Hstored & Hchain & Hpay & _
        & Hhead & Hkeep & Hfree & _).
  fold size k in Hrun, Hentry, Hchain, Hpay, Hstored.
  set (h := next_free_block st) in *.
  assert (Hq' : 0 <= alloc_filesize (alloc_table st name) / EEPROM_FS_BLOCK_DATA_SIZE)
    by (apply Z.div_pos; [exact Hfs | reflexivity]).
  assert (Hvh : valid_block h = true).
  { cbn [chain_prefix forallb] in Hv. apply andb_true_iff in Hv. apply Hv. }
  destruct (run_quiet _ st _ _ (ni_store_file fuel u name p) Hrun) as (st1 & Hst1 & Hc1).
  unfold core in Hc1. cbn [alloc_table eeprom wear] in Hc1. injection Hc1 as Ht1 He1 Hw1.
  assert (Hm1 : stored_meta (eeprom st1) = this_meta).
  { rewrite He1, <- Hmeta. apply stored_meta_frame. exact Hhead. }
  pose proof (init_quiet_mounted (alloc_table st1) (eeprom st1) (wear st1) [] [] Hm1) as Hinit.
  destruct (run_quiet _ st1 _ _ ni_init_eepromfs Hinit) as (st2 & Hst2 & Hc2).
  unfold core in Hc2. cbn [alloc_table eeprom wear] in Hc2. injection Hc2 as Ht2 He2 Hw2.
  assert (Hload : load_file fuel name (quiet st2)
                  = Some ((mk_file_handle name size FH_READ h NULL_PTR, p), quiet st2)).
  { unfold quiet. apply load_committed with (l := chain_prefix (S k) (eeprom st) h).
    - change EEPROM_FS_MAX_FILES with 29 in *. lia.
    - fold size. lia.
    - rewrite Ht2. rewrite load_alloc_table_stored
        by (change EEPROM_FS_MAX_FILES with 29 in *; lia).
      rewrite He1. exact Hstored.
    - exact Hvh.
    - rewrite He2, He1. apply Hchain. exact Hfuel.
    - rewrite chain_prefix_length. reflexivity.
    - fold size k. intros j i Hj Hi. rewrite He2, He1. apply Hpay; assumption. }
  destruct (run_quiet _ st2 _ _ (ni_load_file fuel name) Hload) as (st3 & Hst3 & _).
  eexists _, st1, st2, _, st3.
  split; [exact Hst1|]. split; [exact Hst2|]. split; [exact Hst3|].
  split; [reflexivity|]. split; [exact He2|].
  intros Hsync j Hj. rewrite Ht2, load_alloc_table_stored by exact Hj.
  rewrite He1, Ht1.
  destruct (Z.eq_dec j name) as [->|Hjn]; [rewrite Hstored, Hentry; reflexivity|].
  destruct (Z.eq_dec j EEPROM_FS_MAX_FILES) as [->|Hjs].
  - apply Hfree. rewrite <- Hsync by exact Hj. apply stored_entry_range.
  - rewrite Hkeep by lia. rewrite Hsync by exact Hj. symmetry. apply Hothers; assumption.
Qed.

(** ** Deleted blocks go to the end of the free chain *)

Lemma block_next_poke_link_other e b src x :
  valid_block b = true -> valid_block x = true -> x <> b ->
  block_next (poke e (get_block_pointer b) src sizeof_lba_t) x = block_next e x.
Proof.
  intros Hb Hx Hne. apply block_next_frame. intros a Ha. apply poke_outside.
  rewrite (get_block_pointer_valid b Hb). rewrite (get_block_pointer_valid x Hx) in Ha.
  apply valid_block_range in Hb, Hx.
  change EEPROM_FS_BLOCK_SIZE with 32 in *. change sizeof_lba_t with 2. lia.
Qed.

Lemma block_payload_poke_link e b src x :
  valid_block b = true -> valid_block x = true ->
  block_payload (poke e (get_block_pointer b) src sizeof_lba_t) x = block_payload e x.
Proof.
  intros Hb Hx. apply block_payload_frame. intros a Ha. apply poke_outside.
  rewrite (get_block_pointer_valid b Hb). rewrite (get_block_pointer_valid x Hx) in Ha.
  apply valid_block_range in Hb, Hx.
  change EEPROM_FS_BLOCK_SIZE with 32 in *. change sizeof_lba_t with 2. lia.
Qed.

(** [unlink] with a file to free and a free chain to walk, with what it stores
    spelled out. *)
Lemma unlink_quiet_append tb e w err out fuel block l :
  valid_block block = true ->
  valid_block (data_block (tb EEPROM_FS_MAX_FILES)) = true ->
  chain_walk fuel e (data_block (tb EEPROM_FS_MAX_FILES)) = Some l ->
  let tail := List.last l (data_block (tb EEPROM_FS_MAX_FILES)) in
  unlink fuel block (mk_state 0 tb e w err out)
  = Some (tt, mk_state 0 tb
                (poke e (get_block_pointer tail)
                      (enc_block (mk_block block (block_payload e tail))) sizeof_lba_t)
                (w + 2) err out).
Proof.
  intros Hb Hf W tail. unfold unlink. rewrite Hb. quiet_run. unfold last_block_in_chain.
  rewrite Hf. quiet_run. rewrite (last_block_walk_quiet _ _ _ _ _ _ _ _ W). quiet_run.
  reflexivity.
Qed.

(** A walk is the same on a medium with the same links, with any fuel that
    suffices. *)
Lemma chain_walk_frame e e' fuel :
  forall b c,
    chain_walk fuel e b = Some c ->
    (forall x, In x c -> block_next e' x = block_next e x) ->
    forall fuel', (List.length c <= fuel')%nat -> chain_walk fuel' e' b = Some c.
Proof.
  induction fuel as [|fuel IH]; intros b c H Hsame fuel' Hfuel; [discriminate|].
  cbn [chain_walk] in H.
  destruct (negb (block_next e b =? NULL_PTR)) eqn:E.
  - destruct (chain_walk fuel e (block_next e b)) as [c'|] eqn:W; [|discriminate].
    injection H as <-. cbn [List.length] in Hfuel.
    destruct fuel' as [|fuel']; [lia|]. cbn [chain_walk].
    rewrite (Hsame b) by (left; reflexivity). rewrite E.
    rewrite (IH _ _ W); [reflexivity | | lia].
    intros x Hx. apply Hsame. right. exact Hx.
  - injection H as <-. cbn [List.length] in Hfuel.
    destruct fuel' as [|fuel']; [lia|]. cbn [chain_walk].
    rewrite (Hsame b) by (left; reflexivity). rewrite E. reflexivity.
Qed.

Lemma chain_walk_nonempty fuel e b l : chain_walk fuel e b = Some l -> l <> [].
Proof. intros H. destruct (chain_walk_head _ _ _ _ H) as (l' & ->). discriminate. Qed.

(** A chain whose last block is made to point to the head of a second chain
    walks through both. *)
Lemma chain_walk_append e e' first c fuel2 :
  chain_walk fuel2 e first = Some c ->
  first <> NULL_PTR ->
  (forall x, In x c -> block_next e' x = block_next e x) ->
  forall fuel1 h l,
    chain_walk fuel1 e h = Some l ->
    NoDup l ->
    (forall x, In x l -> x <> List.last l h -> block_next e' x = block_next e x) ->
    block_next e' (List.last l h) = first ->
    forall fuel', (List.length l + List.length c <= fuel')%nat ->
                  chain_walk fuel' e' h = Some (l ++ c).
Proof.
  intros Hc Hfirst Hsame_c.
  induction fuel1 as [|fuel1 IH]; intros h l H Hnd Hsame Hlast fuel' Hfuel; [discriminate|].
  cbn [chain_walk] in H.
  destruct (negb (block_next e h =? NULL_PTR)) eqn:E.
  - destruct (chain_walk fuel1 e (block_next e h)) as [l'|] eqn:W; [|discriminate].
    injection H as <-.
    destruct (chain_walk_head _ _ _ _ W) as (l'' & ->).
    change (List.last (h :: block_next e h :: l'') h)
      with (List.last (block_next e h :: l'') h) in Hsame, Hlast.
    rewrite (last_cons_indep (block_next e h) l'' h (block_next e h)) in Hsame, Hlast.
    apply NoDup_cons_iff in Hnd. destruct Hnd as [Hnotin Hnd'].
    assert (Hh : block_next e' h = block_next e h).
    { apply Hsame; [left; reflexivity|].
      intros Heq. apply Hnotin.
      pose proof (last_cons_In (block_next e h) l'' (block_next e h)) as Hin.
      rewrite <- Heq in Hin. exact Hin. }
    cbn [List.length] in Hfuel. destruct fuel' as [|fuel']; [lia|].
    cbn [chain_walk]. rewrite Hh, E.
    rewrite (IH _ _ W Hnd'); [reflexivity | | exact Hlast | cbn [List.length]; lia].
    intros x Hx Hne. apply Hsame; [right; exact Hx | exact Hne].
  - injection H as <-. cbn [List.last] in Hlast.
    cbn [List.length] in Hfuel. destruct fuel' as [|fuel']; [lia|].
    cbn [chain_walk]. rewrite Hlast.
    replace (negb (first =? NULL_PTR)) with true
      by (symmetry; apply negb_true_iff, Z.eqb_neq; exact Hfirst).
    rewrite (chain_walk_frame e e' fuel2 first c Hc Hsame_c) by lia.
    reflexivity.
Qed.

Lemma nodup_app_apart {A} (l c : list A) x : NoDup (l ++ c) -> In x l -> In x c -> False.
Proof.
  induction l as [|y l IH]; intros Hnd H1 H2; [contradiction|].
  cbn [app] in Hnd. apply NoDup_cons_iff in Hnd. destruct Hnd as [Hnotin Hnd'].
  destruct H1 as [->|H1]; [apply Hnotin, in_or_app; right; exact H2 | auto].
Qed.

(** X14. Deleted blocks go to the end of the free chain.  When the free chain
    and the chain of the file are walks of distinct valid blocks, [delete]
    clears the entry, leaves the free head where it was, and the free chain
    becomes the old free chain followed by the blocks of the file, in their
    order; no payload is touched. *)
Theorem delete_returns_blocks fuel st name l c :
  let f := name mod EEPROM_FS_MAX_FILES in
  let first := data_block (alloc_table st f) in
  let head := next_free_block st in
  chain_walk fuel (eeprom st) head = Some l ->
  chain_walk fuel (eeprom st) first = Some c ->
  forallb valid_block (l ++ c) = true ->
  NoDup (l ++ c) ->
  exists st',
    delete fuel name st = Some (tt, st')
    /\ alloc_table st' f = mk_file_alloc 0 NULL_PTR
    /\ next_free_block st' = head
    /\ (forall fuel', (List.length l + List.length c <= fuel')%nat ->
                      chain_walk fuel' (eeprom st') head = Some (l ++ c))
    /\ (forall x, valid_block x = true ->
                  block_payload (eeprom st') x = block_payload (eeprom st) x).
Proof.
  intros f first head Hl Hc Hv Hnd.
  assert (Hall : forall x, In x (l ++ c) -> valid_block x = true)
    by (apply forallb_forall; exact Hv).
  assert (Hvh : valid_block head = true).
  { apply Hall. destruct (chain_walk_head _ _ _ _ Hl) as (l' & ->). left. reflexivity. }
  assert (Hvf : valid_block first = true).
  { apply Hall. apply in_or_app. right.
    destruct (chain_walk_head _ _ _ _ Hc) as (c' & ->). left. reflexivity. }
  set (tail := List.last l head).
  assert (Htail_in : In tail l).
  { unfold tail. destruct (chain_walk_head _ _ _ _ Hl) as (l' & ->). apply last_cons_In. }
  assert (Hvt : valid_block tail = true) by (apply Hall, in_or_app; left; exact Htail_in).
  assert (Hf29 : 0 <= f < EEPROM_FS_MAX_FILES) by (apply Z.mod_pos_bound; reflexivity).
  destruct (delete_quiet (alloc_table st) (eeprom st) (wear st) [] [] fuel name)
    as (eu & wu & erru & tb' & w' & err' & Hun & Hdel & Hf & Hother).
  { intros _ _. fold (next_free_block st). fold head. rewrite Hl. discriminate. }
  fold f in Hun, Hdel, Hf, Hother. fold first in Hun.
  pose proof (unlink_quiet_append (alloc_table st) (eeprom st) (wear st) [] [] fuel first l
                Hvf Hvh Hl) as Hun2.
  cbv zeta in Hun2. fold (next_free_block st) in Hun2. fold head in Hun2. fold tail in Hun2.
  rewrite Hun in Hun2. injection Hun2 as Heu _ _. subst eu.
  destruct (run_quiet _ st _ _ (ni_delete fuel name) Hdel) as (st' & Hst & Hcore).
  unfold core in Hcore. cbn [alloc_table eeprom wear] in Hcore. injection Hcore as Ht He _.
  assert (Haddr : alloc_entry_address f + sizeof_file_alloc_t <= EEPROM_FS_DATA_OFFSET).
  { rewrite alloc_entry_address_small by lia.
    change EEPROM_FS_ALLOC_TABLE_OFFSET with 10. change sizeof_file_alloc_t with 4.
    change EEPROM_FS_DATA_OFFSET with 130. change EEPROM_FS_MAX_FILES with 29 in Hf29. lia. }
  exists st'. split; [exact Hst|]. split; [rewrite Ht; exact Hf|].
  split.
  { unfold next_free_block. rewrite Ht. rewrite Hother; [reflexivity|].
    change EEPROM_FS_MAX_FILES with 29 in *. lia. }
  split.
  { intros fuel' Hfuel. rewrite He.
    apply (chain_walk_append (eeprom st) _ first c fuel Hc) with (fuel1 := fuel).
    - apply valid_block_range in Hvf. unfold NULL_PTR. lia.
    - intros x Hx. rewrite block_next_poke_low;
        [|apply Hall, in_or_app; right; exact Hx | exact Haddr].
      apply block_next_poke_link_other;
        [exact Hvt | apply Hall, in_or_app; right; exact Hx |].
      intros ->. exact (nodup_app_apart l c tail Hnd Htail_in Hx).
    - exact Hl.
    - apply NoDup_app_remove_r in Hnd. exact Hnd.
    - intros x Hx Hne. rewrite block_next_poke_low;
        [|apply Hall, in_or_app; left; exact Hx | exact Haddr].
      apply block_next_poke_link_other;
        [exact Hvt | apply Hall, in_or_app; left; exact Hx | exact Hne].
    - fold tail. rewrite block_next_poke_low by assumption.
      unfold enc_block. cbn [next_block data].
      apply block_next_poke; [|change sizeof_lba_t with 2; lia].
      apply valid_block_range in Hvf. rewrite NUM_BLOCKS_value in Hvf. lia.
    - exact Hfuel. }
  intros x Hx. rewrite He. rewrite block_payload_poke_low by assumption.
  apply block_payload_poke_link; assumption.
Qed.

(** ** Other files are left alone *)

(** The copy loop of [read] does not look at the state. *)
Lemma read_copy_any block n :
  forall i j buf, exists buf',
    forall tb e w err out,
      read_copy n i j block buf (mk_state 0 tb e w err out)
      = Some (buf', mk_state 0 tb e w err out).
Proof.
  induction n as [|n IH]; intros i j buf.
  - exists buf. reflexivity.
  - destruct (IH i (j + 1)
                (store buf (u16 (i * EEPROM_FS_BLOCK_DATA_SIZE + j))
                       (nth (Z.to_nat j) (data block) 0))) as (buf' & H).
    exists buf'. intros tb e w err out. cbn [read_copy]. cbv zeta. quiet_run. apply H.
Qed.

(** The walk of [read] looks at the blocks of the chain only. *)
Lemma read_walk_same fh fuel :
  forall b l i nb buf e e',
    chain_walk fuel e b = Some l ->
    (forall x, In x l -> block_next e' x = block_next e x
                         /\ block_payload e' x = block_payload e x) ->
    exists buf',
      (forall tb w err out,
          read_walk fuel fh b i nb buf (mk_state 0 tb e w err out)
          = Some (buf', mk_state 0 tb e w err out))
      /\ (forall tb w err out,
             read_walk fuel fh b i nb buf (mk_state 0 tb e' w err out)
             = Some (buf', mk_state 0 tb e' w err out)).
Proof.
  induction fuel as [|fuel IH]; intros b l i nb buf e e' Hwalk Hsame; [discriminate|].
  cbn [chain_walk] in Hwalk.
  assert (Hb : block_next e' b = block_next e b /\ block_payload e' b = block_payload e b).
  { apply Hsame. destruct (negb (block_next e b =? NULL_PTR));
      [destruct (chain_walk fuel e (block_next e b)); [|discriminate]|];
      injection Hwalk as <-; left; reflexivity. }
  destruct Hb as [Hn Hp].
  set (nb' := if filesize fh <? u16 ((i + 1) * EEPROM_FS_BLOCK_DATA_SIZE)
              then filesize fh mod EEPROM_FS_BLOCK_DATA_SIZE else nb).
  destruct (read_copy_any (mk_block (block_next e b) (block_payload e b))
                          (Z.to_nat nb') i 0 buf) as (buf1 & Hcopy).
  assert (Hstep : forall m tb w err out,
             (block_next m b = block_next e b /\ block_payload m b = block_payload e b) ->
             read_walk (S fuel) fh b i nb buf (mk_state 0 tb m w err out)
             = (if negb (block_next e b =? NULL_PTR)
                then read_walk fuel fh (block_next e b) (u16 (i + 1)) nb' buf1
                else ret buf1) (mk_state 0 tb m w err out)).
  { intros m tb w err out [Hmn Hmp]. cbn [read_walk]. cbv zeta. quiet_run.
    change (dec_block (peek m (get_block_pointer b) EEPROM_FS_BLOCK_SIZE))
      with (mk_block (block_next m b) (block_payload m b)).
    rewrite Hmn, Hmp. cbn [next_block]. fold nb'. rewrite Hcopy. reflexivity. }
  destruct (negb (block_next e b =? NULL_PTR)).
  - destruct (chain_walk fuel e (block_next e b)) as [l'|] eqn:W; [|discriminate].
    injection Hwalk as <-.
    destruct (IH (block_next e b) l' (u16 (i + 1)) nb' buf1 e e' W) as (buf' & H1 & H2).
    { intros x Hx. apply Hsame. right. exact Hx. }
    exists buf'. split; intros tb w err out.
    + rewrite Hstep by (split; reflexivity). apply H1.
    + rewrite Hstep by (split; assumption). apply H2.
  - exists buf1. split; intros tb w err out.
    + rewrite Hstep by (split; reflexivity). reflexivity.
    + rewrite Hstep by (split; assumption). reflexivity.
Qed.

(** Reading a file depends on its entry and on the blocks of its chain only. *)
Lemma load_file_same tb e w tb' e' w' fuel g lg :
  0 <= g <= EEPROM_FS_MAX_FILES ->
  chain_walk fuel e (data_block (tb g)) = Some lg ->
  forallb valid_block lg = true ->
  0 <= alloc_filesize (tb g) <= Z.of_nat (List.length lg) * EEPROM_FS_BLOCK_DATA_SIZE ->
  Z.of_nat (List.length lg) * EEPROM_FS_BLOCK_DATA_SIZE < 65536 ->
  tb' g = tb g ->
  (forall x, In x lg -> block_next e' x = block_next e x
                        /\ block_payload e' x = block_payload e x) ->
  exists r,
    load_file fuel g (mk_state 0 tb e w [] []) = Some (r, mk_state 0 tb e w [] [])
    /\ load_file fuel g (mk_state 0 tb' e' w' [] []) = Some (r, mk_state 0 tb' e' w' [] []).
Proof.
  intros Hg Hwalk Hv Hsize Hlen Htb Hsame.
  assert (Hhead : valid_block (data_block (tb g)) = true).
  { destruct (chain_walk_head _ _ _ _ Hwalk) as (l' & ->).
    cbn [forallb] in Hv. apply andb_true_iff in Hv. apply Hv. }
  set (fh := mk_file_handle g (alloc_filesize (tb g)) FH_READ (data_block (tb g)) NULL_PTR).
  destruct (read_walk_same fh fuel (data_block (tb g)) lg 0 EEPROM_FS_BLOCK_DATA_SIZE
              (repeat 0 (Z.to_nat (alloc_filesize (tb g)))) e e' Hwalk Hsame)
    as (buf & H1 & H2).
  exists (fh, buf).
  unfold load_file, open_for_read. quiet_run.
  replace (EEPROM_FS_MAX_FILES <? g) with false by (symmetry; apply Z.ltb_ge; lia).
  quiet_run. rewrite Htb.
  replace (data_block (tb g) =? NULL_PTR) with false.
  2:{ symmetry. apply Z.eqb_neq. apply valid_block_range in Hhead. unfold NULL_PTR. lia. }
  quiet_run. unfold read. cbn [first_block filesize]. rewrite Hhead. fold fh.
  rewrite H1, H2. split; reflexivity.
Qed.

(** X15. A commit leaves the other files alone.  Under the conditions of the
    round trip, [open_for_write; write; close] on one name leaves the entry
    of any other name as it was, and if none of that file's blocks is among
    the free blocks the commit takes, [open_for_read; read] on it returns the
    same handle and the same bytes after the commit as before. *)
Theorem commit_leaves_other_files fuel u st name p g lg :
  let size := Z.of_nat (List.length p) in
  let k := Z.to_nat (size / EEPROM_FS_BLOCK_DATA_SIZE) in
  0 <= name < EEPROM_FS_MAX_FILES ->
  0 <= alloc_filesize (alloc_table st name) ->
  alloc_filesize (alloc_table st name) / EEPROM_FS_BLOCK_DATA_SIZE
  + size / EEPROM_FS_BLOCK_DATA_SIZE <= EEPROM_FS_MAX_BLOCKS_PER_FILE ->
  forallb valid_block (chain_prefix (S k) (eeprom st) (next_free_block st)) = true ->
  NoDup (chain_prefix (S k) (eeprom st) (next_free_block st)) ->
  0 <= g < EEPROM_FS_MAX_FILES -> g <> name ->
  chain_walk fuel (eeprom st) (data_block (alloc_table st g)) = Some lg ->
  forallb valid_block lg = true ->
  0 <= alloc_filesize (alloc_table st g)
  <= Z.of_nat (List.length lg) * EEPROM_FS_BLOCK_DATA_SIZE ->
  Z.of_nat (List.length lg) * EEPROM_FS_BLOCK_DATA_SIZE < 65536 ->
  (forall x, In x lg -> ~ In x (chain_prefix (S k) (eeprom st) (next_free_block st))) ->
  exists fh st1 r s s1,
    store_file fuel u name p st = Some (fh, st1)
    /\ alloc_table st1 g = alloc_table st g
    /\ load_file fuel g st = Some (r, s)
    /\ load_file fuel g st1 = Some (r, s1).
Proof.
  intros size k Hname Hfs Hcap Hv Hnd Hg Hgn Hwalk Hvg Hsize Hlen Hapart.
  destruct (store_file_quiet fuel u name p (alloc_table st) (eeprom st) (wear st) [] []
              Hname Hfs Hcap Hv Hnd)
    as (tb' & e' & w' & Hrun & _ & Hothers & _ & _ & _ & _ & Hframe & _).
  destruct (run_quiet _ st _ _ (ni_store_file fuel u name p) Hrun) as (st1 & Hst1 & Hc1).
  unfold core in Hc1. cbn [alloc_table eeprom wear] in Hc1. injection Hc1 as Ht1 He1 Hw1.
  assert (Htg : tb' g = alloc_table st g)
    by (apply Hothers; [exact Hgn | change EEPROM_FS_MAX_FILES with 29 in *; lia]).
  assert (Hall : forall x, In x lg -> valid_block x = true)
    by (apply forallb_forall; exact Hvg).
  destruct (load_file_same (alloc_table st) (eeprom st) (wear st) tb' e' w' fuel g lg)
    as (r & Hload & Hload'); try assumption.
  { change EEPROM_FS_MAX_FILES with 29 in *. lia. }
  { intros x Hx. apply Hframe; [apply Hall; exact Hx | apply Hapart; exact Hx]. }
  destruct (run_quiet _ st _ _ (ni_load_file fuel g) Hload) as (s & Hs & _).
  assert (Hload1 : load_file fuel g (quiet st1) = Some (r, quiet st1)).
  { unfold quiet. rewrite Ht1, He1, Hw1. exact Hload'. }
  destruct (run_quiet _ st1 _ _ (ni_load_file fuel g) Hload1) as (s1 & Hs1 & _).
  eexists _, st1, r, s, s1.
  split; [exact Hst1|]. split; [rewrite Ht1; exact Htg|]. split; [exact Hs | exact Hs1].
Qed.

(** X16. A delete leaves the other files alone.  When the walk of the free
    chain ends in a valid block, [delete] of one name leaves the entry of any
    other name as it was, and if the last free block is none of that file's
    blocks, [open_for_read; read] on it returns the same handle and the same
    bytes after the delete as before. *)
Theorem delete_leaves_other_files fuel st name l g lg :
  let f := name mod EEPROM_FS_MAX_FILES in
  let first := data_block (alloc_table st f) in
  let head := next_free_block st in
  valid_block first = true ->
  valid_block head = true ->
  chain_walk fuel (eeprom st) head = Some l ->
  valid_block (List.last l head) = true ->
  0 <= g < EEPROM_FS_MAX_FILES -> g <> f ->
  chain_walk fuel (eeprom st) (data_block (alloc_table st g)) = Some lg ->
  forallb valid_block lg = true ->
  0 <= alloc_filesize (alloc_table st g)
  <= Z.of_nat (List.length lg) * EEPROM_FS_BLOCK_DATA_SIZE ->
  Z.of_nat (List.length lg) * EEPROM_FS_BLOCK_DATA_SIZE < 65536 ->
  ~ In (List.last l head) lg ->
  exists st1 r s s1,
    delete fuel name st = Some (tt, st1)
    /\ alloc_table st1 g = alloc_table st g
    /\ load_file fuel g st = Some (r, s)
    /\ load_file fuel g st1 = Some (r, s1).
Proof.
  intros f first head Hvf Hvh Hl Hvt Hg Hgf Hwalk Hvg Hsize Hlen Hapart.
  set (tail := List.last l head) in *.
  assert (Hf29 : 0 <= f < EEPROM_FS_MAX_FILES) by (apply Z.mod_pos_bound; reflexivity).
  destruct (delete_quiet (alloc_table st) (eeprom st) (wear st) [] [] fuel name)
    as (eu & wu & erru & tb' & w' & err' & Hun & Hdel & Hf & Hother).
  { intros _ _. fold (next_free_block st). fold head. rewrite Hl. discriminate. }
  fold f in Hun, Hdel, Hf, Hother. fold first in Hun.
  pose proof (unlink_quiet_append (alloc_table st) (eeprom st) (wear st) [] [] fuel first l
                Hvf Hvh Hl) as Hun2.
  cbv zeta in Hun2. fold (next_free_block st) in Hun2. fold head in Hun2. fold tail in Hun2.
  rewrite Hun in Hun2. injection Hun2 as Heu _ Herr. subst eu erru.
  destruct (run_quiet _ st _ _ (ni_delete fuel name) Hdel) as (st1 & Hst1 & Hc1).
  unfold core in Hc1. cbn [alloc_table eeprom wear] in Hc1. injection Hc1 as Ht1 He1 Hw1.
  assert (Haddr : alloc_entry_address f + sizeof_file_alloc_t <= EEPROM_FS_DATA_OFFSET).
  { rewrite alloc_entry_address_small by lia.
    change EEPROM_FS_ALLOC_TABLE_OFFSET with 10. change sizeof_file_alloc_t with 4.
    change EEPROM_FS_DATA_OFFSET with 130. change EEPROM_FS_MAX_FILES with 29 in Hf29. lia. }
  assert (Hall : forall x, In x lg -> valid_block x = true)
    by (apply forallb_forall; exact Hvg).
  destruct (load_file_same (alloc_table st) (eeprom st) (wear st) (alloc_table st1)
              (eeprom st1) (wear st1) fuel g lg)
    as (r & Hload & Hload'); try assumption.
  { change EEPROM_FS_MAX_FILES with 29 in *. lia. }
  { rewrite Ht1. apply Hother. exact Hgf. }
  { intros x Hx. rewrite He1. split.
    - rewrite block_next_poke_low; [|apply Hall; exact Hx | exact Haddr].
      apply block_next_poke_link_other; [exact Hvt | apply Hall; exact Hx |].
      intros ->. contradiction.
    - rewrite block_payload_poke_low; [|apply Hall; exact Hx | exact Haddr].
      apply block_payload_poke_link; [exact Hvt | apply Hall; exact Hx]. }
  destruct (run_quiet _ st _ _ (ni_load_file fuel g) Hload) as (s & Hs & _).
  destruct (run_quiet _ st1 _ _ (ni_load_file fuel g) Hload') as (s1 & Hs1 & _).
  exists st1, r, s, s1.
  split; [exact Hst1|]. split; [rewrite Ht1; apply Hother; exact Hgf|].
  split; [exact Hs | exact Hs1].
Qed.

(** ** Where the blocks lie *)

(** X17. The block pool lies inside the medium, above the stored table, and
    its blocks do not overlap: a valid block [b] starts at
    [DATA_OFFSET + BLOCK_SIZE * b], ends at or before the end of the medium,
    starts after the last cell of the stored table, and shares no cell with
    another valid block.  The null sentinel is no block, and its address lies
    inside the stored table, on the size field of entry 22. *)
Theorem block_geometry b :
  valid_block b = true ->
  get_block_pointer b = EEPROM_FS_DATA_OFFSET + EEPROM_FS_BLOCK_SIZE * b
  /\ get_block_pointer b + EEPROM_FS_BLOCK_SIZE <= EEPROM_FS_START + EEPROM_FS_SIZE
  /\ alloc_entry_address EEPROM_FS_MAX_FILES + sizeof_file_alloc_t <= get_block_pointer b
  /\ (forall b', valid_block b' = true -> b' <> b ->
                 get_block_pointer b' + EEPROM_FS_BLOCK_SIZE <= get_block_pointer b
                 \/ get_block_pointer b + EEPROM_FS_BLOCK_SIZE <= get_block_pointer b')
  /\ valid_block NULL_PTR = false
  /\ get_block_pointer NULL_PTR = alloc_entry_address 22.
Proof.
  intros Hb. pose proof (get_block_pointer_valid b Hb) as Hp.
  split; [exact Hp|]. rewrite Hp.
  pose proof Hb as Hr. apply valid_block_range in Hr. rewrite NUM_BLOCKS_value in Hr.
  change EEPROM_FS_DATA_OFFSET with 130. change EEPROM_FS_BLOCK_SIZE with 32.
  change (EEPROM_FS_START + EEPROM_FS_SIZE) with 2048.
  change (alloc_entry_address EEPROM_FS_MAX_FILES + sizeof_file_alloc_t) with 130.
  split; [lia|]. split; [lia|]. split.
  - intros b' Hb' Hne. rewrite (get_block_pointer_valid b' Hb').
    apply valid_block_range in Hb'.
    change EEPROM_FS_DATA_OFFSET with 130. change EEPROM_FS_BLOCK_SIZE with 32. lia.
  - split; reflexivity.
Qed.

(** ** Wiping *)

(** Turns boolean comparisons among the hypotheses into propositions. *)
Ltac bools :=
  repeat match goal with
         | H : _ && _ = true |- _ => apply andb_true_iff in H; destruct H
         | H : _ && _ = false |- _ => apply andb_false_iff in H; destruct H
         | H : (_ <=? _) = true |- _ => apply Z.leb_le in H
         | H : (_ <? _) = true |- _ => apply Z.ltb_lt in H
         | H : (_ <=? _) = false |- _ => apply Z.leb_gt in H
         | H : (_ <? _) = false |- _ => apply Z.ltb_ge in H
         end.

Lemma wipe_loop_cells n :
  forall i st,
    exists st',
      wipe_loop n i st = Some (tt, st')
      /\ alloc_table st' = alloc_table st
      /\ __debug st' = __debug st /\ stderr st' = stderr st /\ stdout st' = stdout st
      /\ wear st' = wear st + sizeof_uint32_t * Z.of_nat n
      /\ (forall a, eeprom st' a
                    = if (i <=? a) && (a <? i + sizeof_uint32_t * Z.of_nat n)
                      then 0 else eeprom st a).
Proof.
  induction n as [|n IH]; intros i st.
  - exists st. split; [reflexivity|]. repeat split; try lia.
    intros a. destruct ((i <=? a) && (a <? i + sizeof_uint32_t * Z.of_nat 0)) eqn:E;
      [|reflexivity].
    apply andb_true_iff in E. destruct E as [E1 E2].
    apply Z.leb_le in E1. apply Z.ltb_lt in E2. lia.
  - cbn [wipe_loop]. unfold bind at 1.
    unfold eeprom_write_dword, eeprom_write_block, modify.
    match goal with
    | |- context [wipe_loop n ?j ?s] => destruct (IH j s) as (st' & E & Ht & Hd & He & Ho & Hw & Hc)
    end.
    exists st'. split; [exact E|].
    cbn [set_eeprom alloc_table __debug stderr stdout wear eeprom] in *.
    change sizeof_uint32_t with 4 in *.
    repeat split; try assumption; [lia|].
    intros a. rewrite Hc. unfold poke.
    destruct ((i + 4 <=? a) && (a <? i + 4 + 4 * Z.of_nat n)) eqn:E1;
      destruct ((i <=? a) && (a <? i + 4 * Z.of_nat (S n))) eqn:E2;
      destruct ((i <=? a) && (a <? i + 4)) eqn:E3;
      bools; try reflexivity; try lia.
    assert (Hk : (Z.to_nat (a - i) < 4)%nat) by lia.
    destruct (Z.to_nat (a - i)) as [|[|[|[|k]]]]; try reflexivity; lia.
Qed.

(** X18. [wipe_eeprom] zeroes the medium: it always returns, every cell of
    the [EEPROM_FS_SIZE] bytes from address 0 on reads zero afterwards, every
    other cell and the table in RAM are as they were, and each of the cells
    is programmed once. *)
Theorem wipe_zeroes_the_medium st :
  exists st',
    wipe_eeprom st = Some (tt, st')
    /\ (forall a, 0 <= a < EEPROM_FS_SIZE -> eeprom st' a = 0)
    /\ (forall a, ~ 0 <= a < EEPROM_FS_SIZE -> eeprom st' a = eeprom st a)
    /\ alloc_table st' = alloc_table st
    /\ wear st' = wear st + EEPROM_FS_SIZE.
Proof.
  unfold wipe_eeprom.
  destruct (wipe_loop_cells (Z.to_nat (EEPROM_FS_SIZE / sizeof_uint32_t)) 0 st)
    as (st' & E & Ht & _ & _ & _ & Hw & Hc).
  change (sizeof_uint32_t * Z.of_nat (Z.to_nat (EEPROM_FS_SIZE / sizeof_uint32_t)))
    with EEPROM_FS_SIZE in Hw, Hc.
  exists st'. split; [exact E|]. split; [|split; [|split; [exact Ht | exact Hw]]].
  - intros a Ha. rewrite Hc.
    replace ((0 <=? a) && (a <? 0 + EEPROM_FS_SIZE)) with true; [reflexivity|].
    symmetry. apply andb_true_iff. split; [apply Z.leb_le | apply Z.ltb_lt]; lia.
  - intros a Ha. rewrite Hc.
    destruct ((0 <=? a) && (a <? 0 + EEPROM_FS_SIZE)) eqn:E1; [|reflexivity].
    apply andb_true_iff in E1. destruct E1 as [E1 E2].
    apply Z.leb_le in E1. apply Z.ltb_lt in E2. lia.
Qed.

Lemma format_blocks_wipe_quick bd n :
  forall i, format_blocks FORMAT_WIPE bd n i = format_blocks FORMAT_QUICK bd n i.
Proof.
  induction n as [|n IH]; intros i; [reflexivity|].
  cbn [format_blocks format_type_eqb]. rewrite IH. reflexivity.
Qed.

Lemma agree_some {A} (r1 r2 : option (A * fs_state)) a s1 :
  agree r1 r2 -> r1 = Some (a, s1) -> exists s2, r2 = Some (a, s2) /\ core s1 = core s2.
Proof.
  intros H ->. unfold agree in H. destruct r2 as [[a2 s2]|]; [|contradiction].
  destruct H as [-> Hc]. eauto.
Qed.

Lemma format_wipe_agrees st :
  agree (format_eepromfs FORMAT_WIPE st)
        ((wipe_eeprom ;;; format_eepromfs FORMAT_QUICK) st).
Proof.
  apply agree_by_quiet.
  - apply ni_format_eepromfs.
  - apply ni_bind; [apply ni_wipe_eeprom | intros _; apply ni_format_eepromfs].
  - unfold quiet.
    destruct (wipe_loop_quiet (Z.to_nat (EEPROM_FS_SIZE / sizeof_uint32_t)) 0
                (alloc_table st) (eeprom st) (wear st) [] []) as (e0 & w0 & Hw).
    unfold format_eepromfs. cbn [format_type_eqb].
    unfold bind at 1. rewrite run_debug1.
    unfold bind at 1. unfold wipe_eeprom at 1. rewrite Hw.
    symmetry.
    unfold bind at 1. unfold wipe_eeprom at 1. rewrite Hw.
    unfold bind at 1. rewrite run_debug1.
    unfold bind at 1. unfold ret at 1.
    rewrite format_blocks_wipe_quick. reflexivity.
Qed.

(** X19. A wipe format is a wipe followed by a quick format: from any state
    both [format_eepromfs(FORMAT_WIPE)] and [wipe_eeprom] followed by
    [format_eepromfs(FORMAT_QUICK)] return, and they leave the same table in
    RAM, the same medium and the same wear. *)
Theorem format_wipe_is_wipe_then_quick st :
  exists st1 st2,
    format_eepromfs FORMAT_WIPE st = Some (tt, st1)
    /\ (wipe_eeprom ;;; format_eepromfs FORMAT_QUICK) st = Some (tt, st2)
    /\ core st1 = core st2.
Proof.
  destruct (format_quiet FORMAT_WIPE (alloc_table st) (eeprom st) (wear st) [] [])
    as (tb' & e' & w' & Hrun & _).
  destruct (run_quiet _ st _ _ (ni_format_eepromfs FORMAT_WIPE) Hrun) as (st1 & Hst1 & _).
  destruct (agree_some _ _ _ _ (format_wipe_agrees st) Hst1) as (st2 & Hst2 & Hc).
  exists st1, st2. split; [exact Hst1|]. split; [exact Hst2 | exact Hc].
Qed.

(** ** The dump *)

Lemma printed_app fmt l1 l2 : printed fmt (l1 ++ l2) = printed fmt l1 ++ printed fmt l2.
Proof. unfold printed. apply flat_map_app. Qed.

Lemma map_seq_succ {A} (f : nat -> A) n :
  map f (seq 0 (S n)) = f 0%nat :: map (fun k => f (S k)) (seq 0 n).
Proof. cbn [seq map]. rewrite <- seq_shift, map_map. reflexivity. Qed.

Lemma dump_loop_prints n :
  forall i buf st,
    exists st' L,
      dump_loop n i buf st = Some (tt, st')
      /\ core st' = core st
      /\ stdout st' = stdout st ++ L
      /\ printed "%02x " L = map (fun k => eeprom st (i + Z.of_nat k)) (seq 0 n)
      /\ printed "\n%#05x : " L
         = filter (fun a => a mod 16 =? 0) (map (fun k => i + Z.of_nat k) (seq 0 n)).
Proof.
  induction n as [|n IH]; intros i buf st.
  - exists st, []. rewrite app_nil_r. repeat split; reflexivity.
  - cbn [dump_loop]. unfold bind at 1. unfold eeprom_read_byte, gets. cbv zeta.
    set (b := store (if (eeprom st i <? 32) || (126 <? eeprom st i)
                     then store buf (i mod 16) 46
                     else store buf (i mod 16) (eeprom st i)) 16 0).
    set (s1 := if i mod 16 =? 0 then put_stdout (Msg "\n%#05x : " [i]) st else st).
    set (s2 := put_stdout (Msg "%02x " [eeprom st i]) s1).
    set (s3 := if i mod 16 =? 15 then put_stdout (MsgStr ": %s" (firstn 16 b)) s2 else s2).
    assert (Hrun : forall k : M unit,
               ((if i mod 16 =? 0
                 then modify (put_stdout (Msg "\n%#05x : " [i])) else ret tt) ;;;
                modify (put_stdout (Msg "%02x " [eeprom st i])) ;;;
                (if i mod 16 =? 15
                 then modify (put_stdout (MsgStr ": %s" (firstn 16 b))) else ret tt) ;;;
                k) st = k s3).
    { intros k. unfold s3, s2, s1, bind, modify, ret.
      destruct (i mod 16 =? 0), (i mod 16 =? 15); reflexivity. }
    rewrite Hrun.
    destruct (IH (i + 1) b s3) as (st' & L & E & Hc & Ho & Hhex & Hoff).
    assert (Hc3 : core s3 = core st).
    { unfold s3, s2, s1. destruct (i mod 16 =? 0), (i mod 16 =? 15); reflexivity. }
    assert (He3 : eeprom s3 = eeprom st) by (unfold core in Hc3; congruence).
    set (L0 := (if i mod 16 =? 0 then [Msg "\n%#05x : " [i]] else [])
               ++ [Msg "%02x " [eeprom st i]]
               ++ (if i mod 16 =? 15 then [MsgStr ": %s" (firstn 16 b)] else [])).
    assert (Ho3 : stdout s3 = stdout st ++ L0).
    { unfold s3, s2, s1, L0, put_stdout.
      destruct (i mod 16 =? 0), (i mod 16 =? 15); cbn [stdout app];
        rewrite <- ?app_assoc; reflexivity. }
    exists st', (L0 ++ L). split; [exact E|]. split; [congruence|].
    split; [rewrite Ho, Ho3, app_assoc; reflexivity|].
    rewrite !printed_app, Hhex, Hoff, !map_seq_succ. cbn [filter].
    rewrite He3. change (Z.of_nat 0) with 0. rewrite !Z.add_0_r.
    assert (Hm1 : map (fun k => eeprom st (i + 1 + Z.of_nat k)) (seq 0 n)
                  = map (fun k => eeprom st (i + Z.of_nat (S k))) (seq 0 n))
      by (apply map_ext; intros k; f_equal; lia).
    assert (Hm2 : map (fun k => i + 1 + Z.of_nat k) (seq 0 n)
                  = map (fun k => i + Z.of_nat (S k)) (seq 0 n))
      by (apply map_ext; intros k; lia).
    rewrite Hm1, Hm2. split.
    + replace (printed "%02x " L0) with [eeprom st i]
        by (unfold L0; destruct (i mod 16 =? 0), (i mod 16 =? 15); reflexivity).
      reflexivity.
    + replace (printed "\n%#05x : " L0) with (if i mod 16 =? 0 then [i] else [])
        by (unfold L0; destruct (i mod 16 =? 0), (i mod 16 =? 15); reflexivity).
      destruct (i mod 16 =? 0); reflexivity.
Qed.

(** X20. [dump_eeprom] prints the medium: it always returns and stores
    nothing; the bytes it prints with [%02x] are the cells 0 to
    [EEPROM_FS_SIZE - 1] in address order, and the line offsets it prints are
    the multiples of 16 below [EEPROM_FS_SIZE]. *)
Theorem dump_prints_every_cell st :
  exists st' L,
    dump_eeprom st = Some (tt, st')
    /\ core st' = core st
    /\ stdout st' = stdout st ++ L
    /\ printed "%02x " L
       = map (fun k => eeprom st (Z.of_nat k)) (seq 0 (Z.to_nat EEPROM_FS_SIZE))
    /\ printed "\n%#05x : " L
       = map (fun k => 16 * Z.of_nat k) (seq 0 (Z.to_nat (EEPROM_FS_SIZE / 16))).
Proof.
  destruct (dump_loop_prints (Z.to_nat EEPROM_FS_SIZE) 0 (repeat 0 17) st)
    as (s1 & L & E & Hc & Ho & Hhex & Hoff).
  exists (put_stdout (Msg "\n" []) s1), (L ++ [Msg "\n" []]).
  split; [unfold dump_eeprom, bind; rewrite E; reflexivity|].
  split; [exact Hc|].
  split; [unfold put_stdout; cbn [stdout]; rewrite Ho, app_assoc; reflexivity|].
  rewrite !printed_app. cbn [printed flat_map String.eqb]. rewrite !app_nil_r.
  split; [exact Hhex|].
  rewrite Hoff. vm_compute. reflexivity.
Qed.

(** ** The block helpers *)

(** X21. [last_block_in_chain]: on an invalid block it logs the error and
    returns the null sentinel; on a valid block whose chain walk ends it
    stores nothing and returns the last block of the walk, the one whose
    [next] is the null sentinel. *)
Theorem last_block_in_chain_finds_the_end fuel block st :
  (valid_block block = false ->
   last_block_in_chain fuel block st
   = Some (NULL_PTR,
           put_stderr (Msg "Block %d is not part of a block chain.\n" [block]) st))
  /\ (valid_block block = true ->
      forall l, chain_walk fuel (eeprom st) block = Some l ->
                exists st',
                  last_block_in_chain fuel block st = Some (List.last l block, st')
                  /\ core st' = core st
                  /\ In (List.last l block) l
                  /\ block_next (eeprom st) (List.last l block) = NULL_PTR).
Proof.
  split; intros Hv.
  - unfold last_block_in_chain. rewrite Hv. reflexivity.
  - intros l W.
    assert (Hq : last_block_in_chain fuel block (quiet st)
                 = Some (List.last l block, quiet st)).
    { unfold last_block_in_chain, quiet. rewrite Hv. quiet_run.
      rewrite (last_block_walk_quiet _ _ _ _ _ _ _ _ W). quiet_run. reflexivity. }
    destruct (run_quiet _ st _ _ (ni_last_block_in_chain fuel block) Hq) as (st' & E & Hc).
    exists st'. split; [exact E|]. split; [exact Hc|]. split.
    + destruct (chain_walk_head _ _ _ _ W) as (l' & ->). apply last_cons_In.
    + apply (chain_walk_last _ _ _ _ W).
Qed.

(** X22. [relink] rewrites one link and nothing else.  It always returns and
    leaves the table in RAM; for a valid block and a target that is a block
    or the null sentinel, the block's [next] becomes the target while every
    other link, every payload and every cell below the pool are as they were;
    for an invalid block, or an invalid target, it stores nothing and logs
    the error. *)
Theorem relink_rewrites_one_link block target st :
  exists st',
    relink block target st = Some (tt, st')
    /\ alloc_table st' = alloc_table st
    /\ (valid_block block = true -> NULL_PTR <= target < EEPROM_FS_NUM_BLOCKS ->
        block_next (eeprom st') block = target
        /\ (forall x, valid_block x = true -> x <> block ->
                      block_next (eeprom st') x = block_next (eeprom st) x)
        /\ (forall x, valid_block x = true ->
                      block_payload (eeprom st') x = block_payload (eeprom st) x)
        /\ (forall a, a < EEPROM_FS_DATA_OFFSET -> eeprom st' a = eeprom st a))
    /\ (valid_block block = false ->
        core st' = core st
        /\ stderr st'
           = stderr st ++ [Msg "Attempted to write to invalid block %d.\n" [block]])
    /\ (valid_block block = true -> ~ NULL_PTR <= target < EEPROM_FS_NUM_BLOCKS ->
        core st' = core st
        /\ stderr st'
           = stderr st ++ [Msg "Attempted to relink to invalid block %d.\n" [target]]).
Proof.
  destruct (valid_block block) eqn:Hv.
  - destruct ((NULL_PTR <=? target) && (target <? EEPROM_FS_NUM_BLOCKS)) eqn:Ht.
    + assert (Hr : NULL_PTR <= target < EEPROM_FS_NUM_BLOCKS) by (bools; lia).
      pose proof (relink_quiet (alloc_table st) (eeprom st) (wear st) [] [] block target
                    Hv Hr) as Hq.
      destruct (run_quiet _ st _ _ (ni_relink block target) Hq) as (st' & E & Hc).
      unfold core in Hc. cbn [alloc_table eeprom wear] in Hc. injection Hc as Htb He _.
      exists st'. split; [exact E|]. split; [exact Htb|].
      split; [|split; [discriminate | intros _ Hn; contradiction]].
      intros _ _. rewrite He. split; [|split; [|split]].
      * apply block_next_relink_same. rewrite NUM_BLOCKS_value in Hr.
        unfold NULL_PTR in Hr. lia.
      * intros x Hx Hne. apply block_next_relink_other; assumption.
      * intros x Hx. apply block_payload_relink; assumption.
      * intros a Ha. apply poke_outside. rewrite (get_block_pointer_valid _ Hv).
        apply valid_block_range in Hv. change EEPROM_FS_BLOCK_SIZE with 32. lia.
    + exists (put_stderr (Msg "Attempted to relink to invalid block %d.\n" [target]) st).
      split; [unfold relink; rewrite Hv, Ht; reflexivity|].
      split; [reflexivity|].
      split; [intros _ Hr; exfalso|split; [discriminate | intros _ _; split; reflexivity]].
      apply andb_false_iff in Ht. destruct Ht as [Ht|Ht]; bools; lia.
  - exists (put_stderr (Msg "Attempted to write to invalid block %d.\n" [block]) st).
    split; [apply relink_invalid; exact Hv|]. split; [reflexivity|].
    split; [discriminate|]. split; [intros _; split; reflexivity | discriminate].
Qed.

(** X23. [write_block_data] takes the head of the free chain.  It always
    returns; with a valid free head it returns that block, stores the 30
    bytes into its payload, moves the free head in RAM to the block's [next]
    and leaves every link, every other payload, every other entry of the
    table in RAM and every cell below the pool as they were; with no valid
    free head it returns the null sentinel, stores nothing and logs the
    error. *)
Theorem write_block_data_takes_the_free_head bd st :
  let h := next_free_block st in
  exists r st',
    write_block_data bd st = Some (r, st')
    /\ (valid_block h = true ->
        r = h
        /\ next_free_block st' = block_next (eeprom st) h
        /\ (List.length bd = Z.to_nat EEPROM_FS_BLOCK_DATA_SIZE ->
            block_payload (eeprom st') h = bd)
        /\ (forall x, block_next (eeprom st') x = block_next (eeprom st) x)
        /\ (forall x, valid_block x = true -> x <> h ->
                      block_payload (eeprom st') x = block_payload (eeprom st) x)
        /\ (forall j, j <> EEPROM_FS_MAX_FILES -> alloc_table st' j = alloc_table st j)
        /\ (forall a, a < EEPROM_FS_DATA_OFFSET -> eeprom st' a = eeprom st a))
    /\ (valid_block h = false ->
        r = NULL_PTR
        /\ core st' = core st
        /\ stderr st'
           = stderr st ++ [Msg "Attempted to write to invalid block %d.\n" [h]]).
Proof.
  intros h. destruct (valid_block h) eqn:Hv.
  - pose proof (write_block_data_quiet (alloc_table st) (eeprom st) (wear st) [] [] bd h
                  eq_refl Hv) as Hq.
    destruct (run_quiet _ st _ _ (ni_write_block_data bd) Hq) as (st' & E & Hc).
    unfold core in Hc. cbn [alloc_table eeprom wear] in Hc. injection Hc as Htb He _.
    exists h, st'. split; [exact E|]. split; [|discriminate].
    intros _. split; [reflexivity|]. rewrite He.
    split; [unfold next_free_block; rewrite Htb, upd_table_same; reflexivity|].
    split; [apply block_payload_poke_same|].
    split; [intros x; apply block_next_poke_payload_any; exact Hv|].
    split; [intros x Hx Hne; apply block_payload_poke_other; assumption|].
    split; [intros j Hj; rewrite Htb; apply upd_table_other; exact Hj|].
    intros a Ha. apply poke_payload_low; assumption.
  - exists NULL_PTR,
      (put_stderr (Msg "Attempted to write to invalid block %d.\n" [next_free_block st]) st).
    split; [apply write_block_data_no_free; exact Hv|].
    split; [discriminate|]. intros _. repeat split; reflexivity.
Qed.

(** X24. [link] commits one entry.  It always returns; for a handle with a
    valid first block it sets the entry of the handle's name, folded modulo
    [MAX_FILES], to the handle's size and first block in RAM, leaves every
    other entry in RAM, mirrors that entry and the free head to the stored
    table and stores nowhere else; for a handle without a valid first block
    it stores nothing and logs the error. *)
Theorem link_commits_the_entry fh st :
  let f := filename fh mod EEPROM_FS_MAX_FILES in
  exists st',
    link fh st = Some (tt, st')
    /\ (valid_block (first_block fh) = true ->
        alloc_table st' f = mk_file_alloc (filesize fh) (first_block fh)
        /\ (forall j, j <> f -> alloc_table st' j = alloc_table st j)
        /\ (0 <= filesize fh < 65536 ->
            stored_entry (eeprom st') f = mk_file_alloc (filesize fh) (first_block fh))
        /\ (0 <= alloc_filesize (alloc_table st EEPROM_FS_MAX_FILES) < 65536 ->
            -32768 <= next_free_block st < 32768 ->
            stored_entry (eeprom st') EEPROM_FS_MAX_FILES
            = alloc_table st EEPROM_FS_MAX_FILES)
        /\ (forall a, ~ (alloc_entry_address f <= a
                         < alloc_entry_address f + sizeof_file_alloc_t) ->
                      ~ (alloc_entry_address EEPROM_FS_MAX_FILES <= a
                         < alloc_entry_address EEPROM_FS_MAX_FILES + sizeof_file_alloc_t) ->
                      eeprom st' a = eeprom st a))
    /\ (valid_block (first_block fh) = false ->
        core st' = core st
        /\ stderr st'
           = stderr st ++ [Msg "Cannot link file %d to invalid block %d.\n"
                               [filename fh; first_block fh]]).
Proof.
  intros f. destruct (valid_block (first_block fh)) eqn:Hv.
  - destruct (link_quiet (alloc_table st) (eeprom st) (wear st) [] [] fh Hv) as (w' & Hq).
    cbv zeta in Hq. fold f in Hq.
    destruct (run_quiet _ st _ _ (ni_link fh) Hq) as (st' & E & Hc).
    unfold core in Hc. cbn [alloc_table eeprom wear] in Hc. injection Hc as Htb He _.
    assert (Hf29 : 0 <= f < EEPROM_FS_MAX_FILES) by (apply Z.mod_pos_bound; reflexivity).
    assert (Haddr : alloc_entry_address f = 10 + 4 * f)
      by (apply alloc_entry_address_small; lia).
    assert (Haddr_s : alloc_entry_address EEPROM_FS_MAX_FILES = 126) by reflexivity.
    assert (Hsent : upd_table (alloc_table st) f
                              (mk_file_alloc (filesize fh) (first_block fh))
                              EEPROM_FS_MAX_FILES
                    = alloc_table st EEPROM_FS_MAX_FILES)
      by (apply upd_table_other; lia).
    change EEPROM_FS_MAX_FILES with 29 in Hf29.
    exists st'. split; [exact E|]. split; [|discriminate].
    intros _. rewrite Htb, He. rewrite upd_table_same, Hsent.
    split; [reflexivity|].
    split; [intros j Hj; apply upd_table_other; exact Hj|].
    split.
    { intros Hsz. erewrite stored_entry_frame.
      - apply stored_entry_poke; cbn [alloc_filesize data_block]; [exact Hsz|].
        apply valid_block_range in Hv. rewrite NUM_BLOCKS_value in Hv. lia.
      - intros a Ha. apply poke_outside. rewrite Haddr in Ha. rewrite Haddr_s.
        change sizeof_file_alloc_t with 4. lia. }
    split.
    { intros Hsz Hnf. apply stored_entry_poke; [exact Hsz | exact Hnf]. }
    intros a Ha1 Ha2. rewrite !poke_outside; [reflexivity | lia | lia].
  - exists (put_stderr (Msg "Cannot link file %d to invalid block %d.\n"
                            [filename fh; first_block fh]) st).
    split; [apply link_invalid; exact Hv|]. split; [discriminate|].
    intros _. split; reflexivity.
Qed.

(** ** Deleting when no block is free, in general *)

Lemma unlink_quiet_no_free tb e w err out fuel block :
  valid_block block = true ->
  valid_block (data_block (tb EEPROM_FS_MAX_FILES)) = false ->
  unlink fuel block (mk_state 0 tb e w err out)
  = Some (tt, mk_state 0 tb
                (poke e (get_block_pointer NULL_PTR)
                      (enc_block (mk_block block (block_payload e NULL_PTR))) sizeof_lba_t)
                (w + 2)
                (err ++ [Msg "Block %d is not part of a block chain.\n"
                             [data_block (tb EEPROM_FS_MAX_FILES)]])
                out).
Proof.
  intros Hb Hf. unfold unlink. rewrite Hb. quiet_run. unfold last_block_in_chain.
  rewrite Hf. quiet_run. reflexivity.
Qed.

(** X8. Deleting with no free block frees nothing.  When the name holds a
    file and the free head is no valid block (every block is in use),
    [delete] clears the entry but links the file's blocks nowhere: no [next]
    field and no payload changes and the free head in RAM stays as it was, so
    the blocks are on no chain; what [unlink] stores lands at the address of
    block -1, which is the size field of the stored entry 22, while entry 22
    in RAM is left alone. *)
Theorem delete_with_no_free_block fuel name st :
  let f := name mod EEPROM_FS_MAX_FILES in
  let first := data_block (alloc_table st f) in
  valid_block first = true ->
  valid_block (next_free_block st) = false ->
  exists st',
    delete fuel name st = Some (tt, st')
    /\ alloc_table st' f = mk_file_alloc 0 NULL_PTR
    /\ (forall j, j <> f -> alloc_table st' j = alloc_table st j)
    /\ next_free_block st' = next_free_block st
    /\ (forall x, valid_block x = true ->
                  block_next (eeprom st') x = block_next (eeprom st) x
                  /\ block_payload (eeprom st') x = block_payload (eeprom st) x)
    /\ (f <> 22 ->
        stored_entry (eeprom st') 22
        = mk_file_alloc first (data_block (stored_entry (eeprom st) 22))).
Proof.
  intros f first Hvf Hnf.
  assert (Hf29 : 0 <= f < EEPROM_FS_MAX_FILES) by (apply Z.mod_pos_bound; reflexivity).
  destruct (delete_quiet (alloc_table st) (eeprom st) (wear st) [] [] fuel name)
    as (eu & wu & erru & tb' & w' & err' & Hun & Hdel & Hf & Hother).
  { intros _ H. unfold next_free_block in Hnf. rewrite Hnf in H. discriminate H. }
  fold f in Hun, Hdel, Hf, Hother. fold first in Hun.
  rewrite (unlink_quiet_no_free _ _ _ _ _ _ _ Hvf Hnf) in Hun.
  injection Hun as <- _ _.
  destruct (run_quiet _ st _ _ (ni_delete fuel name) Hdel) as (st' & Hst & Hc).
  unfold core in Hc. cbn [alloc_table eeprom wear] in Hc. injection Hc as Ht He _.
  assert (Haddr : alloc_entry_address f = 10 + 4 * f)
    by (apply alloc_entry_address_small; lia).
  assert (Hnull : get_block_pointer NULL_PTR = 98) by reflexivity.
  change EEPROM_FS_MAX_FILES with 29 in Hf29.
  exists st'. split; [exact Hst|]. split; [rewrite Ht; exact Hf|].
  split; [intros j Hj; rewrite Ht; apply Hother; exact Hj|].
  split.
  { unfold next_free_block. rewrite Ht. apply f_equal. apply Hother.
    change EEPROM_FS_MAX_FILES with 29. lia. }
  split.
  { intros x Hx. rewrite He. split.
    - apply block_next_frame. intros a Ha.
      rewrite (get_block_pointer_valid x Hx) in Ha. apply valid_block_range in Hx.
      change EEPROM_FS_DATA_OFFSET with 130 in Ha. change EEPROM_FS_BLOCK_SIZE with 32 in Ha.
      rewrite !poke_outside; [reflexivity | |].
      + rewrite Hnull. change sizeof_lba_t with 2. lia.
      + rewrite Haddr. change sizeof_file_alloc_t with 4. lia.
    - apply block_payload_frame. intros a Ha.
      rewrite (get_block_pointer_valid x Hx) in Ha. apply valid_block_range in Hx.
      change EEPROM_FS_DATA_OFFSET with 130 in Ha. change EEPROM_FS_BLOCK_SIZE with 32 in Ha.
      rewrite !poke_outside; [reflexivity | |].
      + rewrite Hnull. change sizeof_lba_t with 2. lia.
      + rewrite Haddr. change sizeof_file_alloc_t with 4. lia. }
  intros H22. rewrite He. rewrite !stored_entry_bytes.
  change (alloc_entry_address 22) with 98.
  change sizeof_file_alloc_t with 4. change sizeof_lba_t with 2.
  rewrite !(poke_outside _ (alloc_entry_address f)) by (rewrite Haddr; lia).
  rewrite Hnull.
  rewrite (poke_inside _ 98 _ 2 98), (poke_inside _ 98 _ 2 (98 + 1)) by lia.
  rewrite (poke_outside _ 98 _ 2 (98 + 2)), (poke_outside _ 98 _ 2 (98 + 3)) by lia.
  unfold enc_block, enc16, dec_file_alloc. cbn [next_block app nth Z.to_nat Z.sub
    alloc_filesize data_block Z.add Pos.add Pos.succ Z.pos_sub Pos.pred_double Z.opp
    Pos.to_nat Pos.iter_op Nat.add].
  f_equal. apply dec_u16_enc16.
  apply valid_block_range in Hvf. rewrite NUM_BLOCKS_value in Hvf. lia.
Qed.

(** ** Where a commit takes its blocks *)

Lemma chain_walk_length e fuel :
  forall b l, chain_walk fuel e b = Some l -> (List.length l <= fuel)%nat.
Proof.
  induction fuel as [|fuel IH]; intros b l H; [discriminate|].
  cbn [chain_walk] in H. destruct (negb (block_next e b =? NULL_PTR)).
  - destruct (chain_walk fuel e (block_next e b)) as [l'|] eqn:W; [|discriminate].
    injection H as <-. cbn [List.length]. specialize (IH _ _ W). lia.
  - injection H as <-. cbn [List.length]. lia.
Qed.

Lemma chain_walk_firstn e fuel :
  forall h l, chain_walk fuel e h = Some l ->
              forall n, (n <= List.length l)%nat -> chain_prefix n e h = firstn n l.
Proof.
  induction fuel as [|fuel IH]; intros h l H n Hn; [discriminate|].
  cbn [chain_walk] in H. destruct (negb (block_next e h =? NULL_PTR)).
  - destruct (chain_walk fuel e (block_next e h)) as [l'|] eqn:W; [|discriminate].
    injection H as <-. destruct n as [|n]; [reflexivity|].
    cbn [chain_prefix firstn]. f_equal. apply (IH _ _ W). cbn [List.length] in Hn. lia.
  - injection H as <-. destruct n as [|[|n]]; [reflexivity | reflexivity|].
    cbn [List.length] in Hn. lia.
Qed.

Lemma chain_walk_skipn e fuel :
  forall h l, chain_walk fuel e h = Some l ->
              forall n, (n < List.length l)%nat ->
                        chain_walk fuel e (chain_after n e h) = Some (skipn n l).
Proof.
  induction fuel as [|fuel IH]; intros h l H n Hn; [discriminate|].
  destruct n as [|n]; [exact H|].
  cbn [chain_walk] in H. destruct (negb (block_next e h =? NULL_PTR)).
  - destruct (chain_walk fuel e (block_next e h)) as [l'|] eqn:W; [|discriminate].
    injection H as <-. cbn [chain_after skipn]. cbn [List.length] in Hn.
    assert (Hs : chain_walk fuel e (chain_after n e (block_next e h)) = Some (skipn n l'))
      by (apply (IH _ _ W); lia).
    apply (chain_walk_frame e e fuel _ _ Hs); [reflexivity|].
    pose proof (chain_walk_length _ _ _ _ Hs). lia.
  - injection H as <-. cbn [List.length] in Hn. lia.
Qed.

Lemma in_firstn {A} (l : list A) n x : In x (firstn n l) -> In x l.
Proof. intros H. rewrite <- (firstn_skipn n l). apply in_or_app. left. exact H. Qed.

Lemma in_skipn {A} (l : list A) n x : In x (skipn n l) -> In x l.
Proof. intros H. rewrite <- (firstn_skipn n l). apply in_or_app. right. exact H. Qed.

Lemma forallb_firstn {A} (f : A -> bool) l n :
  forallb f l = true -> forallb f (firstn n l) = true.
Proof.
  intros H. apply forallb_forall. intros x Hx.
  rewrite forallb_forall in H. apply H. exact (in_firstn l n x Hx).
Qed.

Lemma nodup_firstn {A} (l : list A) n : NoDup l -> NoDup (firstn n l).
Proof.
  intros H. rewrite <- (firstn_skipn n l) in H. apply NoDup_app_remove_r in H. exact H.
Qed.

(** X25. A commit takes the head of the free chain and returns no block.  When
    the free chain is a walk of distinct valid blocks with more than the
    [size / 30 + 1] blocks the write needs, after [open_for_write; write;
    close] the chain of the file is the first [size / 30 + 1] blocks of the
    old free chain and the free chain is what follows them: whatever the name
    held before is not returned to the free chain. *)
Theorem commit_takes_the_head_of_the_free_chain fuel u st name p l :
  let size := Z.of_nat (List.length p) in
  let k := Z.to_nat (size / EEPROM_FS_BLOCK_DATA_SIZE) in
  0 <= name < EEPROM_FS_MAX_FILES ->
  0 <= alloc_filesize (alloc_table st name) ->
  alloc_filesize (alloc_table st name) / EEPROM_FS_BLOCK_DATA_SIZE
  + size / EEPROM_FS_BLOCK_DATA_SIZE <= EEPROM_FS_MAX_BLOCKS_PER_FILE ->
  chain_walk fuel (eeprom st) (next_free_block st) = Some l ->
  forallb valid_block l = true ->
  NoDup l ->
  (S k < List.length l)%nat ->
  exists fh st1,
    store_file fuel u name p st = Some (fh, st1)
    /\ alloc_table st1 name = mk_file_alloc size (next_free_block st)
    /\ file_chain fuel st1 name = Some (firstn (S k) l)
    /\ chain_walk fuel (eeprom st1) (next_free_block st1) = Some (skipn (S k) l).
Proof.
  intros size k Hname Hfs Hcap Hl Hv Hnd Hroom.
  set (h := next_free_block st) in *.
  pose proof (chain_walk_firstn _ _ _ _ Hl (S k) ltac:(lia)) as Hpre.
  pose proof (chain_walk_length _ _ _ _ Hl) as Hlen.
  destruct (store_file_quiet fuel u name p (alloc_table st) (eeprom st) (wear st) [] []
              Hname Hfs Hcap)
    as (tb' & e' & w' & Hrun & Hentry & _ & Hhead & _ & Hchain & _ & Hframe & _).
  { fold (next_free_block st). fold h. fold size k. rewrite Hpre.
    apply forallb_firstn. exact Hv. }
  { fold (next_free_block st). fold h. fold size k. rewrite Hpre.
    apply nodup_firstn. exact Hnd. }
  fold (next_free_block st) in Hhead, Hchain, Hframe, Hentry. fold h in Hhead, Hchain, Hframe, Hentry.
  fold size k in Hrun, Hentry, Hhead, Hchain, Hframe.
  destruct (run_quiet _ st _ _ (ni_store_file fuel u name p) Hrun) as (st1 & Hst1 & Hc1).
  unfold core in Hc1. cbn [alloc_table eeprom wear] in Hc1. injection Hc1 as Ht1 He1 _.
  eexists _, st1. split; [exact Hst1|].
  split; [rewrite Ht1; exact Hentry|].
  split.
  { unfold file_chain. rewrite Ht1, He1, Hentry. cbn [data_block].
    rewrite <- Hpre. apply Hchain. lia. }
  unfold next_free_block. rewrite Ht1, He1, Hhead.
  pose proof (chain_walk_skipn _ _ _ _ Hl (S k) Hroom) as Hskip.
  apply (chain_walk_frame (eeprom st) e' fuel _ _ Hskip).
  - intros x Hx. apply Hframe.
    + rewrite forallb_forall in Hv. apply Hv. exact (in_skipn l (S k) x Hx).
    + rewrite Hpre. intros Hin.
      rewrite <- (firstn_skipn (S k) l) in Hnd.
      exact (nodup_app_apart _ _ x Hnd Hin Hx).
  - pose proof (chain_walk_length _ _ _ _ Hskip). exact H.
Qed.

(** ** The theorems at work *)

Lemma distinct_NoDup l : distinct l = true -> NoDup l.
Proof.
  induction l as [|x l IH]; intros H; [constructor|].
  cbn [distinct] in H. apply andb_true_iff in H. destruct H as [H1 H2].
  constructor; [|apply IH; exact H2].
  intros Hin. apply negb_true_iff in H1.
  assert (Hex : existsb (Z.eqb x) l = true)
    by (apply existsb_exists; exists x; split; [exact Hin | apply Z.eqb_refl]).
  congruence.
Qed.

(** A valid block on a chain whose walk ends is one of the blocks of the
    walk. *)
Lemma on_chain_in_walk fuel e :
  forall h l b,
    chain_walk fuel e h = Some l -> on_chain e h b -> valid_block b = true -> In b l.
Proof.
  induction fuel as [|fuel IH]; intros h l b W (k & Hk & Hv) Hb; [discriminate|].
  cbn [chain_walk] in W. destruct k as [|k].
  - cbn [chain_after] in Hk. subst b.
    destruct (negb (block_next e h =? NULL_PTR));
      [destruct (chain_walk fuel e (block_next e h)); [|discriminate]|];
      injection W as <-; left; reflexivity.
  - cbn [chain_after] in Hk.
    destruct (negb (block_next e h =? NULL_PTR)) eqn:E.
    + destruct (chain_walk fuel e (block_next e h)) as [l'|] eqn:W'; [|discriminate].
      injection W as <-. right. apply (IH _ _ _ W'); [|exact Hb].
      exists k. split; [exact Hk|]. intros j Hj.
      exact (Hv (S j) ltac:(lia)).
    + apply negb_false_iff, Z.eqb_eq in E. rewrite E in Hk. destruct k as [|k].
      * cbn [chain_after] in Hk. subst b. discriminate Hb.
      * specialize (Hv 1%nat ltac:(lia)). cbn [chain_after] in Hv. rewrite E in Hv.
        discriminate Hv.
Qed.

Lemma write_is_uncommitted_witness :
  exists fh' st',
    write 60 stale (mk_file_handle 6 0 FH_WRITE NULL_PTR NULL_PTR) (counting 40 0) 40
          file_of_58_bytes
    = Some (fh', st')
    /\ stored_meta (eeprom st') = stored_meta (eeprom file_of_58_bytes)
    /\ stored_entry (eeprom st') 22 = stored_entry (eeprom file_of_58_bytes) 22
    /\ block_next (eeprom st') 58 = block_next (eeprom file_of_58_bytes) 58
    /\ block_payload (eeprom st') 58 = block_payload (eeprom file_of_58_bytes) 58.
Proof.
  destruct (write_is_uncommitted 60 stale (mk_file_handle 6 0 FH_WRITE NULL_PTR NULL_PTR)
                                 (counting 40 0) 40 file_of_58_bytes)
    as (fh' & st' & H1 & H2 & H3 & H4 & H5 & _).
  - reflexivity.
  - exists fh', st'. split; [exact H1|]. split; [exact H2|].
    split; [apply H3; vm_compute; split; discriminate|]. split; [apply H4|].
    apply H5; [reflexivity|]. intros Hon.
    assert (W : chain_walk 60 (eeprom file_of_58_bytes) (next_free_block file_of_58_bytes)
                = Some (blocks_down_from 57)) by (vm_compute; reflexivity).
    pose proof (on_chain_in_walk _ _ _ _ _ W Hon eq_refl) as Hin.
    assert (Hex : existsb (Z.eqb 58) (blocks_down_from 57) = true)
      by (apply existsb_exists; exists 58; split; [exact Hin | reflexivity]).
    vm_compute in Hex. discriminate Hex.
Defined.

Lemma init_mounts_a_formatted_volume_witness :
  exists st',
    init_eepromfs one_block_file = Some (tt, st')
    /\ eeprom st' = eeprom one_block_file
    /\ alloc_table st' 3 = stored_entry (eeprom one_block_file) 3.
Proof.
  destruct (init_mounts_a_formatted_volume one_block_file) as (st' & H1 & H2 & _ & H3 & _).
  - vm_compute. reflexivity.
  - exists st'. split; [exact H1|]. split; [exact H2|].
    apply H3. vm_compute. split; discriminate.
Defined.

Lemma init_formats_a_foreign_volume_witness :
  exists st',
    init_eepromfs power_on = Some (tt, st')
    /\ stored_meta (eeprom st') = this_meta
    /\ next_free_block st' = EEPROM_FS_NUM_BLOCKS - 1.
Proof.
  destruct (init_formats_a_foreign_volume power_on) as (st' & H1 & H2 & _ & _ & H3 & _).
  - intros H. vm_compute in H. discriminate H.
  - exists st'. auto.
Defined.

Lemma commit_survives_reset_witness :
  exists fh1 st1 st2 fh st3,
    store_file 60 stale 6 (counting 14 65) fresh = Some (fh1, st1)
    /\ init_eepromfs st1 = Some (tt, st2)
    /\ load_file 60 6 st2 = Some ((fh, counting 14 65), st3)
    /\ filesize fh = 14.
Proof.
  destruct (commit_survives_reset 60 stale fresh 6 (counting 14 65))
    as (fh1 & st1 & st2 & fh & st3 & H1 & H2 & H3 & H4 & _).
  - vm_compute. split; [discriminate | reflexivity].
  - vm_compute. discriminate.
  - vm_compute. discriminate.
  - vm_compute. reflexivity.
  - apply distinct_NoDup. vm_compute. reflexivity.
  - vm_compute. lia.
  - vm_compute. reflexivity.
  - exists fh1, st1, st2, fh, st3. auto.
Defined.

Lemma delete_returns_blocks_witness :
  exists st',
    delete 60 3 one_block_file = Some (tt, st')
    /\ alloc_table st' (3 mod EEPROM_FS_MAX_FILES) = mk_file_alloc 0 NULL_PTR
    /\ chain_walk 60 (eeprom st') (next_free_block one_block_file)
       = Some (blocks_down_from 57 ++ [58; 57]).
Proof.
  destruct (delete_returns_blocks 60 one_block_file 3 (blocks_down_from 57) [58; 57])
    as (st' & H1 & H2 & _ & H3 & _).
  - vm_compute. reflexivity.
  - vm_compute. reflexivity.
  - vm_compute. reflexivity.
  - apply distinct_NoDup. vm_compute. reflexivity.
  - exists st'. split; [exact H1|]. split; [exact H2|].
    apply H3. vm_compute. lia.
Defined.

Lemma commit_leaves_other_files_witness :
  exists fh st1 r s s1,
    store_file 60 stale 6 (counting 14 65) one_block_file = Some (fh, st1)
    /\ alloc_table st1 3 = alloc_table one_block_file 3
    /\ load_file 60 3 one_block_file = Some (r, s)
    /\ load_file 60 3 st1 = Some (r, s1).
Proof.
  apply (commit_leaves_other_files 60 stale one_block_file 6 (counting 14 65) 3 [58; 57]).
  - vm_compute. split; [discriminate | reflexivity].
  - vm_compute. discriminate.
  - vm_compute. discriminate.
  - vm_compute. reflexivity.
  - apply distinct_NoDup. vm_compute. reflexivity.
  - vm_compute. split; [discriminate | reflexivity].
  - discriminate.
  - vm_compute. reflexivity.
  - vm_compute. reflexivity.
  - vm_compute. split; discriminate.
  - vm_compute. reflexivity.
  - intros x Hx Hin. vm_compute in Hx, Hin.
    destruct Hx as [<-|[<-|[]]]; destruct Hin as [H|[]]; discriminate H.
Defined.

Lemma delete_leaves_other_files_witness :
  exists st1 r s s1,
    delete 60 6 two_files = Some (tt, st1)
    /\ alloc_table st1 3 = alloc_table two_files 3
    /\ load_file 60 3 two_files = Some (r, s)
    /\ load_file 60 3 st1 = Some (r, s1).
Proof.
  apply (delete_leaves_other_files 60 two_files 6 (blocks_down_from 56) 3 [58; 57]).
  - vm_compute. reflexivity.
  - vm_compute. reflexivity.
  - vm_compute. reflexivity.
  - vm_compute. reflexivity.
  - vm_compute. split; [discriminate | reflexivity].
  - vm_compute. discriminate.
  - vm_compute. reflexivity.
  - vm_compute. reflexivity.
  - vm_compute. split; discriminate.
  - vm_compute. reflexivity.
  - vm_compute. intros [H|[H|[]]]; discriminate H.
Defined.

Lemma block_geometry_witness :
  get_block_pointer 58 = EEPROM_FS_DATA_OFFSET + EEPROM_FS_BLOCK_SIZE * 58
  /\ get_block_pointer 58 + EEPROM_FS_BLOCK_SIZE <= EEPROM_FS_START + EEPROM_FS_SIZE.
Proof.
  destruct (block_geometry 58) as (H1 & H2 & _).
  - reflexivity.
  - split; [exact H1 | exact H2].
Defined.

Lemma delete_with_no_free_block_witness :
  exists st',
    delete 60 0 pool_exhausted = Some (tt, st')
    /\ alloc_table st' (0 mod EEPROM_FS_MAX_FILES) = mk_file_alloc 0 NULL_PTR
    /\ next_free_block st' = next_free_block pool_exhausted
    /\ alloc_filesize (stored_entry (eeprom st') 22) = 58.
Proof.
  destruct (delete_with_no_free_block 60 0 pool_exhausted)
    as (st' & H1 & H2 & _ & H3 & _ & H4).
  - vm_compute. reflexivity.
  - vm_compute. reflexivity.
  - exists st'. split; [exact H1|]. split; [exact H2|]. split; [exact H3|].
    rewrite H4 by (vm_compute; discriminate). vm_compute. reflexivity.
Defined.

Lemma commit_takes_the_head_of_the_free_chain_witness :
  exists fh st1,
    store_file 60 stale 6 (counting 14 65) fresh = Some (fh, st1)
    /\ file_chain 60 st1 6 = Some [58]
    /\ chain_walk 60 (eeprom st1) (next_free_block st1) = Some (blocks_down_from 58).
Proof.
  destruct (commit_takes_the_head_of_the_free_chain 60 stale fresh 6 (counting 14 65)
              (blocks_down_from 59))
    as (fh & st1 & H1 & _ & H2 & H3).
  - vm_compute. split; [discriminate | reflexivity].
  - vm_compute. discriminate.
  - vm_compute. discriminate.
  - vm_compute. reflexivity.
  - vm_compute. reflexivity.
  - apply distinct_NoDup. vm_compute. reflexivity.
  - vm_compute. lia.
  - exists fh, st1. split; [exact H1|]. split; [exact H2 | exact H3].
Defined.

(** ** Appending to a file of at most one block of payload *)

Lemma write_split fuel u fh data size :
  write fuel u fh data size
  = if handle_type_eqb (type fh) FH_WRITE || handle_type_eqb (type fh) FH_APPEND then
      ds <- write_merge fuel u fh data size ;;
      write_rest u fh (fst ds) (snd ds)
    else
      _fs_error "Tried to write to read-only file handle '%d'\n" [filename fh] ;;;
      ret fh.
Proof. reflexivity. Qed.

(** The block loop of [write] in a quiet state, when the payload fits under
    the cap and the free chain supplies the blocks. *)
Lemma write_rest_quiet u fh d z tb e w err out :
  let k := Z.to_nat (z / EEPROM_FS_BLOCK_DATA_SIZE) in
  let h := data_block (tb EEPROM_FS_MAX_FILES) in
  0 <= z ->
  0 <= alloc_filesize (tb (filename fh)) ->
  alloc_filesize (tb (filename fh)) / EEPROM_FS_BLOCK_DATA_SIZE
  + z / EEPROM_FS_BLOCK_DATA_SIZE <= EEPROM_FS_MAX_BLOCKS_PER_FILE ->
  forallb valid_block (chain_prefix (S k) e h) = true ->
  exists tb1 e1 w1,
    write_rest u fh d z (mk_state 0 tb e w err out)
    = Some (mk_file_handle (filename fh) z (type fh) h (chain_after k e h),
            mk_state 0 tb1 e1 w1 err out)
    /\ (forall j, j <> EEPROM_FS_MAX_FILES -> tb1 j = tb j)
    /\ tb1 EEPROM_FS_MAX_FILES
       = mk_file_alloc (alloc_filesize (tb EEPROM_FS_MAX_FILES)) (chain_after (S k) e h)
    /\ (forall x, valid_block x = true -> block_next e1 x = block_next e x)
    /\ (forall a, a < EEPROM_FS_DATA_OFFSET -> e1 a = e a)
    /\ (forall x, valid_block x = true -> ~ In x (chain_prefix (S k) e h) ->
                  block_payload e1 x = block_payload e x)
    /\ (NoDup (chain_prefix (S k) e h) ->
        forall j i, (j <= k)%nat -> 0 <= Z.of_nat i < bytes_at z (Z.of_nat j) ->
                    nth i (block_payload e1 (nth j (chain_prefix (S k) e h) 0)) 0
                    = nth (Z.to_nat (Z.of_nat j * EEPROM_FS_BLOCK_DATA_SIZE + Z.of_nat i)) d 0).
Proof.
  intros k h Hz Hfs Hcap Hv.
  assert (Hq : 0 <= z / EEPROM_FS_BLOCK_DATA_SIZE)
    by (apply Z.div_pos; [exact Hz | reflexivity]).
  assert (Hq' : 0 <= alloc_filesize (tb (filename fh)) / EEPROM_FS_BLOCK_DATA_SIZE)
    by (apply Z.div_pos; [exact Hfs | reflexivity]).
  change EEPROM_FS_MAX_BLOCKS_PER_FILE with 8 in Hcap.
  unfold write_rest. quiet_run.
  replace (EEPROM_FS_MAX_BLOCKS_PER_FILE
           <? u16 (alloc_filesize (tb (filename fh)) / EEPROM_FS_BLOCK_DATA_SIZE
                   + z / EEPROM_FS_BLOCK_DATA_SIZE)) with false
    by (symmetry; apply Z.ltb_ge; unfold u16; rewrite Z.mod_small;
        change EEPROM_FS_MAX_BLOCKS_PER_FILE with 8; lia).
  quiet_run.
  assert (Hnum : u16 (z / EEPROM_FS_BLOCK_DATA_SIZE + 1)
                 = z / EEPROM_FS_BLOCK_DATA_SIZE + 1)
    by (unfold u16; apply Z.mod_small; lia).
  rewrite Hnum.
  replace (0 <? z / EEPROM_FS_BLOCK_DATA_SIZE + 1) with true
    by (symmetry; apply Z.ltb_lt; lia).
  quiet_run.
  replace (Z.to_nat (z / EEPROM_FS_BLOCK_DATA_SIZE + 1)) with (S k) by (unfold k; lia).
  match goal with
  | |- context [write_blocks (S k) 0 d z ?nb ?bd ?last _] =>
      destruct (write_blocks_quiet (S k) 0 d z nb bd last tb e w err out Hv)
        as (last' & tb1 & e1 & w1 & Hrun & Htb & Hs & Hlast & Hnx & Hlow & Hpay & Hdata)
  end.
  fold h in Htb, Hs, Hlast, Hpay, Hdata.
  rewrite Hrun. quiet_run.
  rewrite chain_prefix_last in Hlast. subst last'.
  replace (u16 ((z / EEPROM_FS_BLOCK_DATA_SIZE + 1) * EEPROM_FS_BLOCK_DATA_SIZE) <? z)
    with false.
  2:{ symmetry. apply Z.ltb_ge. unfold u16. rewrite Z.mod_small.
      - pose proof (Z.mod_pos_bound z EEPROM_FS_BLOCK_DATA_SIZE ltac:(reflexivity)).
        pose proof (Z.div_mod z EEPROM_FS_BLOCK_DATA_SIZE ltac:(discriminate)).
        change EEPROM_FS_BLOCK_DATA_SIZE with 30 in *. lia.
      - change EEPROM_FS_BLOCK_DATA_SIZE with 30 in *. lia. }
  quiet_run.
  exists tb1, e1, w1. split; [reflexivity|].
  split; [exact Htb|]. split; [exact Hs|]. split; [exact Hnx|]. split; [exact Hlow|].
  split; [exact Hpay|].
  intros Hnd j i Hj Hi.
  replace (Z.of_nat j * EEPROM_FS_BLOCK_DATA_SIZE + Z.of_nat i)
    with ((0 + Z.of_nat j) * EEPROM_FS_BLOCK_DATA_SIZE + Z.of_nat i) by lia.
  apply Hdata;
    [ exact Hnd | lia | change EEPROM_FS_BLOCK_DATA_SIZE with 30 in *; lia
    | exact Hz | left; reflexivity | apply take_length | lia
    | rewrite Z.add_0_l; exact Hi ].
Qed.

Lemma blit_length src :
  forall buf off,
    0 <= off -> off + Z.of_nat (List.length src) <= Z.of_nat (List.length buf) ->
    List.length (blit buf off src) = List.length buf.
Proof.
  induction src as [|a src IH]; intros buf off Hoff Hfit; [reflexivity|].
  cbn [blit]. cbn [List.length] in Hfit.
  rewrite IH by (rewrite ?store_length by lia; lia). apply store_length. lia.
Qed.

Lemma blit_nth_outside src :
  forall buf off x,
    Z.of_nat x < off \/ off + Z.of_nat (List.length src) <= Z.of_nat x ->
    nth x (blit buf off src) 0 = nth x buf 0.
Proof.
  induction src as [|a src IH]; intros buf off x Hx; [reflexivity|].
  cbn [blit]. cbn [List.length] in Hx. rewrite IH by lia.
  apply store_nth_other. lia.
Qed.

Lemma blit_nth_inside src :
  forall buf off i,
    0 <= off -> off + Z.of_nat (List.length src) <= Z.of_nat (List.length buf) ->
    (i < List.length src)%nat ->
    nth (Z.to_nat (off + Z.of_nat i)) (blit buf off src) 0 = nth i src 0.
Proof.
  induction src as [|a src IH]; intros buf off i Hoff Hlen Hi; [cbn in Hi; lia|].
  cbn [blit]. cbn [List.length] in Hlen, Hi. destruct i as [|i].
  - rewrite blit_nth_outside by lia. rewrite Z.add_0_r.
    apply store_nth_same. lia.
  - replace (off + Z.of_nat (S i)) with (off + 1 + Z.of_nat i) by lia.
    rewrite IH; [reflexivity | lia | rewrite store_length by lia; lia | lia].
Qed.

(** The merge of [write] for an APPEND handle on a file whose size is not a
    multiple of the block payload: when its block ends, [to_write] holds the
    bytes of the incomplete last block followed by the new bytes; what [write]
    goes on with is what the dead buffer gives for them. *)
Lemma write_merge_quiet fuel u fh data size tb e w err out lc :
  let o := filesize fh mod EEPROM_FS_BLOCK_DATA_SIZE in
  let b0 := data_block (tb (filename fh)) in
  let b_last := List.last lc b0 in
  type fh = FH_APPEND ->
  0 < o ->
  0 <= size -> o + size < 32768 ->
  valid_block b0 = true ->
  chain_walk fuel e b0 = Some lc ->
  valid_block b_last = true ->
  exists m,
    write_merge fuel u fh data size (mk_state 0 tb e w err out)
    = Some ((dead_vla u (mk_state 0 tb e w err out) fh m, o + size),
            mk_state 0 tb e w err out)
    /\ (forall i, (i < Z.to_nat o)%nat -> nth i m 0 = nth i (block_payload e b_last) 0)
    /\ (forall i, (i < Z.to_nat size)%nat -> nth (Z.to_nat o + i) m 0 = nth i data 0).
Proof.
  intros o b0 b_last Ht Ho Hsize Hsum Hv0 W Hvl.
  assert (Ho30 : 0 <= o < 30) by (apply Z.mod_pos_bound; reflexivity).
  assert (Hnull : block_next e b_last = NULL_PTR) by (apply (chain_walk_last _ _ _ _ W)).
  assert (W1 : chain_walk fuel e b_last = Some [b_last]).
  { destruct fuel as [|fuel]; [discriminate W|]. cbn [chain_walk]. rewrite Hnull. reflexivity. }
  unfold write_merge. rewrite Ht. cbn [handle_type_eqb andb]. fold o.
  replace (0 <? o) with true by (symmetry; apply Z.ltb_lt; exact Ho).
  cbv zeta. quiet_run. fold b0.
  unfold last_block_in_chain. rewrite Hv0. quiet_run.
  rewrite (last_block_walk_quiet _ _ _ _ _ _ _ _ W). quiet_run. fold b_last.
  unfold read. cbn [first_block]. rewrite Hvl.
  assert (Hu : u16 (o + size) = o + size) by (unfold u16; apply Z.mod_small; lia).
  rewrite Hu.
  set (buf0 := take (2 * (o + size)) 0 (to_write0 u)).
  assert (Hlen0 : List.length buf0 = Z.to_nat (2 * (o + size))) by apply take_length.
  assert (Hbytes : bytes_at o 0 = o).
  { unfold bytes_at. change EEPROM_FS_BLOCK_DATA_SIZE with 30.
    replace (o <? (0 + 1) * 30) with true by (symmetry; apply Z.ltb_lt; lia).
    apply Z.mod_small. lia. }
  destruct (read_walk_quiet tb e w err out
              (mk_file_handle (filename fh) o (type fh) b_last (last_block fh))
              fuel b_last [b_last] 0 EEPROM_FS_BLOCK_DATA_SIZE buf0 W1)
    as (buf1 & Hread & _ & Hlen1 & Hin & _).
  { lia. }
  { cbn [List.length]. change EEPROM_FS_BLOCK_DATA_SIZE with 30. lia. }
  { cbn [filesize]. lia. }
  { left. reflexivity. }
  cbn [filesize List.length] in Hin, Hlen1.
  assert (Hl1 : List.length buf1 = List.length buf0).
  { apply Hlen1. intros j Hj _. assert (j = 0%nat) by lia. subst j.
    change (0 + Z.of_nat 0) with 0. rewrite Hbytes, Hlen0. lia. }
  rewrite Hread. quiet_run.
  eexists. split; [reflexivity|]. split.
  - intros i Hi. rewrite blit_nth_outside by lia.
    specialize (Hin 0%nat i ltac:(lia)).
    change (0 + Z.of_nat 0) with 0 in Hin. rewrite Z.mul_0_l, Z.add_0_l in Hin.
    rewrite Nat2Z.id in Hin. cbn [nth] in Hin. apply Hin; [|lia].
    rewrite Hbytes. lia.
  - intros i Hi.
    replace (Z.to_nat o + i)%nat with (Z.to_nat (o + Z.of_nat i)) by lia.
    rewrite blit_nth_inside.
    + apply take_nth. exact Hi.
    + lia.
    + rewrite take_length, Hl1, Hlen0. lia.
    + rewrite take_length. exact Hi.
Qed.

(** [close] of an APPEND handle on a name whose entry holds at most one block
    of payload: the old chain, if any, is unlinked and the handle is linked
    under the sum of the two sizes. *)
Lemma close_append_quiet fuel fh tb e w err out l :
  let f := filename fh in
  let s := alloc_filesize (tb f) in
  let b0 := data_block (tb f) in
  let head := data_block (tb EEPROM_FS_MAX_FILES) in
  let tail := List.last l head in
  let eU := if 0 <? s
            then poke e (get_block_pointer tail)
                      (enc_block (mk_block b0 (block_payload e tail))) sizeof_lba_t
            else e in
  let tb' := upd_table tb f (mk_file_alloc (filesize fh + s) (first_block fh)) in
  type fh = FH_APPEND ->
  0 <= f < EEPROM_FS_MAX_FILES ->
  0 <= s <= EEPROM_FS_BLOCK_DATA_SIZE ->
  0 <= filesize fh -> filesize fh + s < 65536 ->
  valid_block (first_block fh) = true ->
  valid_block (last_block fh) = true ->
  (0 < s -> valid_block b0 = true /\ valid_block head = true
            /\ chain_walk fuel e head = Some l) ->
  exists w',
    close fuel fh (mk_state 0 tb e w err out)
    = Some (mk_file_handle f (filesize fh + s) FH_APPEND (first_block fh) (last_block fh),
            mk_state 0 tb'
              (poke (poke (poke eU (alloc_entry_address f) (enc_file_alloc (tb' f))
                                sizeof_file_alloc_t)
                          (alloc_entry_address EEPROM_FS_MAX_FILES)
                          (enc_file_alloc (tb' EEPROM_FS_MAX_FILES)) sizeof_file_alloc_t)
                    (get_block_pointer (last_block fh)) (enc16 NULL_PTR) sizeof_lba_t)
              w' err out).
Proof.
  intros f s b0 head tail eU tb' Ht Hf Hs Hfs Hsum Hvf Hvl Hold.
  unfold close. rewrite Ht. cbn [handle_type_eqb]. quiet_run. fold f. fold s.
  replace (EEPROM_FS_BLOCK_DATA_SIZE <? s) with false by (symmetry; apply Z.ltb_ge; lia).
  assert (Hu : u16 (filesize fh + s) = filesize fh + s)
    by (unfold u16; apply Z.mod_small; lia).
  rewrite Hu. quiet_run.
  assert (Hun : exists wU,
             (if 0 <? s then unlink fuel (data_block (tb f)) else fun st => Some (tt, st))
               (mk_state 0 tb e w err out)
             = Some (tt, mk_state 0 tb eU wU err out)).
  { unfold eU. destruct (0 <? s) eqn:E.
    - apply Z.ltb_lt in E. destruct (Hold E) as (Hv0 & Hvh & W).
      eexists. apply (unlink_quiet_append tb e w err out fuel _ l Hv0 Hvh W).
    - eexists. reflexivity. }
  destruct Hun as (wU & Hun). rewrite Hun.
  destruct (link_quiet tb eU wU err out
              (mk_file_handle f (filesize fh + s) (type fh) (first_block fh) (last_block fh))
              Hvf) as (w2 & Hlink).
  cbn [first_block filename filesize] in Hlink. cbv zeta in Hlink.
  rewrite (Z.mod_small f) in Hlink by exact Hf.
  fold f. rewrite Hlink. quiet_run.
  rewrite relink_quiet by (assumption || (rewrite NUM_BLOCKS_value; unfold NULL_PTR; lia)).
  quiet_run. rewrite Ht. eexists. reflexivity.
Qed.

Lemma open_for_append_quiet tb e w err out name :
  open_for_append name (mk_state 0 tb e w err out)
  = Some (let f := if EEPROM_FS_MAX_FILES <? name
                   then name mod EEPROM_FS_MAX_FILES else name in
          mk_file_handle f (alloc_filesize (tb f)) FH_APPEND NULL_PTR NULL_PTR,
          mk_state 0 tb e w err out).
Proof.
  unfold open_for_append. quiet_run.
  destruct (EEPROM_FS_MAX_FILES <? name); quiet_run; reflexivity.
Qed.

Lemma nth_firstn_lt {A} (l : list A) n i d : (i < n)%nat -> nth i (firstn n l) d = nth i l d.
Proof.
  revert l i. induction n as [|n IH]; intros l i Hi; [lia|].
  destruct l as [|x l]; [destruct i; reflexivity|].
  destruct i as [|i]; [reflexivity|]. cbn [firstn nth]. apply IH. lia.
Qed.

Lemma block_payload_length e b :
  List.length (block_payload e b) = Z.to_nat EEPROM_FS_BLOCK_DATA_SIZE.
Proof. rewrite block_payload_bytes, length_map, length_seq. reflexivity. Qed.

Lemma last_skipn (l : list Z) n d d' :
  (n < List.length l)%nat -> List.last (skipn n l) d = List.last l d'.
Proof.
  revert l. induction n as [|n IH]; intros l Hn.
  - cbn [skipn]. destruct l as [|x l]; [cbn in Hn; lia|]. apply last_cons_indep.
  - destruct l as [|x l]; [cbn in Hn; lia|]. cbn [skipn]. cbn [List.length] in Hn.
    rewrite (IH l) by lia.
    destruct l as [|y l]; [cbn in Hn; lia|]. reflexivity.
Qed.

(** [open_for_append; write; close] in a quiet state, on a name whose entry
    holds at most one block of payload. *)
Lemma append_file_quiet fuel u name p tb e w l lc :
  let s := alloc_filesize (tb name) in
  let b0 := data_block (tb name) in
  let o := s mod EEPROM_FS_BLOCK_DATA_SIZE in
  let z := o + Z.of_nat (List.length p) in
  let k := Z.to_nat (z / EEPROM_FS_BLOCK_DATA_SIZE) in
  let h := data_block (tb EEPROM_FS_MAX_FILES) in
  0 <= name < EEPROM_FS_MAX_FILES ->
  0 <= s <= EEPROM_FS_BLOCK_DATA_SIZE ->
  s / EEPROM_FS_BLOCK_DATA_SIZE + z / EEPROM_FS_BLOCK_DATA_SIZE
  <= EEPROM_FS_MAX_BLOCKS_PER_FILE ->
  chain_walk fuel e h = Some l ->
  forallb valid_block (l ++ lc) = true ->
  NoDup (l ++ lc) ->
  (S k < List.length l)%nat ->
  (if 0 <? s then chain_walk fuel e b0 = Some lc else lc = []) ->
  exists tb' e' w',
    append_file fuel u name p (mk_state 0 tb e w [] [])
    = Some (mk_file_handle name (s + z) FH_APPEND h (chain_after k e h),
            mk_state 0 tb' e' w' [] [])
    /\ tb' name = mk_file_alloc (s + z) h
    /\ (forall j, j <> name -> j <> EEPROM_FS_MAX_FILES -> tb' j = tb j)
    /\ data_block (tb' EEPROM_FS_MAX_FILES) = chain_after (S k) e h
    /\ chain_walk fuel e' h = Some (firstn (S k) l)
    /\ (o = 0 ->
        forall i, 0 <= i < z ->
          nth (Z.to_nat (i mod EEPROM_FS_BLOCK_DATA_SIZE))
              (block_payload e' (nth (Z.to_nat (i / EEPROM_FS_BLOCK_DATA_SIZE)) l 0)) 0
          = nth (Z.to_nat i) p 0)
    /\ (forall fuel', (List.length l - S k + List.length lc <= fuel')%nat ->
          chain_walk fuel' e' (chain_after (S k) e h) = Some (skipn (S k) l ++ lc)).
Proof.
  intros s b0 o z k h Hname Hs Hcap Hl Hv Hnd Hroom Hold.
  set (n := Z.of_nat (List.length p)) in *.
  assert (Ho : 0 <= o < 30) by (apply Z.mod_pos_bound; reflexivity).
  assert (Hn : 0 <= n) by (unfold n; lia).
  assert (Hz : 0 <= z) by (unfold z; lia).
  assert (Hzq : 0 <= z / EEPROM_FS_BLOCK_DATA_SIZE)
    by (apply Z.div_pos; [exact Hz | reflexivity]).
  assert (Hsq : 0 <= s / EEPROM_FS_BLOCK_DATA_SIZE)
    by (apply Z.div_pos; [lia | reflexivity]).
  assert (Hz270 : z < 270).
  { change EEPROM_FS_MAX_BLOCKS_PER_FILE with 8 in Hcap.
    change EEPROM_FS_BLOCK_DATA_SIZE with 30 in *. Z.div_mod_to_equations. lia. }
  assert (Hall : forall x, In x (l ++ lc) -> valid_block x = true)
    by (apply forallb_forall; exact Hv).
  assert (Hndl : NoDup l) by (apply NoDup_app_remove_r in Hnd; exact Hnd).
  pose proof (chain_walk_firstn _ _ _ _ Hl (S k) ltac:(lia)) as Hpre.
  pose proof (chain_walk_length _ _ _ _ Hl) as Hlenl.
  assert (Hvpre : forallb valid_block (chain_prefix (S k) e h) = true).
  { rewrite Hpre. apply forallb_forall. intros x Hx. apply Hall, in_or_app. left.
    exact (in_firstn l (S k) x Hx). }
  assert (Hndpre : NoDup (chain_prefix (S k) e h))
    by (rewrite Hpre; apply nodup_firstn; exact Hndl).
  change EEPROM_FS_MAX_FILES with 29 in Hname.
  (* open *)
  unfold append_file. unfold bind at 1. rewrite open_for_append_quiet.
  replace (EEPROM_FS_MAX_FILES <? name) with false
    by (symmetry; apply Z.ltb_ge; change EEPROM_FS_MAX_FILES with 29; lia).
  cbv zeta. fold s.
  set (fhA := mk_file_handle name s FH_APPEND NULL_PTR NULL_PTR).
  (* write: the merge *)
  unfold bind at 1. rewrite write_split. cbn [type fhA handle_type_eqb orb].
  unfold bind at 1.
  assert (Hmerge : exists d,
             write_merge fuel u fhA p n (mk_state 0 tb e w [] [])
             = Some ((d, z), mk_state 0 tb e w [] [])
             /\ (o = 0 -> d = p)).
  { destruct (0 <? o) eqn:Eo.
    - apply Z.ltb_lt in Eo.
      assert (Hs30 : 0 < s) by (destruct (Z.eq_dec s 0) as [E0|E0];
                                 [unfold o in Eo; rewrite E0 in Eo; cbn in Eo; lia | lia]).
      replace (0 <? s) with true in Hold by (symmetry; apply Z.ltb_lt; exact Hs30).
      assert (Hv0 : valid_block b0 = true).
      { apply Hall, in_or_app. right.
        destruct (chain_walk_head _ _ _ _ Hold) as (c' & ->). left. reflexivity. }
      assert (Hvl : valid_block (List.last lc b0) = true).
      { apply Hall, in_or_app. right.
        destruct (chain_walk_head _ _ _ _ Hold) as (c' & ->). apply last_cons_In. }
      destruct (write_merge_quiet fuel u fhA p n tb e w [] [] lc)
        as (m & Hm & _ & _); try assumption; try reflexivity;
        try (cbn [fhA filesize]; fold o; lia).
      cbn [fhA filesize filename] in Hm. fold o in Hm.
      eexists. split; [exact Hm|]. intros Ho0. lia.
    - apply Z.ltb_ge in Eo. assert (Eo0 : o = 0) by lia.
      exists p. split; [|reflexivity].
      unfold write_merge. cbn [fhA type filesize handle_type_eqb andb]. fold o.
      replace (0 <? o) with false by (symmetry; apply Z.ltb_ge; lia).
      unfold z. rewrite Eo0. reflexivity. }
  destruct Hmerge as (d & Hm & Hd). fold n. rewrite Hm. cbn [fst snd].
  (* write: the blocks *)
  destruct (write_rest_quiet u fhA d z tb e w [] [] Hz)
    as (tb1 & e1 & w1 & Hrun & Htb & Hs1 & Hnx & Hlow & Hpay & Hdata).
  { cbn [fhA filename]. fold s. lia. }
  { cbn [fhA filename]. fold s. exact Hcap. }
  { exact Hvpre. }
  fold k h in Hrun, Hs1, Hpay, Hdata. cbn [fhA filename type] in Hrun.
  rewrite Hrun. clear Hrun.
  specialize (Hdata Hndpre).
  (* close *)
  set (lastb := chain_after k e h) in *.
  set (head1 := chain_after (S k) e h) in *.
  assert (Htn : tb1 name = tb name) by (apply Htb; change EEPROM_FS_MAX_FILES with 29; lia).
  assert (Hvh : valid_block h = true).
  { apply Hall, in_or_app. left. destruct (chain_walk_head _ _ _ _ Hl) as (l' & ->).
    left. reflexivity. }
  assert (Hlast_in : In lastb (firstn (S k) l)).
  { rewrite <- Hpre, chain_prefix_snoc. apply in_or_app. right. left. reflexivity. }
  assert (Hvlast : valid_block lastb = true)
    by (apply Hall, in_or_app; left; exact (in_firstn l (S k) _ Hlast_in)).
  assert (Hskip : chain_walk fuel e head1 = Some (skipn (S k) l))
    by (apply (chain_walk_skipn _ _ _ _ Hl); exact Hroom).
  assert (Hskip_valid : forall x, In x (skipn (S k) l) -> valid_block x = true)
    by (intros x Hx; apply Hall, in_or_app; left; exact (in_skipn l (S k) x Hx)).
  assert (Hskip1 : chain_walk fuel e1 head1 = Some (skipn (S k) l)).
  { apply (chain_walk_frame e e1 fuel _ _ Hskip).
    - intros x Hx. apply Hnx. apply Hskip_valid. exact Hx.
    - exact (chain_walk_length _ _ _ _ Hskip). }
  set (tail := List.last (skipn (S k) l) head1).
  assert (Htail_in : In tail (skipn (S k) l)).
  { unfold tail. destruct (chain_walk_head _ _ _ _ Hskip) as (l' & ->). apply last_cons_In. }
  assert (Hvtail : valid_block tail = true) by (apply Hskip_valid; exact Htail_in).
  assert (Hapart : forall x, In x (firstn (S k) l) -> In x (skipn (S k) l) -> False).
  { intros x H1 H2. rewrite <- (firstn_skipn (S k) l) in Hndl.
    exact (nodup_app_apart _ _ x Hndl H1 H2). }
  pose proof (close_append_quiet fuel (mk_file_handle name z FH_APPEND h lastb)
                tb1 e1 w1 [] [] (skipn (S k) l)) as Hclose.
  cbv zeta in Hclose. cbn [filename filesize first_block last_block type] in Hclose.
  rewrite Htn, Hs1 in Hclose. cbn [data_block alloc_filesize] in Hclose.
  fold s b0 tail in Hclose.
  destruct Hclose as (w2 & Hclose); try assumption; try reflexivity; try lia.
  { change EEPROM_FS_BLOCK_DATA_SIZE with 30 in Hs. lia. }
  { intros Hpos. split; [|split; [|exact Hskip1]].
    - replace (0 <? s) with true in Hold by (symmetry; apply Z.ltb_lt; exact Hpos).
      apply Hall, in_or_app. right.
      destruct (chain_walk_head _ _ _ _ Hold) as (c' & ->). left. reflexivity.
    - apply Hskip_valid. destruct (chain_walk_head _ _ _ _ Hskip) as (l' & ->).
      left. reflexivity. }
  rewrite Hclose. clear Hclose.
  replace (s + z) with (z + s) by lia.
  set (tbF := upd_table tb1 name (mk_file_alloc (z + s) h)).
  set (eU := if 0 <? s
             then poke e1 (get_block_pointer tail)
                       (enc_block (mk_block b0 (block_payload e1 tail))) sizeof_lba_t
             else e1).
  set (eF := poke (poke (poke eU (alloc_entry_address name) (enc_file_alloc (tbF name))
                              sizeof_file_alloc_t)
                        (alloc_entry_address EEPROM_FS_MAX_FILES)
                        (enc_file_alloc (tbF EEPROM_FS_MAX_FILES)) sizeof_file_alloc_t)
                  (get_block_pointer lastb) (enc16 NULL_PTR) sizeof_lba_t).
  exists tbF, eF, w2. split; [reflexivity|].
  assert (Haddr_n : alloc_entry_address name + sizeof_file_alloc_t <= EEPROM_FS_DATA_OFFSET).
  { rewrite alloc_entry_address_small by (change EEPROM_FS_MAX_FILES with 29; lia).
    change EEPROM_FS_ALLOC_TABLE_OFFSET with 10. change sizeof_file_alloc_t with 4.
    change EEPROM_FS_DATA_OFFSET with 130. lia. }
  assert (Haddr_s : alloc_entry_address EEPROM_FS_MAX_FILES + sizeof_file_alloc_t
                    <= EEPROM_FS_DATA_OFFSET) by (vm_compute; discriminate).
  assert (HnextU : forall x, valid_block x = true -> (0 < s -> x <> tail) ->
                             block_next eU x = block_next e x).
  { intros x Hx Hne. unfold eU. destruct (0 <? s) eqn:E.
    - apply Z.ltb_lt in E. rewrite block_next_poke_link_other by auto.
      apply Hnx. exact Hx.
    - apply Hnx. exact Hx. }
  assert (HnextF : forall x, valid_block x = true -> x <> lastb -> (0 < s -> x <> tail) ->
                             block_next eF x = block_next e x).
  { intros x Hx Hne1 Hne2. unfold eF.
    rewrite block_next_relink_other by assumption.
    rewrite !block_next_poke_low by assumption.
    apply HnextU; assumption. }
  assert (HpayF : forall x, valid_block x = true ->
                            block_payload eF x = block_payload e1 x).
  { intros x Hx. unfold eF.
    rewrite block_payload_relink by assumption.
    rewrite !block_payload_poke_low by assumption.
    unfold eU. destruct (0 <? s); [|reflexivity].
    apply block_payload_poke_link; assumption. }
  split; [unfold tbF; rewrite upd_table_same; f_equal; lia|].
  split.
  { intros j Hj1 Hj2. unfold tbF. rewrite upd_table_other by exact Hj1.
    apply Htb. exact Hj2. }
  split.
  { unfold tbF. rewrite upd_table_other by (change EEPROM_FS_MAX_FILES with 29; lia).
    rewrite Hs1. reflexivity. }
  split.
  { rewrite <- Hpre. apply chain_walk_of_prefix; try assumption; [lia | |].
    - intros x Hx.
      assert (Hx' : In x (firstn (S k) l)).
      { rewrite <- Hpre, chain_prefix_snoc. apply in_or_app. left. exact Hx. }
      apply HnextF.
      + apply Hall, in_or_app. left. exact (in_firstn l (S k) x Hx').
      + intros ->. rewrite chain_prefix_snoc in Hndpre.
        apply NoDup_remove_2 in Hndpre. rewrite app_nil_r in Hndpre. contradiction.
      + intros _ ->. exact (Hapart _ Hx' Htail_in).
    - unfold eF. apply block_next_relink_same. unfold NULL_PTR. lia. }
  split.
  { intros Ho0 i Hi. pose proof (Hd Ho0) as Hdp. subst d.
    pose proof (Z.div_mod i EEPROM_FS_BLOCK_DATA_SIZE ltac:(discriminate)) as Hdm.
    pose proof (Z.mod_pos_bound i EEPROM_FS_BLOCK_DATA_SIZE ltac:(reflexivity)) as Hmb.
    assert (Hjn : 0 <= i / EEPROM_FS_BLOCK_DATA_SIZE <= z / EEPROM_FS_BLOCK_DATA_SIZE).
    { split; [apply Z.div_pos; [lia | reflexivity]|].
      apply Z.div_le_mono; [reflexivity | lia]. }
    assert (Hj : (Z.to_nat (i / EEPROM_FS_BLOCK_DATA_SIZE) <= k)%nat) by (unfold k; lia).
    rewrite <- (nth_firstn_lt l (S k)) by lia. rewrite <- Hpre.
    rewrite HpayF.
    - rewrite Hdata.
      + f_equal. rewrite !Z2Nat.id by lia. f_equal. lia.
      + exact Hj.
      + rewrite !Z2Nat.id by lia. split; [lia|]. apply bytes_at_covers. exact Hi.
    - rewrite forallb_forall in Hvpre. apply Hvpre. apply nth_In.
      rewrite chain_prefix_length. lia. }
  intros fuel' Hfuel.
  assert (Hlen_skip : List.length (skipn (S k) l) = (List.length l - S k)%nat)
    by apply length_skipn.
  destruct (0 <? s) eqn:Es.
  - apply Z.ltb_lt in Es.
    assert (Hv0 : valid_block b0 = true).
    { apply Hall, in_or_app. right.
      destruct (chain_walk_head _ _ _ _ Hold) as (c' & ->). left. reflexivity. }
    apply (chain_walk_append e eF b0 lc fuel Hold) with (fuel1 := fuel).
    + apply valid_block_range in Hv0. unfold NULL_PTR. lia.
    + intros x Hx.
      assert (Hxl : ~ In x l) by (intros Hin; exact (nodup_app_apart _ _ x Hnd Hin Hx)).
      apply HnextF.
      * apply Hall, in_or_app. right. exact Hx.
      * intros ->. apply Hxl. exact (in_firstn l (S k) _ Hlast_in).
      * intros _ ->. apply Hxl. exact (in_skipn l (S k) _ Htail_in).
    + exact Hskip.
    + rewrite <- (firstn_skipn (S k) l) in Hndl. apply NoDup_app_remove_l in Hndl.
      exact Hndl.
    + intros x Hx Hne. apply HnextF.
      * apply Hskip_valid. exact Hx.
      * intros ->. exact (Hapart _ Hlast_in Hx).
      * intros _. exact Hne.
    + fold tail. unfold eF.
      rewrite block_next_relink_other;
        [| exact Hvlast | exact Hvtail | intros Heq; rewrite Heq in Htail_in;
                                         exact (Hapart _ Hlast_in Htail_in)].
      rewrite !block_next_poke_low by assumption.
      unfold eU. replace (0 <? s) with true by (symmetry; apply Z.ltb_lt; exact Es).
      unfold enc_block. cbn [next_block data].
      apply block_next_poke; [|change sizeof_lba_t with 2; lia].
      apply valid_block_range in Hv0. rewrite NUM_BLOCKS_value in Hv0. lia.
    + rewrite Hlen_skip. exact Hfuel.
  - subst lc. rewrite app_nil_r. cbn [List.length] in Hfuel.
    apply (chain_walk_frame e eF fuel _ _ Hskip).
    + intros x Hx. apply HnextF.
      * apply Hskip_valid. exact Hx.
      * intros ->. exact (Hapart _ Hlast_in Hx).
      * intros Hpos. apply Z.ltb_ge in Es. lia.
    + rewrite Hlen_skip. lia.
Qed.

Lemma ni_append_then_read fuel u name p :
  settled u -> noninterf (append_then_read fuel u name p).
Proof.
  intros Hu. unfold append_then_read.
  apply ni_bind; [apply ni_append_file; exact Hu | intros _; apply ni_load_file].
Qed.

(** A run of [write] consults the dead merge buffer at most once: it is the
    run of the storage pinned to what the buffer gave there. *)
Lemma write_pinned fuel u fh data size st :
  exists d, write fuel (pinned u d) fh data size st = write fuel u fh data size st.
Proof.
  set (o := filesize fh mod EEPROM_FS_BLOCK_DATA_SIZE).
  assert (Hopen : forall d,
             (handle_type_eqb (type fh) FH_WRITE || handle_type_eqb (type fh) FH_APPEND
              = true ->
              bind (write_merge fuel (pinned u d) fh data size)
                   (fun ds => write_rest u fh (fst ds) (snd ds)) st
              = bind (write_merge fuel u fh data size)
                     (fun ds => write_rest u fh (fst ds) (snd ds)) st) ->
             write fuel (pinned u d) fh data size st = write fuel u fh data size st).
  { intros d H. rewrite !write_split.
    destruct (handle_type_eqb (type fh) FH_WRITE || handle_type_eqb (type fh) FH_APPEND);
      [exact (H eq_refl) | reflexivity]. }
  destruct (handle_type_eqb (type fh) FH_APPEND && (0 <? o)) eqn:Ec.
  2:{ exists []. apply Hopen. intros _. unfold write_merge. fold o. rewrite Ec. reflexivity. }
  destruct (last_block_in_chain fuel (data_block (alloc_table st (filename fh))) st)
    as [[last s1]|] eqn:E1.
  2:{ exists []. apply Hopen. intros _. unfold write_merge. fold o. rewrite Ec.
      cbv zeta. unfold bind, gets. rewrite E1. reflexivity. }
  destruct (read fuel (set_filesize (set_first_block fh last) o)
                 (take (2 * u16 (o + size)) 0 (to_write0 u)) s1) as [[tw s2]|] eqn:E2.
  2:{ exists []. apply Hopen. intros _. unfold write_merge. fold o. rewrite Ec.
      cbv zeta. unfold bind, gets. rewrite E1. cbn [pinned to_write0]. rewrite E2.
      reflexivity. }
  exists (dead_vla u s2 fh (blit tw o (take size 0 data))).
  apply Hopen. intros _. unfold write_merge. fold o. rewrite Ec.
  cbv zeta. unfold bind, gets. rewrite E1. cbn [pinned to_write0]. rewrite E2.
  reflexivity.
Qed.

Lemma append_file_pinned fuel u name p st :
  exists d, append_file fuel (pinned u d) name p st = append_file fuel u name p st.
Proof.
  unfold append_file, bind.
  destruct (open_for_append name st) as [[fh s1]|]; [|exists []; reflexivity].
  destruct (write_pinned fuel u fh p (Z.of_nat (List.length p)) s1) as (d & Hd).
  exists d. rewrite Hd. reflexivity.
Qed.

Lemma append_then_read_pinned fuel u name p st :
  exists d,
    append_then_read fuel (pinned u d) name p st = append_then_read fuel u name p st.
Proof.
  unfold append_then_read, bind.
  destruct (append_file_pinned fuel u name p st) as (d & Hd).
  exists d. rewrite Hd. reflexivity.
Qed.

(** [open_for_append; write; close; open_for_read; read] on a name whose
    entry holds at most one block of payload, in any state: the committed size
    is the old size plus the size of the merged buffer, the file is made of
    blocks taken from the head of the free chain, the old blocks go to the end
    of the free chain, and when there was no tail to merge the read starts
    with the appended bytes. *)
Lemma append_then_read_short fuel u st name p l lc :
  let s := alloc_filesize (alloc_table st name) in
  let b0 := data_block (alloc_table st name) in
  let o := s mod EEPROM_FS_BLOCK_DATA_SIZE in
  let z := o + Z.of_nat (List.length p) in
  let k := Z.to_nat (z / EEPROM_FS_BLOCK_DATA_SIZE) in
  let h := next_free_block st in
  0 <= name < EEPROM_FS_MAX_FILES ->
  0 <= s <= EEPROM_FS_BLOCK_DATA_SIZE ->
  s / EEPROM_FS_BLOCK_DATA_SIZE + z / EEPROM_FS_BLOCK_DATA_SIZE
  <= EEPROM_FS_MAX_BLOCKS_PER_FILE ->
  chain_walk fuel (eeprom st) h = Some l ->
  forallb valid_block (l ++ lc) = true ->
  NoDup (l ++ lc) ->
  (S k < List.length l)%nat ->
  (if 0 <? s then chain_walk fuel (eeprom st) b0 = Some lc else lc = []) ->
  exists buf st',
    append_then_read fuel u name p st
    = Some ((mk_file_handle name (s + z) FH_READ h NULL_PTR, buf), st')
    /\ alloc_table st' name = mk_file_alloc (s + z) h
    /\ (forall j, j <> name -> j <> EEPROM_FS_MAX_FILES -> alloc_table st' j = alloc_table st j)
    /\ List.length buf = Z.to_nat (s + z)
    /\ (o = 0 -> firstn (Z.to_nat z) buf = p)
    /\ file_chain fuel st' name = Some (firstn (S k) l)
    /\ (forall fuel', (List.length l - S k + List.length lc <= fuel')%nat ->
          chain_walk fuel' (eeprom st') (next_free_block st') = Some (skipn (S k) l ++ lc)).
Proof.
  intros s b0 o z k h Hname Hs Hcap Hl Hv Hnd Hroom Hold.
  destruct (append_then_read_pinned fuel u name p st) as (d0 & Hpin).
  destruct (append_file_quiet fuel (pinned u d0) name p (alloc_table st) (eeprom st) (wear st)
              l lc Hname Hs Hcap Hl Hv Hnd Hroom Hold)
    as (tb' & e' & w' & Hrun & Hentry & Hothers & Hfree & Hchain & Hpay & Hpool).
  fold s o z k in Hrun, Hentry, Hfree, Hchain, Hpay, Hpool.
  fold h in Hrun, Hentry, Hfree, Hchain, Hpay, Hpool.
  assert (Ho : 0 <= o < 30) by (apply Z.mod_pos_bound; reflexivity).
  assert (Hz : 0 <= z) by (unfold z; lia).
  assert (Hzq : 0 <= z / EEPROM_FS_BLOCK_DATA_SIZE)
    by (apply Z.div_pos; [exact Hz | reflexivity]).
  assert (Hsq : 0 <= s / EEPROM_FS_BLOCK_DATA_SIZE)
    by (apply Z.div_pos; [lia | reflexivity]).
  assert (Hk8 : z / EEPROM_FS_BLOCK_DATA_SIZE <= 8)
    by (change EEPROM_FS_MAX_BLOCKS_PER_FILE with 8 in Hcap; lia).
  assert (Hvh : valid_block h = true).
  { rewrite forallb_forall in Hv. apply Hv, in_or_app. left.
    destruct (chain_walk_head _ _ _ _ Hl) as (l' & ->). left. reflexivity. }
  assert (Hlen_pre : List.length (firstn (S k) l) = S k) by (rewrite length_firstn; lia).
  destruct (load_file_quiet tb' e' w' [] [] fuel name (firstn (S k) l))
    as (buf & Hload & Hlen & Hbuf & _).
  { change EEPROM_FS_MAX_FILES with 29 in *. lia. }
  { rewrite Hentry. exact Hvh. }
  { rewrite Hentry. exact Hchain. }
  { rewrite Hentry. cbn [alloc_filesize]. lia. }
  { rewrite Hlen_pre. unfold k. change EEPROM_FS_BLOCK_DATA_SIZE with 30 in *. lia. }
  rewrite Hentry in Hload, Hlen, Hbuf. cbn [alloc_filesize data_block] in Hload, Hlen, Hbuf.
  assert (Hlen' : List.length buf = Z.to_nat (s + z)).
  { apply Hlen. right. rewrite Hlen_pre.
    assert (z / EEPROM_FS_BLOCK_DATA_SIZE <= (s + z) / EEPROM_FS_BLOCK_DATA_SIZE)
      by (apply Z.div_le_mono; [reflexivity | lia]).
    unfold k. lia. }
  assert (Hstart : o = 0 -> firstn (Z.to_nat z) buf = p).
  { intros Ho0. apply nth_ext with (d := 0) (d' := 0).
    - rewrite length_firstn, Hlen'. unfold z. lia.
    - intros i Hi. rewrite length_firstn, Hlen' in Hi.
      rewrite nth_firstn_lt by lia.
      assert (Hidx : 0 <= Z.of_nat i < z) by lia.
      assert (Hjn : 0 <= Z.of_nat i / EEPROM_FS_BLOCK_DATA_SIZE
                    <= z / EEPROM_FS_BLOCK_DATA_SIZE).
      { split; [apply Z.div_pos; [lia | reflexivity]|].
        apply Z.div_le_mono; [reflexivity | lia]. }
      specialize (Hbuf (Z.of_nat i)). rewrite Nat2Z.id in Hbuf.
      rewrite Hbuf by (rewrite ?Hlen_pre; unfold k; lia).
      rewrite nth_firstn_lt by (unfold k; lia).
      rewrite (Hpay Ho0) by exact Hidx. rewrite Nat2Z.id. reflexivity. }
  assert (Hboth : append_then_read fuel (pinned u d0) name p (quiet st)
                  = Some ((mk_file_handle name (s + z) FH_READ h NULL_PTR, buf),
                          mk_state 0 tb' e' w' [] [])).
  { unfold append_then_read, bind, quiet. fold s. rewrite Hrun. exact Hload. }
  destruct (run_quiet _ st _ _
              (ni_append_then_read fuel (pinned u d0) name p (settled_pinned u d0)) Hboth)
    as (st' & Hst & Hc).
  rewrite Hpin in Hst.
  unfold core in Hc. cbn [alloc_table eeprom wear] in Hc. injection Hc as Htb He _.
  exists buf, st'. split; [exact Hst|].
  unfold file_chain, next_free_block. rewrite Htb, He.
  split; [exact Hentry|]. split; [exact Hothers|]. split; [exact Hlen'|].
  split; [exact Hstart|]. split; [rewrite Hentry; exact Hchain|].
  rewrite Hfree. exact Hpool.
Qed.

(** X6. Appending to a file shorter than one block counts its bytes twice.
    When the file has [0 < s < BLOCK_DATA_SIZE] bytes in a single block and the
    free chain supplies the blocks, [open_for_append; write; close] commits the
    size [s + s + n] for [n] appended bytes, whatever the level and the stale
    storage: [write] sets the handle's size to the [s + n] bytes of the merged
    buffer and [close] adds the [s] of the entry again.  The file is then made
    of the first [(s + n) / BLOCK_DATA_SIZE + 1] blocks of the old free chain,
    the old block goes to the end of the free chain, and the read that follows
    is given a buffer of [s + s + n] cells and stores nothing behind it. *)
Theorem append_counts_the_tail_twice fuel u st name p l :
  let s := alloc_filesize (alloc_table st name) in
  let b0 := data_block (alloc_table st name) in
  let n := Z.of_nat (List.length p) in
  let k := Z.to_nat ((s + n) / EEPROM_FS_BLOCK_DATA_SIZE) in
  0 <= name < EEPROM_FS_MAX_FILES ->
  0 < s < EEPROM_FS_BLOCK_DATA_SIZE ->
  (s + n) / EEPROM_FS_BLOCK_DATA_SIZE <= EEPROM_FS_MAX_BLOCKS_PER_FILE ->
  block_next (eeprom st) b0 = NULL_PTR ->
  chain_walk fuel (eeprom st) (next_free_block st) = Some l ->
  forallb valid_block (l ++ [b0]) = true ->
  NoDup (l ++ [b0]) ->
  (S k < List.length l)%nat ->
  exists fh buf st',
    append_then_read fuel u name p st = Some ((fh, buf), st')
    /\ filesize fh = s + s + n
    /\ alloc_table st' name = mk_file_alloc (s + s + n) (next_free_block st)
    /\ List.length buf = Z.to_nat (s + s + n)
    /\ file_chain fuel st' name = Some (firstn (S k) l)
    /\ (forall fuel', (List.length l - S k + 1 <= fuel')%nat ->
          chain_walk fuel' (eeprom st') (next_free_block st')
          = Some (skipn (S k) l ++ [b0])).
Proof.
  intros s b0 n k Hname Hs Hcap Hnull Hl Hv Hnd Hroom.
  assert (Hs30 : 0 < s < 30) by exact Hs.
  assert (Hmod : s mod EEPROM_FS_BLOCK_DATA_SIZE = s) by (apply Z.mod_small; lia).
  assert (Hdiv : s / EEPROM_FS_BLOCK_DATA_SIZE = 0) by (apply Z.div_small; lia).
  assert (W0 : chain_walk fuel (eeprom st) b0 = Some [b0]).
  { destruct fuel as [|fuel]; [discriminate Hl|].
    cbn [chain_walk]. rewrite Hnull. reflexivity. }
  pose proof (append_then_read_short fuel u st name p l [b0]) as H.
  cbv zeta in H. fold s b0 in H. rewrite Hmod, Hdiv in H. fold n in H. fold k in H.
  replace (0 <? s) with true in H by (symmetry; apply Z.ltb_lt; lia).
  destruct H as (buf & st' & Hrun & Hentry & _ & Hlen & _ & Hchain & Hpool);
    try assumption; try lia.
  cbn [List.length] in Hpool.
  eexists _, buf, st'. split; [exact Hrun|].
  split; [cbn [filesize]; lia|].
  split; [rewrite Hentry; f_equal; lia|].
  split; [rewrite Hlen; f_equal; lia|].
  split; [exact Hchain | exact Hpool].
Qed.

(** X7. Appending to a file of exactly [BLOCK_DATA_SIZE] bytes drops what it
    held.  The committed size is [BLOCK_DATA_SIZE + n] for [n] appended bytes,
    but the chain of the file is made of blocks taken from the free chain
    only, the read that follows starts with the appended bytes, and the old
    blocks are at the end of the free chain. *)
Theorem append_to_a_full_block_drops_it fuel u st name p l lc :
  let b0 := data_block (alloc_table st name) in
  let n := Z.of_nat (List.length p) in
  let k := Z.to_nat (n / EEPROM_FS_BLOCK_DATA_SIZE) in
  0 <= name < EEPROM_FS_MAX_FILES ->
  alloc_filesize (alloc_table st name) = EEPROM_FS_BLOCK_DATA_SIZE ->
  1 + n / EEPROM_FS_BLOCK_DATA_SIZE <= EEPROM_FS_MAX_BLOCKS_PER_FILE ->
  chain_walk fuel (eeprom st) (next_free_block st) = Some l ->
  chain_walk fuel (eeprom st) b0 = Some lc ->
  forallb valid_block (l ++ lc) = true ->
  NoDup (l ++ lc) ->
  (S k < List.length l)%nat ->
  exists fh buf st',
    append_then_read fuel u name p st = Some ((fh, buf), st')
    /\ filesize fh = EEPROM_FS_BLOCK_DATA_SIZE + n
    /\ List.length buf = Z.to_nat (EEPROM_FS_BLOCK_DATA_SIZE + n)
    /\ firstn (List.length p) buf = p
    /\ file_chain fuel st' name = Some (firstn (S k) l)
    /\ (forall fuel', (List.length l - S k + List.length lc <= fuel')%nat ->
          chain_walk fuel' (eeprom st') (next_free_block st') = Some (skipn (S k) l ++ lc)).
Proof.
  intros b0 n k Hname Hs Hcap Hl Hc Hv Hnd Hroom.
  pose proof (append_then_read_short fuel u st name p l lc) as H.
  cbv zeta in H. fold b0 in H. rewrite Hs in H.
  change (EEPROM_FS_BLOCK_DATA_SIZE mod EEPROM_FS_BLOCK_DATA_SIZE) with 0 in H.
  change (EEPROM_FS_BLOCK_DATA_SIZE / EEPROM_FS_BLOCK_DATA_SIZE) with 1 in H.
  change (0 <? EEPROM_FS_BLOCK_DATA_SIZE) with true in H.
  rewrite Z.add_0_l in H. fold n in H. fold k in H.
  destruct H as (buf & st' & Hrun & _ & _ & Hlen & Hstart & Hchain & Hpool);
    try assumption.
  { change EEPROM_FS_BLOCK_DATA_SIZE with 30. lia. }
  specialize (Hstart eq_refl).
  eexists _, buf, st'. split; [exact Hrun|].
  split; [reflexivity|]. split; [exact Hlen|].
  split; [unfold n in Hstart; rewrite Nat2Z.id in Hstart; exact Hstart|].
  split; [exact Hchain | exact Hpool].
Qed.

(** X26. Appending to a name that holds no file creates the file.  When the
    size in the entry is 0 and the free chain supplies the blocks,
    [open_for_append; write; close; open_for_read; read] returns exactly the
    appended bytes, under their length. *)
Theorem append_creates_a_missing_file fuel u st name p l :
  let n := Z.of_nat (List.length p) in
  let k := Z.to_nat (n / EEPROM_FS_BLOCK_DATA_SIZE) in
  0 <= name < EEPROM_FS_MAX_FILES ->
  alloc_filesize (alloc_table st name) = 0 ->
  n / EEPROM_FS_BLOCK_DATA_SIZE <= EEPROM_FS_MAX_BLOCKS_PER_FILE ->
  chain_walk fuel (eeprom st) (next_free_block st) = Some l ->
  forallb valid_block l = true ->
  NoDup l ->
  (S k < List.length l)%nat ->
  exists fh st',
    append_then_read fuel u name p st = Some ((fh, p), st')
    /\ filesize fh = n
    /\ alloc_table st' name = mk_file_alloc n (next_free_block st)
    /\ file_chain fuel st' name = Some (firstn (S k) l).
Proof.
  intros n k Hname Hs Hcap Hl Hv Hnd Hroom.
  pose proof (append_then_read_short fuel u st name p l []) as H.
  cbv zeta in H. rewrite Hs in H.
  change (0 mod EEPROM_FS_BLOCK_DATA_SIZE) with 0 in H.
  change (0 / EEPROM_FS_BLOCK_DATA_SIZE) with 0 in H.
  change (0 <? 0) with false in H.
  rewrite !Z.add_0_l in H. fold n in H. fold k in H.
  rewrite app_nil_r in H.
  destruct H as (buf & st' & Hrun & Hentry & _ & Hlen & Hstart & Hchain & _);
    try assumption; try reflexivity.
  { change EEPROM_FS_BLOCK_DATA_SIZE with 30. lia. }
  specialize (Hstart eq_refl).
  assert (Hbuf : buf = p).
  { rewrite <- Hstart. symmetry. apply firstn_all2. rewrite Hlen. lia. }
  subst buf.
  eexists _, st'. split; [exact Hrun|].
  split; [reflexivity|]. split; [exact Hentry | exact Hchain].
Qed.

(** ** The append theorems at work *)

Lemma append_counts_the_tail_twice_witness :
  exists fh buf st',
    append_then_read 60 stale 7 (counting 112 100) thirteen_bytes = Some ((fh, buf), st')
    /\ filesize fh = 138
    /\ List.length buf = 138%nat
    /\ file_chain 60 st' 7 = Some [57; 56; 55; 54; 53]
    /\ chain_walk 60 (eeprom st') (next_free_block st')
       = Some (blocks_down_from 53 ++ [58]).
Proof.
  destruct (append_counts_the_tail_twice 60 stale thirteen_bytes 7 (counting 112 100)
              (blocks_down_from 58))
    as (fh & buf & st' & H1 & H2 & _ & H3 & H4 & H5).
  - vm_compute. split; [discriminate | reflexivity].
  - vm_compute. split; reflexivity.
  - vm_compute. discriminate.
  - vm_compute. reflexivity.
  - vm_compute. reflexivity.
  - vm_compute. reflexivity.
  - apply distinct_NoDup. vm_compute. reflexivity.
  - vm_compute. lia.
  - assert (Es : alloc_filesize (alloc_table thirteen_bytes 7) = 13)
      by (vm_compute; reflexivity).
    rewrite Es in H2, H3.
    exists fh, buf, st'. split; [exact H1|]. split; [exact H2|]. split; [exact H3|].
    split; [exact H4|]. apply H5. vm_compute. lia.
Defined.

Lemma append_to_a_full_block_drops_it_witness :
  exists fh buf st',
    append_then_read 60 stale 7 (counting 5 200) thirty_bytes = Some ((fh, buf), st')
    /\ filesize fh = 35
    /\ firstn 5 buf = counting 5 200
    /\ file_chain 60 st' 7 = Some [56]
    /\ chain_walk 60 (eeprom st') (next_free_block st')
       = Some (blocks_down_from 56 ++ [58; 57]).
Proof.
  destruct (append_to_a_full_block_drops_it 60 stale thirty_bytes 7 (counting 5 200)
              (blocks_down_from 57) [58; 57])
    as (fh & buf & st' & H1 & H2 & _ & H3 & H4 & H5).
  - vm_compute. split; [discriminate | reflexivity].
  - vm_compute. reflexivity.
  - vm_compute. discriminate.
  - vm_compute. reflexivity.
  - vm_compute. reflexivity.
  - vm_compute. reflexivity.
  - apply distinct_NoDup. vm_compute. reflexivity.
  - vm_compute. lia.
  - exists fh, buf, st'. split; [exact H1|]. split; [exact H2|]. split; [exact H3|].
    split; [exact H4|]. apply H5. vm_compute. lia.
Defined.

Lemma append_creates_a_missing_file_witness :
  exists fh st',
    append_then_read 60 stale 7 (counting 40 0) fresh = Some ((fh, counting 40 0), st')
    /\ filesize fh = 40
    /\ file_chain 60 st' 7 = Some [58; 57].
Proof.
  destruct (append_creates_a_missing_file 60 stale fresh 7 (counting 40 0)
              (blocks_down_from 59))
    as (fh & st' & H1 & H2 & _ & H3).
  - vm_compute. split; [discriminate | reflexivity].
  - vm_compute. reflexivity.
  - vm_compute. discriminate.
  - vm_compute. reflexivity.
  - vm_compute. reflexivity.
  - apply distinct_NoDup. vm_compute. reflexivity.
  - vm_compute. lia.
  - exists fh, st'. split; [exact H1|]. split; [exact H2 | exact H3].
Defined.

(** ** Reading a name that holds no file *)

(** [open_for_read; read] on an entry without a first block: both calls report
    it, and the buffer is as it was handed in. *)
Lemma load_file_absent fuel name st :
  0 <= name <= EEPROM_FS_MAX_FILES ->
  data_block (alloc_table st name) = NULL_PTR ->
  exists st',
    load_file fuel name st
    = Some ((mk_file_handle name (alloc_filesize (alloc_table st name)) FH_READ
                            NULL_PTR NULL_PTR,
             repeat 0 (Z.to_nat (alloc_filesize (alloc_table st name)))), st')
    /\ core st' = core st
    /\ In (Msg "File %d not found.\n" [name]) (stderr st')
    /\ In (Msg "Tried to read from null file handle.\n" []) (stderr st').
Proof.
  intros Hname Hnull. destruct st as [dbg tb e w err out].
  cbn [alloc_table] in *.
  unfold load_file, open_for_read, bind, gets, ret, _fs_debug1.
  replace (EEPROM_FS_MAX_FILES <? name) with false by (symmetry; apply Z.ltb_ge; lia).
  cbn [__debug].
  destruct (1 <=? dbg);
    unfold modify, ret, put_stderr; cbn [alloc_table first_block stderr];
    rewrite Hnull; change (NULL_PTR =? NULL_PTR) with true; cbv iota;
    unfold _fs_error, modify, put_stderr, read;
    cbn [alloc_table first_block filesize stderr];
    change (valid_block NULL_PTR) with false; cbv iota;
    unfold bind, _fs_error, modify, ret, put_stderr;
    cbn [alloc_table first_block filesize stderr __debug eeprom wear stdout];
    (eexists; split; [reflexivity|]; split; [reflexivity|]; cbn [stderr]; split;
     rewrite ?in_app_iff; cbn [In]; auto).
Qed.

(** X27. A deleted name reads as absent.  Whenever the walk of the free chain
    ends, whether the name held a file or not, [delete] followed by
    [open_for_read; read] yields a handle of size 0 without a first block and
    an empty buffer, and the read side reports that the file was not found. *)
Theorem delete_then_read_finds_nothing fuel st name l :
  0 <= name < EEPROM_FS_MAX_FILES ->
  chain_walk fuel (eeprom st) (next_free_block st) = Some l ->
  exists fh st',
    (delete fuel name ;;; load_file fuel name) st = Some ((fh, []), st')
    /\ filesize fh = 0
    /\ first_block fh = NULL_PTR
    /\ In (Msg "File %d not found.\n" [name]) (stderr st')
    /\ In (Msg "Tried to read from null file handle.\n" []) (stderr st').
Proof.
  intros Hname Hl.
  assert (Hf : name mod EEPROM_FS_MAX_FILES = name) by (apply Z.mod_small; exact Hname).
  destruct (delete_quiet (alloc_table st) (eeprom st) (wear st) [] [] fuel name)
    as (eu & wu & erru & tb' & w' & err' & _ & Hdel & Hentry & _).
  { intros _ _. unfold next_free_block in Hl. rewrite Hl. discriminate. }
  rewrite Hf in Hentry.
  destruct (run_quiet _ st _ _ (ni_delete fuel name) Hdel) as (st1 & Hst1 & Hc).
  unfold core in Hc. cbn [alloc_table eeprom wear] in Hc. injection Hc as Htb _ _.
  destruct (load_file_absent fuel name st1) as (st' & Hload & _ & Hmsg1 & Hmsg2).
  { lia. }
  { rewrite Htb, Hentry. reflexivity. }
  rewrite Htb, Hentry in Hload. cbn [alloc_filesize] in Hload.
  eexists _, st'. split.
  - unfold bind. rewrite Hst1. exact Hload.
  - split; [reflexivity|]. split; [reflexivity|]. split; [exact Hmsg1 | exact Hmsg2].
Qed.

Lemma delete_then_read_finds_nothing_witness :
  exists fh st',
    (delete 60 3 ;;; load_file 60 3) one_block_file = Some ((fh, []), st')
    /\ filesize fh = 0
    /\ first_block fh = NULL_PTR
    /\ In (Msg "File %d not found.\n" [3]) (stderr st')
    /\ In (Msg "Tried to read from null file handle.\n" []) (stderr st').
Proof.
  apply (delete_then_read_finds_nothing 60 one_block_file 3 (blocks_down_from 57)).
  - vm_compute. split; [discriminate | reflexivity].
  - vm_compute. reflexivity.
Defined.

(** ** Reading a chain that is longer than the size asks for *)

(** X28. [read] stores behind a buffer of [filesize] cells when the chain is
    longer than the size asks for.  When the size is no multiple of
    [BLOCK_DATA_SIZE], every block past the one that holds the end of the file
    still gives [filesize mod BLOCK_DATA_SIZE] bytes, stored at the offset of
    that block: [open_for_read; read] into a buffer of [filesize] cells then
    stores up to the cell before [(blocks - 1) * BLOCK_DATA_SIZE + filesize
    mod BLOCK_DATA_SIZE], which lies behind the buffer. *)
Theorem read_overruns_a_longer_chain fuel st name l :
  let size := alloc_filesize (alloc_table st name) in
  let blocks := Z.of_nat (List.length l) in
  0 <= name < EEPROM_FS_MAX_FILES ->
  valid_block (data_block (alloc_table st name)) = true ->
  chain_walk fuel (eeprom st) (data_block (alloc_table st name)) = Some l ->
  blocks * EEPROM_FS_BLOCK_DATA_SIZE < 65536 ->
  0 <= size ->
  0 < size mod EEPROM_FS_BLOCK_DATA_SIZE ->
  size / EEPROM_FS_BLOCK_DATA_SIZE + 1 < blocks ->
  exists fh buf st',
    load_file fuel name st = Some ((fh, buf), st')
    /\ filesize fh = size
    /\ Z.of_nat (List.length buf)
       = (blocks - 1) * EEPROM_FS_BLOCK_DATA_SIZE + size mod EEPROM_FS_BLOCK_DATA_SIZE
    /\ size < Z.of_nat (List.length buf).
Proof.
  intros size blocks Hname Hv Hwalk Hbound Hsize Hmod Hlong.
  destruct (load_file_quiet (alloc_table st) (eeprom st) (wear st) [] [] fuel name l)
    as (buf & Hload & _ & _ & _ & Hreach); try assumption.
  { change EEPROM_FS_MAX_FILES with 29 in *. lia. }
  fold size blocks in Hload, Hreach. specialize (Hreach Hmod Hlong).
  destruct (run_quiet _ st _ _ (ni_load_file fuel name) Hload) as (st' & Hst & _).
  eexists _, buf, st'. split; [exact Hst|]. split; [reflexivity|].
  rewrite Hreach. unfold blocks in *.
  change EEPROM_FS_BLOCK_DATA_SIZE with 30 in *.
  split; Z.div_mod_to_equations; lia.
Qed.

Lemma read_overruns_a_longer_chain_witness :
  exists fh buf st',
    load_file 60 7 forty_plus_five = Some ((fh, buf), st')
    /\ filesize fh = 40
    /\ Z.of_nat (List.length buf) = 70.
Proof.
  destruct (read_overruns_a_longer_chain 60 forty_plus_five 7 [58; 57; 56])
    as (fh & buf & st' & H1 & H2 & H3 & _).
  - vm_compute. split; [discriminate | reflexivity].
  - vm_compute. reflexivity.
  - vm_compute. reflexivity.
  - vm_compute. reflexivity.
  - vm_compute. discriminate.
  - vm_compute. reflexivity.
  - vm_compute. reflexivity.
  - exists fh, buf, st'. split; [exact H1|]. split; [exact H2 | exact H3].
Defined.
